(** * RWA commodities tokenization platform: ledger contract, event
      synchronizer and signature check

    A shallow embedding of three parts of the repository:

    - [RWAToken]: the Solidity contract [RWAToken.sol] (roles, whitelist,
      pause switch, mint) together with the whitelist and token controllers
      that submit transactions to it;
    - [EventSync]: the polling [EventSyncService] and the mongoose models
      [Transaction] and [User] it writes to;
    - [Blockchain]: [verifySignature] of [config/blockchain.js].

    JavaScript code that can throw lives in a small exception-and-state
    monad; Solidity transactions live in a revert-and-state monad. *)

From Stdlib Require Import ZArith Lia List String Ascii Bool DecimalString.
From stdpp Require Import base gmap strings list.

Import ListNotations.
Local Open Scope Z_scope.
Local Open Scope string_scope.

(** ** JavaScript strings *)

Module JsString.

(** [c.toLowerCase()] on one ASCII character. *)
Definition lower_ascii (c : ascii) : ascii :=
  let n := nat_of_ascii c in
  if (Nat.leb 65 n && Nat.leb n 90)%bool then ascii_of_nat (n + 32) else c.

(** [s.toLowerCase()]; addresses and hashes are ASCII. *)
Fixpoint toLowerCase (s : string) : string :=
  match s with
  | EmptyString => EmptyString
  | String c r => String (lower_ascii c) (toLowerCase r)
  end.

(** [s.startsWith(p)]. *)
Fixpoint startsWith (p s : string) : bool :=
  match p, s with
  | EmptyString, _ => true
  | String a p', String b s' => (Ascii.eqb a b && startsWith p' s')%bool
  | String _ _, EmptyString => false
  end.

(** [s.includes(p)]. *)
Fixpoint includes (p s : string) : bool :=
  (startsWith p s ||
   match s with
   | EmptyString => false
   | String _ s' => includes p s'
   end)%bool.

(** [s.slice(0, n)] for [0 <= n]. *)
Definition slice0 (n : nat) (s : string) : string := String.substring 0 n s.

(** [v.toString()] of a bigint. *)
Definition bigintToString (v : Z) : string := NilZero.string_of_int (Z.to_int v).

End JsString.

(** ** Exceptions and state *)

(** The outcome of a JavaScript computation: a value, or a thrown [Error]
  carrying its [message]. *)
Inductive result (A : Type) : Type :=
| Ok (a : A)
| Throw (message : string).
Arguments Ok {A} a.
Arguments Throw {A} message.

Module JsMonad.
Section WithWorld.
Context {W : Type}.

(** A computation reads and writes the world; effects made before a
    throw stay. *)
Definition Js (A : Type) : Type := W -> result A * W.

Definition ret {A} (a : A) : Js A := fun w => (Ok a, w).

Definition throw {A} (msg : string) : Js A := fun w => (Throw msg, w).

Definition bind {A B} (m : Js A) (k : A -> Js B) : Js B :=
  fun w =>
    match m w with
    | (Ok a, w') => k a w'
    | (Throw e, w') => (Throw e, w')
    end.

(** [try { m } catch (error) { h error.message }]. *)
Definition try_catch {A} (m : Js A) (h : string -> Js A) : Js A :=
  fun w =>
    match m w with
    | (Ok a, w') => (Ok a, w')
    | (Throw e, w') => h e w'
    end.

(** Lift an answer of the outside world into the computation. *)
Definition lift {A} (r : result A) : Js A := fun w => (r, w).

Definition modify (f : W -> W) : Js unit := fun w => (Ok tt, f w).

Definition get : Js W := fun w => (Ok w, w).

(** [for (const x of xs) { await body(x); }]. *)
Fixpoint forEach {A} (xs : list A) (body : A -> Js unit) : Js unit :=
  match xs with
  | [] => ret tt
  | x :: rest => bind (body x) (fun _ => forEach rest body)
  end.

(** [m] never throws. *)
Definition total {A} (m : Js A) : Prop :=
  forall w, exists a w', m w = (Ok a, w').

(** Every run of [m] relates the world before to the world after by [R],
    whether it returns or throws. *)
Definition steps {A} (R : W -> W -> Prop) (m : Js A) : Prop :=
  forall w r w', m w = (r, w') -> R w w'.

End WithWorld.
End JsMonad.
Import JsMonad.

Declare Scope js_scope.
Delimit Scope js_scope with js.
Notation "x <- m ;; k" := (bind m (fun x => k))
(at level 20, m at level 99, k at level 200, only parsing) : js_scope.
Notation "m ;; k" := (bind m (fun _ => k))
(at level 100, k at level 200, right associativity, only parsing) : js_scope.

(** ** The event synchronizer and its stores *)

Module EventSync.

(** *** models/Transaction.js *)

(** The [enum] of [eventType]. *)
Inductive EventType : Type :=
| Transfer | Mint | Burn | WhitelistUpdated | Paused | Unpaused
| RoleGranted | RoleRevoked | AssetMetadataUpdated.

#[global] Instance EventType_eq_dec : EqDecision EventType.
Proof. solve_decision. Defined.

(** The constant written for [eventType] in a document. *)
Definition eventTypeName (t : EventType) : string :=
  match t with
  | Transfer => "Transfer" | Mint => "Mint" | Burn => "Burn"
  | WhitelistUpdated => "WhitelistUpdated"
  | Paused => "Paused" | Unpaused => "Unpaused"
  | RoleGranted => "RoleGranted" | RoleRevoked => "RoleRevoked"
  | AssetMetadataUpdated => "AssetMetadataUpdated"
  end.

(** A value stored under [rawData] ([Schema.Types.Mixed]). *)
Inductive RawValue : Type :=
| RawString (s : string)
| RawBool (b : bool).

(** A document of the [Transaction] collection. A field the creating code
    leaves out is [None]. [amountFormatted], a floating-point rendering of
    [amount], and mongoose's own [createdAt]/[updatedAt] are not kept. *)
Record TransactionDoc : Type := {
  txHash : string;
  blockNumber : Z;
  blockTimestamp : Z;              (* milliseconds since the epoch *)
  eventType : EventType;
  from : option string;
  to : option string;
  amount : option string;
  whitelistStatus : option bool;
  role : option string;
  account : option string;
  reason : option string;
  rawData : list (string * RawValue);
  processed : bool;                (* schema default: true *)
}.

(** *** models/User.js *)

Inductive UserRole : Type := investor | admin | issuer.

Inductive KycStatus : Type := pending | approved | rejected.

(** A document of the [User] collection (profile and dates left out: the
    synchronizer never reads or writes them). *)
Record UserDoc : Type := {
  walletAddress : string;
  nonce : string;
  userRole : UserRole;
  isWhitelisted : bool;
  kycStatus : KycStatus;
}.

(** *** The outside world *)

(** A block as [provider.getBlock] returns it. *)
Record Block : Type := { timestamp : Z }.

(** A log as [contract.queryFilter] returns it, with decoded [args]. *)
Record Log (A : Type) : Type := {
  transactionHash : string;
  logBlockNumber : Z;
  args : A;
}.
Arguments transactionHash {A} _.
Arguments logBlockNumber {A} _.
Arguments args {A} _.

(** The filters [queryEvents] builds. *)
Inductive FilterName : Type :=
| FTransfer | FTokensMinted | FTokensBurned | FWhitelistUpdated | FPaused | FUnpaused.

(** A database call, as the fault oracle sees it. *)
Inductive DbOp : Type :=
| OpFindOne (hash : string) (t : EventType)
| OpCreate (doc : TransactionDoc)
| OpUserUpdate (wallet : string).

(** What the node and the database answer during one polling iteration.
    A [Throw] is a transport error; [dbFault] makes a database call fail
    with the given message. *)
Record Env : Type := {
  getContract : result unit;       (* [getProvider()] and [getContract()] *)
  getBlockNumber : result Z;
  queryTransfer : Z -> Z -> result (list (Log (string * string * Z)));
  queryTokensMinted : Z -> Z -> result (list (Log (string * Z * string)));
  queryTokensBurned : Z -> Z -> result (list (Log (string * Z * string)));
  queryWhitelistUpdated : Z -> Z -> result (list (Log (string * bool)));
  queryPaused : Z -> Z -> result (list (Log string));
  queryUnpaused : Z -> Z -> result (list (Log string));
  getBlock : Z -> result (option Block);
  now : Z;                          (* [new Date()] *)
  dbFault : DbOp -> option string;
}.

(** A line written to the console. *)
Inductive ConsoleLine : Type :=
| ConsoleLog (text : string)
| ConsoleError (label detail : string).

(** A request sent to the node. *)
Inductive RpcCall : Type :=
| CallGetBlockNumber
| CallQueryFilter (f : FilterName) (fromBlock toBlock : Z)
| CallGetBlock (n : Z).

(** The handle [setInterval] returns, with the period it was armed with. *)
Record Timer : Type := { period : Z }.

(** The fields of the [EventSyncService] object. [contract] and [provider]
    say whether the field holds an object ([true]) or [null]. The
    constructor's [POLLING_INTERVAL_MS] and [BLOCKS_PER_QUERY] are never
    assigned again and are the constants below. *)
Record Service : Type := {
  contract : bool;
  provider : bool;
  isRunning : bool;
  lastProcessedBlock : Z;
  pollingInterval : option Timer;
}.

Definition POLLING_INTERVAL_MS : Z := 15000.
Definition BLOCKS_PER_QUERY : Z := 100.

(** The service object, both collections, the console, and the requests
    sent to the node so far. *)
Record World : Type := {
  service : Service;
  transactions : list TransactionDoc;
  users : list UserDoc;
  console : list ConsoleLine;
  rpcTrace : list RpcCall;
}.

Definition set_transactions (f : list TransactionDoc -> list TransactionDoc) (w : World) : World :=
  {| service := service w; transactions := f (transactions w); users := users w;
     console := console w; rpcTrace := rpcTrace w |}.

Definition set_users (f : list UserDoc -> list UserDoc) (w : World) : World :=
  {| service := service w; transactions := transactions w; users := f (users w);
     console := console w; rpcTrace := rpcTrace w |}.

Definition set_console (f : list ConsoleLine -> list ConsoleLine) (w : World) : World :=
  {| service := service w; transactions := transactions w; users := users w;
     console := f (console w); rpcTrace := rpcTrace w |}.

Definition set_rpcTrace (f : list RpcCall -> list RpcCall) (w : World) : World :=
  {| service := service w; transactions := transactions w; users := users w;
     console := console w; rpcTrace := f (rpcTrace w) |}.

Definition set_service (f : Service -> Service) (w : World) : World :=
  {| service := f (service w); transactions := transactions w; users := users w;
     console := console w; rpcTrace := rpcTrace w |}.

Local Open Scope js_scope.

Definition console_log (text : string) : Js unit :=
  modify (set_console (fun c => (c ++ [ConsoleLog text])%list)).

Definition console_error (label detail : string) : Js unit :=
  modify (set_console (fun c => (c ++ [ConsoleError label detail])%list)).

(** A request to the node: recorded, then answered by the environment. *)
Definition rpc {A} (call : RpcCall) (answer : result A) : Js A :=
  modify (set_rpcTrace (fun t => (t ++ [call])%list)) ;; lift answer.

(** A method call on [this.provider]; on [null] it is a [TypeError]. *)
Definition on_provider {A} (call : RpcCall) (answer : result A) : Js A :=
  w <- get ;;
  if provider (service w) then rpc call answer
  else throw "Cannot read properties of null".

(** A method call on [this.contract]; on [null] it is a [TypeError]. *)
Definition on_contract {A} (call : RpcCall) (answer : result A) : Js A :=
  w <- get ;;
  if contract (service w) then rpc call answer
  else throw "Cannot read properties of null".

(** [Transaction.findOne({ txHash, eventType })]. *)
Definition Transaction_findOne (env : Env) (hash : string) (t : EventType)
  : Js (option TransactionDoc) :=
  match dbFault env (OpFindOne hash t) with
  | Some msg => throw msg
  | None =>
      w <- get ;;
      ret (List.find (fun d => (String.eqb (txHash d) hash && bool_decide (eventType d = t))%bool)
                     (transactions w))
  end.

(** The unique index that [txHash: { unique: true }] declares. *)
Definition txHash_taken (hash : string) (docs : list TransactionDoc) : bool :=
  existsb (fun d => String.eqb (txHash d) hash) docs.

(** [Transaction.create(doc)]: the insert is refused when the unique index
    on [txHash] already holds the hash. *)
Definition Transaction_create (env : Env) (doc : TransactionDoc) : Js unit :=
  match dbFault env (OpCreate doc) with
  | Some msg => throw msg
  | None =>
      w <- get ;;
      if txHash_taken (txHash doc) (transactions w)
      then throw "E11000 duplicate key error collection: transactions index: txHash_1 dup key"
      else modify (set_transactions (fun docs => (docs ++ [doc])%list))
  end.

(** Update the first document that matches, if any. *)
Fixpoint update_first (wallet : string) (status : bool) (us : list UserDoc) : list UserDoc :=
  match us with
  | [] => []
  | u :: rest =>
      if String.eqb (walletAddress u) wallet
      then {| walletAddress := walletAddress u; nonce := nonce u; userRole := userRole u;
              isWhitelisted := status; kycStatus := kycStatus u |} :: rest
      else u :: update_first wallet status rest
  end.

(** [User.findOneAndUpdate({ walletAddress }, { isWhitelisted })], no upsert. *)
Definition User_findOneAndUpdate (env : Env) (wallet : string) (status : bool) : Js unit :=
  match dbFault env (OpUserUpdate wallet) with
  | Some msg => throw msg
  | None => modify (set_users (update_first wallet status))
  end.

(** [block ? new Date(block.timestamp * 1000) : new Date()]. *)
Definition blockDate (env : Env) (block : option Block) : Z :=
  match block with
  | Some b => timestamp b * 1000
  | None => now env
  end.

(** *** The event handlers of the polling service *)

Definition processed_line (kind hash : string) : string :=
  kind ++ " event processed: " ++ JsString.slice0 10 hash ++ "...".

(** The document each handler hands to [Transaction.create]. *)
Definition transferDoc (env : Env) (event : Log (string * string * Z)) (block : option Block)
  : TransactionDoc :=
  let '(from_, to_, value) := args event in
  {| txHash := transactionHash event;
     blockNumber := logBlockNumber event;
     blockTimestamp := blockDate env block;
     eventType := Transfer;
     from := Some (JsString.toLowerCase from_);
     to := Some (JsString.toLowerCase to_);
     amount := Some (JsString.bigintToString value);
     whitelistStatus := None; role := None; account := None; reason := None;
     rawData := [("from", RawString from_); ("to", RawString to_);
                 ("value", RawString (JsString.bigintToString value))];
     processed := true |}.

Definition mintDoc (env : Env) (event : Log (string * Z * string)) (block : option Block)
  : TransactionDoc :=
  let '(to_, amount_, reason_) := args event in
  {| txHash := transactionHash event;
     blockNumber := logBlockNumber event;
     blockTimestamp := blockDate env block;
     eventType := Mint;
     from := None;
     to := Some (JsString.toLowerCase to_);
     amount := Some (JsString.bigintToString amount_);
     whitelistStatus := None; role := None; account := None;
     reason := Some reason_;
     rawData := [("to", RawString to_);
                 ("amount", RawString (JsString.bigintToString amount_));
                 ("reason", RawString reason_)];
     processed := true |}.

Definition burnDoc (env : Env) (event : Log (string * Z * string)) (block : option Block)
  : TransactionDoc :=
  let '(from_, amount_, reason_) := args event in
  {| txHash := transactionHash event;
     blockNumber := logBlockNumber event;
     blockTimestamp := blockDate env block;
     eventType := Burn;
     from := Some (JsString.toLowerCase from_);
     to := None;
     amount := Some (JsString.bigintToString amount_);
     whitelistStatus := None; role := None; account := None;
     reason := Some reason_;
     rawData := [("from", RawString from_);
                 ("amount", RawString (JsString.bigintToString amount_));
                 ("reason", RawString reason_)];
     processed := true |}.

Definition whitelistDoc (env : Env) (event : Log (string * bool)) (block : option Block)
  : TransactionDoc :=
  let '(account_, status) := args event in
  {| txHash := transactionHash event;
     blockNumber := logBlockNumber event;
     blockTimestamp := blockDate env block;
     eventType := WhitelistUpdated;
     from := None; to := None; amount := None;
     whitelistStatus := Some status;
     role := None;
     account := Some (JsString.toLowerCase account_);
     reason := None;
     rawData := [("account", RawString account_); ("status", RawBool status)];
     processed := true |}.

Definition pauseDoc (env : Env) (event : Log string) (paused : bool) (block : option Block)
  : TransactionDoc :=
  {| txHash := transactionHash event;
     blockNumber := logBlockNumber event;
     blockTimestamp := blockDate env block;
     eventType := if paused then Paused else Unpaused;
     from := None; to := None; amount := None;
     whitelistStatus := None; role := None;
     account := Some (JsString.toLowerCase (args event));
     reason := None;
     rawData := [("account", RawString (args event)); ("paused", RawBool paused)];
     processed := true |}.

(** [await this.provider.getBlock(event.blockNumber)]. *)
Definition provider_getBlock {A} (env : Env) (event : Log A) : Js (option Block) :=
  on_provider (CallGetBlock (logBlockNumber event)) (getBlock env (logBlockNumber event)).

Definition processTransferEvent (env : Env) (event : Log (string * string * Z)) : Js unit :=
  try_catch
    (found <- Transaction_findOne env (transactionHash event) Transfer ;;
     match found with
     | Some _ => ret tt
     | None =>
         block <- provider_getBlock env event ;;
         Transaction_create env (transferDoc env event block) ;;
         console_log (processed_line "Transfer" (transactionHash event))
     end)
    (fun message => console_error "Error processing transfer event:" message).

Definition processMintEvent (env : Env) (event : Log (string * Z * string)) : Js unit :=
  try_catch
    (found <- Transaction_findOne env (transactionHash event) Mint ;;
     match found with
     | Some _ => ret tt
     | None =>
         block <- provider_getBlock env event ;;
         Transaction_create env (mintDoc env event block) ;;
         console_log (processed_line "Mint" (transactionHash event))
     end)
    (fun message => console_error "Error processing mint event:" message).

Definition processBurnEvent (env : Env) (event : Log (string * Z * string)) : Js unit :=
  try_catch
    (found <- Transaction_findOne env (transactionHash event) Burn ;;
     match found with
     | Some _ => ret tt
     | None =>
         block <- provider_getBlock env event ;;
         Transaction_create env (burnDoc env event block) ;;
         console_log (processed_line "Burn" (transactionHash event))
     end)
    (fun message => console_error "Error processing burn event:" message).

Definition processWhitelistEvent (env : Env) (event : Log (string * bool)) : Js unit :=
  try_catch
    (found <- Transaction_findOne env (transactionHash event) WhitelistUpdated ;;
     match found with
     | Some _ => ret tt
     | None =>
         block <- provider_getBlock env event ;;
         Transaction_create env (whitelistDoc env event block) ;;
         User_findOneAndUpdate env (JsString.toLowerCase (fst (args event))) (snd (args event)) ;;
         console_log (processed_line "Whitelist" (transactionHash event))
     end)
    (fun message => console_error "Error processing whitelist event:" message).

Definition processPauseEvent (env : Env) (event : Log string) (paused : bool) : Js unit :=
  try_catch
    (let kind := if paused then Paused else Unpaused in
     found <- Transaction_findOne env (transactionHash event) kind ;;
     match found with
     | Some _ => ret tt
     | None =>
         block <- provider_getBlock env event ;;
         Transaction_create env (pauseDoc env event paused block) ;;
         console_log (processed_line (eventTypeName kind) (transactionHash event))
     end)
    (fun message => console_error "Error processing pause event:" message).

(** *** Polling *)

(** The [catch] of [pollEvents] and [queryEvents]. *)
Definition report_unless_filter_not_found (label message : string) : Js unit :=
  if JsString.includes "filter not found" message then ret tt
  else console_error label message.

Definition queryEvents (env : Env) (fromBlock toBlock : Z) : Js unit :=
  try_catch
    (transferEvents <- on_contract (CallQueryFilter FTransfer fromBlock toBlock)
                                   (queryTransfer env fromBlock toBlock) ;;
     forEach transferEvents (processTransferEvent env) ;;
     mintEvents <- on_contract (CallQueryFilter FTokensMinted fromBlock toBlock)
                               (queryTokensMinted env fromBlock toBlock) ;;
     forEach mintEvents (processMintEvent env) ;;
     burnEvents <- on_contract (CallQueryFilter FTokensBurned fromBlock toBlock)
                               (queryTokensBurned env fromBlock toBlock) ;;
     forEach burnEvents (processBurnEvent env) ;;
     whitelistEvents <- on_contract (CallQueryFilter FWhitelistUpdated fromBlock toBlock)
                                    (queryWhitelistUpdated env fromBlock toBlock) ;;
     forEach whitelistEvents (processWhitelistEvent env) ;;
     pausedEvents <- on_contract (CallQueryFilter FPaused fromBlock toBlock)
                                 (queryPaused env fromBlock toBlock) ;;
     forEach pausedEvents (fun event => processPauseEvent env event true) ;;
     unpausedEvents <- on_contract (CallQueryFilter FUnpaused fromBlock toBlock)
                                   (queryUnpaused env fromBlock toBlock) ;;
     forEach unpausedEvents (fun event => processPauseEvent env event false))
    (report_unless_filter_not_found "Error querying events:").

Definition set_lastProcessedBlock (n : Z) (s : Service) : Service :=
  {| contract := contract s; provider := provider s; isRunning := isRunning s;
     lastProcessedBlock := n; pollingInterval := pollingInterval s |}.

Definition pollEvents (env : Env) : Js unit :=
  try_catch
    (currentBlock <- on_provider CallGetBlockNumber (getBlockNumber env) ;;
     w <- get ;;
     if (currentBlock <=? lastProcessedBlock (service w))%Z then ret tt
     else
       let fromBlock := lastProcessedBlock (service w) + 1 in
       let toBlock := Z.min (fromBlock + BLOCKS_PER_QUERY - 1) currentBlock in
       queryEvents env fromBlock toBlock ;;
       modify (set_service (set_lastProcessedBlock toBlock)))
    (report_unless_filter_not_found "Error polling events:").

(** *** Construction, start and stop *)

Definition constructor : Service :=
  {| contract := false; provider := false; isRunning := false;
     lastProcessedBlock := 0; pollingInterval := None |}.

Definition set_connection (p c : bool) (s : Service) : Service :=
  {| contract := c; provider := p; isRunning := isRunning s;
     lastProcessedBlock := lastProcessedBlock s; pollingInterval := pollingInterval s |}.

Definition set_isRunning (b : bool) (s : Service) : Service :=
  {| contract := contract s; provider := provider s; isRunning := b;
     lastProcessedBlock := lastProcessedBlock s; pollingInterval := pollingInterval s |}.

Definition set_pollingInterval (t : option Timer) (s : Service) : Service :=
  {| contract := contract s; provider := provider s; isRunning := isRunning s;
     lastProcessedBlock := lastProcessedBlock s; pollingInterval := t |}.

(** [getProvider()] always returns an object; [getContract()] throws when
    the address or the artifact is missing. *)
Definition initialize (env : Env) : Js bool :=
  try_catch
    (modify (set_service (fun s => set_connection true (contract s) s)) ;;
     lift (getContract env) ;;
     modify (set_service (set_connection true true)) ;;
     head <- on_provider CallGetBlockNumber (getBlockNumber env) ;;
     modify (set_service (set_lastProcessedBlock head)) ;;
     console_log ("Event sync initialized at block " ++ JsString.bigintToString head) ;;
     ret true)
    (fun message => console_error "Failed to initialize event sync:" message ;; ret false).

(** [startListening()]: [env0] answers the initialization, [env1] the
    first poll, which is started at once and taken to run to its end. *)
Definition startListening (env0 env1 : Env) : Js unit :=
  w <- get ;;
  if isRunning (service w) then console_log "Event sync is already running"
  else
    initialized <- (if contract (service w) then ret true else initialize env0) ;;
    if negb initialized
    then console_error "Cannot start event sync - initialization failed" ""
    else
      modify (set_service (set_isRunning true)) ;;
      console_log "Starting blockchain event polling..." ;;
      console_log "Polling interval: 15s" ;;
      pollEvents env1 ;;
      modify (set_service (set_pollingInterval (Some {| period := POLLING_INTERVAL_MS |}))) ;;
      console_log "Event polling started successfully".

Definition stopListening : Js unit :=
  w <- get ;;
  match pollingInterval (service w) with
  | Some _ =>
      modify (set_service (set_pollingInterval None)) ;;
      console_log "Event polling stopped"
  | None => ret tt
  end ;;
  modify (set_service (set_isRunning false)).

(** *** The timer loop *)

(** What happens to the service: its interval timer fires (with the
    answers the outside world gives during that callback), or a caller
    asks it to stop or to start. Each runs to its end before the next;
    [EventSyncAsync] below has the calls that overlap. *)
Inductive Input : Type :=
| Tick (env : Env)
| StopRequest
| StartRequest (env0 env1 : Env).

(** A cleared timer never fires. *)
Definition step (i : Input) : Js unit :=
  match i with
  | Tick env =>
      w <- get ;;
      match pollingInterval (service w) with
      | Some _ => pollEvents env
      | None => ret tt
      end
  | StopRequest => stopListening
  | StartRequest env0 env1 => startListening env0 env1
  end.

Definition run (inputs : list Input) : Js unit := forEach inputs step.


(** A fresh process over the collections of an earlier one. *)
Definition restart (w : World) : World := set_service (fun _ => constructor) w.

End EventSync.

(** ** The ledger contract *)

Module RWAToken.

Definition address : Type := Z.

(** [address(0)]. *)
Definition zero_address : address := 0.

(** The largest [uint256]. *)
Definition MAX_UINT256 : Z := 2 ^ 256 - 1.

(** The [bytes32] role identifiers the contract uses. *)
Inductive Role : Type := DEFAULT_ADMIN_ROLE | ADMIN_ROLE | ISSUER_ROLE.

#[global] Instance Role_eq_dec : EqDecision Role.
Proof. solve_decision. Defined.

#[global] Instance Role_countable : Countable Role.
Proof.
  refine (inj_countable'
            (fun r => match r with DEFAULT_ADMIN_ROLE => 0%nat | ADMIN_ROLE => 1%nat | ISSUER_ROLE => 2%nat end)
            (fun n => match n with 0%nat => DEFAULT_ADMIN_ROLE | 1%nat => ADMIN_ROLE | _ => ISSUER_ROLE end)
            _).
  by intros [].
Defined.

(** Why a call reverted: a custom error of the OpenZeppelin base
    contracts, a [require] with its reason string, or an arithmetic panic. *)
Inductive Revert : Type :=
| AccessControlUnauthorizedAccount (account : address) (neededRole : Role)
| EnforcedPause
| ExpectedPause
| ERC20InvalidSender (sender : address)
| ERC20InvalidReceiver (receiver : address)
| ERC20InsufficientBalance (sender : address) (balance needed : Z)
| Error (reason : string)
| Panic (code : Z).

Inductive Event : Type :=
| RoleGranted (role : Role) (account sender : address)
| Paused (account : address)
| Unpaused (account : address)
| Transfer (from to : address) (value : Z)
| WhitelistUpdated (account : address) (status : bool)
| AssetMetadataUpdated (commodityType unit : string) (totalQuantity : Z)
                       (storageLocation certificationHash : string)
| TokensMinted (to : address) (amount : Z) (reason : string)
| TokensBurned (from : address) (amount : Z) (reason : string).

Record AssetMetadata : Type := {
  commodityType : string;
  unit_ : string;
  totalQuantity : Z;
  storageLocation : string;
  certificationHash : string;
  createdAt : Z;
  updatedAt : Z;
}.

(** Storage: the contract's own [whitelist] and [assetMetadata], and the
    storage of the inherited ERC20, AccessControl and Pausable. A mapping
    reads [false] (or [0]) at a key never written. *)
Record State : Type := {
  name : string;
  symbol : string;
  balances : gmap address Z;
  totalSupply : Z;
  roles : gmap (Role * address) bool;
  paused : bool;
  whitelist : gmap address bool;
  assetMetadata : AssetMetadata;
}.

Definition set_balances (f : gmap address Z -> gmap address Z) (s : State) : State :=
  {| name := name s; symbol := symbol s; balances := f (balances s);
     totalSupply := totalSupply s; roles := roles s; paused := paused s;
     whitelist := whitelist s; assetMetadata := assetMetadata s |}.

Definition set_totalSupply (n : Z) (s : State) : State :=
  {| name := name s; symbol := symbol s; balances := balances s;
     totalSupply := n; roles := roles s; paused := paused s;
     whitelist := whitelist s; assetMetadata := assetMetadata s |}.

Definition set_roles (f : gmap (Role * address) bool -> gmap (Role * address) bool) (s : State) : State :=
  {| name := name s; symbol := symbol s; balances := balances s;
     totalSupply := totalSupply s; roles := f (roles s); paused := paused s;
     whitelist := whitelist s; assetMetadata := assetMetadata s |}.

Definition set_paused (b : bool) (s : State) : State :=
  {| name := name s; symbol := symbol s; balances := balances s;
     totalSupply := totalSupply s; roles := roles s; paused := b;
     whitelist := whitelist s; assetMetadata := assetMetadata s |}.

Definition set_whitelist (f : gmap address bool -> gmap address bool) (s : State) : State :=
  {| name := name s; symbol := symbol s; balances := balances s;
     totalSupply := totalSupply s; roles := roles s; paused := paused s;
     whitelist := f (whitelist s); assetMetadata := assetMetadata s |}.

Definition set_assetMetadata (m : AssetMetadata) (s : State) : State :=
  {| name := name s; symbol := symbol s; balances := balances s;
     totalSupply := totalSupply s; roles := roles s; paused := paused s;
     whitelist := whitelist s; assetMetadata := m |}.

(** *** Transactions *)

(** Code inside a transaction: it reverts, or goes on with a new storage
    and the events emitted so far. *)
Definition Tx (A : Type) : Type := State * list Event -> Revert + A * (State * list Event).

Definition pure {A} (a : A) : Tx A := fun c => inr (a, c).

Definition revert {A} (e : Revert) : Tx A := fun _ => inl e.

Definition andThen {A B} (m : Tx A) (k : A -> Tx B) : Tx B :=
  fun c => match m c with
           | inl e => inl e
           | inr (a, c') => k a c'
           end.

Declare Scope sol_scope.
Delimit Scope sol_scope with sol.
Notation "x <- m ;; k" := (andThen m (fun x => k))
  (at level 20, m at level 99, k at level 200, only parsing) : sol_scope.
Notation "m ;; k" := (andThen m (fun _ => k))
  (at level 100, k at level 200, right associativity, only parsing) : sol_scope.
Local Open Scope sol_scope.

Definition read : Tx State := fun c => inr (fst c, c).

Definition write (f : State -> State) : Tx unit := fun c => inr (tt, (f (fst c), snd c)).

Definition emit (e : Event) : Tx unit := fun c => inr (tt, (fst c, (snd c ++ [e])%list)).

(** [require(cond, reason)]. *)
Definition require (cond : bool) (reason : string) : Tx unit :=
  if cond then pure tt else revert (Error reason).

(** [for (uint256 i = 0; i < xs.length; i++) body(xs[i])]. *)
Fixpoint forEach {A} (xs : list A) (body : A -> Tx unit) : Tx unit :=
  match xs with
  | [] => pure tt
  | x :: rest => body x ;; forEach rest body
  end.

(** What a transaction leaves behind: on a revert, nothing. *)
Inductive Outcome : Type :=
| Reverted (e : Revert)
| Success (st : State) (events : list Event).

(** An external call from outside on storage [st]. *)
Definition call (tx : Tx unit) (st : State) : Outcome :=
  match tx (st, []) with
  | inl e => Reverted e
  | inr (_, (st', evs)) => Success st' evs
  end.

(** The storage after the call. *)
Definition state_after (st : State) (o : Outcome) : State :=
  match o with
  | Reverted _ => st
  | Success st' _ => st'
  end.

(** *** The inherited OpenZeppelin contracts (version 5)

    [RWAToken.sol] imports [ERC20], [AccessControl] and [Pausable]; the
    members it calls are written out here as those contracts define them. *)

Definition hasRole (st : State) (role : Role) (account : address) : bool :=
  default false (roles st !! (role, account)).

(** [modifier onlyRole(role)]. *)
Definition onlyRole (role : Role) (sender : address) : Tx unit :=
  st <- read ;;
  if hasRole st role sender then pure tt
  else revert (AccessControlUnauthorizedAccount sender role).

Definition _grantRole (role : Role) (account sender : address) : Tx bool :=
  st <- read ;;
  if negb (hasRole st role account) then
    write (set_roles (fun r => <[(role, account) := true]> r)) ;;
    emit (RoleGranted role account sender) ;;
    pure true
  else pure false.

(** [modifier whenNotPaused]. *)
Definition whenNotPaused : Tx unit :=
  st <- read ;;
  if paused st then revert EnforcedPause else pure tt.

(** [modifier whenPaused]. *)
Definition whenPaused : Tx unit :=
  st <- read ;;
  if paused st then pure tt else revert ExpectedPause.

Definition _pause (sender : address) : Tx unit :=
  whenNotPaused ;;
  write (set_paused true) ;;
  emit (Paused sender).

Definition _unpause (sender : address) : Tx unit :=
  whenPaused ;;
  write (set_paused false) ;;
  emit (Unpaused sender).

Definition balanceOf (st : State) (account : address) : Z :=
  default 0 (balances st !! account).

(** [ERC20._update]: the supply grows under checked arithmetic, the rest
    cannot overflow. *)
Definition ERC20_update (from to : address) (value : Z) : Tx unit :=
  st <- read ;;
  (if bool_decide (from = zero_address) then
     if bool_decide (totalSupply st + value <= MAX_UINT256)
     then write (set_totalSupply (totalSupply st + value))
     else revert (Panic 17)
   else
     let fromBalance := balanceOf st from in
     if bool_decide (fromBalance < value)
     then revert (ERC20InsufficientBalance from fromBalance value)
     else write (set_balances (fun b => <[from := fromBalance - value]> b))) ;;
  st <- read ;;
  (if bool_decide (to = zero_address)
   then write (set_totalSupply (totalSupply st - value))
   else write (set_balances (fun b => <[to := balanceOf st to + value]> b))) ;;
  emit (Transfer from to value).

(** *** RWAToken.sol *)

Definition whitelisted (st : State) (account : address) : bool :=
  default false (whitelist st !! account).

(** [_update], overridden to enforce the pause switch and the whitelist. *)
Definition _update (from to : address) (value : Z) : Tx unit :=
  whenNotPaused ;;
  st <- read ;;
  (if (negb (bool_decide (from = zero_address)) && negb (bool_decide (to = zero_address)))%bool
   then
     require (whitelisted st from) "RWAToken: sender not whitelisted" ;;
     require (whitelisted st to) "RWAToken: recipient not whitelisted"
   else pure tt) ;;
  ERC20_update from to value.

(** [ERC20._mint], [ERC20._burn] and [ERC20._transfer] reach the override. *)
Definition _mint (account : address) (value : Z) : Tx unit :=
  if bool_decide (account = zero_address)
  then revert (ERC20InvalidReceiver zero_address)
  else _update zero_address account value.

Definition _burn (account : address) (value : Z) : Tx unit :=
  if bool_decide (account = zero_address)
  then revert (ERC20InvalidSender zero_address)
  else _update account zero_address value.

Definition transfer (sender to : address) (value : Z) : Tx unit :=
  if bool_decide (sender = zero_address) then revert (ERC20InvalidSender zero_address)
  else if bool_decide (to = zero_address) then revert (ERC20InvalidReceiver zero_address)
  else _update sender to value.

(** Storage before the constructor body runs. *)
Definition empty_storage (name_ symbol_ : string) : State :=
  {| name := name_; symbol := symbol_; balances := ∅; totalSupply := 0;
     roles := ∅; paused := false; whitelist := ∅;
     assetMetadata := {| commodityType := ""; unit_ := ""; totalQuantity := 0;
                         storageLocation := ""; certificationHash := "";
                         createdAt := 0; updatedAt := 0 |} |}.

Definition constructor (sender : address) (block_timestamp : Z)
    (commodityType_ unit__ : string) (totalQuantity_ : Z)
    (storageLocation_ certificationHash_ : string) : Tx unit :=
  _grantRole DEFAULT_ADMIN_ROLE sender sender ;;
  _grantRole ADMIN_ROLE sender sender ;;
  _grantRole ISSUER_ROLE sender sender ;;
  write (set_whitelist (fun m => <[sender := true]> m)) ;;
  emit (WhitelistUpdated sender true) ;;
  write (set_assetMetadata
           {| commodityType := commodityType_; unit_ := unit__;
              totalQuantity := totalQuantity_; storageLocation := storageLocation_;
              certificationHash := certificationHash_;
              createdAt := block_timestamp; updatedAt := block_timestamp |}) ;;
  emit (AssetMetadataUpdated commodityType_ unit__ totalQuantity_
                             storageLocation_ certificationHash_).

(** The deployment transaction. *)
Definition deploy (sender : address) (block_timestamp : Z) (name_ symbol_ : string)
    (commodityType_ unit__ : string) (totalQuantity_ : Z)
    (storageLocation_ certificationHash_ : string) : Outcome :=
  call (constructor sender block_timestamp commodityType_ unit__ totalQuantity_
                    storageLocation_ certificationHash_)
       (empty_storage name_ symbol_).

Definition addToWhitelist (sender account : address) : Tx unit :=
  onlyRole ADMIN_ROLE sender ;;
  require (negb (bool_decide (account = zero_address))) "RWAToken: zero address" ;;
  st <- read ;;
  require (negb (whitelisted st account)) "RWAToken: already whitelisted" ;;
  write (set_whitelist (fun m => <[account := true]> m)) ;;
  emit (WhitelistUpdated account true).

Definition removeFromWhitelist (sender account : address) : Tx unit :=
  onlyRole ADMIN_ROLE sender ;;
  st <- read ;;
  require (whitelisted st account) "RWAToken: not whitelisted" ;;
  write (set_whitelist (fun m => <[account := false]> m)) ;;
  emit (WhitelistUpdated account false).

Definition batchAddToWhitelist (sender : address) (accounts : list address) : Tx unit :=
  onlyRole ADMIN_ROLE sender ;;
  forEach accounts (fun a =>
    st <- read ;;
    if (negb (bool_decide (a = zero_address)) && negb (whitelisted st a))%bool
    then
      write (set_whitelist (fun m => <[a := true]> m)) ;;
      emit (WhitelistUpdated a true)
    else pure tt).

Definition isWhitelisted (st : State) (account : address) : bool := whitelisted st account.

Definition mint (sender to : address) (amount : Z) (reason : string) : Tx unit :=
  onlyRole ISSUER_ROLE sender ;;
  whenNotPaused ;;
  st <- read ;;
  require (whitelisted st to) "RWAToken: recipient not whitelisted" ;;
  require (bool_decide (amount > 0)) "RWAToken: amount must be greater than 0" ;;
  _mint to amount ;;
  emit (TokensMinted to amount reason).

Definition burnWithReason (sender : address) (amount : Z) (reason : string) : Tx unit :=
  whenNotPaused ;;
  require (bool_decide (amount > 0)) "RWAToken: amount must be greater than 0" ;;
  _burn sender amount ;;
  emit (TokensBurned sender amount reason).

Definition pause (sender : address) : Tx unit :=
  onlyRole ADMIN_ROLE sender ;; _pause sender.

Definition unpause (sender : address) : Tx unit :=
  onlyRole ADMIN_ROLE sender ;; _unpause sender.

End RWAToken.

(** ** controllers/whitelistController.js *)

Module WhitelistController.

Import RWAToken.
Local Open Scope js_scope.

(** What the controller sends back: [res.status(n).json({ success, error })];
    [res.json] alone answers with status 200. *)
Record Response : Type := {
  status : Z;
  success : bool;
  error : option string;
  details : option string;
}.

(** What the controller works against: the signer's wallet, how ethers
    encodes an address argument ([None]: it refuses the string), the
    message ethers gives the error of a reverted call, and the failures of
    the connection, the node and the database. *)
Record Env : Type := {
  signer : address;
  toAddress : string -> option address;
  revertMessage : Revert -> string;
  getContractWithSigner : result unit;
  transport : option string;
  userDbFault : option string;
}.

(** The ledger, the events it has emitted, the [User] collection and the
    console. *)
Record World : Type := {
  chain : State;
  emitted : list Event;
  users : list EventSync.UserDoc;
  console : list EventSync.ConsoleLine;
}.

Local Abbreviation Js := (@JsMonad.Js World).

Definition console_error (label detail : string) : Js unit :=
  modify (fun w => {| chain := chain w; emitted := emitted w; users := users w;
                      console := (console w ++ [EventSync.ConsoleError label detail])%list |}).

Definition encode (env : Env) (text : string) : Js address :=
  match toAddress env text with
  | Some a => ret a
  | None => throw "invalid address"
  end.

(** A view call on the contract. *)
Definition view {A} (env : Env) (f : State -> A) : Js A :=
  match transport env with
  | Some msg => throw msg
  | None => w <- get ;; ret (f (chain w))
  end.

(** A transaction sent by the signer and waited for; a revert is thrown. *)
Definition send (env : Env) (tx : Tx unit) : Js unit :=
  match transport env with
  | Some msg => throw msg
  | None =>
      w <- get ;;
      match call tx (chain w) with
      | Reverted e => throw (revertMessage env e)
      | Success st' evs =>
          modify (fun w => {| chain := st'; emitted := (emitted w ++ evs)%list;
                              users := users w; console := console w |})
      end
  end.

(** [User.findOneAndUpdate({ walletAddress }, { isWhitelisted }, { upsert: false })]. *)
Definition User_findOneAndUpdate (env : Env) (wallet : string) (flag : bool) : Js unit :=
  match userDbFault env with
  | Some msg => throw msg
  | None =>
      modify (fun w => {| chain := chain w; emitted := emitted w;
                          users := EventSync.update_first wallet flag (users w);
                          console := console w |})
  end.

(** [User.updateMany({ walletAddress: { $in: wallets } }, { isWhitelisted: true })]. *)
Definition User_updateMany (env : Env) (wallets : list string) : Js unit :=
  match userDbFault env with
  | Some msg => throw msg
  | None =>
      modify (fun w =>
        {| chain := chain w; emitted := emitted w;
           users := map (fun u =>
                      if existsb (String.eqb (EventSync.walletAddress u)) wallets
                      then {| EventSync.walletAddress := EventSync.walletAddress u;
                              EventSync.nonce := EventSync.nonce u;
                              EventSync.userRole := EventSync.userRole u;
                              EventSync.isWhitelisted := true;
                              EventSync.kycStatus := EventSync.kycStatus u |}
                      else u) (users w);
           console := console w |})
  end.

Definition ok : Response :=
  {| status := 200; success := true; error := None; details := None |}.

Definition bad_request (msg : string) : Response :=
  {| status := 400; success := false; error := Some msg; details := None |}.

Definition server_error (msg detail : string) : Response :=
  {| status := 500; success := false; error := Some msg; details := Some detail |}.

Definition addToWhitelist (env : Env) (address_ : string) : Js Response :=
  try_catch
    (lift (getContractWithSigner env) ;;
     a <- encode env address_ ;;
     isListed <- view env (fun st => isWhitelisted st a) ;;
     if isListed then ret (bad_request "Address is already whitelisted")
     else
       send env (RWAToken.addToWhitelist (signer env) a) ;;
       User_findOneAndUpdate env (JsString.toLowerCase address_) true ;;
       ret ok)
    (fun message =>
       console_error "Add to whitelist error:" message ;;
       ret (server_error
              (if JsString.includes "AccessControlUnauthorizedAccount" message
               then "Unauthorized: Admin role required"
               else if JsString.includes "zero address" message
               then "Cannot whitelist zero address"
               else "Failed to add to whitelist")
              message)).

Definition removeFromWhitelist (env : Env) (address_ : string) : Js Response :=
  try_catch
    (lift (getContractWithSigner env) ;;
     a <- encode env address_ ;;
     isListed <- view env (fun st => isWhitelisted st a) ;;
     if negb isListed then ret (bad_request "Address is not whitelisted")
     else
       send env (RWAToken.removeFromWhitelist (signer env) a) ;;
       User_findOneAndUpdate env (JsString.toLowerCase address_) false ;;
       ret ok)
    (fun message =>
       console_error "Remove from whitelist error:" message ;;
       ret (server_error
              (if JsString.includes "AccessControlUnauthorizedAccount" message
               then "Unauthorized: Admin role required"
               else "Failed to remove from whitelist")
              message)).

(** Every element of the array argument, encoded in order. *)
Fixpoint encodeAll (env : Env) (texts : list string) : Js (list address) :=
  match texts with
  | [] => ret []
  | t :: rest => a <- encode env t ;; more <- encodeAll env rest ;; ret (a :: more)
  end.

(** [addresses] is [None] when the body's field is not an array. *)
Definition batchAddToWhitelist (env : Env) (addresses : option (list string)) : Js Response :=
  try_catch
    (match addresses with
     | None | Some [] => ret (bad_request "Addresses must be a non-empty array")
     | Some texts =>
         lift (getContractWithSigner env) ;;
         accounts <- encodeAll env texts ;;
         send env (RWAToken.batchAddToWhitelist (signer env) accounts) ;;
         User_updateMany env (map JsString.toLowerCase texts) ;;
         ret ok
     end)
    (fun message =>
       console_error "Batch whitelist error:" message ;;
       ret (server_error "Failed to batch whitelist" message)).

End WhitelistController.

(** ** config/blockchain.js *)

Module Blockchain.

Local Open Scope js_scope.

(** A JavaScript value as it may reach [verifySignature]. *)
Inductive JsValue : Type :=
| JsUndefined
| JsNull
| JsBoolean (b : bool)
| JsNumber (n : Z)
| JsStr (s : string)
| JsObject.                        (* an object or an array *)

(** [v.toLowerCase()]: only a string has the method. *)
Definition toLowerCase_of {W} (v : JsValue) : Js (W := W) string :=
  match v with
  | JsStr s => ret (JsString.toLowerCase s)
  | JsUndefined | JsNull => throw "Cannot read properties of undefined (reading 'toLowerCase')"
  | JsBoolean _ | JsNumber _ | JsObject =>
      throw "expectedAddress.toLowerCase is not a function"
  end.

Section WithEthers.
(** [ethers.verifyMessage]: the address that signed, or an exception. *)
Variable verifyMessage : JsValue -> JsValue -> result string.

(** The world is the console. *)
Definition verifySignature (message signature expectedAddress : JsValue)
  : Js (W := list EventSync.ConsoleLine) bool :=
  try_catch
    (recoveredAddress <- lift (verifyMessage message signature) ;;
     expected <- toLowerCase_of expectedAddress ;;
     ret (String.eqb (JsString.toLowerCase recoveredAddress) expected))
    (fun message_ =>
       modify (fun c => (c ++ [EventSync.ConsoleError "Signature verification error:" message_])%list) ;;
       ret false).

End WithEthers.

End Blockchain.

(** ** Vocabulary of the statements about the ledger *)

Module RWATokenSpec.

Import RWAToken.
Local Open Scope sol_scope.

(** The names the specification's error taxonomy has for a failed mint. *)
Inductive MintError : Type := Unauthorized | NotWhitelisted | InvalidAmount | LedgerPaused | Other.

(** The taxonomy name of a revert of [mint]. *)
Definition taxonomy (e : Revert) : MintError :=
  match e with
  | AccessControlUnauthorizedAccount _ _ => Unauthorized
  | EnforcedPause => LedgerPaused
  | Error reason =>
      if String.eqb reason "RWAToken: recipient not whitelisted" then NotWhitelisted
      else if String.eqb reason "RWAToken: amount must be greater than 0" then InvalidAmount
      else Other
  | _ => Other
  end.

(** The ledger right after a deployment by account [1] at time [1000]. *)
Definition deployed : State :=
  state_after (empty_storage "Gold Token" "GLDT")
    (deploy 1 1000 "Gold Token" "GLDT" "GOLD" "oz" 1000 "Vault A, London" "QmHash123456789").

(** The same ledger after its deployer paused it. *)
Definition deployed_paused : State := state_after deployed (call (pause 1) deployed).

(** The order of checks as the specification lists them: role, whitelist,
    amount, pause switch. *)
Definition spec_canMint (st : State) (caller to : address) (amount : Z) : option MintError :=
  if negb (hasRole st ISSUER_ROLE caller) then Some Unauthorized
  else if negb (whitelisted st to) then Some NotWhitelisted
  else if negb (bool_decide (amount > 0)) then Some InvalidAmount
  else if paused st then Some LedgerPaused
  else None.

(** The checks of [mint] in the order its modifiers and [require]s run,
    each with the revert it raises. *)
Definition first_failing_check (st : State) (caller to : address) (amount : Z) : option Revert :=
  if negb (hasRole st ISSUER_ROLE caller)
  then Some (AccessControlUnauthorizedAccount caller ISSUER_ROLE)
  else if paused st then Some EnforcedPause
  else if negb (whitelisted st to) then Some (Error "RWAToken: recipient not whitelisted")
  else if negb (bool_decide (amount > 0))
  then Some (Error "RWAToken: amount must be greater than 0")
  else None.

(** What the inherited [ERC20._mint] still asks for. *)
Definition erc20_accepts (st : State) (to : address) (amount : Z) : Prop :=
  to <> zero_address /\ totalSupply st + amount <= MAX_UINT256.

Definition succeeded (o : Outcome) : Prop := exists st' evs, o = Success st' evs.

(** The storage the constructor leaves. *)
Definition constructed (sender : address) (ts : Z) (name_ symbol_ ct u : string) (q : Z)
    (sl ch : string) : State :=
  {| name := name_; symbol := symbol_; balances := ∅; totalSupply := 0;
     roles := <[(ISSUER_ROLE, sender) := true]>
                (<[(ADMIN_ROLE, sender) := true]>
                   (<[(DEFAULT_ADMIN_ROLE, sender) := true]> ∅));
     paused := false;
     whitelist := <[sender := true]> ∅;
     assetMetadata := {| commodityType := ct; unit_ := u; totalQuantity := q;
                         storageLocation := sl; certificationHash := ch;
                         createdAt := ts; updatedAt := ts |} |}.

(** The body of the loop of [batchAddToWhitelist]. *)
Definition batch_step (a : address) : Tx unit :=
  st <- read ;;
  if (negb (bool_decide (a = zero_address)) && negb (whitelisted st a))%bool
  then
    write (set_whitelist (fun m => <[a := true]> m)) ;;
    emit (WhitelistUpdated a true)
  else pure tt.

End RWATokenSpec.

(** ** Vocabulary of the statements about the synchronizer *)

Module EventSyncSpec.

Import EventSync.

(** *** Worlds and environments used in the examples *)

(** A node at head [head] that answers every query, with the given
    [Transfer] and [TokensMinted] logs in any window, and a database that
    fails as [fault] says. *)
Definition node (head : result Z) (transfers : list (Log (string * string * Z)))
    (mints : list (Log (string * Z * string))) (fault : DbOp -> option string) : Env :=
  {| getContract := Ok tt;
     getBlockNumber := head;
     queryTransfer := fun _ _ => Ok transfers;
     queryTokensMinted := fun _ _ => Ok mints;
     queryTokensBurned := fun _ _ => Ok [];
     queryWhitelistUpdated := fun _ _ => Ok [];
     queryPaused := fun _ _ => Ok [];
     queryUnpaused := fun _ _ => Ok [];
     getBlock := fun _ => Ok (Some {| timestamp := 1700000000 |});
     now := 1700000000000;
     dbFault := fault |}.

Definition healthy : DbOp -> option string := fun _ => None.

(** The database refuses every insert. *)
Definition inserts_fail : DbOp -> option string :=
  fun op => match op with OpCreate _ => Some "MongoNetworkError: connection closed" | _ => None end.

(** A node that cannot be reached. *)
Definition unreachable : Env := node (Throw "timeout") [] [] healthy.

(** A node at head 5 that has dropped the filter of the [Transfer] query. *)
Definition lost_filter : Env :=
  {| getContract := Ok tt;
     getBlockNumber := Ok 5;
     queryTransfer := fun _ _ => Throw "filter not found";
     queryTokensMinted := fun _ _ => Ok [];
     queryTokensBurned := fun _ _ => Ok [];
     queryWhitelistUpdated := fun _ _ => Ok [];
     queryPaused := fun _ _ => Ok [];
     queryUnpaused := fun _ _ => Ok [];
     getBlock := fun _ => Ok (Some {| timestamp := 1700000000 |});
     now := 1700000000000;
     dbFault := healthy |}.

(** A service that has started, at cursor [0], over empty collections. *)
Definition listening : World :=
  {| service := {| contract := true; provider := true; isRunning := true;
                   lastProcessedBlock := 0;
                   pollingInterval := Some {| period := POLLING_INTERVAL_MS |} |};
     transactions := []; users := []; console := []; rpcTrace := [] |}.

Definition the_zero_address : string := "0x0000000000000000000000000000000000000000".

(** The two logs of one [mint] transaction: the ERC20 [Transfer] from the
    zero address and the contract's own [TokensMinted]. *)
Definition mint_transfer_log : Log (string * string * Z) :=
  {| transactionHash := "0xabc1"; logBlockNumber := 3;
     args := (the_zero_address, "0xAA01", 1000) |}.

Definition mint_minted_log : Log (string * Z * string) :=
  {| transactionHash := "0xabc1"; logBlockNumber := 3;
     args := ("0xAA01", 1000, "Initial allocation") |}.

(** A transfer of 400 out of an account that never received anything,
    and a later transfer between two other accounts. *)
Definition overdraw_log : Log (string * string * Z) :=
  {| transactionHash := "0xdd01"; logBlockNumber := 2;
     args := ("0xAA01", "0xBB02", 400) |}.

Definition later_log : Log (string * string * Z) :=
  {| transactionHash := "0xdd02"; logBlockNumber := 4;
     args := ("0xCC03", "0xDD04", 1) |}.

(** [proj] reads the same after as before. *)
Definition keeps {A} (proj : World -> A) : World -> World -> Prop :=
  fun w w' => proj w' = proj w.

Definition any_call : RpcCall -> Prop := fun _ => True.

(** A user document without its whitelist flag. *)
Definition but_flag (u : UserDoc) : string * string * UserRole * KycStatus :=
  (walletAddress u, nonce u, userRole u, kycStatus u).

Definition cursor (w : World) : Z := lastProcessedBlock (service w).

(** The upper bound of the window an iteration at cursor [c] takes when
    the head is [h]. *)
Definition window_end (c h : Z) : Z := Z.min (c + 1 + BLOCKS_PER_QUERY - 1) h.

Definition sent (call : RpcCall) (w : World) : World :=
  set_rpcTrace (fun t => (t ++ [call])%list) w.

(** The trace grows by requests that all satisfy [allowed]. *)
Definition extends_trace (allowed : RpcCall -> Prop) : World -> World -> Prop :=
  fun w w' => exists calls, rpcTrace w' = (rpcTrace w ++ calls)%list /\ Forall allowed calls.

(** A log query over the window [lo, hi], or the lookup of a block; not
    another head query. *)
Definition in_window (lo hi : Z) (call : RpcCall) : Prop :=
  match call with
  | CallQueryFilter _ fromBlock toBlock => fromBlock = lo /\ toBlock = hi
  | CallGetBlock _ => True
  | CallGetBlockNumber => False
  end.

(** On a service whose contract is connected, the cursor has not moved
    back and the contract is still connected. *)
Definition cursor_kept (w w' : World) : Prop :=
  contract (service w) = true ->
  cursor w <= cursor w' /\ contract (service w') = true.

(** The timer and the running flag read the same. *)
Definition timer_of (w : World) : option Timer * bool :=
  (pollingInterval (service w), isRunning (service w)).

(** The timer is as before, or armed with the fixed period. *)
Definition timer_fixed (w w' : World) : Prop :=
  pollingInterval (service w') = pollingInterval (service w) \/
  pollingInterval (service w') = Some {| period := POLLING_INTERVAL_MS |}.

(** A started service that knows the two parties of [overdraw_log]. *)
Definition with_two_users : World :=
  {| service := service listening;
     transactions := [];
     users := [ {| walletAddress := "0xaa01"; nonce := "704355"; userRole := investor;
                   isWhitelisted := true; kycStatus := approved |};
                {| walletAddress := "0xbb02"; nonce := "118220"; userRole := investor;
                   isWhitelisted := true; kycStatus := approved |} ];
     console := []; rpcTrace := [] |}.

(** The amount a document carries, zero when it carries none. *)
Definition amount_of (d : TransactionDoc) : Z :=
  match amount d with
  | Some s => match NilZero.int_of_string s with Some i => Z.of_int i | None => 0 end
  | None => 0
  end.

Definition is_party (field : option string) (a : string) : bool :=
  match field with Some x => String.eqb x a | None => false end.

(** The balance that the projection rules of the specification (a
    transfer debits its sender and credits its recipient, a mint credits,
    a burn debits, all from zero) give account [a] over a history. *)
Definition spec_projected_balance (history : list TransactionDoc) (a : string) : Z :=
  fold_left
    (fun balance d =>
       match eventType d with
       | Transfer =>
           balance + (if is_party (to d) a then amount_of d else 0)
                   - (if is_party (from d) a then amount_of d else 0)
       | Mint => balance + (if is_party (to d) a then amount_of d else 0)
       | Burn => balance - (if is_party (from d) a then amount_of d else 0)
       | _ => balance
       end)
    history 0.

End EventSyncSpec.

(** ** Vocabulary of the statements about [verifySignature] *)

Module BlockchainSpec.

Import Blockchain.

(** Two strings that differ at most in the case of their letters. *)
Fixpoint equal_ignoring_case (a b : string) : Prop :=
  match a, b with
  | EmptyString, EmptyString => True
  | String x a', String y b' => JsString.lower_ascii x = JsString.lower_ascii y /\ equal_ignoring_case a' b'
  | _, _ => False
  end.

(** A recovery that knows one signature, by the account [0xAbC1]. *)
Definition one_signer (message signature : JsValue) : result string :=
  match signature with
  | JsStr "0x5161" => Ok "0xAbC1"
  | _ => Throw "invalid raw signature length"
  end.

End BlockchainSpec.

(** ** The ledger contract: role helpers, metadata, inherited [burn] *)

Module RWATokenAdmin.

Import RWAToken.
Local Open Scope sol_scope.

(** [AccessControl.getRoleAdmin]: the contract never calls
    [_setRoleAdmin], so the admin role of every role reads as the zero
    word, which is [DEFAULT_ADMIN_ROLE]. *)
Definition getRoleAdmin (role : Role) : Role := DEFAULT_ADMIN_ROLE.

(** [AccessControl.grantRole], a public function under
    [onlyRole(getRoleAdmin(role))]. *)
Definition grantRole (sender : address) (role : Role) (account : address) : Tx unit :=
  onlyRole (getRoleAdmin role) sender ;;
  _grantRole role account sender ;;
  pure tt.

Definition grantIssuerRole (sender account : address) : Tx unit :=
  onlyRole DEFAULT_ADMIN_ROLE sender ;; grantRole sender ISSUER_ROLE account.

Definition grantAdminRole (sender account : address) : Tx unit :=
  onlyRole DEFAULT_ADMIN_ROLE sender ;; grantRole sender ADMIN_ROLE account.

Definition updateAssetMetadata (sender : address) (block_timestamp : Z)
    (commodityType_ unit__ : string) (totalQuantity_ : Z)
    (storageLocation_ certificationHash_ : string) : Tx unit :=
  onlyRole ADMIN_ROLE sender ;;
  write (fun st =>
    set_assetMetadata
      {| commodityType := commodityType_; unit_ := unit__;
         totalQuantity := totalQuantity_; storageLocation := storageLocation_;
         certificationHash := certificationHash_;
         createdAt := createdAt (assetMetadata st);
         updatedAt := block_timestamp |} st) ;;
  emit (AssetMetadataUpdated commodityType_ unit__ totalQuantity_
                             storageLocation_ certificationHash_).

Definition getAssetMetadata (st : State) : AssetMetadata := assetMetadata st.

(** [ERC20Burnable.burn]. *)
Definition burn (sender : address) (value : Z) : Tx unit := _burn sender value.

End RWATokenAdmin.

(** ** Vocabulary of the statements about sequences of ledger calls *)

Module RWATokenCalls.

Import RWAToken RWATokenAdmin.
Local Open Scope sol_scope.

(** The external calls modelled here: the functions [RWAToken.sol]
    declares (the two revocation helpers apart), ERC20's [transfer],
    ERC20Burnable's [burn] and AccessControl's [grantRole]. *)
Inductive Call : Type :=
| DoMint (to : address) (amount : Z) (reason : string)
| DoBurnWithReason (amount : Z) (reason : string)
| DoBurn (value : Z)
| DoTransfer (to : address) (value : Z)
| DoAddToWhitelist (account : address)
| DoRemoveFromWhitelist (account : address)
| DoBatchAddToWhitelist (accounts : list address)
| DoPause
| DoUnpause
| DoGrantRole (role : Role) (account : address)
| DoGrantIssuerRole (account : address)
| DoGrantAdminRole (account : address)
| DoUpdateAssetMetadata (commodityType_ unit__ : string) (totalQuantity_ : Z)
                        (storageLocation_ certificationHash_ : string).

(** A transaction: who sends it, the timestamp of its block, the call. *)
Record Message : Type := {
  msg_sender : address;
  block_timestamp : Z;
  request : Call;
}.

Definition perform (m : Message) : Tx unit :=
  match request m with
  | DoMint to amount reason => mint (msg_sender m) to amount reason
  | DoBurnWithReason amount reason => burnWithReason (msg_sender m) amount reason
  | DoBurn value => burn (msg_sender m) value
  | DoTransfer to value => transfer (msg_sender m) to value
  | DoAddToWhitelist account => addToWhitelist (msg_sender m) account
  | DoRemoveFromWhitelist account => removeFromWhitelist (msg_sender m) account
  | DoBatchAddToWhitelist accounts => batchAddToWhitelist (msg_sender m) accounts
  | DoPause => pause (msg_sender m)
  | DoUnpause => unpause (msg_sender m)
  | DoGrantRole role account => grantRole (msg_sender m) role account
  | DoGrantIssuerRole account => grantIssuerRole (msg_sender m) account
  | DoGrantAdminRole account => grantAdminRole (msg_sender m) account
  | DoUpdateAssetMetadata ct u q sl ch =>
      updateAssetMetadata (msg_sender m) (block_timestamp m) ct u q sl ch
  end.

(** The storage after one transaction, and after a sequence of them. *)
Definition after (st : State) (m : Message) : State :=
  state_after st (call (perform m) st).

Definition replay (ms : list Message) (st : State) : State := fold_left after ms st.

(** A [uint256] argument. *)
Definition uint256 (v : Z) : Prop := 0 <= v <= MAX_UINT256.

(** The amounts a message carries are [uint256] values. *)
Definition well_typed (m : Message) : Prop :=
  match request m with
  | DoMint _ amount _ => uint256 amount
  | DoBurnWithReason amount _ => uint256 amount
  | DoBurn value => uint256 value
  | DoTransfer _ value => uint256 value
  | _ => True
  end.

(** The sum of all balances. *)
Definition sum_balances (st : State) : Z :=
  map_fold (fun _ v acc => v + acc) 0 (balances st).

(** The books balance: the supply is the sum of the balances, no balance
    is negative, and the supply is a [uint256]. *)
Definition balanced (st : State) : Prop :=
  sum_balances st = totalSupply st /\
  (forall a, 0 <= balanceOf st a) /\
  uint256 (totalSupply st).

(** The zero address is neither listed nor funded. *)
Definition zero_is_nobody (st : State) : Prop :=
  whitelisted st zero_address = false /\ balanceOf st zero_address = 0.

(** Two storages that differ at most in balances and supply. *)
Definition same_but_tokens (st st' : State) : Prop :=
  name st' = name st /\ symbol st' = symbol st /\ roles st' = roles st /\
  paused st' = paused st /\ whitelist st' = whitelist st /\
  assetMetadata st' = assetMetadata st.

(** Two storages with the same balances and the same supply. *)
Definition same_tokens (st st' : State) : Prop :=
  balances st' = balances st /\ totalSupply st' = totalSupply st.

(** The calls that go through [_update]. *)
Definition moves_tokens (c : Call) : bool :=
  match c with
  | DoMint _ _ _ | DoBurnWithReason _ _ | DoBurn _ | DoTransfer _ _ => true
  | _ => false
  end.

(** The checks a [transfer] meets, in the order they run, each with its
    revert. *)
Definition transfer_refusal (st : State) (sender to : address) (value : Z) : option Revert :=
  if bool_decide (sender = zero_address) then Some (ERC20InvalidSender zero_address)
  else if bool_decide (to = zero_address) then Some (ERC20InvalidReceiver zero_address)
  else if paused st then Some EnforcedPause
  else if negb (whitelisted st sender) then Some (Error "RWAToken: sender not whitelisted")
  else if negb (whitelisted st to) then Some (Error "RWAToken: recipient not whitelisted")
  else if bool_decide (balanceOf st sender < value)
  then Some (ERC20InsufficientBalance sender (balanceOf st sender) value)
  else None.

(** The storage an accepted transfer leaves: the sender's balance is
    written first, the recipient's is read after that. *)
Definition after_transfer (st : State) (sender to : address) (value : Z) : State :=
  let debited := set_balances (fun b => <[sender := balanceOf st sender - value]> b) st in
  set_balances (fun b => <[to := balanceOf debited to + value]> b) debited.

(** In the test fixture: the deployer mints to itself, lists account [5],
    sends it 30 units, and delists it; the holder then burns 10. *)
Definition fixture_calls : list Message :=
  [ {| msg_sender := 1; block_timestamp := 1010; request := DoMint 1 100 "Initial allocation" |};
    {| msg_sender := 1; block_timestamp := 1020; request := DoAddToWhitelist 5 |};
    {| msg_sender := 1; block_timestamp := 1030; request := DoTransfer 5 30 |};
    {| msg_sender := 1; block_timestamp := 1040; request := DoRemoveFromWhitelist 5 |};
    {| msg_sender := 5; block_timestamp := 1050; request := DoBurnWithReason 10 "Redemption" |} ].

(** Every run of [tx] that does not revert takes a storage with [P] to a
    storage with [P]. *)
Definition preserves {A} (P : State -> Prop) (tx : Tx A) : Prop :=
  forall st evs a st' evs', P st -> tx (st, evs) = inr (a, (st', evs')) -> P st'.

End RWATokenCalls.

(** ** Vocabulary of the statements about the history and the mirror *)

Module EventSyncHistory.

Import EventSync EventSyncSpec.

(** The transaction hashes of the history, oldest first. *)
Definition hashes (w : World) : list string := map txHash (transactions w).

(** The history has grown at its end only, and its hashes are pairwise
    distinct if they were. *)
Definition history_kept (w w' : World) : Prop :=
  (exists added, transactions w' = (transactions w ++ added)%list) /\
  (NoDup (hashes w) -> NoDup (hashes w')).

(** The two collections. *)
Definition collections (w : World) : list TransactionDoc * list UserDoc :=
  (transactions w, users w).

(** The whitelist flag the mirror holds for a wallet ([None]: no such
    user). *)
Definition flag_of (wallet : string) (w : World) : option bool :=
  option_map isWhitelisted
    (List.find (fun u => String.eqb (walletAddress u) wallet) (users w)).

(** The two [WhitelistUpdated] logs of one [batchAddToWhitelist]
    transaction. *)
Definition batch_log_1 : Log (string * bool) :=
  {| transactionHash := "0xba7c"; logBlockNumber := 5; args := ("0xAA01", true) |}.

Definition batch_log_2 : Log (string * bool) :=
  {| transactionHash := "0xba7c"; logBlockNumber := 5; args := ("0xBB02", true) |}.

(** A started service that knows the two accounts of the batch, neither
    flagged. *)
Definition two_unlisted_users : World :=
  {| service := service listening;
     transactions := [];
     users := [ {| walletAddress := "0xaa01"; nonce := "704355"; userRole := investor;
                   isWhitelisted := false; kycStatus := approved |};
                {| walletAddress := "0xbb02"; nonce := "118220"; userRole := investor;
                   isWhitelisted := false; kycStatus := approved |} ];
     console := []; rpcTrace := [] |}.

(** A node that answers the [WhitelistUpdated] query with the two logs of
    the batch and every other query with no log. *)
Definition batch_node : Env :=
  {| getContract := Ok tt;
     getBlockNumber := Ok 5;
     queryTransfer := fun _ _ => Ok [];
     queryTokensMinted := fun _ _ => Ok [];
     queryTokensBurned := fun _ _ => Ok [];
     queryWhitelistUpdated := fun _ _ => Ok [batch_log_1; batch_log_2];
     queryPaused := fun _ _ => Ok [];
     queryUnpaused := fun _ _ => Ok [];
     getBlock := fun _ => Ok (Some {| timestamp := 1700000000 |});
     now := 1700000000000;
     dbFault := healthy |}.

End EventSyncHistory.

(** ** Vocabulary of the statements about replayed windows *)

Module EventSyncReplay.

Import EventSync EventSyncSpec EventSyncHistory.
Local Open Scope js_scope.

(** A log of any of the kinds [queryEvents] asks for, with the handler
    argument that tells [Paused] from [Unpaused]. *)
Inductive Item : Type :=
| TransferItem (event : Log (string * string * Z))
| MintItem (event : Log (string * Z * string))
| BurnItem (event : Log (string * Z * string))
| WhitelistItem (event : Log (string * bool))
| PauseItem (event : Log string) (paused : bool).

(** The handler [queryEvents] runs on an item. *)
Definition handle (env : Env) (i : Item) : Js unit :=
  match i with
  | TransferItem event => processTransferEvent env event
  | MintItem event => processMintEvent env event
  | BurnItem event => processBurnEvent env event
  | WhitelistItem event => processWhitelistEvent env event
  | PauseItem event paused => processPauseEvent env event paused
  end.

Definition item_hash (i : Item) : string :=
  match i with
  | TransferItem event => transactionHash event
  | MintItem event => transactionHash event
  | BurnItem event => transactionHash event
  | WhitelistItem event => transactionHash event
  | PauseItem event _ => transactionHash event
  end.

Definition item_block (i : Item) : Z :=
  match i with
  | TransferItem event => logBlockNumber event
  | MintItem event => logBlockNumber event
  | BurnItem event => logBlockNumber event
  | WhitelistItem event => logBlockNumber event
  | PauseItem event _ => logBlockNumber event
  end.

(** The [eventType] the handler looks up and stores. *)
Definition item_kind (i : Item) : EventType :=
  match i with
  | TransferItem _ => Transfer
  | MintItem _ => Mint
  | BurnItem _ => Burn
  | WhitelistItem _ => WhitelistUpdated
  | PauseItem _ paused => if paused then Paused else Unpaused
  end.

Definition item_doc (env : Env) (i : Item) (block : option Block) : TransactionDoc :=
  match i with
  | TransferItem event => transferDoc env event block
  | MintItem event => mintDoc env event block
  | BurnItem event => burnDoc env event block
  | WhitelistItem event => whitelistDoc env event block
  | PauseItem event paused => pauseDoc env event paused block
  end.

(** Whether the handler gets to insert the item's document into the
    history of [w], and with which block: the lookup must answer and find
    nothing, the provider must be there and return the block, the insert
    must not fail, and the hash must be new to the unique index. *)
Definition recorded (env : Env) (i : Item) (w : World) : option (option Block) :=
  match dbFault env (OpFindOne (item_hash i) (item_kind i)) with
  | Some _ => None
  | None =>
      match List.find (fun d => (String.eqb (txHash d) (item_hash i)
                                 && bool_decide (eventType d = item_kind i))%bool)
                      (transactions w) with
      | Some _ => None
      | None =>
          if provider (service w) then
            match getBlock env (item_block i) with
            | Throw _ => None
            | Ok block =>
                match dbFault env (OpCreate (item_doc env i block)) with
                | Some _ => None
                | None =>
                    if txHash_taken (item_hash i) (transactions w) then None
                    else Some block
                end
            end
          else None
      end
  end.

(** What the handler of a recorded item does to the users. *)
Definition mirror (env : Env) (i : Item) (us : list UserDoc) : list UserDoc :=
  match i with
  | WhitelistItem event =>
      match dbFault env (OpUserUpdate (JsString.toLowerCase (fst (args event)))) with
      | Some _ => us
      | None => update_first (JsString.toLowerCase (fst (args event))) (snd (args event)) us
      end
  | _ => us
  end.

(** One query of [queryEvents] with the items of its answer. *)
Record Stage : Type := {
  stage_call : RpcCall;
  stage_answer : result (list Item);
}.

Definition as_items {A} (f : A -> Item) (answer : result (list A)) : result (list Item) :=
  match answer with
  | Ok events => Ok (map f events)
  | Throw message => Throw message
  end.

(** The six queries of a window, in the order [queryEvents] sends them. *)
Definition stages (env : Env) (fromBlock toBlock : Z) : list Stage :=
  [ {| stage_call := CallQueryFilter FTransfer fromBlock toBlock;
       stage_answer := as_items TransferItem (queryTransfer env fromBlock toBlock) |};
    {| stage_call := CallQueryFilter FTokensMinted fromBlock toBlock;
       stage_answer := as_items MintItem (queryTokensMinted env fromBlock toBlock) |};
    {| stage_call := CallQueryFilter FTokensBurned fromBlock toBlock;
       stage_answer := as_items BurnItem (queryTokensBurned env fromBlock toBlock) |};
    {| stage_call := CallQueryFilter FWhitelistUpdated fromBlock toBlock;
       stage_answer := as_items WhitelistItem (queryWhitelistUpdated env fromBlock toBlock) |};
    {| stage_call := CallQueryFilter FPaused fromBlock toBlock;
       stage_answer := as_items (fun event => PauseItem event true)
                                (queryPaused env fromBlock toBlock) |};
    {| stage_call := CallQueryFilter FUnpaused fromBlock toBlock;
       stage_answer := as_items (fun event => PauseItem event false)
                                (queryUnpaused env fromBlock toBlock) |} ].

(** Query after query, each followed by the handling of its items. *)
Fixpoint run_stages (env : Env) (ss : list Stage) : Js unit :=
  match ss with
  | [] => ret tt
  | s :: rest =>
      items <- on_contract (stage_call s) (stage_answer s) ;;
      forEach items (handle env) ;;
      run_stages env rest
  end.

(** The items a window hands to its handlers: those of every query up
    to the first that fails. *)
Fixpoint reached (ss : list Stage) : list Item :=
  match ss with
  | [] => []
  | s :: rest =>
      match stage_answer s with
      | Ok items => (items ++ reached rest)%list
      | Throw _ => []
      end
  end.

Definition window_items (env : Env) (fromBlock toBlock : Z) : list Item :=
  reached (stages env fromBlock toBlock).

(** The service is as before, and the history has grown at its end only. *)
Definition grown (w w' : World) : Prop :=
  service w' = service w /\
  exists added, transactions w' = (transactions w ++ added)%list.

End EventSyncReplay.

(** ** controllers/complianceController.js *)

Module ComplianceController.

Import RWAToken RWATokenAdmin WhitelistController.
Local Open Scope js_scope.

Local Abbreviation Js := (@JsMonad.Js World).

Definition pause (env : Env) : Js Response :=
  try_catch
    (lift (getContractWithSigner env) ;;
     isPaused <- view env paused ;;
     if isPaused then ret (bad_request "Contract is already paused")
     else
       send env (RWAToken.pause (signer env)) ;;
       ret ok)
    (fun message =>
       console_error "Pause error:" message ;;
       ret (server_error
              (if JsString.includes "AccessControlUnauthorizedAccount" message
               then "Unauthorized: Admin role required"
               else "Failed to pause contract")
              message)).

Definition unpause (env : Env) : Js Response :=
  try_catch
    (lift (getContractWithSigner env) ;;
     isPaused <- view env paused ;;
     if negb isPaused then ret (bad_request "Contract is not paused")
     else
       send env (RWAToken.unpause (signer env)) ;;
       ret ok)
    (fun message =>
       console_error "Unpause error:" message ;;
       ret (server_error
              (if JsString.includes "AccessControlUnauthorizedAccount" message
               then "Unauthorized: Admin role required"
               else "Failed to unpause contract")
              message)).

(** [role === text]: only the string itself is equal. *)
Definition strictly_equals (role : Blockchain.JsValue) (text : string) : bool :=
  match role with
  | Blockchain.JsStr s => String.eqb s text
  | _ => false
  end.

Definition grantRole (env : Env) (role : Blockchain.JsValue) (address_ : string) : Js Response :=
  try_catch
    (lift (getContractWithSigner env) ;;
     if strictly_equals role "issuer" then
       a <- encode env address_ ;;
       send env (grantIssuerRole (signer env) a) ;;
       ret ok
     else if strictly_equals role "admin" then
       a <- encode env address_ ;;
       send env (grantAdminRole (signer env) a) ;;
       ret ok
     else ret (bad_request "Invalid role. Must be 'issuer' or 'admin'"))
    (fun message =>
       console_error "Grant role error:" message ;;
       ret (server_error
              (if JsString.includes "AccessControlUnauthorizedAccount" message
               then "Unauthorized: DEFAULT_ADMIN_ROLE required"
               else "Failed to grant role")
              message)).

End ComplianceController.

(** ** Vocabulary of the statements about the controllers *)

Module ControllerSpec.

Import RWAToken WhitelistController.

(** The backend of the examples: its signer is the deployer, account
    [1]; it knows the addresses [0xAA05] and [0xBB06] as accounts [5] and
    [6]; the node and the database answer. *)
Definition backend (dbFault : option string) : Env :=
  {| signer := 1;
     toAddress := fun text =>
       if String.eqb text "0xAA05" then Some 5
       else if String.eqb text "0xBB06" then Some 6
       else None;
     revertMessage := fun e =>
       match e with
       | AccessControlUnauthorizedAccount _ _ =>
           "execution reverted: AccessControlUnauthorizedAccount"
       | EnforcedPause => "execution reverted: EnforcedPause"
       | ExpectedPause => "execution reverted: ExpectedPause"
       | Error reason => "execution reverted: " ++ reason
       | _ => "execution reverted"
       end;
     getContractWithSigner := Ok tt;
     transport := None;
     userDbFault := dbFault |}.

(** The deployed ledger with the two users of the examples in the
    mirror, neither flagged. *)
Definition office : World :=
  {| chain := RWATokenSpec.deployed;
     emitted := [];
     users := [ {| EventSync.walletAddress := "0xaa05"; EventSync.nonce := "704355";
                   EventSync.userRole := EventSync.investor;
                   EventSync.isWhitelisted := false;
                   EventSync.kycStatus := EventSync.approved |};
                {| EventSync.walletAddress := "0xbb06"; EventSync.nonce := "118220";
                   EventSync.userRole := EventSync.investor;
                   EventSync.isWhitelisted := false;
                   EventSync.kycStatus := EventSync.approved |} ];
     console := [] |}.

(** The mirror's flag for a wallet. *)
Definition flagged (wallet : string) (w : World) : option bool :=
  option_map EventSync.isWhitelisted
    (List.find (fun u => String.eqb (EventSync.walletAddress u) wallet) (users w)).

(** The world with another ledger. *)
Definition with_chain (st : State) (w : World) : World :=
  {| chain := st; emitted := emitted w; users := users w; console := console w |}.

End ControllerSpec.

(** ** controllers/authController.js, with the methods of models/User.js *)

Module AuthController.

Import EventSync.
Local Open Scope js_scope.

(** What the controller works against: [ethers.verifyMessage], the
    values [Math.floor(Math.random() * 1000000)] takes draw after draw,
    [jwt.sign] (which throws without a secret), and the failures of the
    database. *)
Record Env : Type := {
  verifyMessage : Blockchain.JsValue -> Blockchain.JsValue -> result string;
  random : nat -> Z;
  jwt_sign : string -> UserRole -> result string;
  findFault : option string;
  saveFault : option string;
}.

(** The [User] collection, the console, and the number of random values
    drawn so far. [lastLogin] and [profile] are not kept. *)
Record World : Type := {
  users : list UserDoc;
  console : list ConsoleLine;
  drawn : nat;
}.

Local Abbreviation Js := (@JsMonad.Js World).

Inductive Response : Type :=
| NonceIssued (nonce_ message : string)
| Connected (token walletAddress_ : string) (role : UserRole) (isWhitelisted_ : bool)
            (kycStatus_ : KycStatus)
| Failed (status : Z) (error : string).

Definition set_users (f : list UserDoc -> list UserDoc) (w : World) : World :=
  {| users := f (users w); console := console w; drawn := drawn w |}.

Definition console_error (label detail : string) : Js unit :=
  modify (fun w => {| users := users w;
                      console := (console w ++ [ConsoleError label detail])%list;
                      drawn := drawn w |}).

(** A computation over the console alone, run inside this world. *)
Definition on_console {A} (m : JsMonad.Js (W := list ConsoleLine) A) : Js A :=
  fun w => let '(r, c) := m (console w) in
           (r, {| users := users w; console := c; drawn := drawn w |}).

(** [Math.floor(Math.random() * 1000000).toString()]. *)
Definition random_nonce (env : Env) : Js string :=
  w <- get ;;
  modify (fun w => {| users := users w; console := console w; drawn := S (drawn w) |}) ;;
  ret (JsString.bigintToString (random env (drawn w))).

Definition with_nonce (n : string) (u : UserDoc) : UserDoc :=
  {| walletAddress := walletAddress u; nonce := n; userRole := userRole u;
     isWhitelisted := isWhitelisted u; kycStatus := kycStatus u |}.

(** [user.generateNonce()]: sets the field of the document in memory and
    returns it. *)
Definition generateNonce (env : Env) (user : UserDoc) : Js UserDoc :=
  n <- random_nonce env ;; ret (with_nonce n user).

(** [User.findOne({ walletAddress })]. *)
Definition User_findOne (env : Env) (wallet : string) : Js (option UserDoc) :=
  match findFault env with
  | Some msg => throw msg
  | None =>
      w <- get ;;
      ret (List.find (fun u => String.eqb (walletAddress u) wallet) (users w))
  end.

(** [user.save()] on a document read from the collection: the stored
    document of that wallet is replaced. *)
Definition User_save (env : Env) (user : UserDoc) : Js unit :=
  match saveFault env with
  | Some msg => throw msg
  | None =>
      modify (set_users (map (fun u =>
        if String.eqb (walletAddress u) (walletAddress user) then user else u)))
  end.

(** [user.save()] on a new document: validation asks for a non-empty
    [walletAddress], the unique index for a new one. *)
Definition User_insert (env : Env) (user : UserDoc) : Js unit :=
  match saveFault env with
  | Some msg => throw msg
  | None =>
      if String.eqb (walletAddress user) ""
      then throw "User validation failed: walletAddress: Path `walletAddress` is required."
      else
        w <- get ;;
        if existsb (fun u => String.eqb (walletAddress u) (walletAddress user)) (users w)
        then throw "E11000 duplicate key error collection: users index: walletAddress_1 dup key"
        else modify (set_users (fun us => (us ++ [user])%list))
  end.

(** [User.findOrCreateByWallet(walletAddress)]. *)
Definition findOrCreateByWallet (env : Env) (address_ : string) : Js UserDoc :=
  found <- User_findOne env (JsString.toLowerCase address_) ;;
  match found with
  | Some user => ret user
  | None =>
      n <- random_nonce env ;;
      let user := {| walletAddress := JsString.toLowerCase address_; nonce := n;
                     userRole := investor; isWhitelisted := false; kycStatus := pending |} in
      User_insert env user ;;
      ret user
  end.

Definition sign_in_message (n : string) : string :=
  "Sign this message to authenticate with RWA Platform. Nonce: " ++ n.

Definition getNonce (env : Env) (address_ : string) : Js Response :=
  try_catch
    (user <- findOrCreateByWallet env address_ ;;
     user <- generateNonce env user ;;
     User_save env user ;;
     ret (NonceIssued (nonce user) (sign_in_message (nonce user))))
    (fun message =>
       console_error "Get nonce error:" message ;;
       ret (Failed 500 "Failed to generate nonce")).

(** [address.toLowerCase()] on the field of the request body. *)
Definition address_toLowerCase (address_ : Blockchain.JsValue) : Js string :=
  match address_ with
  | Blockchain.JsStr s => ret (JsString.toLowerCase s)
  | Blockchain.JsUndefined | Blockchain.JsNull =>
      throw "Cannot read properties of undefined (reading 'toLowerCase')"
  | _ => throw "address.toLowerCase is not a function"
  end.

Definition connect (env : Env) (address_ signature : Blockchain.JsValue) : Js Response :=
  try_catch
    (wallet <- address_toLowerCase address_ ;;
     found <- User_findOne env wallet ;;
     match found with
     | None => ret (Failed 404 "User not found. Please get a nonce first.")
     | Some user =>
         isValid <- on_console
                      (Blockchain.verifySignature (verifyMessage env)
                         (Blockchain.JsStr (sign_in_message (nonce user))) signature address_) ;;
         if negb isValid then ret (Failed 401 "Invalid signature")
         else
           user <- generateNonce env user ;;
           User_save env user ;;
           token <- lift (jwt_sign env (walletAddress user) (userRole user)) ;;
           ret (Connected token (walletAddress user) (userRole user)
                          (isWhitelisted user) (kycStatus user))
     end)
    (fun message =>
       console_error "Connect wallet error:" message ;;
       ret (Failed 500 "Failed to authenticate")).

End AuthController.

(** ** Vocabulary of the statements about signing in *)

Module AuthSpec.

Import EventSync AuthController.

(** The stored document of a wallet. *)
Definition user_of (wallet : string) (w : World) : option UserDoc :=
  List.find (fun u => String.eqb (walletAddress u) wallet) (users w).

Definition wallets (w : World) : list string := map walletAddress (users w).

(** The collection after [user] has been saved over its stored document. *)
Definition saved (user : UserDoc) (us : list UserDoc) : list UserDoc :=
  map (fun u => if String.eqb (walletAddress u) (walletAddress user) then user else u) us.

(** The document [findOrCreateByWallet] creates. *)
Definition new_user (wallet n : string) : UserDoc :=
  {| walletAddress := wallet; nonce := n; userRole := investor;
     isWhitelisted := false; kycStatus := pending |}.

(** The [k]-th random nonce. *)
Definition nonce_drawn (env : Env) (k : nat) : string :=
  JsString.bigintToString (random env k).

(** [signature] was made by [signer] over [message]: the verifier
    recovers the signer, in whatever case, from that pair. *)
Definition signed_by (env : Env) (message signature : Blockchain.JsValue) (signer : string) : Prop :=
  exists recovered,
    verifyMessage env message signature = Ok recovered /\
    JsString.toLowerCase recovered = JsString.toLowerCase signer.

(** The database answers, and tokens can be signed. *)
Definition sound (env : Env) : Prop :=
  findFault env = None /\ saveFault env = None /\
  forall wallet role, exists token, jwt_sign env wallet role = Ok token.

(** An environment of the examples: the random values are 704355,
    118220, 118221, ...; the one signature [0x5161] is by the account
    [0xAbC1] over the message with nonce [118220]. *)
Definition desk : Env :=
  {| verifyMessage := fun message signature =>
       match message, signature with
       | Blockchain.JsStr m, Blockchain.JsStr s =>
           if (String.eqb m (sign_in_message "118220") && String.eqb s "0x5161")%bool
           then Ok "0xAbC1"
           else Ok "0x0000"
       | _, _ => Throw "invalid raw signature length"
       end;
     random := fun n => match n with O => 704355 | S k => 118220 + Z.of_nat k end;
     jwt_sign := fun wallet _ => Ok ("jwt." ++ wallet);
     findFault := None;
     saveFault := None |}.

Definition no_users : World := {| users := []; console := []; drawn := 0 |}.

End AuthSpec.

(** ** The listener variant of the synchronizer *)

Module EventListener.

Import EventSync.
Local Open Scope js_scope.

(** The answers of the polling service's environment, and the failures
    of the lookup by hash alone that only this variant makes. *)
Record Env : Type := {
  node : EventSync.Env;
  lookupFault : string -> option string;
}.

(** [Transaction.findOne({ txHash })]. *)
Definition Transaction_findOne_by_hash (env : Env) (hash : string)
  : Js (option TransactionDoc) :=
  match lookupFault env hash with
  | Some msg => throw msg
  | None =>
      w <- get ;;
      ret (List.find (fun d => String.eqb (txHash d) hash) (transactions w))
  end.

(** [block.timestamp] in [new Date(block.timestamp * 1000)], with no test
    of [block]: on [null] it is a [TypeError]. *)
Definition known_block (block : option Block) : Js (W := World) Block :=
  match block with
  | Some b => ret b
  | None => throw "Cannot read properties of null (reading 'timestamp')"
  end.

(** The handler of [Transfer]; [args event] holds the listener's
    positional arguments [from], [to] and [value]. *)
Definition processTransferEvent (env : Env) (event : Log (string * string * Z)) : Js unit :=
  try_catch
    (found <- Transaction_findOne_by_hash env (transactionHash event) ;;
     match found with
     | Some _ => ret tt
     | None =>
         block <- provider_getBlock (node env) event ;;
         b <- known_block block ;;
         Transaction_create (node env) (transferDoc (node env) event (Some b)) ;;
         console_log ("Transfer event processed: " ++ transactionHash event)
     end)
    (fun message => console_error "Error processing transfer event:" message).

Definition processMintEvent (env : Env) (event : Log (string * Z * string)) : Js unit :=
  try_catch
    (found <- Transaction_findOne (node env) (transactionHash event) Mint ;;
     match found with
     | Some _ => ret tt
     | None =>
         block <- provider_getBlock (node env) event ;;
         b <- known_block block ;;
         Transaction_create (node env) (mintDoc (node env) event (Some b)) ;;
         console_log ("Mint event processed: " ++ transactionHash event)
     end)
    (fun message => console_error "Error processing mint event:" message).

End EventListener.

(** ** [getRecentTransactions] *)

Module RecentTransactions.

Import EventSync.

Section WithDatabase.
(** The order in which the database returns documents sorted by
    [{ blockTimestamp: -1 }], and the failure of a read. *)
Variable newest_first : list TransactionDoc -> list TransactionDoc.
Variable readFault : option string.

Record Pagination : Type := {
  page : positive;
  limit : positive;
  total : Z;
  pages : Z;
}.

Record Answer : Type := {
  listed : list TransactionDoc;
  pagination : Pagination;
}.

(** The filter: [{}] when [eventType] is missing or the empty string,
    [{ eventType }] otherwise. *)
Definition matches (eventType_ : option string) (d : TransactionDoc) : bool :=
  match eventType_ with
  | None => true
  | Some s => if String.eqb s "" then true else String.eqb (eventTypeName (eventType d)) s
  end.

(** [limit] and [page] are positive whole numbers, 50 and 1 when
    missing; [Math.ceil(total / limit)] is then the rounded-up quotient. *)
Definition getRecentTransactions (eventType_ : option string) (limit_ page_ : option positive)
    (docs : list TransactionDoc) : result Answer :=
  let limit := default 50%positive limit_ in
  let page := default 1%positive page_ in
  let skip := (Z.pos page - 1) * Z.pos limit in
  match readFault with
  | Some msg => Throw msg
  | None =>
      let matching := List.filter (matches eventType_) docs in
      Ok {| listed := firstn (Pos.to_nat limit)
                        (skipn (Z.to_nat skip) (newest_first matching));
            pagination := {| page := page; limit := limit;
                             total := Z.of_nat (length matching);
                             pages := (Z.of_nat (length matching) + Z.pos limit - 1)
                                      / Z.pos limit |} |}
  end.

End WithDatabase.

End RecentTransactions.

(** ** Vocabulary of the statements about the listener and the pages *)

Module ListenerSpec.

Import EventSync EventSyncSpec.

(** A database in which the lookup by hash alone answers too. *)
Definition listener_of (env : EventSync.Env) : EventListener.Env :=
  {| EventListener.node := env; EventListener.lookupFault := fun _ => None |}.

(** A node that does not know the block of a log. *)
Definition node_without_blocks : EventSync.Env :=
  {| getContract := Ok tt;
     getBlockNumber := Ok 5;
     queryTransfer := fun _ _ => Ok [];
     queryTokensMinted := fun _ _ => Ok [];
     queryTokensBurned := fun _ _ => Ok [];
     queryWhitelistUpdated := fun _ _ => Ok [];
     queryPaused := fun _ _ => Ok [];
     queryUnpaused := fun _ _ => Ok [];
     getBlock := fun _ => Ok None;
     now := 1700000000000;
     dbFault := healthy |}.

(** A stable sort by [blockTimestamp], newest first. *)
Fixpoint insert_by_date (d : TransactionDoc) (l : list TransactionDoc) : list TransactionDoc :=
  match l with
  | [] => [d]
  | x :: rest =>
      if (blockTimestamp x <? blockTimestamp d)%Z then d :: x :: rest
      else x :: insert_by_date d rest
  end.

Definition sort_by_date (l : list TransactionDoc) : list TransactionDoc :=
  fold_right insert_by_date [] l.

(** A history of five transfers, in blocks 1 to 5. *)
Definition five_transfers : list TransactionDoc :=
  map (fun n =>
         transferDoc (node (Ok 5) [] [] healthy)
           {| transactionHash := "0xee0" ++ JsString.bigintToString n;
              logBlockNumber := n; args := ("0xAA01", "0xBB02", n) |}
           (Some {| timestamp := 1700000000 + n |}))
      [1; 2; 3; 4; 5].

(** The pages [1 .. n] of a listing. *)
Definition pages_up_to (newest_first : list TransactionDoc -> list TransactionDoc)
    (eventType_ : option string) (limit_ : positive) (docs : list TransactionDoc) (n : nat)
  : list (list TransactionDoc) :=
  map (fun k =>
         match RecentTransactions.getRecentTransactions newest_first None eventType_
                 (Some limit_) (Some (Pos.of_succ_nat k)) docs with
         | Ok answer => RecentTransactions.listed answer
         | Throw _ => []
         end)
      (seq 0 n).

End ListenerSpec.

(** ** controllers/tokenController.js: [transfer] *)

Module TokenController.

Import RWAToken WhitelistController.
Local Open Scope js_scope.

Local Abbreviation Js := (@JsMonad.Js World).

(** The backend of the whitelist controller, and [ethers.parseEther],
    which throws on a string that is no decimal number and gives a
    negative number for a string with a minus sign. *)
Record Env : Type := {
  backend : WhitelistController.Env;
  parseEther : string -> result Z;
}.

(** [amount.toString()]; [None] is a missing [amount]. *)
Definition amount_toString (amount : option string) : Js string :=
  match amount with
  | Some text => ret text
  | None => throw "Cannot read properties of undefined (reading 'toString')"
  end.

(** How ethers encodes a [uint256] argument of a contract call: a value
    outside [0, 2^256 - 1] is refused before anything is sent. *)
Definition encode_uint256 (value : Z) : Js Z :=
  if ((0 <=? value)%Z && (value <=? MAX_UINT256)%Z)%bool then ret value
  else throw "value out-of-bounds".

Definition transfer (env : Env) (to_ : string) (amount : option string) : Js Response :=
  try_catch
    (lift (getContractWithSigner (backend env)) ;;
     text <- amount_toString amount ;;
     amountWei <- lift (parseEther env text) ;;
     a <- encode (backend env) to_ ;;
     value <- encode_uint256 amountWei ;;
     send (backend env) (RWAToken.transfer (signer (backend env)) a value) ;;
     ret ok)
    (fun message =>
       console_error "Transfer error:" message ;;
       ret (server_error
              (if JsString.includes "sender not whitelisted" message
               then "Sender address is not whitelisted"
               else if JsString.includes "recipient not whitelisted" message
               then "Recipient address is not whitelisted"
               else if JsString.includes "EnforcedPause" message
               then "Contract is paused"
               else if JsString.includes "ERC20InsufficientBalance" message
               then "Insufficient balance"
               else "Failed to transfer tokens")
              message)).

End TokenController.

(** ** middleware/auth.js: [authenticate] and [requireRole] *)

Module AuthMiddleware.

Import EventSync WhitelistController.
Local Open Scope js_scope.

Local Abbreviation Js := (@JsMonad.Js World).

(** What [jwt.verify] does with a token: the payload's wallet, or an
    error with its [name]. *)
Inductive JwtAnswer : Type :=
| Verified (walletAddress_ : string)
| JsonWebTokenError (message : string)
| TokenExpiredError (message : string)
| OtherError (message : string).

Record Env : Type := {
  jwt_verify : string -> JwtAnswer;
  findFault : option string;
}.

(** A middleware calls [next()], with [req.user] as it then is, or
    answers the request itself. *)
Inductive Passage : Type :=
| Next (user : option UserDoc)
| Answered (response : Response).

Definition denied (status_ : Z) (message : string) : Response :=
  {| status := status_; success := false; error := Some message; details := None |}.

(** [s.split(" ")]. *)
Fixpoint split_at_spaces (s : string) : list string :=
  match s with
  | EmptyString => [EmptyString]
  | String c rest =>
      if Ascii.eqb c " " then EmptyString :: split_at_spaces rest
      else match split_at_spaces rest with
           | [] => [String c EmptyString]
           | x :: more => String c x :: more
           end
  end.

(** The value of the [role] field. *)
Definition role_name (r : UserRole) : string :=
  match r with investor => "investor" | admin => "admin" | issuer => "issuer" end.

(** [authorization] is the header, [None] when the request has none. *)
Definition authenticate (env : Env) (authorization : option string) : Js Passage :=
  match authorization with
  | None => ret (Answered (denied 401 "Access denied. No token provided."))
  | Some authHeader =>
      if negb (JsString.startsWith "Bearer " authHeader)
      then ret (Answered (denied 401 "Access denied. No token provided."))
      else
        match jwt_verify env (nth 1 (split_at_spaces authHeader) "") with
        | Verified wallet =>
            match findFault env with
            | Some message =>
                console_error "Auth middleware error:" message ;;
                ret (Answered (denied 500 "Authentication error."))
            | None =>
                w <- get ;;
                match List.find (fun u => String.eqb (walletAddress u) wallet) (users w) with
                | None => ret (Answered (denied 401 "Invalid token. User not found."))
                | Some user => ret (Next (Some user))
                end
            end
        | JsonWebTokenError _ => ret (Answered (denied 401 "Invalid token."))
        | TokenExpiredError _ => ret (Answered (denied 401 "Token expired."))
        | OtherError message =>
            console_error "Auth middleware error:" message ;;
            ret (Answered (denied 500 "Authentication error."))
        end
  end.

(** [requireRole(...roles)] on [req.user]. *)
Definition requireRole (roles : list string) (user : option UserDoc) : Passage :=
  match user with
  | None => Answered (denied 401 "Authentication required.")
  | Some u =>
      if existsb (String.eqb (role_name (userRole u))) roles then Next user
      else Answered (denied 403 ("Access denied. Required role: " ++ String.concat " or " roles))
  end.

End AuthMiddleware.

(** ** routes/tokenRoutes.js and routes/complianceRoutes.js *)

Module Routes.

Import WhitelistController AuthMiddleware.
Local Open Scope js_scope.

Local Abbreviation Js := (@JsMonad.Js World).

Record Env : Type := {
  auth : AuthMiddleware.Env;
  tokens : TokenController.Env;
}.

(** [router.use(authenticate); router.post("/transfer", tokenController.transfer)]. *)
Definition post_transfer (env : Env) (authorization : option string) (to_ : string)
    (amount : option string) : Js Response :=
  passage <- authenticate (auth env) authorization ;;
  match passage with
  | Answered response => ret response
  | Next _ => TokenController.transfer (tokens env) to_ amount
  end.

(** [router.use(authenticate); router.use(requireRole("admin"));
    router.post("/pause", complianceController.pause)]. *)
Definition post_pause (env : Env) (authorization : option string) : Js Response :=
  passage <- authenticate (auth env) authorization ;;
  match passage with
  | Answered response => ret response
  | Next user =>
      match requireRole ["admin"] user with
      | Answered response => ret response
      | Next _ => ComplianceController.pause (TokenController.backend (tokens env))
      end
  end.

End Routes.

(** ** Vocabulary of the statements about the routes *)

Module RouteSpec.

Import RWAToken WhitelistController ControllerSpec.

(** The ledger of the office after the deployer has minted 100 tokens
    (of 18 decimals) to itself and listed account [5]. *)
Definition funded : State :=
  RWATokenCalls.replay
    [ {| RWATokenCalls.msg_sender := 1; RWATokenCalls.block_timestamp := 1010;
         RWATokenCalls.request := RWATokenCalls.DoMint 1 (100 * 10 ^ 18) "Initial allocation" |};
      {| RWATokenCalls.msg_sender := 1; RWATokenCalls.block_timestamp := 1020;
         RWATokenCalls.request := RWATokenCalls.DoAddToWhitelist 5 |} ]
    RWATokenSpec.deployed.

(** The users of the office, of whom ["0xaa05"] is an investor whose
    wallet holds no role on the ledger, and ["0xcc07"] an admin of the
    mirror. *)
Definition lobby : World :=
  {| chain := funded;
     emitted := [];
     users := users office ++
              [ {| EventSync.walletAddress := "0xcc07"; EventSync.nonce := "550120";
                   EventSync.userRole := EventSync.admin;
                   EventSync.isWhitelisted := false;
                   EventSync.kycStatus := EventSync.pending |} ];
     console := [] |}.

(** In the examples a token is the wallet it was issued to, and amounts
    are whole numbers of tokens. *)
Definition gate : Routes.Env :=
  {| Routes.auth :=
       {| AuthMiddleware.jwt_verify := fun token =>
            if String.eqb token "" then AuthMiddleware.JsonWebTokenError "jwt must be provided"
            else AuthMiddleware.Verified token;
          AuthMiddleware.findFault := None |};
     Routes.tokens :=
       {| TokenController.backend := backend None;
          TokenController.parseEther := fun text =>
            match NilZero.int_of_string text with
            | Some i => Ok (Z.of_int i * 10 ^ 18)
            | None => Throw "invalid FixedNumber string value"
            end |} |}.

End RouteSpec.

(** ** Vocabulary of the statements about the windows over time *)

Module EventSyncWindows.

Import EventSync EventSyncSpec.

(** Going through the requests from the cursor [cur], [last] being the
    window that the last [Transfer] query opened: a [Transfer] query opens
    the next window, which begins right above the cursor, is not empty and
    takes the cursor to its end; a query for logs of another kind is over
    the window last opened; other requests are passed over. The result is
    the cursor and the window reached; [None] when some query does
    neither. *)
Fixpoint scan (cur : Z) (last : option (Z * Z)) (calls : list RpcCall)
  : option (Z * option (Z * Z)) :=
  match calls with
  | [] => Some (cur, last)
  | CallQueryFilter FTransfer f t :: rest =>
      if bool_decide (f = cur + 1 /\ f <= t) then scan t (Some (f, t)) rest else None
  | CallQueryFilter _ f t :: rest =>
      if bool_decide (last = Some (f, t)) then scan cur last rest else None
  | _ :: rest => scan cur last rest
  end.

(** What a window sends after its [Transfer] query: queries for the other
    kinds of log over the same window, and lookups of blocks. *)
Definition follows (lo hi : Z) (call : RpcCall) : Prop :=
  match call with
  | CallQueryFilter f fromBlock toBlock => f <> FTransfer /\ fromBlock = lo /\ toBlock = hi
  | CallGetBlock _ => True
  | CallGetBlockNumber => False
  end.

(** The [Transfer] queries among the requests, as windows. *)
Fixpoint transfer_windows (calls : list RpcCall) : list (Z * Z) :=
  match calls with
  | [] => []
  | CallQueryFilter FTransfer f t :: rest => (f, t) :: transfer_windows rest
  | _ :: rest => transfer_windows rest
  end.

(** The windows lie end to end from the block above [cur] up to [stop]. *)
Fixpoint end_to_end (cur stop : Z) (ws : list (Z * Z)) : Prop :=
  match ws with
  | [] => cur = stop
  | (f, t) :: rest => f = cur + 1 /\ f <= t /\ end_to_end t stop rest
  end.

(** A service that is connected. *)
Definition connected (w : World) : Prop :=
  contract (service w) = true /\ provider (service w) = true.

(** A new process, before anything has been asked of it. *)
Definition fresh : World :=
  {| service := constructor; transactions := []; users := []; console := []; rpcTrace := [] |}.

End EventSyncWindows.

(** ** The event synchronizer on the event loop *)

(** [pollEvents] is an [async] function that the interval timer calls
    without waiting for it, and [startListening] calls it so too: while an
    iteration waits for the node or the database, the event loop runs
    whatever else is due - the next timer callback, a stop request. Here
    the [async] functions of the service are written once more with their
    [await]s as the points where they give way; [EventSync] above is what
    they do when nothing else runs in between. *)

Module EventLoop.

Import EventSync.

(** An [async] function as the event loop sees it: stretches that run
    without interruption ([Atomic], a step on the world and its outcome),
    the points where it waits ([Await]), and the calls of another [async]
    function that it does not wait for ([Spawn]). *)
Inductive Async (A : Type) : Type :=
| Return (a : A)
| Raise (message : string)
| Atomic {B : Type} (m : World -> B * World) (k : B -> Async A)
| Await (k : Async A)
| Spawn (child : Async unit) (k : Async A).
Arguments Return {A} a.
Arguments Raise {A} message.
Arguments Atomic {A B} m k.
Arguments Await {A} k.
Arguments Spawn {A} child k.

Fixpoint bindA {A B : Type} (t : Async A) (k : A -> Async B) : Async B :=
  match t with
  | Return a => k a
  | Raise e => Raise e
  | Atomic m k' => Atomic m (fun b => bindA (k' b) k)
  | Await k' => Await (bindA k' k)
  | Spawn child k' => Spawn child (bindA k' k)
  end.

(** [try { t } catch (error) { h error.message }]. *)
Fixpoint catchA {A : Type} (t : Async A) (h : string -> Async A) : Async A :=
  match t with
  | Return a => Return a
  | Raise e => h e
  | Atomic m k' => Atomic m (fun b => catchA (k' b) h)
  | Await k' => Await (catchA k' h)
  | Spawn child k' => Spawn child (catchA k' h)
  end.

(** [await t]: [t] runs; once it has returned or thrown, the caller
    waits for its turn to go on. *)
Fixpoint awaitA {A : Type} (t : Async A) : Async A :=
  match t with
  | Return a => Await (Return a)
  | Raise e => Await (Raise e)
  | Atomic m k' => Atomic m (fun b => awaitA (k' b))
  | Await k' => Await (awaitA k')
  | Spawn child k' => Spawn child (awaitA k')
  end.

(** A stretch of code without an [await]. Under [awaitA] it is a request
    to the node or the database: its effect and its answer are fixed when
    it is sent, and the answer is delivered when the caller goes on. *)
Definition sync {A : Type} (m : Js A) : Async A :=
  Atomic m (fun r => match r with Ok a => Return a | Throw e => Raise e end).

(** What the code reads of the world. *)
Definition read {B} (f : World -> B) : Js B := bind get (fun w => ret (f w)).

(** [for (const x of xs) { await body(x); }]. *)
Fixpoint forEachA {A} (xs : list A) (body : A -> Async unit) : Async unit :=
  match xs with
  | [] => Return tt
  | x :: rest => bindA (awaitA (body x)) (fun _ => forEachA rest body)
  end.

End EventLoop.

Declare Scope async_scope.
Delimit Scope async_scope with async.
Notation "x <- m ;; k" := (EventLoop.bindA m (fun x => k))
(at level 20, m at level 99, k at level 200, only parsing) : async_scope.
Notation "m ;; k" := (EventLoop.bindA m (fun _ => k))
(at level 100, k at level 200, right associativity, only parsing) : async_scope.

Module EventSyncAsync.

Import EventSync EventLoop.
Local Open Scope async_scope.

(** [await this.provider.<call>]; on [null] the [TypeError] is thrown at
    once. *)
Definition on_providerA {A} (call : RpcCall) (answer : result A) : Async A :=
  there <- sync (read (fun w => provider (service w))) ;;
  if there then awaitA (sync (rpc call answer))
  else Raise "Cannot read properties of null".

Definition on_contractA {A} (call : RpcCall) (answer : result A) : Async A :=
  there <- sync (read (fun w => contract (service w))) ;;
  if there then awaitA (sync (rpc call answer))
  else Raise "Cannot read properties of null".

Definition provider_getBlockA {A} (env : Env) (event : Log A) : Async (option Block) :=
  on_providerA (CallGetBlock (logBlockNumber event)) (getBlock env (logBlockNumber event)).

Definition processTransferEventA (env : Env) (event : Log (string * string * Z)) : Async unit :=
  catchA
    (found <- awaitA (sync (Transaction_findOne env (transactionHash event) Transfer)) ;;
     match found with
     | Some _ => Return tt
     | None =>
         block <- provider_getBlockA env event ;;
         awaitA (sync (Transaction_create env (transferDoc env event block))) ;;
         sync (console_log (processed_line "Transfer" (transactionHash event)))
     end)
    (fun message => sync (console_error "Error processing transfer event:" message)).

Definition processMintEventA (env : Env) (event : Log (string * Z * string)) : Async unit :=
  catchA
    (found <- awaitA (sync (Transaction_findOne env (transactionHash event) Mint)) ;;
     match found with
     | Some _ => Return tt
     | None =>
         block <- provider_getBlockA env event ;;
         awaitA (sync (Transaction_create env (mintDoc env event block))) ;;
         sync (console_log (processed_line "Mint" (transactionHash event)))
     end)
    (fun message => sync (console_error "Error processing mint event:" message)).

Definition processBurnEventA (env : Env) (event : Log (string * Z * string)) : Async unit :=
  catchA
    (found <- awaitA (sync (Transaction_findOne env (transactionHash event) Burn)) ;;
     match found with
     | Some _ => Return tt
     | None =>
         block <- provider_getBlockA env event ;;
         awaitA (sync (Transaction_create env (burnDoc env event block))) ;;
         sync (console_log (processed_line "Burn" (transactionHash event)))
     end)
    (fun message => sync (console_error "Error processing burn event:" message)).

Definition processWhitelistEventA (env : Env) (event : Log (string * bool)) : Async unit :=
  catchA
    (found <- awaitA (sync (Transaction_findOne env (transactionHash event) WhitelistUpdated)) ;;
     match found with
     | Some _ => Return tt
     | None =>
         block <- provider_getBlockA env event ;;
         awaitA (sync (Transaction_create env (whitelistDoc env event block))) ;;
         awaitA (sync (User_findOneAndUpdate env (JsString.toLowerCase (fst (args event)))
                         (snd (args event)))) ;;
         sync (console_log (processed_line "Whitelist" (transactionHash event)))
     end)
    (fun message => sync (console_error "Error processing whitelist event:" message)).

Definition processPauseEventA (env : Env) (event : Log string) (paused : bool) : Async unit :=
  catchA
    (let kind := if paused then Paused else Unpaused in
     found <- awaitA (sync (Transaction_findOne env (transactionHash event) kind)) ;;
     match found with
     | Some _ => Return tt
     | None =>
         block <- provider_getBlockA env event ;;
         awaitA (sync (Transaction_create env (pauseDoc env event paused block))) ;;
         sync (console_log (processed_line (eventTypeName kind) (transactionHash event)))
     end)
    (fun message => sync (console_error "Error processing pause event:" message)).

Definition queryEventsA (env : Env) (fromBlock toBlock : Z) : Async unit :=
  catchA
    (transferEvents <- on_contractA (CallQueryFilter FTransfer fromBlock toBlock)
                                    (queryTransfer env fromBlock toBlock) ;;
     forEachA transferEvents (processTransferEventA env) ;;
     mintEvents <- on_contractA (CallQueryFilter FTokensMinted fromBlock toBlock)
                                (queryTokensMinted env fromBlock toBlock) ;;
     forEachA mintEvents (processMintEventA env) ;;
     burnEvents <- on_contractA (CallQueryFilter FTokensBurned fromBlock toBlock)
                                (queryTokensBurned env fromBlock toBlock) ;;
     forEachA burnEvents (processBurnEventA env) ;;
     whitelistEvents <- on_contractA (CallQueryFilter FWhitelistUpdated fromBlock toBlock)
                                     (queryWhitelistUpdated env fromBlock toBlock) ;;
     forEachA whitelistEvents (processWhitelistEventA env) ;;
     pausedEvents <- on_contractA (CallQueryFilter FPaused fromBlock toBlock)
                                  (queryPaused env fromBlock toBlock) ;;
     forEachA pausedEvents (fun event => processPauseEventA env event true) ;;
     unpausedEvents <- on_contractA (CallQueryFilter FUnpaused fromBlock toBlock)
                                    (queryUnpaused env fromBlock toBlock) ;;
     forEachA unpausedEvents (fun event => processPauseEventA env event false))
    (fun message => sync (report_unless_filter_not_found "Error querying events:" message)).

(** The cursor is read when the head has arrived, and written when
    [queryEvents] has returned. *)
Definition pollEventsA (env : Env) : Async unit :=
  catchA
    (currentBlock <- on_providerA CallGetBlockNumber (getBlockNumber env) ;;
     last <- sync (read (fun w => lastProcessedBlock (service w))) ;;
     if (currentBlock <=? last)%Z then Return tt
     else
       let fromBlock := last + 1 in
       let toBlock := Z.min (fromBlock + BLOCKS_PER_QUERY - 1) currentBlock in
       awaitA (queryEventsA env fromBlock toBlock) ;;
       sync (modify (set_service (set_lastProcessedBlock toBlock))))
    (fun message => sync (report_unless_filter_not_found "Error polling events:" message)).

Definition initializeA (env : Env) : Async bool :=
  catchA
    (sync (modify (set_service (fun s => set_connection true (contract s) s))) ;;
     sync (lift (getContract env)) ;;
     sync (modify (set_service (set_connection true true))) ;;
     head <- on_providerA CallGetBlockNumber (getBlockNumber env) ;;
     sync (modify (set_service (set_lastProcessedBlock head))) ;;
     sync (console_log ("Event sync initialized at block " ++ JsString.bigintToString head)) ;;
     Return true)
    (fun message =>
       sync (console_error "Failed to initialize event sync:" message) ;; Return false).

(** [startListening()]: the first poll is called and not waited for. *)
Definition startListeningA (env0 env1 : Env) : Async unit :=
  running <- sync (read (fun w => isRunning (service w))) ;;
  if running then sync (console_log "Event sync is already running")
  else
    there <- sync (read (fun w => contract (service w))) ;;
    initialized <- (if there then Return true else awaitA (initializeA env0)) ;;
    if negb initialized
    then sync (console_error "Cannot start event sync - initialization failed" "")
    else
      sync (modify (set_service (set_isRunning true))) ;;
      sync (console_log "Starting blockchain event polling...") ;;
      sync (console_log "Polling interval: 15s") ;;
      Spawn (pollEventsA env1)
        (sync (modify (set_service
                         (set_pollingInterval (Some {| period := POLLING_INTERVAL_MS |})))) ;;
         sync (console_log "Event polling started successfully")).

(** *** The event loop *)

(** The world, and the calls that are waiting. *)
Record Loop : Type := {
  world : World;
  pending : list (Async unit);
}.

Definition idle (w : World) : Loop := {| world := w; pending := [] |}.

Definition finished {A : Type} (t : Async A) : bool :=
  match t with Return _ | Raise _ => true | _ => false end.

(** A call runs up to its next [await] or to its end: what is left of
    it, the calls it has started on the way, and the world. *)
Fixpoint advance {A : Type} (t : Async A) (w : World) : Async A * list (Async unit) * World :=
  match t with
  | Atomic m k => let (b, w') := m w in advance (k b) w'
  | Spawn child k =>
      let '(child', started, w1) := advance child w in
      let '(k', started', w2) := advance k w1 in
      (k', (started ++ child' :: started')%list, w2)
  | _ => (t, [], w)
  end.

(** What was awaited is there: the call goes on. *)
Definition resume {A : Type} (t : Async A) (w : World) : Async A * list (Async unit) * World :=
  match t with
  | Await k => advance k w
  | _ => advance t w
  end.

Definition waiting (ts : list (Async unit)) : list (Async unit) :=
  filter (fun t => negb (finished t)) ts.

(** A call is made. *)
Definition start (t : Async unit) (l : Loop) : Loop :=
  let '(t', started, w') := advance t (world l) in
  {| world := w'; pending := (pending l ++ waiting (started ++ [t']))%list |}.

(** The [n]th of the waiting calls goes on. *)
Definition settle (n : nat) (l : Loop) : Loop :=
  match pending l !! n with
  | Some t =>
      let '(t', started, w') := resume t (world l) in
      {| world := w';
         pending := (take n (pending l) ++ waiting [t'] ++ drop (S n) (pending l)
                     ++ waiting started)%list |}
  | None => l
  end.

(** What the event loop runs next: the callback of the interval timer
    (with the answers the outside world gives that call of [pollEvents]),
    a waiting call whose answer has arrived, a call of [stopListening] or
    of [startListening]. *)
Inductive Event : Type :=
| TimerFires (env : Env)
| Settles (n : nat)
| StopCalled
| StartCalled (env0 env1 : Env).

(** A cleared timer never fires. *)
Definition loop_step (l : Loop) (e : Event) : Loop :=
  match e with
  | TimerFires env =>
      match pollingInterval (service (world l)) with
      | Some _ => start (pollEventsA env) l
      | None => l
      end
  | Settles n => settle n l
  | StopCalled => {| world := snd (stopListening (world l)); pending := pending l |}
  | StartCalled env0 env1 => start (startListeningA env0 env1) l
  end.

Definition loop_run (events : list Event) (l : Loop) : Loop :=
  fold_left loop_step events l.

(** What a call does when nothing else runs before it ends. *)
Fixpoint finish {A : Type} (t : Async A) : Js A :=
  match t with
  | Return a => ret a
  | Raise e => throw e
  | Atomic m k => fun w => let (b, w') := m w in finish (k b) w'
  | Await k => finish k
  | Spawn child k => fun w => finish k (snd (finish child w))
  end.

End EventSyncAsync.

(** ** Vocabulary of the statements about calls in flight *)

Module EventLoopSpec.

Import EventSync EventSyncSpec EventLoop EventSyncAsync.

(** Two worlds that differ at most in the timer, the running flag and
    the console. *)
Definition apart_from_the_timer (w w' : World) : Prop :=
  contract (service w) = contract (service w') /\
  provider (service w) = provider (service w') /\
  cursor w = cursor w' /\
  transactions w = transactions w' /\
  users w = users w' /\
  rpcTrace w = rpcTrace w'.

(** A stretch of code that neither reads nor writes the timer and the
    running flag, and does not read the console: on two such worlds it
    has the same outcome and leaves two such worlds. *)
Definition unaware {B : Type} (m : World -> B * World) : Prop :=
  (forall w w', apart_from_the_timer w w' ->
     fst (m w) = fst (m w') /\ apart_from_the_timer (snd (m w)) (snd (m w'))) /\
  (forall w, timer_of (snd (m w)) = timer_of w).

(** A call all of whose stretches are so, and that starts no other call. *)
Fixpoint blind {A : Type} (t : Async A) : Prop :=
  match t with
  | Return _ | Raise _ => True
  | Atomic m k => unaware m /\ forall b, blind (k b)
  | Await k => blind k
  | Spawn _ _ => False
  end.

(** [t] does, uninterrupted, what [m] does. *)
Definition does {A : Type} (t : Async A) (m : Js A) : Prop := forall w, finish t w = m w.

(** A call that has stopped: it is waiting, or it has ended. *)
Definition stopped {A : Type} (t : Async A) : Prop :=
  match t with
  | Return _ | Raise _ | Await _ => True
  | _ => False
  end.

(** A stop request or the arrival of an answer. *)
Definition stop_or_settle (e : Event) : Prop :=
  match e with
  | StopCalled | Settles _ => True
  | _ => False
  end.




End EventLoopSpec.

(** ** Reasoning about computations *)

Module JsFacts.
Section WithWorld.
Context {W : Type}.
Implicit Types (w : W).

Lemma total_ret {A} (a : A) : total (W := W) (ret a).
Proof. intros w. by exists a, w. Qed.

Lemma total_modify (f : W -> W) : total (modify f).
Proof. intros w. by exists tt, (f w). Qed.


Lemma total_bind {A B} (m : Js A) (k : A -> Js B) :
  total m -> (forall a, total (k a)) -> total (W := W) (bind m k).
Proof.
  intros Hm Hk w. destruct (Hm w) as (a & w1 & E).
  destruct (Hk a w1) as (b & w2 & E2).
  exists b, w2. unfold bind. by rewrite E.
Qed.

(** A [try] whose handler cannot throw never throws, whatever its body does. *)
Lemma total_try_catch {A} (m : Js A) (h : string -> Js A) :
  (forall e, total (h e)) -> total (W := W) (try_catch m h).
Proof.
  intros Hh w. unfold try_catch.
  destruct (m w) as [[a|e] w1]; [by exists a, w1 | apply Hh].
Qed.

Lemma total_forEach {A} (xs : list A) (body : A -> Js unit) :
  (forall x, total (body x)) -> total (W := W) (forEach xs body).
Proof.
  intros Hb. induction xs as [|x xs IH]; simpl.
  - apply total_ret.
  - apply total_bind; [apply Hb | intros _; apply IH].
Qed.

Section Steps.
Context (R : W -> W -> Prop) `{!PreOrder R}.

Lemma steps_ret {A} (a : A) : steps R (ret a).
Proof. intros w r w' E. injection E as _ <-. reflexivity. Qed.

Lemma steps_throw {A} msg : steps R (throw (A := A) msg).
Proof. intros w r w' E. injection E as _ <-. reflexivity. Qed.

Lemma steps_lift {A} (r0 : result A) : steps R (lift r0).
Proof. intros w r w' E. injection E as _ <-. reflexivity. Qed.

Lemma steps_get : steps R get.
Proof. intros w r w' E. injection E as _ <-. reflexivity. Qed.

Lemma steps_modify (f : W -> W) : (forall w, R w (f w)) -> steps R (modify f).
Proof. intros Hf w r w' E. injection E as _ <-. apply Hf. Qed.

Lemma steps_bind {A B} (m : Js A) (k : A -> Js B) :
  steps R m -> (forall a, steps R (k a)) -> steps R (bind m k).
Proof.
  intros Hm Hk w r w' E. unfold bind in E.
  destruct (m w) as [[a|e] w1] eqn:Em.
  - transitivity w1; [eapply Hm, Em | eapply Hk, E].
  - injection E as _ <-. eapply Hm, Em.
Qed.

Lemma steps_try_catch {A} (m : Js A) (h : string -> Js A) :
  steps R m -> (forall e, steps R (h e)) -> steps R (try_catch m h).
Proof.
  intros Hm Hh w r w' E. unfold try_catch in E.
  destruct (m w) as [[a|e] w1] eqn:Em.
  - injection E as _ <-. eapply Hm, Em.
  - transitivity w1; [eapply Hm, Em | eapply Hh, E].
Qed.

Lemma steps_forEach {A} (xs : list A) (body : A -> Js unit) :
  (forall x, steps R (body x)) -> steps R (forEach xs body).
Proof.
  intros Hb. induction xs as [|x xs IH]; simpl.
  - apply steps_ret.
  - apply steps_bind; [apply Hb | intros _; apply IH].
Qed.

End Steps.
End WithWorld.
End JsFacts.

(** ** The ledger contract: checks of [mint], whitelist calls, deployment *)

Module RWATokenFacts.

Import RWAToken RWATokenSpec.
Local Open Scope sol_scope.

Ltac run_tx :=
  unfold call, mint, addToWhitelist, removeFromWhitelist, pause, unpause,
    _mint, _update, ERC20_update, _pause, _unpause, onlyRole, whenNotPaused,
    whenPaused, require, andThen, read, write, emit, pure, revert; simpl.

(** C4, as stated, fails: an issuer minting to a recipient that is not
    whitelisted while the ledger is paused is turned away by the pause
    switch ([EnforcedPause]), where the listed order promises
    [NotWhitelisted]. *)
Lemma C4_paused_mint_to_unlisted_reports_pause :
  hasRole deployed_paused ISSUER_ROLE 1 = true /\
  whitelisted deployed_paused 7 = false /\
  paused deployed_paused = true /\
  spec_canMint deployed_paused 1 7 5 = Some NotWhitelisted /\
  call (mint 1 7 5 "allocation") deployed_paused = Reverted EnforcedPause /\
  taxonomy EnforcedPause = LedgerPaused.
Proof. vm_compute. repeat split; reflexivity. Qed.

(** A check of [mint] has failed: the call is not a success, and it
    reverts with that check's error. *)
Ltac mint_refused :=
  split; [|split];
  [ split; [intros (? & ? & ?); discriminate | intros [? ?]; first [discriminate | tauto]]
  | intros e E; first [discriminate | by injection E as <-]
  | intros ? ? ?; discriminate ].

(** Every way [mint] can end, by the checks in the order it runs them. *)
Lemma mint_outcome (st : State) (sender to : address) (amount : Z) (reason : string) :
  (succeeded (call (mint sender to amount reason) st) <->
     first_failing_check st sender to amount = None /\ erc20_accepts st to amount) /\
  (forall e, first_failing_check st sender to amount = Some e ->
     call (mint sender to amount reason) st = Reverted e) /\
  (forall st' evs, call (mint sender to amount reason) st = Success st' evs ->
     evs = [Transfer zero_address to amount; TokensMinted to amount reason] /\
     balanceOf st' to = balanceOf st to + amount /\
     totalSupply st' = totalSupply st + amount).
Proof.
  unfold succeeded, first_failing_check, erc20_accepts.
  run_tx.
  destruct (hasRole st ISSUER_ROLE sender) eqn:Hrole; simpl; [|mint_refused].
  destruct (paused st) eqn:Hp; simpl; [mint_refused|].
  destruct (whitelisted st to) eqn:Hw; simpl; [|mint_refused].
  case_bool_decide as Hamt; simpl; [|mint_refused].
  case_bool_decide as Hto; simpl; [mint_refused|].
  rewrite Hp. simpl.
  case_bool_decide as Hsup; simpl; [|mint_refused].
  split; [|split].
  - split; [intros _; done | intros _; eauto].
  - intros ? ?; discriminate.
  - intros st' evs [= <- <-]. split; [done|]. split; [|done].
    unfold balanceOf; simpl. by rewrite lookup_insert_eq.
Qed.

(** C4 (amended): [mint] succeeds exactly when the caller holds the issuer
    role, the ledger is not paused, the recipient is whitelisted and the
    amount is positive (and the inherited ERC20 accepts the recipient and
    the new supply); otherwise it reverts with the first failing check in
    the order Unauthorized, Paused, NotWhitelisted, InvalidAmount. *)
Theorem C4_mint_first_failing_check (st : State) (sender to : address) (amount : Z) (reason : string) :
  (succeeded (call (mint sender to amount reason) st) <->
     hasRole st ISSUER_ROLE sender = true /\
     paused st = false /\
     whitelisted st to = true /\
     amount > 0 /\
     erc20_accepts st to amount) /\
  (hasRole st ISSUER_ROLE sender = false ->
     call (mint sender to amount reason) st =
       Reverted (AccessControlUnauthorizedAccount sender ISSUER_ROLE)) /\
  (hasRole st ISSUER_ROLE sender = true -> paused st = true ->
     call (mint sender to amount reason) st = Reverted EnforcedPause) /\
  (hasRole st ISSUER_ROLE sender = true -> paused st = false ->
   whitelisted st to = false ->
     call (mint sender to amount reason) st =
       Reverted (Error "RWAToken: recipient not whitelisted")) /\
  (hasRole st ISSUER_ROLE sender = true -> paused st = false ->
   whitelisted st to = true -> amount <= 0 ->
     call (mint sender to amount reason) st =
       Reverted (Error "RWAToken: amount must be greater than 0")) /\
  taxonomy (AccessControlUnauthorizedAccount sender ISSUER_ROLE) = Unauthorized /\
  taxonomy EnforcedPause = LedgerPaused /\
  taxonomy (Error "RWAToken: recipient not whitelisted") = NotWhitelisted /\
  taxonomy (Error "RWAToken: amount must be greater than 0") = InvalidAmount.
Proof.
  destruct (mint_outcome st sender to amount reason) as (Hiff & Herr & _).
  unfold first_failing_check in Hiff, Herr.
  split; [|split; [|split; [|split; [|split]]]].
  - rewrite Hiff. split.
    + intros [Hnone Herc].
      destruct (hasRole st ISSUER_ROLE sender); [|discriminate].
      destruct (paused st); [discriminate|].
      destruct (whitelisted st to); [|discriminate].
      simpl in Hnone. case_bool_decide; [|discriminate]. done.
    + intros (-> & -> & -> & Hamt & Herc). simpl.
      by rewrite bool_decide_eq_true_2.
  - intros Hrole. apply Herr. by rewrite Hrole.
  - intros Hrole Hp. apply Herr. by rewrite Hrole, Hp.
  - intros Hrole Hp Hw. apply Herr. by rewrite Hrole, Hp, Hw.
  - intros Hrole Hp Hw Hamt. apply Herr. rewrite Hrole, Hp, Hw. simpl.
    rewrite bool_decide_eq_false_2 by lia. done.
  - repeat split; reflexivity.
Qed.

(** C4 on the paused ledger: the issuer's mint to the listed deployer
    reverts with [EnforcedPause]. *)
Lemma C4_paused_mint_by_the_issuer :
  hasRole deployed_paused ISSUER_ROLE 1 = true /\
  paused deployed_paused = true /\
  call (mint 1 1 5 "allocation") deployed_paused = Reverted EnforcedPause.
Proof.
  assert (Hrole : hasRole deployed_paused ISSUER_ROLE 1 = true) by (vm_compute; reflexivity).
  assert (Hp : paused deployed_paused = true) by (vm_compute; reflexivity).
  split; [exact Hrole|]. split; [exact Hp|].
  destruct (C4_mint_first_failing_check deployed_paused 1 1 5 "allocation")
    as (_ & _ & Hpaused & _).
  exact (Hpaused Hrole Hp).
Defined.

(** *** Deployment *)

Lemma hasRole_grant (st : State) (role r : Role) (account a : address) :
  hasRole (set_roles (fun m => <[(role, account) := true]> m) st) r a =
  (bool_decide ((role, account) = (r, a)) || hasRole st r a)%bool.
Proof.
  unfold hasRole; simpl. case_bool_decide as E.
  - rewrite E. by rewrite lookup_insert_eq.
  - by rewrite lookup_insert_ne.
Qed.

Lemma deploy_outcome (sender : address) (ts : Z) (name_ symbol_ ct u : string) (q : Z)
    (sl ch : string) :
  deploy sender ts name_ symbol_ ct u q sl ch =
  Success (constructed sender ts name_ symbol_ ct u q sl ch)
    [RoleGranted DEFAULT_ADMIN_ROLE sender sender;
     RoleGranted ADMIN_ROLE sender sender;
     RoleGranted ISSUER_ROLE sender sender;
     WhitelistUpdated sender true;
     AssetMetadataUpdated ct u q sl ch].
Proof.
  unfold deploy, call, constructor, _grantRole, andThen, read, write, emit, pure.
  cbn [fst snd].
  replace (hasRole (empty_storage name_ symbol_) DEFAULT_ADMIN_ROLE sender) with false
    by (unfold hasRole; simpl; by rewrite lookup_empty).
  cbn [negb fst snd app].
  rewrite hasRole_grant.
  replace (hasRole (empty_storage name_ symbol_) ADMIN_ROLE sender) with false
    by (unfold hasRole; simpl; by rewrite lookup_empty).
  rewrite bool_decide_eq_false_2 by congruence.
  cbn [negb orb fst snd app].
  rewrite !hasRole_grant.
  replace (hasRole (empty_storage name_ symbol_) ISSUER_ROLE sender) with false
    by (unfold hasRole; simpl; by rewrite lookup_empty).
  rewrite !bool_decide_eq_false_2 by congruence.
  cbn [negb orb fst snd app].
  reflexivity.
Qed.

(** C9: deployment grants the deployer the three roles, whitelists the
    deployer with [WhitelistUpdated(deployer, true)], and emits the first
    [AssetMetadataUpdated]; the whitelist is not empty, the ledger starts
    unpaused, and the deployer can mint at once. *)
Theorem C9_deployer_holds_roles_and_can_mint (sender : address) (ts : Z)
    (name_ symbol_ ct u : string) (q : Z) (sl ch : string) :
  exists st,
    deploy sender ts name_ symbol_ ct u q sl ch =
      Success st [RoleGranted DEFAULT_ADMIN_ROLE sender sender;
                  RoleGranted ADMIN_ROLE sender sender;
                  RoleGranted ISSUER_ROLE sender sender;
                  WhitelistUpdated sender true;
                  AssetMetadataUpdated ct u q sl ch] /\
    hasRole st DEFAULT_ADMIN_ROLE sender = true /\
    hasRole st ADMIN_ROLE sender = true /\
    hasRole st ISSUER_ROLE sender = true /\
    whitelisted st sender = true /\
    whitelist st <> ∅ /\
    paused st = false /\
    (sender <> zero_address ->
     forall amount reason, 0 < amount <= MAX_UINT256 ->
       exists st' evs, call (mint sender sender amount reason) st = Success st' evs /\
                       balanceOf st' sender = amount).
Proof.
  exists (constructed sender ts name_ symbol_ ct u q sl ch).
  split; [apply deploy_outcome|].
  assert (Hissuer : hasRole (constructed sender ts name_ symbol_ ct u q sl ch) ISSUER_ROLE sender = true).
  { unfold hasRole; simpl. by rewrite lookup_insert_eq. }
  assert (Hlisted : whitelisted (constructed sender ts name_ symbol_ ct u q sl ch) sender = true).
  { unfold whitelisted; simpl. by rewrite lookup_insert_eq. }
  repeat split.
  - unfold hasRole; simpl.
    rewrite !lookup_insert_ne by congruence. by rewrite lookup_insert_eq.
  - unfold hasRole; simpl.
    rewrite lookup_insert_ne by congruence. by rewrite lookup_insert_eq.
  - exact Hissuer.
  - exact Hlisted.
  - simpl. apply insert_non_empty.
  - intros Hsender amount reason [Hpos Hmax].
    destruct (mint_outcome (constructed sender ts name_ symbol_ ct u q sl ch)
                sender sender amount reason) as (Hiff & _ & Hpost).
    destruct (proj2 Hiff) as (st' & evs & E).
    { split.
      - unfold first_failing_check. rewrite Hissuer, Hlisted. simpl.
        rewrite bool_decide_eq_true_2 by lia. reflexivity.
      - split; [exact Hsender | simpl; lia]. }
    exists st', evs. split; [exact E|].
    destruct (Hpost st' evs E) as (_ & Hbal & _). rewrite Hbal.
    unfold balanceOf; simpl. rewrite lookup_empty. simpl. lia.
Qed.

(** C9 at the deployment of the test fixture: account [1] mints 100 units
    to itself in the first state. *)
Lemma C9_deployer_mints_in_fixture :
  exists st' evs,
    call (mint 1 1 100 "Initial allocation") deployed = Success st' evs /\
    balanceOf st' 1 = 100.
Proof.
  destruct (C9_deployer_holds_roles_and_can_mint 1 1000 "Gold Token" "GLDT" "GOLD" "oz" 1000
              "Vault A, London" "QmHash123456789") as (st & Hdeploy & H).
  destruct H as (_ & _ & _ & _ & _ & _ & Hmint).
  assert (st = deployed) as ->.
  { unfold deployed. rewrite Hdeploy. reflexivity. }
  apply Hmint; [discriminate | unfold MAX_UINT256; lia].
Defined.

(** *** Whitelist calls *)

Lemma whitelisted_insert (st : State) (a x : address) :
  whitelisted (set_whitelist (fun m => <[a := true]> m) st) x =
  (bool_decide (a = x) || whitelisted st x)%bool.
Proof.
  unfold whitelisted; simpl. case_bool_decide as E.
  - subst. by rewrite lookup_insert_eq.
  - by rewrite lookup_insert_ne.
Qed.

Lemma addToWhitelist_outcome (st : State) (sender account : address) :
  hasRole st ADMIN_ROLE sender = true ->
  call (addToWhitelist sender account) st =
    if bool_decide (account = zero_address) then Reverted (Error "RWAToken: zero address")
    else if whitelisted st account then Reverted (Error "RWAToken: already whitelisted")
    else Success (set_whitelist (fun m => <[account := true]> m) st)
                 [WhitelistUpdated account true].
Proof.
  intros Hadmin. run_tx. rewrite Hadmin. simpl.
  case_bool_decide; simpl; [done|].
  destruct (whitelisted st account); reflexivity.
Qed.

Lemma removeFromWhitelist_outcome (st : State) (sender account : address) :
  hasRole st ADMIN_ROLE sender = true ->
  call (removeFromWhitelist sender account) st =
    if whitelisted st account
    then Success (set_whitelist (fun m => <[account := false]> m) st)
                 [WhitelistUpdated account false]
    else Reverted (Error "RWAToken: not whitelisted").
Proof.
  intros Hadmin. run_tx. rewrite Hadmin. simpl.
  destruct (whitelisted st account); reflexivity.
Qed.

(** The loop never reverts; it lists exactly the entries that are neither
    the zero address nor listed already, each once, and announces each. *)
Lemma batch_loop (accounts : list address) :
  forall (st : State) (evs : list Event),
  exists (st' : State) (new : list address),
    forEach accounts batch_step (st, evs) =
      inr (tt, (st', (evs ++ map (fun a => WhitelistUpdated a true) new)%list)) /\
    st' = set_whitelist (fun _ => whitelist st') st /\
    (forall x, whitelisted st' x =
               (whitelisted st x ||
                (bool_decide (x ∈ accounts) && negb (bool_decide (x = zero_address))))%bool) /\
    NoDup new /\
    (forall x, x ∈ new <-> x ∈ accounts /\ x <> zero_address /\ whitelisted st x = false).
Proof.
  induction accounts as [|a rest IH]; intros st evs.
  - exists st, []. simpl. rewrite app_nil_r.
    split; [reflexivity|]. split; [by destruct st|].
    split; [intros x; by rewrite orb_false_r|].
    split; [constructor|].
    intros x. split; [intros Hx | intros (Hx & _)]; by apply elem_of_nil in Hx.
  - simpl. unfold andThen at 1. unfold batch_step at 1.
    unfold andThen, read, write, emit, pure. cbn [fst snd].
    destruct (negb (bool_decide (a = zero_address)) && negb (whitelisted st a))%bool eqn:Hcond.
    + apply andb_true_iff in Hcond as [Hnz Hnl].
      apply negb_true_iff, bool_decide_eq_false in Hnz.
      apply negb_true_iff in Hnl.
      destruct (IH (set_whitelist (fun m => <[a := true]> m) st)
                   (evs ++ [WhitelistUpdated a true])%list)
        as (st' & new & E & Hframe & Hlisted & Hnodup & Hnew).
      exists st', (a :: new). cbn [fst snd]. rewrite E. simpl. rewrite <- app_assoc. simpl.
      split; [reflexivity|]. split.
      { rewrite Hframe at 1. reflexivity. }
      split.
      { intros x. rewrite Hlisted, whitelisted_insert.
        destruct (decide (a = x)) as [->|Hne].
        - rewrite (bool_decide_eq_true_2 (x = x)) by done.
          rewrite (bool_decide_eq_true_2 (x ∈ x :: rest)) by (apply elem_of_cons; by left).
          rewrite (bool_decide_eq_false_2 (x = zero_address)) by done.
          simpl. by rewrite orb_true_r.
        - rewrite (bool_decide_eq_false_2 (a = x)) by done. simpl.
          f_equal. f_equal. apply bool_decide_ext. rewrite elem_of_cons. intuition (subst; try congruence; auto). }
      split.
      { constructor; [|exact Hnodup].
        intros Hin. apply Hnew in Hin as (_ & _ & Hl).
        rewrite whitelisted_insert, bool_decide_eq_true_2 in Hl by done. discriminate. }
      intros x. rewrite !elem_of_cons, Hnew, whitelisted_insert. split.
      * intros [->|(Hin & Hxz & Hl)]; [intuition (subst; try congruence; auto)|].
        apply orb_false_iff in Hl as [_ Hl]. intuition (subst; try congruence; auto).
      * intros ([->|Hin] & Hxz & Hl); [by left|].
        destruct (decide (a = x)) as [->|Hne]; [by left|right].
        rewrite (bool_decide_eq_false_2 (a = x)) by done. intuition (subst; try congruence; auto).
    + destruct (IH st evs) as (st' & new & E & Hframe & Hlisted & Hnodup & Hnew).
      exists st', new. cbn [fst snd]. rewrite E.
      split; [reflexivity|]. split; [exact Hframe|].
      apply andb_false_iff in Hcond.
      split.
      { intros x. rewrite Hlisted.
        destruct (decide (x = a)) as [->|Hne].
        - rewrite (bool_decide_eq_true_2 (a ∈ a :: rest)) by (apply elem_of_cons; by left).
          destruct Hcond as [Hz|Hl].
          + apply negb_false_iff in Hz. rewrite Hz. simpl.
            by rewrite andb_false_r.
          + apply negb_false_iff in Hl. by rewrite Hl.
        - f_equal. f_equal. apply bool_decide_ext. rewrite elem_of_cons. intuition (subst; try congruence; auto). }
      split; [exact Hnodup|].
      intros x. rewrite Hnew, elem_of_cons. split; [intuition (subst; try congruence; auto)|].
      intros ([->|Hin] & Hxz & Hl); [|intuition (subst; try congruence; auto)].
      destruct Hcond as [Hz|Hl'].
      * apply negb_false_iff, bool_decide_eq_true in Hz. contradiction.
      * apply negb_false_iff in Hl'. congruence.
Qed.

Lemma batchAddToWhitelist_outcome (st : State) (sender : address) (accounts : list address) :
  hasRole st ADMIN_ROLE sender = true ->
  exists (st' : State) (new : list address),
    call (batchAddToWhitelist sender accounts) st =
      Success st' (map (fun a => WhitelistUpdated a true) new) /\
    st' = set_whitelist (fun _ => whitelist st') st /\
    (forall x, whitelisted st' x =
               (whitelisted st x ||
                (bool_decide (x ∈ accounts) && negb (bool_decide (x = zero_address))))%bool) /\
    NoDup new /\
    (forall x, x ∈ new <-> x ∈ accounts /\ x <> zero_address /\ whitelisted st x = false).
Proof.
  intros Hadmin.
  destruct (batch_loop accounts st []) as (st' & new & E & H).
  exists st', new. split; [|exact H].
  change (batchAddToWhitelist sender accounts)
    with (andThen (onlyRole ADMIN_ROLE sender) (fun _ => forEach accounts batch_step)).
  unfold call, andThen at 1. unfold onlyRole, andThen, read, pure. cbn [fst snd].
  rewrite Hadmin, E. reflexivity.
Qed.

(** The controller answers 400 before it sends anything when the request
    would repeat the present state. *)
Lemma controller_refuses_redundant_request (env : WhitelistController.Env)
    (text : string) (a : address) (w : WhitelistController.World) :
  WhitelistController.getContractWithSigner env = Ok tt ->
  WhitelistController.transport env = None ->
  WhitelistController.toAddress env text = Some a ->
  (whitelisted (WhitelistController.chain w) a = true ->
   WhitelistController.addToWhitelist env text w =
     (Ok (WhitelistController.bad_request "Address is already whitelisted"), w)) /\
  (whitelisted (WhitelistController.chain w) a = false ->
   WhitelistController.removeFromWhitelist env text w =
     (Ok (WhitelistController.bad_request "Address is not whitelisted"), w)).
Proof.
  intros Hconn Htransport Haddr.
  split; intros Hlisted.
  - unfold WhitelistController.addToWhitelist, WhitelistController.encode,
      WhitelistController.view, try_catch, bind, lift, get, ret, isWhitelisted.
    rewrite Hconn, Haddr, Htransport, Hlisted. reflexivity.
  - unfold WhitelistController.removeFromWhitelist, WhitelistController.encode,
      WhitelistController.view, try_catch, bind, lift, get, ret, isWhitelisted.
    rewrite Hconn, Haddr, Htransport, Hlisted. reflexivity.
Qed.

(** C5, as stated, fails: on the deployed ledger the admin's request to
    add the already listed account [1] reverts, and so does the request to
    remove the unlisted account [9]; neither is a no-op that succeeds. *)
Lemma C5_redundant_single_request_reverts :
  hasRole deployed ADMIN_ROLE 1 = true /\
  whitelisted deployed 1 = true /\
  call (addToWhitelist 1 1) deployed = Reverted (Error "RWAToken: already whitelisted") /\
  whitelisted deployed 9 = false /\
  call (removeFromWhitelist 1 9) deployed = Reverted (Error "RWAToken: not whitelisted").
Proof. vm_compute. repeat split; reflexivity. Qed.

(** C5 (amended): for a caller with the admin role the single-address
    calls reject a redundant request: adding a listed account reverts
    (already whitelisted, or zero address), removing an unlisted one
    reverts (not whitelisted), and the controller answers such a request
    with status 400 without sending it. The batch form never reverts: it
    lists each entry that is neither the zero address nor listed, once,
    with one event each, and skips the others. *)
Theorem C5_single_calls_reject_batch_call_skips (st : State) (sender : address) :
  hasRole st ADMIN_ROLE sender = true ->
  (forall account, whitelisted st account = true ->
     call (addToWhitelist sender account) st =
       Reverted (Error (if bool_decide (account = zero_address)
                        then "RWAToken: zero address"
                        else "RWAToken: already whitelisted"))) /\
  (forall account, whitelisted st account = false ->
     call (removeFromWhitelist sender account) st =
       Reverted (Error "RWAToken: not whitelisted")) /\
  (forall accounts, exists st' new,
     call (batchAddToWhitelist sender accounts) st =
       Success st' (map (fun a => WhitelistUpdated a true) new) /\
     st' = set_whitelist (fun _ => whitelist st') st /\
     (forall x, whitelisted st' x =
                (whitelisted st x ||
                 (bool_decide (x ∈ accounts) && negb (bool_decide (x = zero_address))))%bool) /\
     NoDup new /\
     (forall x, x ∈ new <-> x ∈ accounts /\ x <> zero_address /\ whitelisted st x = false)) /\
  (forall env text a w,
     WhitelistController.chain w = st ->
     WhitelistController.getContractWithSigner env = Ok tt ->
     WhitelistController.transport env = None ->
     WhitelistController.toAddress env text = Some a ->
     (whitelisted st a = true ->
      WhitelistController.addToWhitelist env text w =
        (Ok (WhitelistController.bad_request "Address is already whitelisted"), w)) /\
     (whitelisted st a = false ->
      WhitelistController.removeFromWhitelist env text w =
        (Ok (WhitelistController.bad_request "Address is not whitelisted"), w))).
Proof.
  intros Hadmin. split; [|split; [|split]].
  - intros account Hlisted. rewrite addToWhitelist_outcome by exact Hadmin.
    rewrite Hlisted. by case_bool_decide.
  - intros account Hlisted. rewrite removeFromWhitelist_outcome by exact Hadmin.
    by rewrite Hlisted.
  - intros accounts. by apply batchAddToWhitelist_outcome.
  - intros env text a w <-. apply controller_refuses_redundant_request.
Qed.

(** C5 at the deployed ledger: the admin's batch with a listed entry, the
    zero address and a repeated entry succeeds and lists [5] and [6]. *)
Lemma C5_batch_on_deployed_ledger :
  hasRole deployed ADMIN_ROLE 1 = true /\
  exists st' new,
    call (batchAddToWhitelist 1 [1; 0; 5; 5; 6]) deployed =
      Success st' (map (fun a => WhitelistUpdated a true) new) /\
    whitelisted st' 5 = true /\ whitelisted st' 0 = false.
Proof.
  assert (Hadmin : hasRole deployed ADMIN_ROLE 1 = true) by (vm_compute; reflexivity).
  split; [exact Hadmin|].
  destruct (C5_single_calls_reject_batch_call_skips deployed 1 Hadmin) as (_ & _ & Hbatch & _).
  destruct (Hbatch [1; 0; 5; 5; 6]) as (st' & new & E & _ & Hlisted & _).
  exists st', new. split; [exact E|].
  rewrite !Hlisted. split; vm_compute; reflexivity.
Defined.

End RWATokenFacts.

(** ** [verifySignature] *)

Module BlockchainFacts.

Import Blockchain BlockchainSpec.

(** Comparing the lower-cased strings is comparing up to case. *)
Lemma equal_ignoring_case_toLowerCase (a b : string) :
  equal_ignoring_case a b <-> JsString.toLowerCase a = JsString.toLowerCase b.
Proof.
  revert b. induction a as [|x a IH]; intros [|y b]; simpl; try (split; [tauto | discriminate]).
  - tauto.
  - rewrite IH. split.
    + intros [-> ->]. reflexivity.
    + intros [= Hx Hab]. by split.
Qed.

(** C10: [verifySignature] always returns a boolean and never throws; the
    boolean is [true] exactly when [ethers.verifyMessage] recovers an
    address equal, up to case, to the expected one, and [false] whenever
    the recovery throws. *)
Theorem C10_verifySignature_total_and_exact
    (verifyMessage : JsValue -> JsValue -> result string)
    (message signature expectedAddress : JsValue) (c : list EventSync.ConsoleLine) :
  exists b c',
    verifySignature verifyMessage message signature expectedAddress c = (Ok b, c') /\
    (b = true <->
       exists recovered expected,
         verifyMessage message signature = Ok recovered /\
         expectedAddress = JsStr expected /\
         equal_ignoring_case recovered expected) /\
    (forall err, verifyMessage message signature = Throw err -> b = false).
Proof.
  unfold verifySignature, try_catch, bind, lift, toLowerCase_of, ret, throw, modify.
  destruct (verifyMessage message signature) as [recovered|err] eqn:E.
  - destruct expectedAddress as [| | flag | n | expected |];
      try (eexists false, _; split; [reflexivity|];
           split; [split; [discriminate | intros (? & ? & _ & ? & _); discriminate]
                  | intros ?; discriminate]).
    eexists _, _. split; [reflexivity|]. split; [|intros ?; discriminate].
    rewrite String.eqb_eq, <- equal_ignoring_case_toLowerCase. split.
    + intros H. by exists recovered, expected.
    + intros (r & e & [= <-] & [= <-] & H). exact H.
  - eexists false, _. split; [reflexivity|]. split; [|reflexivity].
    split; [discriminate | intros (? & ? & ? & _); discriminate].
Qed.

(** C10 with that recovery: the known signature is accepted for the
    lower-case spelling of its signer, and a malformed one is refused. *)
Lemma C10_known_signature_is_accepted :
  fst (verifySignature one_signer (JsStr "Nonce: 704355") (JsStr "0x5161") (JsStr "0xabc1") [])
    = Ok true /\
  fst (verifySignature one_signer (JsStr "Nonce: 704355") (JsStr "0x00") (JsStr "0xabc1") [])
    = Ok false.
Proof.
  split.
  - destruct (C10_verifySignature_total_and_exact one_signer (JsStr "Nonce: 704355")
                (JsStr "0x5161") (JsStr "0xabc1") []) as (b & c' & E & Hiff & _).
    rewrite E. simpl. f_equal. apply Hiff.
    exists "0xAbC1", "0xabc1". repeat split; reflexivity.
  - destruct (C10_verifySignature_total_and_exact one_signer (JsStr "Nonce: 704355")
                (JsStr "0x00") (JsStr "0xabc1") []) as (b & c' & E & _ & Hthrow).
    rewrite E. simpl. f_equal. by eapply Hthrow.
Defined.

End BlockchainFacts.

(** ** The event synchronizer: cursor, history, timer *)

Module EventSyncFacts.

Import EventSync EventSyncSpec.

(** *** What the handlers and a window leave alone *)

#[local] Instance keeps_preorder {A} (proj : World -> A) : PreOrder (keeps proj).
Proof.
  split.
  - intros w. reflexivity.
  - intros w1 w2 w3 H12 H23. unfold keeps in *. congruence.
Qed.

Ltac open_handlers :=
  unfold processTransferEvent, processMintEvent, processBurnEvent,
    processWhitelistEvent, processPauseEvent, provider_getBlock,
    on_provider, on_contract, rpc, Transaction_findOne, Transaction_create,
    User_findOneAndUpdate, console_log, console_error,
    report_unless_filter_not_found.

(** Walk through a computation, leaving one goal per write to the world. *)
Ltac walk1 :=
  first
    [ apply JsFacts.steps_ret; [exact _]
    | apply JsFacts.steps_throw; [exact _]
    | apply JsFacts.steps_lift; [exact _]
    | apply JsFacts.steps_get; [exact _]
    | apply JsFacts.steps_bind; [exact _ | | intros ?]
    | apply JsFacts.steps_try_catch; [exact _ | | intros ?]
    | apply JsFacts.steps_forEach; [exact _ | intros ?]
    | apply JsFacts.steps_modify; intros ?
    | match goal with |- steps _ (match ?x with _ => _ end) => destruct x end ].

Ltac walk := repeat walk1.

Section Frame.
(** A relation between worlds that every console line, every allowed
    request to the node, every insert into the history and every change
    of a whitelist flag respects. *)
Context (R : World -> World -> Prop) `{!PreOrder R}.
Context (allowed : RpcCall -> Prop).
Hypothesis R_console : forall w f, R w (set_console f w).
Hypothesis R_rpc : forall w call, allowed call -> R w (set_rpcTrace (fun t => (t ++ [call])%list) w).
Hypothesis R_insert : forall w doc, R w (set_transactions (fun docs => (docs ++ [doc])%list) w).
Hypothesis R_flag : forall w wallet flag, R w (set_users (update_first wallet flag) w).
Hypothesis allowed_getBlock : forall n, allowed (CallGetBlock n).

Lemma steps_processTransferEvent env event : steps R (processTransferEvent env event).
Proof. open_handlers. walk; auto. Qed.

Lemma steps_processMintEvent env event : steps R (processMintEvent env event).
Proof. open_handlers. walk; auto. Qed.

Lemma steps_processBurnEvent env event : steps R (processBurnEvent env event).
Proof. open_handlers. walk; auto. Qed.

Lemma steps_processWhitelistEvent env event : steps R (processWhitelistEvent env event).
Proof. open_handlers. walk; auto. Qed.

Lemma steps_processPauseEvent env event paused : steps R (processPauseEvent env event paused).
Proof. open_handlers. walk; auto. Qed.

(** Walk through a window, handler by handler. *)
Ltac walk_window :=
  repeat first
    [ apply steps_processTransferEvent | apply steps_processMintEvent
    | apply steps_processBurnEvent | apply steps_processWhitelistEvent
    | apply steps_processPauseEvent
    | progress (unfold on_contract, rpc, report_unless_filter_not_found, console_error)
    | walk1 ]; auto.

Lemma steps_queryEvents env fromBlock toBlock :
  (forall f, allowed (CallQueryFilter f fromBlock toBlock)) ->
  steps R (queryEvents env fromBlock toBlock).
Proof. intros Hq. unfold queryEvents. walk_window. Qed.

Lemma steps_report label message : steps R (report_unless_filter_not_found label message).
Proof. walk_window. Qed.

(** With the contract connected, a window begins with the [Transfer]
    query: what holds once that query is sent, and is kept along [R],
    holds when [queryEvents] returns. *)
Lemma queryEvents_after_first_query env fromBlock toBlock w (Q : World -> Prop) :
  (forall f, allowed (CallQueryFilter f fromBlock toBlock)) ->
  (forall w1 w2, R w1 w2 -> Q w1 -> Q w2) ->
  contract (service w) = true ->
  Q (set_rpcTrace (fun t => (t ++ [CallQueryFilter FTransfer fromBlock toBlock])%list) w) ->
  Q (snd (queryEvents env fromBlock toBlock w)).
Proof.
  intros Hq HQ Hc H1.
  unfold queryEvents, try_catch. unfold bind at 1. unfold on_contract at 1.
  unfold bind at 1. unfold get at 1. rewrite Hc.
  unfold rpc at 1. unfold bind at 1. unfold modify at 1. unfold lift at 1.
  destruct (queryTransfer env fromBlock toBlock) as [evs|message].
  - match goal with
    | |- Q (snd (let (r, w') := ?m ?w1 in _)) =>
        assert (Hsteps : steps R m) by walk_window;
        destruct (m w1) as [[[]|e] w2] eqn:E
    end.
    + eapply HQ; [eapply Hsteps, E | exact H1].
    + destruct (report_unless_filter_not_found "Error querying events:" e w2)
        as [r3 w3] eqn:E3.
      eapply HQ; [eapply (steps_report _ _ _ _ _ E3)|].
      eapply HQ; [eapply Hsteps, E | exact H1].
  - destruct (report_unless_filter_not_found "Error querying events:" message _)
      as [r3 w3] eqn:E3.
    eapply HQ; [eapply (steps_report _ _ _ _ _ E3) | exact H1].
Qed.

End Frame.

(** Handling a window never touches the service object. *)
Lemma queryEvents_keeps_service env fromBlock toBlock :
  steps (keeps service) (queryEvents env fromBlock toBlock).
Proof. apply (steps_queryEvents _ any_call); try done. Qed.

(** No handler creates or removes a user; a window changes at most the
    whitelist flags of users that exist. *)
Lemma update_first_but_flag wallet flag us :
  map but_flag (update_first wallet flag us) = map but_flag us.
Proof.
  induction us as [|u us IH]; simpl; [done|].
  destruct (String.eqb (walletAddress u) wallet); simpl; [done | by rewrite IH].
Qed.

Lemma queryEvents_keeps_accounts env fromBlock toBlock :
  steps (keeps (fun w => map but_flag (users w))) (queryEvents env fromBlock toBlock).
Proof.
  apply (steps_queryEvents _ any_call); try done.
  intros w wallet flag. unfold keeps; simpl. apply update_first_but_flag.
Qed.

(** *** Nothing escapes the handlers *)

Lemma total_report label message : total (report_unless_filter_not_found label message).
Proof.
  unfold report_unless_filter_not_found, console_error.
  destruct (JsString.includes _ _); [apply JsFacts.total_ret | apply JsFacts.total_modify].
Qed.

Lemma total_processTransferEvent env event : total (processTransferEvent env event).
Proof. apply JsFacts.total_try_catch. intros e. apply JsFacts.total_modify. Qed.

Lemma total_processMintEvent env event : total (processMintEvent env event).
Proof. apply JsFacts.total_try_catch. intros e. apply JsFacts.total_modify. Qed.

Lemma total_processBurnEvent env event : total (processBurnEvent env event).
Proof. apply JsFacts.total_try_catch. intros e. apply JsFacts.total_modify. Qed.

Lemma total_processWhitelistEvent env event : total (processWhitelistEvent env event).
Proof. apply JsFacts.total_try_catch. intros e. apply JsFacts.total_modify. Qed.

Lemma total_processPauseEvent env event paused :
  total (processPauseEvent env event paused).
Proof. apply JsFacts.total_try_catch. intros e. apply JsFacts.total_modify. Qed.

(** None of the five handlers ever throws ([handle] is the handler that
    [queryEvents] runs on a log of each kind). *)
Lemma total_handle env i : total (EventSyncReplay.handle env i).
Proof.
  destruct i; [apply total_processTransferEvent | apply total_processMintEvent
              | apply total_processBurnEvent | apply total_processWhitelistEvent
              | apply total_processPauseEvent].
Qed.

Lemma total_queryEvents env fromBlock toBlock : total (queryEvents env fromBlock toBlock).
Proof. apply JsFacts.total_try_catch. intros e. apply total_report. Qed.

Lemma total_pollEvents env : total (pollEvents env).
Proof. apply JsFacts.total_try_catch. intros e. apply total_report. Qed.

Lemma queryEvents_returns env fromBlock toBlock w :
  queryEvents env fromBlock toBlock w = (Ok tt, snd (queryEvents env fromBlock toBlock w)).
Proof.
  destruct (total_queryEvents env fromBlock toBlock w) as ([] & w' & E).
  by rewrite E.
Qed.

Lemma pollEvents_returns env w : pollEvents env w = (Ok tt, snd (pollEvents env w)).
Proof.
  destruct (total_pollEvents env w) as ([] & w' & E).
  by rewrite E.
Qed.

(** *** One polling iteration *)

Lemma report_keeps_service label message w :
  service (snd (report_unless_filter_not_found label message w)) = service w.
Proof.
  unfold report_unless_filter_not_found, console_error.
  by destruct (JsString.includes _ _).
Qed.

(** An iteration whose head query is answered with [h]: nothing more
    when [h <= cursor]; otherwise the window [cursor + 1, window_end] goes
    to [queryEvents] and the cursor is set to its upper bound. *)
Lemma pollEvents_head env w h :
  provider (service w) = true ->
  getBlockNumber env = Ok h ->
  pollEvents env w =
    if (h <=? cursor w)%Z then (Ok tt, sent CallGetBlockNumber w)
    else (Ok tt,
          set_service (set_lastProcessedBlock (window_end (cursor w) h))
            (snd (queryEvents env (cursor w + 1) (window_end (cursor w) h)
                    (sent CallGetBlockNumber w)))).
Proof.
  intros Hprov Hhead.
  unfold pollEvents, try_catch, on_provider, rpc.
  unfold bind at 1. unfold bind at 1. unfold get at 1. rewrite Hprov.
  unfold bind at 1. unfold modify at 1, lift. rewrite Hhead.
  unfold bind at 1. unfold get at 1.
  change (lastProcessedBlock (service (set_rpcTrace _ w))) with (cursor w).
  fold (sent CallGetBlockNumber w).
  destruct (h <=? cursor w)%Z; [reflexivity|].
  unfold bind, window_end.
  rewrite queryEvents_returns. reflexivity.
Qed.

(** An iteration whose head query fails only reports the failure. *)
Lemma pollEvents_no_head env w message :
  provider (service w) = true ->
  getBlockNumber env = Throw message ->
  pollEvents env w =
    (Ok tt, snd (report_unless_filter_not_found "Error polling events:" message
                   (sent CallGetBlockNumber w))).
Proof.
  intros Hprov Hhead.
  unfold pollEvents, try_catch, on_provider, rpc.
  unfold bind at 1. unfold bind at 1. unfold get at 1. rewrite Hprov.
  unfold bind at 1. unfold modify at 1, lift. rewrite Hhead.
  fold (sent CallGetBlockNumber w).
  destruct (total_report "Error polling events:" message (sent CallGetBlockNumber w))
    as ([] & w' & E).
  by rewrite E.
Qed.

Lemma pollEvents_no_provider env w :
  provider (service w) = false ->
  pollEvents env w =
    (Ok tt, snd (report_unless_filter_not_found "Error polling events:"
                   "Cannot read properties of null" w)).
Proof.
  intros Hprov.
  unfold pollEvents, try_catch, on_provider.
  unfold bind at 1. unfold bind at 1. unfold get at 1. rewrite Hprov.
  unfold throw.
  destruct (total_report "Error polling events:" "Cannot read properties of null" w)
    as ([] & w' & E).
  by rewrite E.
Qed.

(** What the catch of [pollEvents] does with a failed head query. *)
Lemma pollEvents_transport_error env w message :
  provider (service w) = true ->
  getBlockNumber env = Throw message ->
  pollEvents env w =
    (Ok tt,
     if JsString.includes "filter not found" message
     then sent CallGetBlockNumber w
     else set_console (fun c => (c ++ [ConsoleError "Error polling events:" message])%list)
            (sent CallGetBlockNumber w)).
Proof.
  intros Hp Hhead. rewrite (pollEvents_no_head env w message Hp Hhead).
  unfold report_unless_filter_not_found, console_error, ret, modify.
  by destruct (JsString.includes _ _).
Qed.

(** What the catch of [queryEvents] does with a failed [Transfer] query:
    no other query is sent. *)
Lemma queryEvents_failed_Transfer_query env fromBlock toBlock w message :
  contract (service w) = true ->
  queryTransfer env fromBlock toBlock = Throw message ->
  queryEvents env fromBlock toBlock w =
    (Ok tt,
     if JsString.includes "filter not found" message
     then sent (CallQueryFilter FTransfer fromBlock toBlock) w
     else set_console (fun c => (c ++ [ConsoleError "Error querying events:" message])%list)
            (sent (CallQueryFilter FTransfer fromBlock toBlock) w)).
Proof.
  intros Hc Hfail.
  unfold queryEvents, try_catch. unfold bind at 1. unfold on_contract at 1.
  unfold bind at 1. unfold get at 1. rewrite Hc.
  unfold rpc at 1. unfold bind at 1. unfold modify at 1. unfold lift at 1.
  rewrite Hfail.
  unfold report_unless_filter_not_found, console_error, ret, modify, sent.
  by destruct (JsString.includes _ _).
Qed.

(** A handler that does not skip its event, because a document of its
    hash and kind is stored, writes a line to the console: the success
    line, or an error line. *)
Lemma handle_speaks env i w :
  (exists d,
     List.find (fun d => (String.eqb (txHash d) (EventSyncReplay.item_hash i)
                          && bool_decide (eventType d = EventSyncReplay.item_kind i))%bool)
               (transactions w) = Some d /\
     snd (EventSyncReplay.handle env i w) = w) \/
  (exists line,
     console (snd (EventSyncReplay.handle env i w)) = (console w ++ [ConsoleLog line])%list) \/
  (exists label message,
     console (snd (EventSyncReplay.handle env i w)) =
       (console w ++ [ConsoleError label message])%list).
Proof.
  destruct i as [event|event|event|event|event paused];
    cbn [EventSyncReplay.handle EventSyncReplay.item_hash EventSyncReplay.item_kind];
    open_handlers; unfold try_catch, bind, get, ret, throw, modify, lift;
    repeat (first
      [ match goal with |- context [dbFault ?e ?op] => destruct (dbFault e op) eqn:? end
      | match goal with |- context [List.find ?f ?l] => destruct (List.find f l) eqn:? end
      | match goal with |- context [provider ?s] => destruct (provider s) eqn:? end
      | match goal with |- context [getBlock ?e ?n] => destruct (getBlock e n) eqn:? end
      | match goal with |- context [txHash_taken ?h ?l] =>
          destruct (txHash_taken h l) eqn:? end ]; cbn [fst snd]);
    cbn [console set_console set_transactions set_users set_rpcTrace];
    first [ left; eexists; split; reflexivity
          | right; left; eexists; reflexivity
          | right; right; eexists _, _; reflexivity ].
Qed.

(** The service object after an iteration: only the cursor can differ. *)
Lemma pollEvents_service env w :
  service (snd (pollEvents env w)) =
    match provider (service w), getBlockNumber env with
    | true, Ok h =>
        if (h <=? cursor w)%Z then service w
        else set_lastProcessedBlock (window_end (cursor w) h) (service w)
    | _, _ => service w
    end.
Proof.
  destruct (provider (service w)) eqn:Hprov.
  - destruct (getBlockNumber env) as [h|message] eqn:Hhead.
    + rewrite (pollEvents_head env w h Hprov Hhead).
      destruct (h <=? cursor w)%Z; [reflexivity|]. simpl.
      f_equal.
      pose proof (queryEvents_keeps_service env (cursor w + 1) (window_end (cursor w) h)
                    (sent CallGetBlockNumber w)) as Hkeep.
      rewrite queryEvents_returns in Hkeep.
      apply (Hkeep _ _ eq_refl).
    + rewrite (pollEvents_no_head env w message Hprov Hhead).
      cbn [snd]. by rewrite report_keeps_service.
  - rewrite (pollEvents_no_provider env w Hprov).
    cbn [snd]. rewrite report_keeps_service.
    by destruct (getBlockNumber env).
Qed.

Lemma window_end_above c h : c < h -> c < window_end c h.
Proof. unfold window_end, BLOCKS_PER_QUERY. lia. Qed.

Lemma window_end_spec c h : window_end c h = Z.min (c + 100) h.
Proof. unfold window_end, BLOCKS_PER_QUERY. f_equal. lia. Qed.

(** An iteration never moves the cursor back. *)
Lemma pollEvents_cursor_le env w : cursor w <= cursor (snd (pollEvents env w)).
Proof.
  unfold cursor at 2. rewrite pollEvents_service. fold (cursor w).
  destruct (provider (service w)); [|reflexivity].
  destruct (getBlockNumber env) as [h|]; [|reflexivity].
  destruct (Z.leb_spec h (cursor w)); [reflexivity|].
  simpl. pose proof (window_end_above (cursor w) h). lia.
Qed.

(** *** The requests an iteration sends *)

#[local] Instance extends_trace_preorder allowed : PreOrder (extends_trace allowed).
Proof.
  split.
  - intros w. exists []. split; [by rewrite app_nil_r | constructor].
  - intros w1 w2 w3 (c1 & E1 & F1) (c2 & E2 & F2).
    exists (c1 ++ c2)%list. split.
    + by rewrite E2, E1, app_assoc.
    + by apply Forall_app.
Qed.

Lemma extends_trace_console allowed w f : extends_trace allowed w (set_console f w).
Proof. exists []. split; [by rewrite app_nil_r | constructor]. Qed.

Lemma extends_trace_rpc (allowed : RpcCall -> Prop) w call :
  allowed call -> extends_trace allowed w (set_rpcTrace (fun t => (t ++ [call])%list) w).
Proof. intros Hcall. exists [call]. split; [reflexivity | by constructor]. Qed.

Lemma extends_trace_insert allowed w doc :
  extends_trace allowed w (set_transactions (fun docs => (docs ++ [doc])%list) w).
Proof. exists []. split; [by rewrite app_nil_r | constructor]. Qed.

Lemma extends_trace_flag allowed w wallet flag :
  extends_trace allowed w (set_users (update_first wallet flag) w).
Proof. exists []. split; [by rewrite app_nil_r | constructor]. Qed.

(** Every request of a window is a log query over that window or the
    lookup of a block. *)
Lemma queryEvents_trace env lo hi :
  steps (extends_trace (in_window lo hi)) (queryEvents env lo hi).
Proof.
  apply (steps_queryEvents _ (in_window lo hi)).
  - apply extends_trace_console.
  - apply extends_trace_rpc.
  - apply extends_trace_insert.
  - apply extends_trace_flag.
  - intros n. exact I.
  - intros f. by split.
Qed.

(** With the contract connected, the first of them is the [Transfer]
    query over the window. *)
Lemma queryEvents_first_call env lo hi w :
  contract (service w) = true ->
  exists rest,
    rpcTrace (snd (queryEvents env lo hi w)) =
      (rpcTrace w ++ CallQueryFilter FTransfer lo hi :: rest)%list /\
    Forall (in_window lo hi) rest.
Proof.
  intros Hc.
  apply (queryEvents_after_first_query (extends_trace (in_window lo hi)) (in_window lo hi)).
  - apply extends_trace_console.
  - apply extends_trace_rpc.
  - apply extends_trace_insert.
  - apply extends_trace_flag.
  - intros n. exact I.
  - intros f. by split.
  - intros w1 w2 (calls & E & Hcalls) (rest & E1 & Hrest).
    exists (rest ++ calls)%list. split.
    + rewrite E, E1, <- app_assoc. reflexivity.
    + by apply Forall_app.
  - exact Hc.
  - exists []. by split.
Qed.

(** C8: an iteration that learns the head [h] does nothing more when
    [h <= cursor] (the world is as before, but for the head query in the
    request log); otherwise it hands [queryEvents] exactly the window
    [cursor + 1, min (cursor + 100) h] and sets the cursor to its upper
    bound; every log query it sends is over that window, the first of
    them (on a connected contract) the [Transfer] query. *)
Theorem C8_window_from_cursor_to_bounded_head (env : Env) (w : World) (h : Z) :
  provider (service w) = true ->
  getBlockNumber env = Ok h ->
  BLOCKS_PER_QUERY = 100 /\
  (h <= cursor w -> pollEvents env w = (Ok tt, sent CallGetBlockNumber w)) /\
  (cursor w < h ->
   pollEvents env w =
     (Ok tt,
      set_service (set_lastProcessedBlock (Z.min (cursor w + 100) h))
        (snd (queryEvents env (cursor w + 1) (Z.min (cursor w + 100) h)
                (sent CallGetBlockNumber w)))) /\
   exists calls,
     rpcTrace (snd (pollEvents env w)) = (rpcTrace w ++ CallGetBlockNumber :: calls)%list /\
     Forall (in_window (cursor w + 1) (Z.min (cursor w + 100) h)) calls /\
     (contract (service w) = true ->
      exists rest,
        calls = CallQueryFilter FTransfer (cursor w + 1) (Z.min (cursor w + 100) h) :: rest)).
Proof.
  intros Hprov Hhead. split; [reflexivity|].
  rewrite (pollEvents_head env w h Hprov Hhead). split.
  - intros Hle. apply Z.leb_le in Hle. by rewrite Hle.
  - intros Hlt. apply Z.leb_gt in Hlt. rewrite Hlt, window_end_spec.
    split; [reflexivity|]. cbn [snd].
    pose proof (queryEvents_trace env (cursor w + 1) (Z.min (cursor w + 100) h)
                  (sent CallGetBlockNumber w)) as Htrace.
    rewrite queryEvents_returns in Htrace.
    destruct (Htrace _ _ eq_refl) as (calls & E & Hall).
    exists calls. split; [|split; [exact Hall|]].
    + simpl. rewrite E. simpl. by rewrite <- app_assoc.
    + intros Hc.
      destruct (queryEvents_first_call env (cursor w + 1) (Z.min (cursor w + 100) h)
                  (sent CallGetBlockNumber w) Hc) as (rest & E1 & _).
      exists rest. rewrite E in E1. by apply app_inv_head in E1.
Qed.

(** C8 at a started service with cursor [0] and a node at head [250]:
    the window is [1, 100]. *)
Lemma C8_first_window_of_a_long_backlog :
  provider (service listening) = true /\
  getBlockNumber (node (Ok 250) [] [] healthy) = Ok 250 /\
  cursor (snd (pollEvents (node (Ok 250) [] [] healthy) listening)) = 100.
Proof.
  split; [reflexivity|]. split; [reflexivity|].
  destruct (C8_window_from_cursor_to_bounded_head (node (Ok 250) [] [] healthy) listening 250
              eq_refl eq_refl) as (_ & _ & Hwindow).
  destruct Hwindow as [E _]; [unfold cursor; simpl; lia|].
  rewrite E. reflexivity.
Defined.

(** *** The cursor over time *)

#[local] Instance cursor_kept_preorder : PreOrder cursor_kept.
Proof.
  split.
  - intros w Hc. split; [reflexivity | exact Hc].
  - intros w1 w2 w3 H12 H23 Hc.
    destruct (H12 Hc) as [Hle Hc2]. destruct (H23 Hc2) as [Hle' Hc3].
    split; [lia | exact Hc3].
Qed.

Lemma pollEvents_cursor_kept env : steps cursor_kept (pollEvents env).
Proof.
  intros w r w' E Hc.
  assert (w' = snd (pollEvents env w)) as -> by (by rewrite E).
  split; [apply pollEvents_cursor_le|].
  rewrite pollEvents_service.
  destruct (provider (service w)); [|exact Hc].
  destruct (getBlockNumber env) as [h|]; [|exact Hc].
  destruct (h <=? cursor w)%Z; exact Hc.
Qed.

Lemma stopListening_cursor_kept : steps cursor_kept stopListening.
Proof.
  unfold stopListening, console_log. walk; intros Hc; by split.
Qed.

Lemma startListening_cursor_kept env0 env1 : steps cursor_kept (startListening env0 env1).
Proof.
  intros w r w' E Hc. revert E.
  unfold startListening. unfold bind at 1. unfold get at 1.
  destruct (isRunning (service w)).
  { unfold console_log, modify. intros [= _ <-]. by split. }
  rewrite Hc. unfold bind at 1. unfold ret at 1. cbn [negb].
  intros E. revert Hc. revert E. generalize w r w'.
  change (steps cursor_kept
            (bind (modify (set_service (set_isRunning true))) (fun _ =>
             bind (console_log "Starting blockchain event polling...") (fun _ =>
             bind (console_log "Polling interval: 15s") (fun _ =>
             bind (pollEvents env1) (fun _ =>
             bind (modify (set_service
                             (set_pollingInterval (Some {| period := POLLING_INTERVAL_MS |}))))
                  (fun _ => console_log "Event polling started successfully"))))))).
  unfold console_log.
  repeat first [ apply pollEvents_cursor_kept | walk1 ]; intros Hc; by split.
Qed.

Lemma step_cursor_kept i : steps cursor_kept (step i).
Proof.
  destruct i as [env| |env0 env1]; simpl.
  - repeat first [ apply pollEvents_cursor_kept | walk1 ].
  - apply stopListening_cursor_kept.
  - apply startListening_cursor_kept.
Qed.

(** C1, as stated, fails: the only event of the window [1, 5] cannot be
    recorded (the database refuses the insert), the failure is caught and
    logged, and the cursor advances to 5 all the same. And a process
    restarted after that, against a node that reports head 3, starts from
    cursor 3. *)
Lemma C1_cursor_passes_an_unrecorded_event :
  queryTransfer (node (Ok 5) [overdraw_log] [] inserts_fail) 1 5 = Ok [overdraw_log] /\
  cursor listening = 0 /\
  transactions (snd (pollEvents (node (Ok 5) [overdraw_log] [] inserts_fail) listening)) = [] /\
  console (snd (pollEvents (node (Ok 5) [overdraw_log] [] inserts_fail) listening)) =
    [ConsoleError "Error processing transfer event:" "MongoNetworkError: connection closed"] /\
  cursor (snd (pollEvents (node (Ok 5) [overdraw_log] [] inserts_fail) listening)) = 5 /\
  cursor (snd (initialize (node (Ok 3) [] [] healthy)
                 (restart (snd (pollEvents (node (Ok 5) [overdraw_log] [] inserts_fail)
                                  listening))))) = 3.
Proof. vm_compute. repeat split; reflexivity. Qed.

(** A fresh process takes the head the node reports as its cursor. *)
Lemma initialize_after_restart env w h :
  getContract env = Ok tt ->
  getBlockNumber env = Ok h ->
  fst (initialize env (restart w)) = Ok true /\
  cursor (snd (initialize env (restart w))) = h.
Proof.
  intros Hc Hh.
  unfold initialize, try_catch, bind, lift, on_provider, rpc, get, modify, console_log, ret.
  simpl. rewrite Hc. simpl. rewrite Hh. by split.
Qed.

(** C1 (amended): a polling iteration always returns. When its head
    query reports a head above the cursor, the cursor advances to the
    window's upper bound once [queryEvents] has returned, whatever the
    node and the database answered in between: [queryEvents] and the five
    handlers catch every failure to fetch or to record, and never throw.
    In every other case the cursor stays. Over any sequence of timer
    ticks, stop requests and start requests on a connected service, with
    no iteration still in progress when the next of them begins, the
    cursor never decreases. A restarted process does not resume from the
    old cursor: initialization sets it to the head the node reports
    then. *)
Theorem C1_cursor_advances_when_queryEvents_returns :
  (forall env w,
     exists w', pollEvents env w = (Ok tt, w') /\
       cursor w <= cursor w' /\
       (forall h, provider (service w) = true -> getBlockNumber env = Ok h ->
                  cursor w < h -> cursor w' = Z.min (cursor w + 100) h) /\
       (forall h, getBlockNumber env = Ok h -> h <= cursor w -> cursor w' = cursor w) /\
       (forall message, getBlockNumber env = Throw message -> cursor w' = cursor w) /\
       (provider (service w) = false -> cursor w' = cursor w)) /\
  (forall env fromBlock toBlock w,
     exists w', queryEvents env fromBlock toBlock w = (Ok tt, w')) /\
  (forall env i w, exists w', EventSyncReplay.handle env i w = (Ok tt, w')) /\
  (forall inputs w r w',
     contract (service w) = true -> run inputs w = (r, w') -> cursor w <= cursor w') /\
  (forall env w h,
     getContract env = Ok tt -> getBlockNumber env = Ok h ->
     fst (initialize env (restart w)) = Ok true /\
     cursor (snd (initialize env (restart w))) = h).
Proof.
  split; [|split; [|split; [|split; [|exact initialize_after_restart]]]].
  - intros env w. exists (snd (pollEvents env w)).
    split; [apply pollEvents_returns|].
    split; [apply pollEvents_cursor_le|].
    pose proof (pollEvents_service env w) as Hs.
    assert (Hc : cursor (snd (pollEvents env w)) =
                 lastProcessedBlock (service (snd (pollEvents env w)))) by reflexivity.
    rewrite Hc, Hs. clear Hc Hs.
    split; [|split; [|split]].
    + intros h Hprov Hhead Hlt. rewrite Hprov, Hhead.
      apply Z.leb_gt in Hlt. rewrite Hlt. simpl. apply window_end_spec.
    + intros h Hhead Hle. rewrite Hhead.
      apply Z.leb_le in Hle. rewrite Hle. by destruct (provider _).
    + intros message Hhead. rewrite Hhead. by destruct (provider _).
    + intros Hprov. by rewrite Hprov.
  - intros env fromBlock toBlock w.
    destruct (total_queryEvents env fromBlock toBlock w) as ([] & w' & E). by exists w'.
  - intros env i w. destruct (total_handle env i w) as ([] & w' & E). by exists w'.
  - intros inputs w r w' Hc E.
    pose proof (JsFacts.steps_forEach cursor_kept inputs step step_cursor_kept) as Hrun.
    apply (Hrun w r w' E Hc).
Qed.

(** C1 on a started service: two failing polls, a stop, a start and a
    tick at head [7] never move the cursor back. *)
Lemma C1_cursor_over_a_stop_and_a_start :
  contract (service listening) = true /\
  cursor listening <=
  cursor (snd (run [Tick unreachable; Tick unreachable; StopRequest;
                    StartRequest unreachable (node (Ok 7) [] [] healthy);
                    Tick (node (Ok 7) [overdraw_log] [] inserts_fail)] listening)).
Proof.
  split; [reflexivity|].
  eapply (proj1 (proj2 (proj2 (proj2 C1_cursor_advances_when_queryEvents_returns))));
    [reflexivity|].
  apply surjective_pairing.
Defined.

(** *** The timer *)


Lemma tick_returns env w : step (Tick env) w = (Ok tt, snd (step (Tick env) w)).
Proof.
  simpl. unfold bind, get.
  destruct (pollingInterval (service w)); [|reflexivity].
  rewrite pollEvents_returns. reflexivity.
Qed.




Lemma stopListening_outcome w :
  stopListening w = (Ok tt, snd (stopListening w)) /\
  timer_of (snd (stopListening w)) = (None, false) /\
  cursor (snd (stopListening w)) = cursor w.
Proof.
  unfold stopListening, bind, get, console_log, modify, ret, timer_of, cursor.
  destruct (pollingInterval (service w)) eqn:E; simpl; rewrite ?E; repeat split; reflexivity.
Qed.

#[local] Instance timer_fixed_preorder : PreOrder timer_fixed.
Proof.
  split.
  - intros w. by left.
  - intros w1 w2 w3 [H12|H12] [H23|H23]; unfold timer_fixed; rewrite H23; auto.
Qed.






(** *** What a balance-carrying event changes *)

(** Split a handler's run by the answers it depends on, in the order it
    asks for them. *)
Ltac run_handler :=
  open_handlers;
  unfold try_catch, bind, get, ret, throw, modify, lift;
  repeat (first
    [ match goal with |- context [dbFault ?e (OpFindOne ?h ?t)] =>
        destruct (dbFault e (OpFindOne h t)) eqn:? end
    | match goal with |- context [List.find ?f ?l] => destruct (List.find f l) eqn:? end
    | match goal with |- context [provider ?s] => destruct (provider s) eqn:? end
    | match goal with |- context [getBlock ?e ?n] => destruct (getBlock e n) eqn:? end
    | match goal with |- context [dbFault ?e (OpCreate ?d)] =>
        destruct (dbFault e (OpCreate d)) eqn:? end
    | match goal with |- context [txHash_taken ?h ?l] =>
        destruct (txHash_taken h l) eqn:? end ]; cbn [fst snd]).

(** Handling a [Transfer] log appends at most the one document built from
    it, and touches neither the users nor the service object. *)
Lemma processTransferEvent_effect env event w :
  users (snd (processTransferEvent env event w)) = users w /\
  service (snd (processTransferEvent env event w)) = service w /\
  (transactions (snd (processTransferEvent env event w)) = transactions w \/
   exists block,
     transactions (snd (processTransferEvent env event w)) =
       (transactions w ++ [transferDoc env event block])%list).
Proof. run_handler; simpl; repeat split; eauto. Qed.

Lemma processMintEvent_effect env event w :
  users (snd (processMintEvent env event w)) = users w /\
  service (snd (processMintEvent env event w)) = service w /\
  (transactions (snd (processMintEvent env event w)) = transactions w \/
   exists block,
     transactions (snd (processMintEvent env event w)) =
       (transactions w ++ [mintDoc env event block])%list).
Proof. run_handler; simpl; repeat split; eauto. Qed.

Lemma processBurnEvent_effect env event w :
  users (snd (processBurnEvent env event w)) = users w /\
  service (snd (processBurnEvent env event w)) = service w /\
  (transactions (snd (processBurnEvent env event w)) = transactions w \/
   exists block,
     transactions (snd (processBurnEvent env event w)) =
       (transactions w ++ [burnDoc env event block])%list).
Proof. run_handler; simpl; repeat split; eauto. Qed.

(** C3, as stated, fails: a [Transfer] of 400 between two unseen accounts
    is recorded in the history, yet no account document exists afterwards
    (nothing is materialized); between two known accounts it leaves both
    documents exactly as they were. The projection holds no balance. *)
Lemma C3_transfer_touches_no_account :
  snd (args overdraw_log) = 400 /\
  users listening = [] /\
  map txHash (transactions (snd (processTransferEvent (node (Ok 5) [] [] healthy)
                                   overdraw_log listening))) = ["0xdd01"] /\
  users (snd (processTransferEvent (node (Ok 5) [] [] healthy) overdraw_log listening)) = [] /\
  map txHash (transactions (snd (processTransferEvent (node (Ok 5) [] [] healthy)
                                   overdraw_log with_two_users))) = ["0xdd01"] /\
  users (snd (processTransferEvent (node (Ok 5) [] [] healthy) overdraw_log with_two_users))
    = users with_two_users.
Proof. vm_compute. repeat split; reflexivity. Qed.

(** C3 (amended): the synchronizer keeps no balance and no total supply.
    Handling a [Transfer], a [TokensMinted] or a [TokensBurned] log appends
    at most one history document, carrying the lower-cased parties and the
    amount in decimal, and changes no user document; a whole window never
    creates or removes a user, and changes of a user at most the
    whitelist flag. *)
Theorem C3_balance_events_only_append_history (env : Env) (w : World) :
  (forall event,
     users (snd (processTransferEvent env event w)) = users w /\
     (transactions (snd (processTransferEvent env event w)) = transactions w \/
      exists block,
        transactions (snd (processTransferEvent env event w)) =
          (transactions w ++ [transferDoc env event block])%list)) /\
  (forall event,
     users (snd (processMintEvent env event w)) = users w /\
     (transactions (snd (processMintEvent env event w)) = transactions w \/
      exists block,
        transactions (snd (processMintEvent env event w)) =
          (transactions w ++ [mintDoc env event block])%list)) /\
  (forall event,
     users (snd (processBurnEvent env event w)) = users w /\
     (transactions (snd (processBurnEvent env event w)) = transactions w \/
      exists block,
        transactions (snd (processBurnEvent env event w)) =
          (transactions w ++ [burnDoc env event block])%list)) /\
  (forall hash n sender recipient value block,
     let doc := transferDoc env {| transactionHash := hash; logBlockNumber := n;
                                   args := (sender, recipient, value) |} block in
     from doc = Some (JsString.toLowerCase sender) /\
     to doc = Some (JsString.toLowerCase recipient) /\
     amount doc = Some (JsString.bigintToString value)) /\
  (forall fromBlock toBlock,
     map but_flag (users (snd (queryEvents env fromBlock toBlock w))) =
     map but_flag (users w)).
Proof.
  split; [|split; [|split; [|split]]].
  - intros event. destruct (processTransferEvent_effect env event w) as (Hu & _ & Ht). by split.
  - intros event. destruct (processMintEvent_effect env event w) as (Hu & _ & Ht). by split.
  - intros event. destruct (processBurnEvent_effect env event w) as (Hu & _ & Ht). by split.
  - intros hash n sender recipient value block. simpl. by repeat split.
  - intros fromBlock toBlock.
    pose proof (queryEvents_keeps_accounts env fromBlock toBlock w) as Hkeep.
    rewrite queryEvents_returns in Hkeep. apply (Hkeep _ _ eq_refl).
Qed.

(** *** No balance check *)

(** C6, as stated, fails: over an empty history the sender's projected
    balance is 0, so a transfer of 400 out of it would make it negative;
    the iteration nevertheless returns normally, records that transfer
    and the later one, writes no error, and advances the cursor. *)
Lemma C6_overdrawing_transfer_is_ingested :
  spec_projected_balance (transactions listening) "0xaa01" - 400 < 0 /\
  pollEvents (node (Ok 5) [overdraw_log; later_log] [] healthy) listening =
    (Ok tt, snd (pollEvents (node (Ok 5) [overdraw_log; later_log] [] healthy) listening)) /\
  map (fun d => (txHash d, from d, amount d))
      (transactions (snd (pollEvents (node (Ok 5) [overdraw_log; later_log] [] healthy)
                            listening))) =
    [("0xdd01", Some "0xaa01", Some "400"); ("0xdd02", Some "0xcc03", Some "1")] /\
  console (snd (pollEvents (node (Ok 5) [overdraw_log; later_log] [] healthy) listening)) =
    [ConsoleLog "Transfer event processed: 0xdd01..."; ConsoleLog "Transfer event processed: 0xdd02..."] /\
  cursor (snd (pollEvents (node (Ok 5) [overdraw_log; later_log] [] healthy) listening)) = 5.
Proof. vm_compute. repeat split; reflexivity. Qed.

(** No document of any kind is found under a hash the index does not hold. *)
Lemma find_new_hash hash kind docs :
  txHash_taken hash docs = false ->
  List.find (fun d => (String.eqb (txHash d) hash && bool_decide (eventType d = kind))%bool) docs
    = None.
Proof.
  unfold txHash_taken. induction docs as [|d docs IH]; simpl; [done|].
  intros H. apply orb_false_iff in H as [Hd Hrest].
  rewrite Hd. simpl. by apply IH.
Qed.

(** A [Transfer] log with a new hash, met by a healthy node and database,
    is recorded with its amount as it came. *)
Lemma processTransferEvent_records env event w block :
  dbFault env (OpFindOne (transactionHash event) Transfer) = None ->
  txHash_taken (transactionHash event) (transactions w) = false ->
  provider (service w) = true ->
  getBlock env (logBlockNumber event) = Ok block ->
  dbFault env (OpCreate (transferDoc env event block)) = None ->
  processTransferEvent env event w =
    (Ok tt,
     set_console (fun c => (c ++ [ConsoleLog (processed_line "Transfer" (transactionHash event))])%list)
       (set_transactions (fun docs => (docs ++ [transferDoc env event block])%list)
          (set_rpcTrace (fun t => (t ++ [CallGetBlock (logBlockNumber event)])%list) w))).
Proof.
  intros Hfind Hnew Hprov Hblock Hcreate.
  pose proof (find_new_hash (transactionHash event) Transfer (transactions w) Hnew) as Hnone.
  open_handlers. unfold try_catch, bind, get, ret, throw, modify, lift.
  rewrite Hfind. cbn [fst snd]. rewrite Hnone, Hprov, Hblock. cbn [fst snd].
  rewrite Hcreate.
  replace (txHash (transferDoc env event block)) with (transactionHash event)
    by (unfold transferDoc; by destruct (args event) as [[? ?] ?]).
  cbn [transactions set_rpcTrace]. rewrite Hnew. reflexivity.
Qed.

(** C6 (amended): ingestion checks no balance and knows no integrity
    violation. None of the five handlers, no window and no polling
    iteration ever throws: each ends in a catch, so nothing halts
    ingestion. A handler either skips its event, because a document of its
    hash and kind is stored, or writes a line to the console: the success
    line, or an error line. The catch of [queryEvents] and the catch of
    [pollEvents] write what they catch to the console unless its message
    contains "filter not found": a failing [Transfer] query or head query
    with such a message leaves no line. A [Transfer] log with a new hash
    that meets a healthy node and database is recorded whatever its
    amount and whatever the history holds, with the amount stored as it
    came, never clamped. *)
Theorem C6_ingestion_never_raises_and_keeps_the_amount :
  (forall env i, total (EventSyncReplay.handle env i)) /\
  (forall env fromBlock toBlock, total (queryEvents env fromBlock toBlock)) /\
  (forall env, total (pollEvents env)) /\
  (forall env i w,
     (exists d,
        List.find (fun d => (String.eqb (txHash d) (EventSyncReplay.item_hash i)
                             && bool_decide (eventType d = EventSyncReplay.item_kind i))%bool)
                  (transactions w) = Some d /\
        snd (EventSyncReplay.handle env i w) = w) \/
     (exists line,
        console (snd (EventSyncReplay.handle env i w)) =
          (console w ++ [ConsoleLog line])%list) \/
     (exists label message,
        console (snd (EventSyncReplay.handle env i w)) =
          (console w ++ [ConsoleError label message])%list)) /\
  (forall env fromBlock toBlock w message,
     contract (service w) = true ->
     queryTransfer env fromBlock toBlock = Throw message ->
     queryEvents env fromBlock toBlock w =
       (Ok tt,
        if JsString.includes "filter not found" message
        then sent (CallQueryFilter FTransfer fromBlock toBlock) w
        else set_console (fun c => (c ++ [ConsoleError "Error querying events:" message])%list)
               (sent (CallQueryFilter FTransfer fromBlock toBlock) w))) /\
  (forall env w message,
     provider (service w) = true ->
     getBlockNumber env = Throw message ->
     pollEvents env w =
       (Ok tt,
        if JsString.includes "filter not found" message
        then sent CallGetBlockNumber w
        else set_console (fun c => (c ++ [ConsoleError "Error polling events:" message])%list)
               (sent CallGetBlockNumber w))) /\
  (forall env event w block,
     dbFault env (OpFindOne (transactionHash event) Transfer) = None ->
     txHash_taken (transactionHash event) (transactions w) = false ->
     provider (service w) = true ->
     getBlock env (logBlockNumber event) = Ok block ->
     dbFault env (OpCreate (transferDoc env event block)) = None ->
     processTransferEvent env event w =
       (Ok tt,
        set_console (fun c => (c ++ [ConsoleLog (processed_line "Transfer"
                                                   (transactionHash event))])%list)
          (set_transactions (fun docs => (docs ++ [transferDoc env event block])%list)
             (set_rpcTrace (fun t => (t ++ [CallGetBlock (logBlockNumber event)])%list) w))) /\
     amount (transferDoc env event block) =
       Some (JsString.bigintToString (snd (args event)))).
Proof.
  split; [exact total_handle|].
  split; [exact total_queryEvents|].
  split; [exact total_pollEvents|].
  split; [exact handle_speaks|].
  split; [exact queryEvents_failed_Transfer_query|].
  split; [exact pollEvents_transport_error|].
  intros env event w block Hfind Hnew Hprov Hblock Hcreate.
  split; [by apply processTransferEvent_records|].
  unfold transferDoc. by destruct (args event) as [[? ?] ?].
Qed.

(** C6 on the overdrawing transfer: with nothing recorded yet, the
    transfer of 400 out of an account that holds nothing is stored with
    the amount "400". And a [Transfer] query that fails with "filter not
    found" leaves the console empty. *)
Lemma C6_overdrawing_transfer_keeps_its_amount :
  txHash_taken (transactionHash overdraw_log) (transactions listening) = false /\
  transactions (snd (processTransferEvent (node (Ok 5) [] [] healthy) overdraw_log listening)) =
    [transferDoc (node (Ok 5) [] [] healthy) overdraw_log (Some {| timestamp := 1700000000 |})] /\
  amount (transferDoc (node (Ok 5) [] [] healthy) overdraw_log
            (Some {| timestamp := 1700000000 |})) = Some "400" /\
  queryTransfer lost_filter 1 5 = Throw "filter not found" /\
  console (snd (queryEvents lost_filter 1 5 listening)) = [] /\
  rpcTrace (snd (queryEvents lost_filter 1 5 listening)) = [CallQueryFilter FTransfer 1 5].
Proof.
  split; [reflexivity|].
  destruct C6_ingestion_never_raises_and_keeps_the_amount
    as (_ & _ & _ & _ & Hquery & _ & Hrecord).
  destruct (Hrecord (node (Ok 5) [] [] healthy) overdraw_log listening
              (Some {| timestamp := 1700000000 |})
              eq_refl eq_refl eq_refl eq_refl eq_refl) as [E Hamount].
  split; [by rewrite E|]. split; [exact Hamount|]. split; [reflexivity|].
  rewrite (Hquery lost_filter 1 5 listening "filter not found" eq_refl eq_refl).
  split; reflexivity.
Defined.

(** *** One transaction, two kinds of event *)

(** Once the history holds any document with a hash, no [TokensMinted]
    log of that transaction is ever stored: either a [Mint] document is
    found and the log is skipped, or the insert is refused by the unique
    index on [txHash]. *)
Lemma processMintEvent_on_taken_hash env event w :
  txHash_taken (transactionHash event) (transactions w) = true ->
  transactions (snd (processMintEvent env event w)) = transactions w.
Proof.
  intros Htaken.
  assert (Hdoc : forall block, txHash (mintDoc env event block) = transactionHash event).
  { intros block. unfold mintDoc. by destruct (args event) as [[? ?] ?]. }
  open_handlers. unfold try_catch, bind, get, ret, throw, modify, lift.
  destruct (dbFault env (OpFindOne _ _)); cbn [fst snd]; [done|].
  destruct (List.find _ _); cbn [fst snd]; [done|].
  destruct (provider (service w)); cbn [fst snd]; [|done].
  destruct (getBlock env _) as [block|]; cbn [fst snd]; [|done].
  destruct (dbFault env (OpCreate _)); cbn [fst snd]; [done|].
  rewrite Hdoc. cbn [transactions set_rpcTrace]. rewrite Htaken. reflexivity.
Qed.

(** C2 fails on the code. One [mint] transaction emits a [Transfer] and a
    [TokensMinted] log under one hash. The [Transfer] is recorded first;
    the lookup by (hash, "Mint") finds nothing, so the handler goes on to
    insert, and the unique index on [txHash] refuses the second document:
    the history holds the [Transfer] alone and the console an error. *)
Lemma C2_second_kind_is_refused_by_the_unique_index :
  transactionHash mint_transfer_log = transactionHash mint_minted_log /\
  map (fun d => (txHash d, eventType d))
      (transactions (snd (pollEvents (node (Ok 5) [mint_transfer_log] [mint_minted_log] healthy)
                            listening))) = [("0xabc1", Transfer)] /\
  console (snd (pollEvents (node (Ok 5) [mint_transfer_log] [mint_minted_log] healthy)
                  listening)) =
    [ConsoleLog "Transfer event processed: 0xabc1...";
     ConsoleError "Error processing mint event:"
       "E11000 duplicate key error collection: transactions index: txHash_1 dup key"].
Proof. vm_compute. repeat split; reflexivity. Qed.

End EventSyncFacts.

(** ** The ledger contract over sequences of calls *)

Module RWATokenLedgerFacts.

Import RWAToken RWATokenSpec RWATokenAdmin RWATokenCalls.
Local Open Scope sol_scope.

(** *** Rules for [preserves] *)

Section Preserves.
Context (P : State -> Prop).

Lemma preserves_pure {A} (a : A) : preserves P (pure a).
Proof. intros st evs a' st' evs' HP E. unfold pure, read in E. by simplify_eq/=. Qed.

Lemma preserves_revert {A} (e : Revert) : preserves P (revert (A := A) e).
Proof. intros st evs a' st' evs' _ [=]. Qed.

Lemma preserves_read : preserves P read.
Proof. intros st evs a' st' evs' HP E. unfold pure, read in E. by simplify_eq/=. Qed.

Lemma preserves_emit (e : Event) : preserves P (emit e).
Proof. intros st evs a' st' evs' HP E. unfold emit in E. by simplify_eq/=. Qed.

Lemma preserves_write (f : State -> State) :
  (forall st, P st -> P (f st)) -> preserves P (write f).
Proof. intros Hf st evs a' st' evs' HP E. unfold write in E. simplify_eq/=. by apply Hf. Qed.

Lemma preserves_require (cond : bool) (reason : string) : preserves P (require cond reason).
Proof. destruct cond; [apply preserves_pure | apply preserves_revert]. Qed.

Lemma preserves_andThen {A B} (m : Tx A) (k : A -> Tx B) :
  preserves P m -> (forall a, preserves P (k a)) -> preserves P (andThen m k).
Proof.
  intros Hm Hk st evs b st' evs' HP. unfold andThen.
  destruct (m (st, evs)) as [e|[a [st1 evs1]]] eqn:E; [discriminate|].
  intros E'. eapply Hk; [|exact E']. eapply Hm; [exact HP | exact E].
Qed.

Lemma preserves_forEach {A} (xs : list A) (body : A -> Tx unit) :
  (forall x, preserves P (body x)) -> preserves P (forEach xs body).
Proof.
  intros Hbody. induction xs as [|x rest IH]; simpl.
  - apply preserves_pure.
  - apply preserves_andThen; [apply Hbody | intros _; exact IH].
Qed.

Lemma preserves_onlyRole (role : Role) (sender : address) : preserves P (onlyRole role sender).
Proof.
  apply preserves_andThen; [apply preserves_read|]. intros st.
  destruct (hasRole st role sender); [apply preserves_pure | apply preserves_revert].
Qed.

Lemma preserves_whenNotPaused : preserves P whenNotPaused.
Proof.
  apply preserves_andThen; [apply preserves_read|]. intros st.
  destruct (paused st); [apply preserves_revert | apply preserves_pure].
Qed.

Lemma preserves_whenPaused : preserves P whenPaused.
Proof.
  apply preserves_andThen; [apply preserves_read|]. intros st.
  destruct (paused st); [apply preserves_pure | apply preserves_revert].
Qed.

(** A sequence of calls keeps what each call keeps. *)
Lemma preserves_replay (ok : Message -> Prop) :
  (forall m, ok m -> preserves P (perform m)) ->
  forall ms st, Forall ok ms -> P st -> P (replay ms st).
Proof.
  intros Hcall ms. induction ms as [|m rest IH]; intros st Hok HP; [exact HP|].
  apply Forall_cons in Hok as [Hm Hrest]. simpl. apply IH; [exact Hrest|].
  unfold after, call.
  destruct (perform m (st, [])) as [e|[[] [st' evs']]] eqn:E; simpl; [exact HP|].
  eapply Hcall; [exact Hm | exact HP | exact E].
Qed.

End Preserves.

(** One step of a walk through the code of a call. *)
Ltac keep1 := first
  [ apply preserves_pure
  | apply preserves_revert
  | apply preserves_read
  | apply preserves_emit
  | apply preserves_require
  | apply preserves_onlyRole
  | apply preserves_whenNotPaused
  | apply preserves_whenPaused
  | apply preserves_andThen; [|intros ?]
  | apply preserves_forEach; intros ?
  | apply preserves_write; intros ? ?
  | match goal with |- preserves _ (if ?c then _ else _) => destruct c eqn:? end ].

(** *** The sum of the balances *)

Lemma sum_insert (m : gmap address Z) (k : address) (v : Z) :
  map_fold (fun _ x acc => x + acc) 0 (<[k := v]> m) =
  map_fold (fun _ x acc => x + acc) 0 m - default 0 (m !! k) + v.
Proof.
  destruct (m !! k) as [x|] eqn:E; simpl.
  - rewrite <- (insert_delete_id m k x E) at 2.
    rewrite <- (insert_delete_eq m).
    rewrite !map_fold_insert_L; [lia | | | |];
      try (intros; lia); apply lookup_delete_eq.
  - rewrite map_fold_insert_L; [lia | intros; lia | exact E].
Qed.

Lemma sum_nonneg (m : gmap address Z) :
  (forall a, 0 <= default 0 (m !! a)) -> 0 <= map_fold (fun _ x acc => x + acc) 0 m.
Proof.
  induction m as [|i x m Hi IH] using map_ind; intros Hm.
  - by rewrite map_fold_empty.
  - rewrite map_fold_insert_L; [|intros; lia | exact Hi].
    pose proof (Hm i) as Hx. rewrite lookup_insert_eq in Hx. simpl in Hx.
    assert (0 <= map_fold (fun _ x acc => x + acc) 0 m); [|lia].
    apply IH. intros a. destruct (decide (a = i)) as [->|Hne].
    + by rewrite Hi.
    + specialize (Hm a). by rewrite lookup_insert_ne in Hm.
Qed.

Lemma balance_le_sum (m : gmap address Z) (k : address) :
  (forall a, 0 <= default 0 (m !! a)) ->
  default 0 (m !! k) <= map_fold (fun _ x acc => x + acc) 0 m.
Proof.
  intros Hm. pose proof (sum_insert m k 0) as E.
  assert (0 <= map_fold (fun _ x acc => x + acc) 0 (<[k := 0]> m)); [|lia].
  apply sum_nonneg. intros a. destruct (decide (a = k)) as [->|Hne].
  - by rewrite lookup_insert_eq.
  - rewrite lookup_insert_ne by done. apply Hm.
Qed.

Lemma balanced_balance_le_supply (st : State) (a : address) :
  balanced st -> balanceOf st a <= totalSupply st.
Proof.
  intros (Hsum & Hpos & _). rewrite <- Hsum. by apply balance_le_sum.
Qed.

Lemma balanceOf_insert (st : State) (k a : address) (v : Z) :
  balanceOf (set_balances (fun b => <[k := v]> b) st) a =
  if decide (k = a) then v else balanceOf st a.
Proof.
  unfold balanceOf; simpl. destruct (decide (k = a)) as [->|Hne].
  - by rewrite lookup_insert_eq.
  - by rewrite lookup_insert_ne.
Qed.

(** The inherited [ERC20._update] keeps the books balanced. *)
Lemma ERC20_update_balanced (from to : address) (value : Z) :
  0 <= value -> preserves balanced (ERC20_update from to value).
Proof.
  intros Hv st evs a st' evs' Hbal.
  pose proof (balanced_balance_le_supply st from Hbal) as Hle.
  destruct Hbal as (Hsum & Hpos & Hsup).
  unfold balanced, ERC20_update, andThen, read, write, emit, revert.
  unfold uint256, sum_balances, balanceOf in *. cbn [fst snd].
  case_bool_decide as Hfrom.
  - case_bool_decide as Hmax; [|discriminate]. cbn [fst snd].
    case_bool_decide as Hto; intros E; simplify_eq/=.
    + split; [lia|]. split; [exact Hpos | lia].
    + rewrite sum_insert. split; [lia|]. split; [|lia].
      intros x. destruct (decide (to = x)) as [->|Hne].
      * rewrite lookup_insert_eq; simpl. pose proof (Hpos x). lia.
      * rewrite lookup_insert_ne by done. apply Hpos.
  - case_bool_decide as Hlow; [discriminate|]. cbn [fst snd].
    case_bool_decide as Hto; intros E; simplify_eq/=.
    + rewrite sum_insert. split; [lia|]. split; [|lia].
      intros x. destruct (decide (from = x)) as [->|Hne].
      * rewrite lookup_insert_eq; simpl. lia.
      * rewrite lookup_insert_ne by done. apply Hpos.
    + rewrite !sum_insert. split; [lia|]. split; [|lia].
      intros x. destruct (decide (to = x)) as [->|Hne].
      * rewrite lookup_insert_eq; simpl.
        destruct (decide (from = x)) as [->|Hne'].
        -- rewrite lookup_insert_eq; simpl. lia.
        -- rewrite lookup_insert_ne by done. pose proof (Hpos x). lia.
      * rewrite lookup_insert_ne by done.
        destruct (decide (from = x)) as [->|Hne'].
        -- rewrite lookup_insert_eq; simpl. lia.
        -- rewrite lookup_insert_ne by done. apply Hpos.
Qed.


Lemma preserves_require_then {A} (P : State -> Prop) (cond : bool) (reason : string) (k : Tx A) :
  (cond = true -> preserves P k) -> preserves P (require cond reason ;; k).
Proof.
  intros Hk. destruct cond; simpl.
  - apply preserves_andThen; [apply preserves_pure | intros _; by apply Hk].
  - intros st evs a st' evs' _ E. discriminate.
Qed.

(** Code that writes only balances and supply keeps what does not read
    them. *)
Lemma ERC20_update_blind (P : State -> Prop) (from to : address) (value : Z) :
  (forall st f, P st -> P (set_balances f st)) ->
  (forall st n, P st -> P (set_totalSupply n st)) ->
  preserves P (ERC20_update from to value).
Proof.
  intros Hb Hs. unfold ERC20_update. cbv zeta.
  repeat first [ keep1 | by apply Hb | by apply Hs ].
Qed.

Ltac open_calls :=
  unfold perform, mint, burnWithReason, burn, transfer, addToWhitelist, removeFromWhitelist,
    batchAddToWhitelist, pause, unpause, grantIssuerRole, grantAdminRole, grantRole,
    updateAssetMetadata, _mint, _burn, _update, _pause, _unpause, _grantRole.

(** *** The books balance *)

Lemma perform_balanced (m : Message) : well_typed m -> preserves balanced (perform m).
Proof.
  destruct m as [s t []]; unfold well_typed, uint256; simpl; intros Hm; open_calls; simpl;
    repeat first [ apply ERC20_update_balanced; lia | keep1 | assumption ].
Qed.

Lemma constructed_balanced (sender : address) (ts : Z) (name_ symbol_ ct u : string) (q : Z)
    (sl ch : string) :
  balanced (constructed sender ts name_ symbol_ ct u q sl ch).
Proof.
  split; [|split].
  - unfold sum_balances; simpl. by rewrite map_fold_empty.
  - intros a. unfold balanceOf; simpl. by rewrite lookup_empty.
  - unfold uint256, MAX_UINT256; simpl. lia.
Qed.

(** X1: over every sequence of the modelled calls with [uint256]
    amounts, from a storage whose books balance, the supply stays the sum
    of all balances and a [uint256], and every balance stays between zero
    and the supply: the unchecked arithmetic of the inherited ERC20 never
    wraps. *)
Theorem supply_is_the_sum_of_balances (st : State) (ms : list Message) :
  balanced st ->
  Forall well_typed ms ->
  sum_balances (replay ms st) = totalSupply (replay ms st) /\
  0 <= totalSupply (replay ms st) <= MAX_UINT256 /\
  (forall a, 0 <= balanceOf (replay ms st) a <= totalSupply (replay ms st)).
Proof.
  intros Hst Hms.
  assert (Hend : balanced (replay ms st)).
  { apply (preserves_replay balanced well_typed); [apply perform_balanced | exact Hms | exact Hst]. }
  split; [apply Hend|]. split; [apply Hend|].
  intros a. split; [apply Hend | by apply balanced_balance_le_supply].
Qed.

(** X1 in the fixture: after the five calls the supply is 90, held as 70
    and 20. *)
Lemma supply_after_the_fixture_calls :
  sum_balances (replay fixture_calls deployed) = totalSupply (replay fixture_calls deployed) /\
  totalSupply (replay fixture_calls deployed) = 90 /\
  balanceOf (replay fixture_calls deployed) 1 = 70 /\
  balanceOf (replay fixture_calls deployed) 5 = 20.
Proof.
  split.
  - apply (supply_is_the_sum_of_balances deployed fixture_calls).
    + apply (constructed_balanced 1 1000 "Gold Token" "GLDT" "GOLD" "oz" 1000
               "Vault A, London" "QmHash123456789").
    + repeat constructor; unfold well_typed, uint256, MAX_UINT256; simpl; lia.
  - vm_compute. repeat split; reflexivity.
Defined.


(** *** The pause switch *)

Ltac run_call :=
  unfold after, call; open_calls;
  unfold ERC20_update, onlyRole, whenNotPaused, whenPaused, require, andThen, read, write,
    emit, pure, revert; cbn [fst snd].

Lemma paused_token_call_reverts (st : State) (m : Message) :
  paused st = true -> moves_tokens (request m) = true ->
  exists e, call (perform m) st = Reverted e.
Proof.
  intros Hp Hm. destruct m as [s t []]; try discriminate; run_call; simpl; rewrite ?Hp.
  - destruct (hasRole st ISSUER_ROLE s); simpl; rewrite ?Hp; eauto.
  - eauto.
  - case_bool_decide; simpl; rewrite ?Hp; eauto.
  - repeat (case_bool_decide; simpl; rewrite ?Hp; eauto).
Qed.

Lemma other_calls_keep_tokens (st0 : State) (m : Message) :
  moves_tokens (request m) = false -> preserves (same_tokens st0) (perform m).
Proof.
  destruct m as [s t []]; try discriminate; intros _; simpl; open_calls; simpl;
    repeat first [ keep1 | assumption ].
Qed.

(** X2: while the ledger is paused no call moves a token: [mint] by an
    issuer, [burnWithReason], [burn] and [transfer] between two accounts
    revert with [EnforcedPause], whatever the whitelist and the balances
    say, and every modelled call leaves all balances and the supply as they
    were. The pause does not stop the whitelist: an admin still lists an
    account. *)
Theorem paused_ledger_moves_no_token (st : State) :
  paused st = true ->
  (forall sender to amount reason, hasRole st ISSUER_ROLE sender = true ->
     call (mint sender to amount reason) st = Reverted EnforcedPause) /\
  (forall sender amount reason,
     call (burnWithReason sender amount reason) st = Reverted EnforcedPause) /\
  (forall sender value, sender <> zero_address ->
     call (burn sender value) st = Reverted EnforcedPause) /\
  (forall sender to value, sender <> zero_address -> to <> zero_address ->
     call (transfer sender to value) st = Reverted EnforcedPause) /\
  (forall m, same_tokens st (after st m)) /\
  (forall sender account, hasRole st ADMIN_ROLE sender = true ->
     account <> zero_address -> whitelisted st account = false ->
     whitelisted (state_after st (call (addToWhitelist sender account) st)) account = true).
Proof.
  intros Hp. split; [|split; [|split; [|split; [|split]]]].
  - intros sender to amount reason Hrole. run_call. rewrite Hrole. cbn [fst snd]. by rewrite Hp.
  - intros sender amount reason. run_call. by rewrite Hp.
  - intros sender value Hs. run_call. rewrite bool_decide_eq_false_2 by done.
    cbn [fst snd]. by rewrite Hp.
  - intros sender to value Hs Ht. run_call. rewrite !bool_decide_eq_false_2 by done.
    cbn [fst snd]. by rewrite Hp.
  - intros m. unfold after. destruct (moves_tokens (request m)) eqn:Hm.
    + destruct (paused_token_call_reverts st m Hp Hm) as [e ->]. by split.
    + unfold call. destruct (perform m (st, [])) as [e|[[] [st' evs']]] eqn:E; simpl; [by split|].
      eapply (other_calls_keep_tokens st m Hm); [|exact E]. by split.
  - intros sender account Hadmin Hnz Hnl. run_call.
    rewrite Hadmin. cbn [fst snd]. rewrite bool_decide_eq_false_2 by done.
    cbn [negb fst snd]. rewrite Hnl. simpl.
    unfold whitelisted; simpl. by rewrite lookup_insert_eq.
Qed.

(** X2 on the paused fixture ledger: the deployer's transfer to itself is
    refused by the pause switch. *)
Lemma paused_fixture_refuses_a_transfer :
  call (transfer 1 1 0) deployed_paused = Reverted EnforcedPause.
Proof.
  apply (paused_ledger_moves_no_token deployed_paused); [reflexivity | discriminate | discriminate].
Defined.

Lemma pause_outcome (st : State) (sender : address) :
  call (pause sender) st =
    if hasRole st ADMIN_ROLE sender
    then if paused st then Reverted EnforcedPause
         else Success (set_paused true st) [Paused sender]
    else Reverted (AccessControlUnauthorizedAccount sender ADMIN_ROLE).
Proof.
  run_call. destruct (hasRole st ADMIN_ROLE sender); cbn [fst snd]; [|done].
  by destruct (paused st).
Qed.

Lemma unpause_outcome (st : State) (sender : address) :
  call (unpause sender) st =
    if hasRole st ADMIN_ROLE sender
    then if paused st then Success (set_paused false st) [Unpaused sender]
         else Reverted ExpectedPause
    else Reverted (AccessControlUnauthorizedAccount sender ADMIN_ROLE).
Proof.
  run_call. destruct (hasRole st ADMIN_ROLE sender); cbn [fst snd]; [|done].
  by destruct (paused st).
Qed.

Lemma grant_helper_outcome (st : State) (sender account : address) (role : Role)
    (grant : address -> address -> Tx unit) :
  (role, grant) = (ISSUER_ROLE, grantIssuerRole) \/ (role, grant) = (ADMIN_ROLE, grantAdminRole) ->
  call (grant sender account) st =
    if hasRole st DEFAULT_ADMIN_ROLE sender
    then if hasRole st role account then Success st []
         else Success (set_roles (fun r => <[(role, account) := true]> r) st)
                      [RoleGranted role account sender]
    else Reverted (AccessControlUnauthorizedAccount sender DEFAULT_ADMIN_ROLE).
Proof.
  intros [[= -> ->]|[= -> ->]]; run_call; unfold getRoleAdmin;
    (destruct (hasRole st DEFAULT_ADMIN_ROLE sender) eqn:Hyes; cbn [fst snd]; [|done]);
    rewrite Hyes; cbn [fst snd];
    match goal with |- context [hasRole st ?r account] => destruct (hasRole st r account) end;
    reflexivity.
Qed.

(** X5: [pause] and [unpause] are for the admin role only; an admin's
    [pause] of a running ledger sets the switch and emits [Paused], a
    second [pause] reverts with [EnforcedPause], [unpause] of a running
    ledger reverts with [ExpectedPause], and [unpause] after [pause] gives
    back the very storage the ledger had. *)
Theorem pause_then_unpause_restores_the_ledger (st : State) (sender : address) :
  (hasRole st ADMIN_ROLE sender = false ->
     call (pause sender) st = Reverted (AccessControlUnauthorizedAccount sender ADMIN_ROLE) /\
     call (unpause sender) st = Reverted (AccessControlUnauthorizedAccount sender ADMIN_ROLE)) /\
  (hasRole st ADMIN_ROLE sender = true -> paused st = true ->
     call (pause sender) st = Reverted EnforcedPause) /\
  (hasRole st ADMIN_ROLE sender = true -> paused st = false ->
     call (unpause sender) st = Reverted ExpectedPause /\
     call (pause sender) st = Success (set_paused true st) [Paused sender] /\
     call (unpause sender) (set_paused true st) = Success st [Unpaused sender]).
Proof.
  split; [|split].
  - intros Hrole. run_call. by rewrite Hrole.
  - intros Hrole Hp. run_call. rewrite Hrole. cbn [fst snd]. by rewrite Hp.
  - intros Hrole Hp. split; [|split]; run_call.
    + rewrite Hrole. cbn [fst snd]. by rewrite Hp.
    + rewrite Hrole. cbn [fst snd]. by rewrite Hp.
    + replace (hasRole (set_paused true st) ADMIN_ROLE sender) with true by (symmetry; exact Hrole).
      simpl. f_equal. destruct st; simpl in *; by subst.
Qed.

(** *** Transfers and burns *)

Ltac refused :=
  split; [ intros ? E; (injection E as <-); reflexivity | intros E; discriminate E ].

(** Every way [transfer] can end. *)
Lemma transfer_outcome (st : State) (sender to : address) (value : Z) :
  call (transfer sender to value) st =
    match transfer_refusal st sender to value with
    | Some e => Reverted e
    | None => Success (after_transfer st sender to value) [Transfer sender to value]
    end.
Proof.
  unfold transfer_refusal, after_transfer. run_call.
  case_bool_decide as Hs; simpl; [reflexivity|].
  case_bool_decide as Ht; simpl; [reflexivity|].
  destruct (paused st) eqn:Hp; simpl; [reflexivity|].
  rewrite ?bool_decide_eq_false_2 by done; simpl.
  destruct (whitelisted st sender) eqn:Hws; simpl; [|reflexivity].
  destruct (whitelisted st to) eqn:Hwt; simpl; [|reflexivity].
  rewrite ?bool_decide_eq_false_2 by done; simpl.
  case_bool_decide as Hlow; simpl; [reflexivity|].
  rewrite ?bool_decide_eq_false_2 by done; simpl.
  reflexivity.
Qed.

Lemma after_transfer_balance (st : State) (sender to : address) (value : Z) (a : address) :
  balanceOf (after_transfer st sender to value) a =
    balanceOf st a - (if decide (a = sender) then value else 0)
                   + (if decide (a = to) then value else 0).
Proof.
  unfold after_transfer, balanceOf; simpl.
  destruct (decide (a = to)) as [->|Hat].
  - rewrite lookup_insert_eq; simpl. destruct (decide (to = sender)) as [->|Hts].
    + rewrite lookup_insert_eq; simpl. lia.
    + rewrite lookup_insert_ne by done. lia.
  - rewrite lookup_insert_ne by done. destruct (decide (a = sender)) as [->|Has].
    + rewrite lookup_insert_eq; simpl. lia.
    + rewrite lookup_insert_ne by done. lia.
Qed.

(** X3: [transfer] meets its checks in this order: the two zero-address
    checks of ERC20, the pause switch, the sender's listing, the
    recipient's listing, the sender's balance; the first that fails gives
    the revert. When none fails the call emits one [Transfer], takes the
    value off the sender and adds it to the recipient (a transfer to
    oneself changes nothing), and touches no other balance, not the supply
    and nothing else in storage. *)
Theorem transfer_checks_and_effect (st : State) (sender to : address) (value : Z) :
  (forall e, transfer_refusal st sender to value = Some e ->
     call (transfer sender to value) st = Reverted e) /\
  (transfer_refusal st sender to value = None ->
     exists st',
       call (transfer sender to value) st = Success st' [Transfer sender to value] /\
       same_but_tokens st st' /\
       totalSupply st' = totalSupply st /\
       forall a, balanceOf st' a =
                 balanceOf st a - (if decide (a = sender) then value else 0)
                                + (if decide (a = to) then value else 0)).
Proof.
  pose proof (transfer_outcome st sender to value) as Hcall. split.
  - intros e He. by rewrite Hcall, He.
  - intros Hnone. rewrite Hnone in Hcall.
    exists (after_transfer st sender to value). split; [exact Hcall|].
    split; [by repeat split|]. split; [reflexivity|].
    apply after_transfer_balance.
Qed.

(** X4: burning asks for no listing. A holder that is not on the
    whitelist (never listed, or removed from it) can still burn its own
    tokens on a running ledger, which lowers the supply, while every
    transfer out of the same account is refused. *)
Theorem unlisted_holder_can_burn_but_not_transfer (st : State) (holder to : address)
    (amount : Z) (reason : string) :
  holder <> zero_address -> to <> zero_address ->
  paused st = false ->
  whitelisted st holder = false ->
  0 < amount <= balanceOf st holder ->
  (exists st',
     call (burnWithReason holder amount reason) st =
       Success st' [Transfer holder zero_address amount; TokensBurned holder amount reason] /\
     balanceOf st' holder = balanceOf st holder - amount /\
     totalSupply st' = totalSupply st - amount) /\
  call (transfer holder to amount) st = Reverted (Error "RWAToken: sender not whitelisted").
Proof.
  intros Hh Ht Hp Hw [Hpos Hle]. split.
  - run_call.
    repeat (first [ rewrite Hp
                  | rewrite (bool_decide_eq_true_2 (amount > 0)) by lia
                  | rewrite (bool_decide_eq_false_2 (holder = zero_address)) by done
                  | rewrite (bool_decide_eq_false_2 (balanceOf st holder < amount)) by lia ];
            simpl).
    eexists. split; [reflexivity|]. split; [|reflexivity].
    unfold balanceOf; simpl. by rewrite lookup_insert_eq.
  - run_call.
    repeat (first [ rewrite Hp | rewrite Hw
                  | rewrite (bool_decide_eq_false_2 (holder = zero_address)) by done
                  | rewrite (bool_decide_eq_false_2 (to = zero_address)) by done ];
            simpl).
    reflexivity.
Qed.

(** X4 in the fixture: account [5], delisted while holding 30 units,
    burns 10 of them; its transfer back to the deployer is refused. *)
Lemma delisted_holder_in_the_fixture :
  (exists st',
     call (burnWithReason 5 10 "Redemption") (replay (firstn 4 fixture_calls) deployed) =
       Success st' [Transfer 5 zero_address 10; TokensBurned 5 10 "Redemption"] /\
     balanceOf st' 5 = balanceOf (replay (firstn 4 fixture_calls) deployed) 5 - 10 /\
     totalSupply st' = totalSupply (replay (firstn 4 fixture_calls) deployed) - 10) /\
  call (transfer 5 1 10) (replay (firstn 4 fixture_calls) deployed) =
    Reverted (Error "RWAToken: sender not whitelisted").
Proof.
  apply (unlisted_holder_can_burn_but_not_transfer
           (replay (firstn 4 fixture_calls) deployed) 5 1 10 "Redemption");
    try discriminate; try (vm_compute; reflexivity).
  vm_compute. split; [reflexivity | discriminate].
Defined.


(** *** The zero address *)

Lemma perform_zero_is_nobody (m : Message) : preserves zero_is_nobody (perform m).
Proof.
  assert (Hlist : forall (a : address) (st : State),
            a <> zero_address -> zero_is_nobody st ->
            zero_is_nobody (set_whitelist (fun w => <[a := true]> w) st)).
  { intros a st Ha [Hw Hb]. split; [|exact Hb].
    unfold whitelisted in *; simpl. by rewrite lookup_insert_ne. }
  assert (Hmove : forall from to value, preserves zero_is_nobody (ERC20_update from to value)).
  { intros from to value. unfold ERC20_update. cbv zeta.
    repeat first [ keep1 | assumption ];
      match goal with H : zero_is_nobody _ |- _ => destruct H as [Hw Hb] end;
      (split; [exact Hw|]); unfold balanceOf in *; simpl;
      first [ exact Hb
            | rewrite lookup_insert_ne; [exact Hb|];
              match goal with H : bool_decide (?x = zero_address) = false |- ?x <> _ =>
                by apply bool_decide_eq_false in H end ]. }
  destruct m as [s t []]; simpl; open_calls; simpl;
    repeat first
      [ apply Hmove
      | apply preserves_require_then; intros ?
      | match goal with
        | |- preserves _ (if ?c then _ else _) => destruct c eqn:?
        end
      | keep1
      | assumption ].
  - apply Hlist; [|assumption].
    match goal with H : negb (bool_decide _) = true |- _ =>
      by apply negb_true_iff, bool_decide_eq_false in H end.
  - match goal with H : zero_is_nobody _ |- _ => destruct H as [Hw Hb] end.
    split; [|exact Hb]. unfold whitelisted in *; simpl.
    destruct (decide (account = zero_address)) as [->|Hne].
    + by rewrite lookup_insert_eq.
    + by rewrite lookup_insert_ne.
  - apply Hlist; [|assumption].
    match goal with H : (_ && _)%bool = true |- _ =>
      apply andb_true_iff in H as [H _];
      by apply negb_true_iff, bool_decide_eq_false in H end.
Qed.

(** X6: the zero address is never listed and never holds a token. From
    a storage where that is so (every deployment by a real account), it
    stays so over every sequence of the modelled calls; hence a [mint] to
    the zero address is always turned away by the contract's own checks,
    and the zero-address check of the inherited [_mint] is never the one
    that refuses it. *)
Theorem zero_address_is_never_listed_nor_funded (st : State) (ms : list Message) :
  zero_is_nobody st ->
  whitelisted (replay ms st) zero_address = false /\
  balanceOf (replay ms st) zero_address = 0 /\
  (forall sender amount reason,
     exists e, call (mint sender zero_address amount reason) (replay ms st) = Reverted e /\
               e <> ERC20InvalidReceiver zero_address).
Proof.
  intros Hst.
  assert (Hend : zero_is_nobody (replay ms st)).
  { apply (preserves_replay zero_is_nobody (fun _ => True)).
    - intros m _. apply perform_zero_is_nobody.
    - by apply Forall_forall.
    - exact Hst. }
  destruct Hend as [Hw Hb]. split; [exact Hw|]. split; [exact Hb|].
  intros sender amount reason. run_call.
  destruct (hasRole (replay ms st) ISSUER_ROLE sender); simpl; [|eauto].
  destruct (paused (replay ms st)); simpl; [eauto|].
  rewrite Hw. simpl. eauto.
Qed.

(** X6 from the deployment of the fixture. *)
Lemma zero_address_after_the_fixture_calls :
  whitelisted (replay fixture_calls deployed) zero_address = false /\
  balanceOf (replay fixture_calls deployed) zero_address = 0.
Proof.
  destruct (zero_address_is_never_listed_nor_funded deployed fixture_calls) as (Hw & Hb & _).
  - split; vm_compute; reflexivity.
  - split; [exact Hw | exact Hb].
Defined.

(** *** Roles *)

(** X7: the two grant helpers are for the default admin only: a caller
    without [DEFAULT_ADMIN_ROLE] is turned away, also when it holds
    [ADMIN_ROLE]. For the default admin the call never reverts: it gives
    the account the role and emits [RoleGranted], or, when the account
    holds the role already, changes nothing and emits nothing. No other
    role assignment changes. *)
Theorem grant_helpers_are_for_the_default_admin (st : State) (sender account : address) :
  (hasRole st DEFAULT_ADMIN_ROLE sender = false ->
     call (grantIssuerRole sender account) st =
       Reverted (AccessControlUnauthorizedAccount sender DEFAULT_ADMIN_ROLE) /\
     call (grantAdminRole sender account) st =
       Reverted (AccessControlUnauthorizedAccount sender DEFAULT_ADMIN_ROLE)) /\
  (hasRole st DEFAULT_ADMIN_ROLE sender = true ->
     forall role grant, (role, grant) = (ISSUER_ROLE, grantIssuerRole) \/
                        (role, grant) = (ADMIN_ROLE, grantAdminRole) ->
     exists st',
       call (grant sender account) st =
         Success st' (if hasRole st role account then []
                      else [RoleGranted role account sender]) /\
       (hasRole st role account = true -> st' = st) /\
       st' = set_roles (fun _ => roles st') st /\
       forall r a, hasRole st' r a =
                   (bool_decide ((role, account) = (r, a)) || hasRole st r a)%bool).
Proof.
  split.
  - intros Hno. split.
    + rewrite (grant_helper_outcome st sender account ISSUER_ROLE grantIssuerRole) by eauto.
      by rewrite Hno.
    + rewrite (grant_helper_outcome st sender account ADMIN_ROLE grantAdminRole) by eauto.
      by rewrite Hno.
  - intros Hyes role grant Hwhich.
    rewrite (grant_helper_outcome st sender account role grant Hwhich), Hyes.
    destruct (hasRole st role account) eqn:Hheld.
    + exists st. split; [reflexivity|]. split; [done|]. split; [by destruct st|].
      intros r a. case_bool_decide as E; [|reflexivity].
      injection E as <- <-. by rewrite Hheld.
    + eexists. split; [reflexivity|]. split; [discriminate|]. split; [reflexivity|].
      intros r a. apply RWATokenFacts.hasRole_grant.
Qed.

(** *** Asset metadata *)

Lemma perform_keeps_createdAt (c : Z) (m : Message) :
  preserves (fun st => createdAt (assetMetadata st) = c) (perform m).
Proof.
  destruct m as [s t []]; simpl; open_calls; simpl;
    repeat first [ apply ERC20_update_blind; [intros ? ? ?; assumption | intros ? ? ?; assumption]
                 | keep1 | assumption ].
Qed.

(** X8: [updateAssetMetadata] is for the admin role only, and works on
    a paused ledger too. It replaces the five descriptive fields, stamps
    [updatedAt] with the time of the block and emits
    [AssetMetadataUpdated]; it never looks at the supply, so the recorded
    quantity may be set to any value. The creation time is never written
    again: over every sequence of the modelled calls it stays what the
    constructor stored. *)
Theorem metadata_update_keeps_the_creation_time (st : State) :
  (forall sender ts ct u q sl ch, hasRole st ADMIN_ROLE sender = false ->
     call (updateAssetMetadata sender ts ct u q sl ch) st =
       Reverted (AccessControlUnauthorizedAccount sender ADMIN_ROLE)) /\
  (forall sender ts ct u q sl ch, hasRole st ADMIN_ROLE sender = true ->
     call (updateAssetMetadata sender ts ct u q sl ch) st =
       Success (set_assetMetadata
                  {| commodityType := ct; unit_ := u; totalQuantity := q;
                     storageLocation := sl; certificationHash := ch;
                     createdAt := createdAt (assetMetadata st); updatedAt := ts |} st)
               [AssetMetadataUpdated ct u q sl ch]) /\
  (forall ms, createdAt (getAssetMetadata (replay ms st)) = createdAt (getAssetMetadata st)).
Proof.
  split; [|split].
  - intros sender ts ct u q sl ch Hno. run_call. by rewrite Hno.
  - intros sender ts ct u q sl ch Hyes. run_call. by rewrite Hyes.
  - intros ms. unfold getAssetMetadata.
    apply (preserves_replay (fun s => createdAt (assetMetadata s) = createdAt (assetMetadata st))
             (fun _ => True)).
    + intros m _. apply perform_keeps_createdAt.
    + by apply Forall_forall.
    + reflexivity.
Qed.

(** *** Listing and delisting *)

(** X9: for an admin, [removeFromWhitelist] undoes [addToWhitelist] and
    the other way round: after the two calls every account reads on the
    whitelist as it did before, and nothing else in storage has changed.
    Both calls succeed, with one [WhitelistUpdated] each. *)
Theorem delisting_undoes_listing (st : State) (sender account : address) :
  hasRole st ADMIN_ROLE sender = true ->
  account <> zero_address ->
  exists st1 st2,
    call (if whitelisted st account then removeFromWhitelist sender account
          else addToWhitelist sender account) st =
      Success st1 [WhitelistUpdated account (negb (whitelisted st account))] /\
    whitelisted st1 account = negb (whitelisted st account) /\
    call (if whitelisted st account then addToWhitelist sender account
          else removeFromWhitelist sender account) st1 =
      Success st2 [WhitelistUpdated account (whitelisted st account)] /\
    (forall a, whitelisted st2 a = whitelisted st a) /\
    st2 = set_whitelist (fun _ => whitelist st2) st.
Proof.
  intros Hadmin Hnz.
  assert (Hrole : forall b, hasRole (set_whitelist (fun m => <[account := b]> m) st)
                              ADMIN_ROLE sender = true) by (intros b; exact Hadmin).
  assert (Hread : forall b b' a,
            whitelisted (set_whitelist (fun m => <[account := b']> m)
                           (set_whitelist (fun m => <[account := b]> m) st)) a =
            if decide (a = account) then b' else whitelisted st a).
  { intros b b' a. unfold whitelisted; simpl. destruct (decide (a = account)) as [->|Hne].
    - by rewrite lookup_insert_eq.
    - by rewrite !lookup_insert_ne. }
  destruct (whitelisted st account) eqn:Hw.
  - exists (set_whitelist (fun m => <[account := false]> m) st),
           (set_whitelist (fun m => <[account := true]> m)
              (set_whitelist (fun m => <[account := false]> m) st)).
    rewrite RWATokenFacts.removeFromWhitelist_outcome, Hw by exact Hadmin.
    split; [reflexivity|]. split; [unfold whitelisted; simpl; by rewrite lookup_insert_eq|].
    rewrite RWATokenFacts.addToWhitelist_outcome by apply Hrole.
    rewrite bool_decide_eq_false_2 by done.
    replace (whitelisted (set_whitelist (fun m => <[account := false]> m) st) account)
      with false by (unfold whitelisted; simpl; by rewrite lookup_insert_eq).
    split; [reflexivity|]. split; [|reflexivity].
    intros a. rewrite Hread. destruct (decide (a = account)) as [->|]; [by rewrite Hw | done].
  - exists (set_whitelist (fun m => <[account := true]> m) st),
           (set_whitelist (fun m => <[account := false]> m)
              (set_whitelist (fun m => <[account := true]> m) st)).
    rewrite RWATokenFacts.addToWhitelist_outcome, Hw by exact Hadmin.
    rewrite bool_decide_eq_false_2 by done.
    split; [reflexivity|]. split; [unfold whitelisted; simpl; by rewrite lookup_insert_eq|].
    rewrite RWATokenFacts.removeFromWhitelist_outcome by apply Hrole.
    replace (whitelisted (set_whitelist (fun m => <[account := true]> m) st) account)
      with true by (unfold whitelisted; simpl; by rewrite lookup_insert_eq).
    split; [reflexivity|]. split; [|reflexivity].
    intros a. rewrite Hread. destruct (decide (a = account)) as [->|]; [by rewrite Hw | done].
Qed.

(** X9 in the fixture: the deployer lists account [5] and delists it
    again. *)
Lemma listing_and_delisting_account_5 :
  exists st1 st2,
    call (addToWhitelist 1 5) deployed = Success st1 [WhitelistUpdated 5 true] /\
    call (removeFromWhitelist 1 5) st1 = Success st2 [WhitelistUpdated 5 false] /\
    forall a, whitelisted st2 a = whitelisted deployed a.
Proof.
  destruct (delisting_undoes_listing deployed 1 5) as (st1 & st2 & E1 & _ & E2 & Hsame & _).
  - vm_compute; reflexivity.
  - discriminate.
  - exists st1, st2. split; [exact E1|]. split; [exact E2 | exact Hsame].
Defined.

End RWATokenLedgerFacts.

(** ** The event synchronizer: the history over time, the mirror, replays *)

Module EventSyncHistoryFacts.

Import EventSync EventSyncSpec EventSyncHistory.
Import EventSyncFacts.

(** *** What every run of the service respects *)

Section Guarded.
(** A relation between worlds that every console line, every request to
    the node, every write of the service object or of the users, and
    every insert of a document whose hash is new, respects. *)
Context (R : World -> World -> Prop) `{!PreOrder R}.
Hypothesis R_console : forall w f, R w (set_console f w).
Hypothesis R_rpc : forall w f, R w (set_rpcTrace f w).
Hypothesis R_service : forall w f, R w (set_service f w).
Hypothesis R_flag : forall w wallet flag, R w (set_users (update_first wallet flag) w).
Hypothesis R_insert : forall w doc,
  txHash_taken (txHash doc) (transactions w) = false ->
  R w (set_transactions (fun docs => (docs ++ [doc])%list) w).

Lemma guarded_Transaction_create env doc : steps R (Transaction_create env doc).
Proof.
  intros w r w' E. unfold Transaction_create, bind, get, throw, modify in E.
  destruct (dbFault env (OpCreate doc)); [injection E as _ <-; reflexivity|].
  destruct (txHash_taken (txHash doc) (transactions w)) eqn:Htaken;
    injection E as _ <-; [reflexivity | by apply R_insert].
Qed.

Ltac open_rest :=
  unfold processTransferEvent, processMintEvent, processBurnEvent,
    processWhitelistEvent, processPauseEvent, provider_getBlock,
    on_provider, on_contract, rpc, Transaction_findOne,
    User_findOneAndUpdate, console_log, console_error,
    report_unless_filter_not_found.

Ltac guarded_walk :=
  repeat first [ apply guarded_Transaction_create | walk1 ]; auto.

Lemma guarded_processTransferEvent env event : steps R (processTransferEvent env event).
Proof. open_rest. guarded_walk. Qed.

Lemma guarded_processMintEvent env event : steps R (processMintEvent env event).
Proof. open_rest. guarded_walk. Qed.

Lemma guarded_processBurnEvent env event : steps R (processBurnEvent env event).
Proof. open_rest. guarded_walk. Qed.

Lemma guarded_processWhitelistEvent env event : steps R (processWhitelistEvent env event).
Proof. open_rest. guarded_walk. Qed.

Lemma guarded_processPauseEvent env event paused : steps R (processPauseEvent env event paused).
Proof. open_rest. guarded_walk. Qed.

Ltac guarded_window :=
  repeat first
    [ apply guarded_processTransferEvent | apply guarded_processMintEvent
    | apply guarded_processBurnEvent | apply guarded_processWhitelistEvent
    | apply guarded_processPauseEvent
    | progress (unfold on_contract, on_provider, rpc, report_unless_filter_not_found,
                  console_error, console_log)
    | walk1 ]; auto.

Lemma guarded_queryEvents env fromBlock toBlock : steps R (queryEvents env fromBlock toBlock).
Proof. unfold queryEvents. guarded_window. Qed.

Lemma guarded_pollEvents env : steps R (pollEvents env).
Proof.
  unfold pollEvents. cbv zeta.
  repeat first [ apply guarded_queryEvents
               | progress (unfold on_provider, rpc, report_unless_filter_not_found, console_error)
               | walk1 ]; auto.
Qed.

Lemma guarded_initialize env : steps R (initialize env).
Proof. unfold initialize. guarded_window. Qed.

Lemma guarded_startListening env0 env1 : steps R (startListening env0 env1).
Proof.
  unfold startListening.
  repeat first [ apply guarded_pollEvents | apply guarded_initialize
               | progress (unfold console_error, console_log)
               | walk1 ]; auto.
Qed.

Lemma guarded_stopListening : steps R stopListening.
Proof. unfold stopListening. guarded_window. Qed.

Lemma guarded_run inputs : steps R (run inputs).
Proof.
  unfold run. apply JsFacts.steps_forEach; [exact _|]. intros [env| |env0 env1]; simpl.
  - repeat first [ apply guarded_pollEvents | walk1 ].
  - apply guarded_stopListening.
  - apply guarded_startListening.
Qed.

End Guarded.

(** *** The history only grows, and no hash is stored twice *)

Lemma txHash_taken_spec hash docs :
  txHash_taken hash docs = false <-> hash ∉ map txHash docs.
Proof.
  unfold txHash_taken. induction docs as [|d docs IH]; simpl.
  - split; [intros _ H; by apply elem_of_nil in H | done].
  - rewrite orb_false_iff, IH, not_elem_of_cons. split.
    + intros [Hd Hrest]. split; [|exact Hrest].
      intros ->. by rewrite String.eqb_refl in Hd.
    + intros [Hd Hrest]. split; [|exact Hrest].
      destruct (String.eqb_spec (txHash d) hash); [congruence | done].
Qed.

#[local] Instance history_kept_preorder : PreOrder history_kept.
Proof.
  split.
  - intros w. split; [exists []; by rewrite app_nil_r | done].
  - intros w1 w2 w3 [[l1 E1] N1] [[l2 E2] N2]. split.
    + exists (l1 ++ l2)%list. by rewrite E2, E1, app_assoc.
    + auto.
Qed.

Lemma history_kept_insert w doc :
  txHash_taken (txHash doc) (transactions w) = false ->
  history_kept w (set_transactions (fun docs => (docs ++ [doc])%list) w).
Proof.
  intros Hnew. split; [by exists [doc]|].
  unfold hashes; simpl. rewrite map_app; simpl. intros Hnodup.
  apply NoDup_app. split; [exact Hnodup|]. split.
  - intros h Hin Hin'. apply list_elem_of_singleton in Hin' as ->.
    by apply txHash_taken_spec in Hnew.
  - apply NoDup_singleton.
Qed.

(** X10: whatever happens to the service (timer ticks with any answers
    and faults, stops, starts), the history is append-only: the documents
    it held are still there, in place and unchanged, and new ones come
    after them; no transaction hash is stored twice if none was; and no
    user is created or removed, nor any field of a user changed but the
    whitelist flag. *)
Theorem history_is_append_only_with_unique_hashes (inputs : list Input) (w : World) :
  (exists added,
     transactions (snd (run inputs w)) = (transactions w ++ added)%list) /\
  (NoDup (hashes w) -> NoDup (hashes (snd (run inputs w)))) /\
  map but_flag (users (snd (run inputs w))) = map but_flag (users w).
Proof.
  destruct (run inputs w) as [r w'] eqn:E. simpl.
  assert (Hkept : history_kept w w').
  { assert (Hsame : forall w0 w1, transactions w1 = transactions w0 -> history_kept w0 w1).
    { intros w0 w1 Hsame. unfold history_kept, hashes. rewrite Hsame.
      split; [exists []; by rewrite app_nil_r | done]. }
    apply (@guarded_run history_kept history_kept_preorder) with (inputs := inputs) (r := r);
      [ intros; by apply Hsame .. | | exact E ].
    intros; by apply history_kept_insert. }
  destruct Hkept as [Hgrow Hnodup]. split; [exact Hgrow|]. split; [exact Hnodup|].
  apply (@guarded_run (keeps (fun w => map but_flag (users w))) (keeps_preorder _))
    with (inputs := inputs) (r := r); [ done .. | | | exact E ].
  - intros w0 wallet flag. unfold keeps; simpl. apply update_first_but_flag.
  - done.
Qed.

End EventSyncHistoryFacts.

Module EventSyncReplayFacts.

Import EventSync EventSyncSpec EventSyncHistory EventSyncReplay.
Import EventSyncFacts.

(** *** What one handler does to the collections *)

Lemma item_doc_hash env i block : txHash (item_doc env i block) = item_hash i.
Proof.
  destruct i as [e|e|e|e|e p]; simpl;
    unfold transferDoc, mintDoc, burnDoc, whitelistDoc, pauseDoc;
    try (by destruct (args e) as [[? ?] ?]); try (by destruct (args e)); done.
Qed.

Ltac run_item :=
  open_handlers;
  unfold try_catch, bind, get, ret, throw, modify, lift;
  repeat (first
    [ match goal with |- context [dbFault ?e (OpFindOne ?h ?t)] =>
        destruct (dbFault e (OpFindOne h t)) eqn:? end
    | match goal with |- context [List.find ?f ?l] => destruct (List.find f l) eqn:? end
    | match goal with |- context [provider ?s] => destruct (provider s) eqn:? end
    | match goal with |- context [getBlock ?e ?n] => destruct (getBlock e n) eqn:? end
    | match goal with |- context [dbFault ?e (OpCreate ?d)] =>
        destruct (dbFault e (OpCreate d)) eqn:? end
    | match goal with |- context [txHash_taken ?h ?l] =>
        destruct (txHash_taken h l) eqn:? end
    | match goal with |- context [dbFault ?e (OpUserUpdate ?a)] =>
        destruct (dbFault e (OpUserUpdate a)) eqn:? end ]; cbn [fst snd]).

(** A handler leaves the service object alone; it leaves both collections
    alone too, unless it gets to insert its document, which then goes to
    the end of the history, and only a [WhitelistUpdated] item touches
    the users. *)
Lemma handle_effect env i w :
  service (snd (handle env i w)) = service w /\
  collections (snd (handle env i w)) =
    match recorded env i w with
    | None => collections w
    | Some block => ((transactions w ++ [item_doc env i block])%list, mirror env i (users w))
    end.
Proof.
  unfold recorded, collections.
  destruct i as [e|e|e|e|e p]; simpl handle; simpl item_hash; simpl item_kind;
    simpl item_block; simpl mirror; simpl item_doc.
  - pose proof (item_doc_hash env (TransferItem e)) as Hd; simpl in Hd.
    run_item; rewrite ?Hd in *; simpl in *; try done; split; congruence.
  - pose proof (item_doc_hash env (MintItem e)) as Hd; simpl in Hd.
    run_item; rewrite ?Hd in *; simpl in *; try done; split; congruence.
  - pose proof (item_doc_hash env (BurnItem e)) as Hd; simpl in Hd.
    run_item; rewrite ?Hd in *; simpl in *; try done; split; congruence.
  - pose proof (item_doc_hash env (WhitelistItem e)) as Hd; simpl in Hd.
    run_item; rewrite ?Hd in *; simpl in *; try done; split; congruence.
  - pose proof (item_doc_hash env (PauseItem e p)) as Hd; simpl in Hd.
    destruct p; run_item; rewrite ?Hd in *; simpl in *; try done; split; congruence.
Qed.


Lemma handle_returns env i w : handle env i w = (Ok tt, snd (handle env i w)).
Proof.
  assert (Htotal : total (handle env i)).
  { destruct i; apply JsFacts.total_try_catch; intros e; apply JsFacts.total_modify. }
  destruct (Htotal w) as ([] & w' & E). by rewrite E.
Qed.

Lemma recorded_ext env i w w' :
  service w' = service w -> transactions w' = transactions w ->
  recorded env i w' = recorded env i w.
Proof. intros Hs Ht. unfold recorded. by rewrite Hs, Ht. Qed.

Lemma taken_not_recorded env i w :
  txHash_taken (item_hash i) (transactions w) = true -> recorded env i w = None.
Proof.
  intros Htaken. unfold recorded. rewrite Htaken.
  repeat match goal with |- context [match ?x with _ => _ end] => destruct x end; done.
Qed.

Lemma find_app_Some {A} (f : A -> bool) (l l' : list A) (a : A) :
  List.find f l = Some a -> List.find f (l ++ l') = Some a.
Proof.
  induction l as [|x l IH]; simpl; [done|]. destruct (f x); [done | exact IH].
Qed.

Lemma txHash_taken_app hash l l' :
  txHash_taken hash (l ++ l') = (txHash_taken hash l || txHash_taken hash l')%bool.
Proof. unfold txHash_taken. apply existsb_app. Qed.

(** An item that a world does not record is not recorded either once the
    history has grown. *)
Lemma recorded_stable env i w w' :
  grown w w' -> recorded env i w = None -> recorded env i w' = None.
Proof.
  intros [Hs [added Ht]]. unfold recorded. rewrite Hs, Ht.
  destruct (dbFault env (OpFindOne _ _)); [done|].
  destruct (List.find _ (transactions w)) as [d|] eqn:Hfind.
  { intros _. by rewrite (find_app_Some _ _ _ _ Hfind). }
  destruct (List.find _ (transactions w ++ added)); [done|].
  destruct (provider (service w)); [|done].
  destruct (getBlock env (item_block i)) as [block|]; [|done].
  destruct (dbFault env (OpCreate _)); [done|].
  rewrite txHash_taken_app.
  destruct (txHash_taken (item_hash i) (transactions w)); [done | discriminate].
Qed.

#[local] Instance grown_preorder : PreOrder grown.
Proof.
  split.
  - intros w. split; [done | exists []; by rewrite app_nil_r].
  - intros w1 w2 w3 [S1 [l1 E1]] [S2 [l2 E2]]. split; [congruence|].
    exists (l1 ++ l2)%list. by rewrite E2, E1, app_assoc.
Qed.

Lemma handle_grown env i w : grown w (snd (handle env i w)).
Proof.
  destruct (handle_effect env i w) as [Hs Hc]. split; [exact Hs|].
  unfold collections in Hc. destruct (recorded env i w) as [block|].
  - injection Hc as Ht _. by exists [item_doc env i block].
  - injection Hc as Ht _. exists []. by rewrite app_nil_r.
Qed.

(** Once handled, an item is not recorded again. *)
Lemma handle_settles env i w : recorded env i (snd (handle env i w)) = None.
Proof.
  destruct (handle_effect env i w) as [Hs Hc]. unfold collections in Hc.
  destruct (recorded env i w) as [block|] eqn:Hrec.
  - injection Hc as Ht _. apply taken_not_recorded.
    rewrite Ht, txHash_taken_app. apply orb_true_iff. right.
    simpl. by rewrite item_doc_hash, String.eqb_refl.
  - injection Hc as Ht _. by rewrite (recorded_ext env i w _ Hs Ht).
Qed.

(** *** A list of items, and the stages of a window *)

Lemma forEach_handle_returns env items w :
  forEach items (handle env) w = (Ok tt, snd (forEach items (handle env) w)).
Proof.
  assert (Htotal : total (forEach items (handle env))).
  { apply JsFacts.total_forEach. intros i w0. rewrite handle_returns. eauto. }
  destruct (Htotal w) as ([] & w' & E). by rewrite E.
Qed.

Lemma forEach_handle_settles env items :
  forall w, grown w (snd (forEach items (handle env) w)) /\
            forall i, i ∈ items -> recorded env i (snd (forEach items (handle env) w)) = None.
Proof.
  induction items as [|x rest IH]; intros w.
  - split; [reflexivity | intros i Hi; by apply elem_of_nil in Hi].
  - simpl. unfold bind. rewrite handle_returns.
    destruct (IH (snd (handle env x w))) as [Hgrown Hrest].
    split; [etransitivity; [apply handle_grown | exact Hgrown]|].
    intros i Hi. apply elem_of_cons in Hi as [->|Hi]; [|by apply Hrest].
    eapply recorded_stable; [exact Hgrown | apply handle_settles].
Qed.

Lemma forEach_handle_settled env items :
  forall w, (forall i, i ∈ items -> recorded env i w = None) ->
            service (snd (forEach items (handle env) w)) = service w /\
            collections (snd (forEach items (handle env) w)) = collections w.
Proof.
  induction items as [|x rest IH]; intros w Hall; [done|].
  simpl. unfold bind. rewrite handle_returns.
  destruct (handle_effect env x w) as [Hs Hc].
  rewrite (Hall x) in Hc by (apply elem_of_cons; by left).
  assert (Ht : transactions (snd (handle env x w)) = transactions w)
    by (unfold collections in Hc; congruence).
  destruct (IH (snd (handle env x w))) as [Hs' Hc'].
  { intros i Hi. rewrite (recorded_ext env i w _ Hs Ht). apply Hall, elem_of_cons. by right. }
  split; congruence.
Qed.

Lemma on_contract_connected {A} (call : RpcCall) (answer : result A) w :
  contract (service w) = true -> on_contract call answer w = (answer, sent call w).
Proof. intros Hc. unfold on_contract, rpc, bind, get, modify, lift. by rewrite Hc. Qed.

Lemma run_stages_cons env s rest w :
  run_stages env (s :: rest) w =
    if contract (service w) then
      match stage_answer s with
      | Ok items =>
          run_stages env rest (snd (forEach items (handle env) (sent (stage_call s) w)))
      | Throw message => (Throw message, sent (stage_call s) w)
      end
    else (Throw "Cannot read properties of null", w).
Proof.
  simpl. unfold bind at 1. destruct (contract (service w)) eqn:Hc.
  - rewrite on_contract_connected by exact Hc.
    destruct (stage_answer s) as [items|message]; [|done].
    unfold bind. by rewrite forEach_handle_returns.
  - unfold on_contract, bind, get, throw. by rewrite Hc.
Qed.

Lemma run_stages_settles env ss :
  forall w, contract (service w) = true ->
            grown w (snd (run_stages env ss w)) /\
            forall i, i ∈ reached ss -> recorded env i (snd (run_stages env ss w)) = None.
Proof.
  induction ss as [|s rest IH]; intros w Hc.
  - split; [reflexivity | intros i Hi; by apply elem_of_nil in Hi].
  - rewrite run_stages_cons, Hc. simpl reached.
    assert (Hsent : grown w (sent (stage_call s) w)) by (split; [done | exists []; by rewrite app_nil_r]).
    destruct (stage_answer s) as [items|message].
    + destruct (forEach_handle_settles env items (sent (stage_call s) w)) as [Hg1 Hset1].
      destruct (IH (snd (forEach items (handle env) (sent (stage_call s) w)))) as [Hg2 Hset2].
      { destruct Hg1 as [-> _]. exact Hc. }
      split; [etransitivity; [exact Hsent | etransitivity; [exact Hg1 | exact Hg2]]|].
      intros i Hi. apply elem_of_app in Hi as [Hi|Hi]; [|by apply Hset2].
      eapply recorded_stable; [exact Hg2 | by apply Hset1].
    + split; [exact Hsent | intros i Hi; by apply elem_of_nil in Hi].
Qed.

Lemma run_stages_settled env ss :
  forall w, (forall i, i ∈ reached ss -> recorded env i w = None) ->
            service (snd (run_stages env ss w)) = service w /\
            collections (snd (run_stages env ss w)) = collections w.
Proof.
  induction ss as [|s rest IH]; intros w Hall; [done|].
  rewrite run_stages_cons. simpl reached in Hall.
  destruct (contract (service w)) eqn:Hc; [|done].
  destruct (stage_answer s) as [items|message]; [|done].
  destruct (forEach_handle_settled env items (sent (stage_call s) w)) as [Hs1 Hc1].
  { intros i Hi. rewrite (recorded_ext env i w) by done. apply Hall, elem_of_app. by left. }
  assert (Ht1 : transactions (snd (forEach items (handle env) (sent (stage_call s) w))) =
                transactions w) by (unfold collections in Hc1; simpl in Hc1; congruence).
  destruct (IH (snd (forEach items (handle env) (sent (stage_call s) w)))) as [Hs2 Hc2].
  { intros i Hi. rewrite (recorded_ext env i w); [| exact Hs1 | exact Ht1 ].
    apply Hall, elem_of_app. by right. }
  split; [rewrite Hs2; exact Hs1 | rewrite Hc2; exact Hc1].
Qed.

(** [queryEvents] is its six stages under its [catch]. *)
Lemma forEach_map {A} (f : A -> Item) (h : Item -> Js (W := World) unit) (events : list A) w :
  forEach (map f events) h w = forEach events (fun x => h (f x)) w.
Proof.
  revert w. induction events as [|x rest IH]; intros w; simpl; [done|].
  unfold bind. destruct (h (f x) w) as [[[]|e] w1]; [apply IH | done].
Qed.

Lemma stage_as_items {A} env (f : A -> Item) call (answer : result (list A))
    (rest1 rest2 : Js unit) w :
  (forall w0, rest1 w0 = rest2 w0) ->
  bind (on_contract call answer)
       (fun events => bind (forEach events (fun x => handle env (f x))) (fun _ => rest1)) w =
  bind (on_contract call (as_items f answer))
       (fun items => bind (forEach items (handle env)) (fun _ => rest2)) w.
Proof.
  intros Hrest. unfold on_contract, rpc, bind, get, modify, lift, throw.
  destruct (contract (service w)); [|done].
  destruct answer as [events|message]; simpl; [|done].
  rewrite forEach_map.
  destruct (forEach events _ _) as [[[]|e] w1]; [apply Hrest | done].
Qed.

Lemma last_stage_as_items {A} env (f : A -> Item) call (answer : result (list A)) w :
  bind (on_contract call answer) (fun events => forEach events (fun x => handle env (f x))) w =
  bind (on_contract call (as_items f answer))
       (fun items => bind (forEach items (handle env)) (fun _ => ret tt)) w.
Proof.
  unfold on_contract, rpc, bind, get, modify, lift, throw, ret.
  destruct (contract (service w)); [|done].
  destruct answer as [events|message]; simpl; [|done].
  rewrite forEach_map.
  by destruct (forEach events _ _) as [[[]|e] w1].
Qed.

Lemma queryEvents_stages env fromBlock toBlock w :
  queryEvents env fromBlock toBlock w =
  try_catch (run_stages env (stages env fromBlock toBlock))
            (report_unless_filter_not_found "Error querying events:") w.
Proof.
  unfold queryEvents, try_catch.
  match goal with
  | |- (let (_, _) := ?b1 w in _) = (let (_, _) := ?b2 w in _) =>
      assert (E : forall w0, b1 w0 = b2 w0)
  end.
  { intros w0. unfold stages. simpl run_stages.
    apply (stage_as_items env TransferItem); intros w1.
    apply (stage_as_items env MintItem); intros w2.
    apply (stage_as_items env BurnItem); intros w3.
    apply (stage_as_items env WhitelistItem); intros w4.
    apply (stage_as_items env (fun event => PauseItem event true)); intros w5.
    apply (last_stage_as_items env (fun event => PauseItem event false)). }
  by rewrite E.
Qed.

Lemma report_keeps_collections label message w :
  collections (snd (report_unless_filter_not_found label message w)) = collections w.
Proof.
  unfold report_unless_filter_not_found, console_error.
  by destruct (JsString.includes _ _).
Qed.

(** What a window does to the service and the collections is what its
    stages do. *)
Lemma queryEvents_as_stages env fromBlock toBlock w :
  service (snd (queryEvents env fromBlock toBlock w)) =
    service (snd (run_stages env (stages env fromBlock toBlock) w)) /\
  collections (snd (queryEvents env fromBlock toBlock w)) =
    collections (snd (run_stages env (stages env fromBlock toBlock) w)).
Proof.
  rewrite queryEvents_stages. unfold try_catch.
  destruct (run_stages env (stages env fromBlock toBlock) w) as [[[]|e] w1]; [done|].
  split; [apply report_keeps_service | apply report_keeps_collections].
Qed.

(** *** Replays *)

(** X12: handling the same window a second time, with the same answers
    and the same faults, changes neither collection: whatever the first
    pass recorded is found or refused by the unique index, and whatever it
    did not record is not recorded by the second either. *)
Theorem replaying_a_window_changes_no_collection (env : Env) (fromBlock toBlock : Z) (w : World) :
  collections (snd (queryEvents env fromBlock toBlock
                      (snd (queryEvents env fromBlock toBlock w)))) =
  collections (snd (queryEvents env fromBlock toBlock w)).
Proof.
  set (w1 := snd (queryEvents env fromBlock toBlock w)).
  destruct (queryEvents_as_stages env fromBlock toBlock w1) as [_ ->].
  destruct (contract (service w)) eqn:Hc.
  - apply run_stages_settled. intros i Hi.
    destruct (run_stages_settles env (stages env fromBlock toBlock) w Hc) as [Hg Hset].
    destruct (queryEvents_as_stages env fromBlock toBlock w) as [Hs Hcol].
    rewrite (recorded_ext env i (snd (run_stages env (stages env fromBlock toBlock) w)));
      [ by apply Hset | exact Hs | unfold collections in Hcol; subst w1; congruence ].
  - assert (Hs : service w1 = service w).
    { subst w1. by apply (queryEvents_keeps_service env fromBlock toBlock w
                            (fst (queryEvents env fromBlock toBlock w))), surjective_pairing. }
    unfold stages. rewrite run_stages_cons, Hs, Hc. reflexivity.
Qed.

(** X13: a window all of whose logs carry hashes that the history holds
    already is a no-op on both collections, whatever the node and the
    database do meanwhile. *)
Theorem ingested_window_is_a_no_op (env : Env) (fromBlock toBlock : Z) (w : World) :
  (forall i, i ∈ window_items env fromBlock toBlock ->
             txHash_taken (item_hash i) (transactions w) = true) ->
  collections (snd (queryEvents env fromBlock toBlock w)) = collections w.
Proof.
  intros Hall.
  destruct (queryEvents_as_stages env fromBlock toBlock w) as [_ ->].
  apply run_stages_settled. intros i Hi. by apply taken_not_recorded, Hall.
Qed.


(** X13 in the fixture: the window of one [mint], ingested once, is gone
    through again while the database refuses every insert. *)
Lemma ingested_mint_window_is_a_no_op :
  collections
    (snd (queryEvents (node (Ok 5) [mint_transfer_log] [mint_minted_log] inserts_fail) 1 5
            (snd (queryEvents (node (Ok 5) [mint_transfer_log] [mint_minted_log] healthy) 1 5
                    listening)))) =
  collections
    (snd (queryEvents (node (Ok 5) [mint_transfer_log] [mint_minted_log] healthy) 1 5 listening)).
Proof.
  apply ingested_window_is_a_no_op.
  apply Forall_forall. vm_compute. repeat (constructor; [reflexivity|]). constructor.
Defined.

(** *** Logs that share a transaction hash *)

Lemma handle_cong env i w w' :
  service w' = service w -> collections w' = collections w ->
  service (snd (handle env i w')) = service (snd (handle env i w)) /\
  collections (snd (handle env i w')) = collections (snd (handle env i w)).
Proof.
  intros Hs Hc.
  destruct (handle_effect env i w) as [Hs1 Hc1], (handle_effect env i w') as [Hs2 Hc2].
  assert (Ht : transactions w' = transactions w) by (unfold collections in Hc; congruence).
  assert (Hu : users w' = users w) by (unfold collections in Hc; congruence).
  rewrite (recorded_ext env i w w' Hs Ht) in Hc2.
  split; [congruence|]. rewrite Hc1, Hc2, Ht, Hu, Hc. reflexivity.
Qed.

Lemma forEach_handle_cong env items :
  forall w w', service w' = service w -> collections w' = collections w ->
    service (snd (forEach items (handle env) w')) = service (snd (forEach items (handle env) w)) /\
    collections (snd (forEach items (handle env) w')) =
      collections (snd (forEach items (handle env) w)).
Proof.
  induction items as [|x rest IH]; intros w w' Hs Hc; [done|].
  simpl. unfold bind. rewrite (handle_returns env x w), (handle_returns env x w').
  destruct (handle_cong env x w w' Hs Hc) as [Hs1 Hc1]. by apply IH.
Qed.

Lemma forEach_handle_app env items1 items2 w :
  forEach (items1 ++ items2) (handle env) w =
  forEach items2 (handle env) (snd (forEach items1 (handle env) w)).
Proof.
  revert w. induction items1 as [|x rest IH]; intros w; [done|].
  simpl. unfold bind. rewrite handle_returns. apply IH.
Qed.

(** With the contract connected, a window does to the service and the
    collections what handling its items one after the other does. *)
Lemma run_stages_as_items env ss :
  forall w, contract (service w) = true ->
    service (snd (run_stages env ss w)) = service (snd (forEach (reached ss) (handle env) w)) /\
    collections (snd (run_stages env ss w)) =
      collections (snd (forEach (reached ss) (handle env) w)).
Proof.
  induction ss as [|s rest IH]; intros w Hc; [done|].
  rewrite run_stages_cons, Hc. simpl reached.
  destruct (stage_answer s) as [items|message]; [|done].
  rewrite forEach_handle_app.
  destruct (forEach_handle_cong env items w (sent (stage_call s) w)) as [Hs1 Hc1]; [done..|].
  destruct (IH (snd (forEach items (handle env) (sent (stage_call s) w)))) as [Hs2 Hc2].
  { rewrite Hs1. destruct (forEach_handle_settles env items w) as [[-> _] _]. exact Hc. }
  destruct (forEach_handle_cong env (reached rest) _ _ Hs1 Hc1) as [Hs3 Hc3].
  split; congruence.
Qed.

Lemma same_hash_at_most_one env (h : string) items :
  (forall i, i ∈ items -> item_hash i = h) ->
  forall w,
    collections (snd (forEach items (handle env) w)) = collections w \/
    exists i block,
      i ∈ items /\
      collections (snd (forEach items (handle env) w)) =
        ((transactions w ++ [item_doc env i block])%list, mirror env i (users w)).
Proof.
  induction items as [|x rest IH]; intros Hh w; [by left|].
  simpl. unfold bind. rewrite handle_returns.
  destruct (handle_effect env x w) as [Hs Hc].
  destruct (recorded env x w) as [block|] eqn:Hrec.
  - right. exists x, block. split; [apply elem_of_cons; by left|].
    rewrite <- Hc. apply forEach_handle_settled.
    intros i Hi. apply taken_not_recorded.
    assert (Ht : transactions (snd (handle env x w)) =
                 (transactions w ++ [item_doc env x block])%list)
      by (unfold collections in Hc; congruence).
    rewrite Ht, txHash_taken_app. apply orb_true_iff. right. simpl.
    rewrite item_doc_hash, (Hh i), (Hh x), String.eqb_refl; [done | |];
      apply elem_of_cons; [by left | by right].
  - destruct (IH (fun i Hi => Hh i (proj2 (elem_of_cons _ _ _) (or_intror Hi)))
                (snd (handle env x w))) as [Hsame|(i & block & Hi & Hone)].
    + left. congruence.
    + right. exists i, block. split; [apply elem_of_cons; by right|].
      rewrite Hone. unfold collections in Hc. congruence.
Qed.

(** X11: of the logs of a window that share one transaction hash (the
    [Transfer] and [TokensMinted] of a mint, the [WhitelistUpdated] logs
    of a batch), at most one is recorded, and only that one can reach the
    users: both collections stay as they were, or the history gains the
    document of one log and the users are changed as that log says. *)
Theorem one_document_per_transaction_hash (env : Env) (fromBlock toBlock : Z) (h : string)
    (w : World) :
  (forall i, i ∈ window_items env fromBlock toBlock -> item_hash i = h) ->
  collections (snd (queryEvents env fromBlock toBlock w)) = collections w \/
  exists i block,
    i ∈ window_items env fromBlock toBlock /\
    collections (snd (queryEvents env fromBlock toBlock w)) =
      ((transactions w ++ [item_doc env i block])%list, mirror env i (users w)).
Proof.
  intros Hh.
  destruct (queryEvents_as_stages env fromBlock toBlock w) as [_ ->].
  destruct (contract (service w)) eqn:Hc.
  - destruct (run_stages_as_items env (stages env fromBlock toBlock) w Hc) as [_ ->].
    by apply (same_hash_at_most_one env h).
  - left. unfold stages. rewrite run_stages_cons, Hc. reflexivity.
Qed.

(** X11 on a batch: one [batchAddToWhitelist] transaction lists two
    accounts; the window records the first log and flags the first user,
    and the second user stays unflagged. *)
Lemma batch_of_two_flags_one_user :
  (collections (snd (queryEvents batch_node 1 5 two_unlisted_users)) =
     collections two_unlisted_users \/
   exists i block,
     i ∈ window_items batch_node 1 5 /\
     collections (snd (queryEvents batch_node 1 5 two_unlisted_users)) =
       ((transactions two_unlisted_users ++ [item_doc batch_node i block])%list,
        mirror batch_node i (users two_unlisted_users))) /\
  flag_of "0xaa01" (snd (queryEvents batch_node 1 5 two_unlisted_users)) = Some true /\
  flag_of "0xbb02" (snd (queryEvents batch_node 1 5 two_unlisted_users)) = Some false.
Proof.
  split.
  - apply (one_document_per_transaction_hash batch_node 1 5 "0xba7c").
    apply Forall_forall. vm_compute. repeat (constructor; [reflexivity|]). constructor.
  - vm_compute. split; reflexivity.
Defined.

End EventSyncReplayFacts.

(** ** The controllers over the ledger *)

Module ControllerFacts.

Import RWAToken RWATokenAdmin WhitelistController ControllerSpec.

Ltac open_controller :=
  unfold WhitelistController.addToWhitelist, WhitelistController.removeFromWhitelist,
    WhitelistController.batchAddToWhitelist, ComplianceController.pause,
    ComplianceController.unpause, ComplianceController.grantRole,
    encode, view, send, User_findOneAndUpdate, User_updateMany, console_error,
    try_catch, bind, lift, get, ret, throw, modify, isWhitelisted.

(** X14: a listing request that the ledger accepts is written to the
    ledger first and to the [User] mirror afterwards, with nothing to undo
    the first when the second fails: if the database refuses the update
    the answer is 500 although the account is listed on the ledger, and
    the mirror keeps the old flag. When the signer lacks the admin role
    the ledger refuses, the answer is 500, and nothing but the console
    has changed. *)
Theorem listing_request_writes_ledger_then_mirror (env : Env) (text : string) (a : address)
    (w : World) :
  getContractWithSigner env = Ok tt ->
  transport env = None ->
  toAddress env text = Some a ->
  a <> zero_address ->
  whitelisted (chain w) a = false ->
  (hasRole (chain w) ADMIN_ROLE (signer env) = true ->
     chain (snd (addToWhitelist env text w)) =
       set_whitelist (fun m => <[a := true]> m) (chain w) /\
     emitted (snd (addToWhitelist env text w)) = (emitted w ++ [WhitelistUpdated a true])%list /\
     match userDbFault env with
     | None =>
         fst (addToWhitelist env text w) = Ok ok /\
         users (snd (addToWhitelist env text w)) =
           EventSync.update_first (JsString.toLowerCase text) true (users w) /\
         console (snd (addToWhitelist env text w)) = console w
     | Some message =>
         (exists response,
            fst (addToWhitelist env text w) = Ok response /\
            status response = 500 /\ details response = Some message) /\
         users (snd (addToWhitelist env text w)) = users w /\
         console (snd (addToWhitelist env text w)) =
           (console w ++ [EventSync.ConsoleError "Add to whitelist error:" message])%list
     end) /\
  (hasRole (chain w) ADMIN_ROLE (signer env) = false ->
     (exists response,
        fst (addToWhitelist env text w) = Ok response /\ status response = 500) /\
     chain (snd (addToWhitelist env text w)) = chain w /\
     emitted (snd (addToWhitelist env text w)) = emitted w /\
     users (snd (addToWhitelist env text w)) = users w).
Proof.
  intros Hconn Htransport Haddr Hnz Hnl. split; intros Hrole.
  - open_controller.
    repeat (first [rewrite Hconn | rewrite Haddr | rewrite Htransport | rewrite Hnl];
            cbn [fst snd]).
    rewrite RWATokenFacts.addToWhitelist_outcome by exact Hrole.
    rewrite bool_decide_eq_false_2 by done. rewrite Hnl.
    destruct (userDbFault env) as [message|]; simpl; eauto 10.
  - open_controller.
    repeat (first [rewrite Hconn | rewrite Haddr | rewrite Htransport | rewrite Hnl];
            cbn [fst snd]).
    unfold call, RWAToken.addToWhitelist, onlyRole, andThen, read, revert.
    cbn [fst snd]. rewrite Hrole. simpl. eauto 10.
Qed.

(** X14 in the office: the database is down; the request is answered
    500, yet account [5] is listed on the ledger and unflagged in the
    mirror. *)
Lemma listed_on_the_ledger_but_not_in_the_mirror :
  (exists response,
     fst (addToWhitelist (backend (Some "MongoNetworkError")) "0xAA05" office) = Ok response /\
     status response = 500 /\ details response = Some "MongoNetworkError") /\
  whitelisted (chain (snd (addToWhitelist (backend (Some "MongoNetworkError")) "0xAA05" office))) 5
    = true /\
  flagged "0xaa05" (snd (addToWhitelist (backend (Some "MongoNetworkError")) "0xAA05" office))
    = Some false.
Proof.
  destruct (listing_request_writes_ledger_then_mirror
              (backend (Some "MongoNetworkError")) "0xAA05" 5 office)
    as [Hadmin _]; try reflexivity; try discriminate.
  destruct (Hadmin eq_refl) as (Hchain & _ & Hresponse & _).
  split; [exact Hresponse|]. rewrite Hchain. split; vm_compute; reflexivity.
Defined.


(** *** The batch request *)

Lemma encodeAll_ok (env : Env) (texts : list string) (accounts : list address) (w : World) :
  Forall2 (fun t a => toAddress env t = Some a) texts accounts ->
  encodeAll env texts w = (Ok accounts, w).
Proof.
  intros H. induction H as [|t a texts accounts Ht _ IH]; [done|].
  simpl. unfold encode, bind, ret. by rewrite Ht, IH.
Qed.

Lemma encodeAll_bad (env : Env) (texts : list string) (w : World) :
  Exists (fun t => toAddress env t = None) texts ->
  encodeAll env texts w = (Throw "invalid address", w).
Proof.
  intros H. induction texts as [|t rest IH]; [by apply Exists_nil in H|].
  simpl. unfold encode, bind, ret, throw.
  destruct (toAddress env t) as [a|] eqn:Ht; [|done].
  apply Exists_cons in H as [H|H]; [congruence|]. by rewrite IH.
Qed.

Lemma batch_with_a_bad_entry (env : Env) (texts : list string) (w : World) :
  Exists (fun t => toAddress env t = None) texts ->
  exists message,
    batchAddToWhitelist env (Some texts) w =
      (Ok (server_error "Failed to batch whitelist" message),
       {| chain := chain w; emitted := emitted w; users := users w;
          console := (console w ++ [EventSync.ConsoleError "Batch whitelist error:" message])%list |}).
Proof.
  intros Hbad. destruct texts as [|t rest]; [by apply Exists_nil in Hbad|].
  unfold batchAddToWhitelist, try_catch. unfold bind at 1. unfold lift at 1.
  destruct (getContractWithSigner env) as [[]|message]; [|by exists message].
  cbn [fst snd]. unfold bind at 1. rewrite (encodeAll_bad env (t :: rest) w Hbad).
  by exists "invalid address".
Qed.

Lemma batch_accepted (env : Env) (texts : list string) (accounts : list address)
    (st' : State) (evs : list Event) (w : World) :
  texts <> [] ->
  getContractWithSigner env = Ok tt -> transport env = None -> userDbFault env = None ->
  Forall2 (fun t a => toAddress env t = Some a) texts accounts ->
  call (RWAToken.batchAddToWhitelist (signer env) accounts) (chain w) = Success st' evs ->
  batchAddToWhitelist env (Some texts) w =
    (Ok ok,
     {| chain := st'; emitted := (emitted w ++ evs)%list;
        users := map (fun u =>
                   if existsb (String.eqb (EventSync.walletAddress u))
                              (map JsString.toLowerCase texts)
                   then {| EventSync.walletAddress := EventSync.walletAddress u;
                           EventSync.nonce := EventSync.nonce u;
                           EventSync.userRole := EventSync.userRole u;
                           EventSync.isWhitelisted := true;
                           EventSync.kycStatus := EventSync.kycStatus u |}
                   else u) (users w);
        console := console w |}).
Proof.
  intros Hne Hconn Htransport Hdb Henc Hcall.
  destruct texts as [|t rest]; [done|].
  unfold batchAddToWhitelist, try_catch. unfold bind at 1. unfold lift at 1.
  rewrite Hconn. unfold bind at 1. rewrite (encodeAll_ok env (t :: rest) accounts w Henc).
  unfold send, User_updateMany, bind, get, modify, ret. rewrite Htransport, Hdb.
  cbn [fst snd chain]. rewrite Hcall. reflexivity.
Qed.

(** X15: the batch request answers 400 and sends nothing when the
    argument is not an array or is empty. One entry that is no address
    stops the request before anything is sent: the ledger and the mirror
    stay as they were. Otherwise, for an admin signer, it never fails on
    the ledger: the ledger lists the entries that are not the zero
    address, and the mirror flags every user whose wallet is named,
    lower-cased, in the request. *)
Theorem batch_request_checks_before_it_sends (env : Env) (w : World) :
  batchAddToWhitelist env None w =
    (Ok (bad_request "Addresses must be a non-empty array"), w) /\
  batchAddToWhitelist env (Some []) w =
    (Ok (bad_request "Addresses must be a non-empty array"), w) /\
  (forall texts, Exists (fun t => toAddress env t = None) texts ->
     (exists response,
        fst (batchAddToWhitelist env (Some texts) w) = Ok response /\ status response = 500) /\
     chain (snd (batchAddToWhitelist env (Some texts) w)) = chain w /\
     emitted (snd (batchAddToWhitelist env (Some texts) w)) = emitted w /\
     users (snd (batchAddToWhitelist env (Some texts) w)) = users w) /\
  (forall texts accounts,
     texts <> [] ->
     getContractWithSigner env = Ok tt -> transport env = None -> userDbFault env = None ->
     Forall2 (fun t a => toAddress env t = Some a) texts accounts ->
     hasRole (chain w) ADMIN_ROLE (signer env) = true ->
     fst (batchAddToWhitelist env (Some texts) w) = Ok ok /\
     (forall x, whitelisted (chain (snd (batchAddToWhitelist env (Some texts) w))) x =
                (whitelisted (chain w) x ||
                 (bool_decide (x ∈ accounts) && negb (bool_decide (x = zero_address))))%bool) /\
     (forall wallet, flagged wallet (snd (batchAddToWhitelist env (Some texts) w)) =
        if existsb (String.eqb wallet) (map JsString.toLowerCase texts)
        then option_map (fun _ => true) (flagged wallet w)
        else flagged wallet w)).
Proof.
  split; [reflexivity|]. split; [reflexivity|]. split.
  - intros texts Hbad.
    destruct (batch_with_a_bad_entry env texts w Hbad) as [message ->]. simpl. eauto 10.
  - intros texts accounts Hne Hconn Htransport Hdb Henc Hadmin.
    destruct (RWATokenFacts.batchAddToWhitelist_outcome (chain w) (signer env) accounts Hadmin)
      as (st' & new & Hcall & _ & Hlisted & _).
    rewrite (batch_accepted env texts accounts st' _ w Hne Hconn Htransport Hdb Henc Hcall).
    cbn [fst snd chain].
    split; [reflexivity|]. split; [exact Hlisted|].
    intros wallet. unfold flagged. cbn [users].
    generalize (map JsString.toLowerCase texts) as wallets. intros wallets.
    induction (users w) as [|u us IH]; simpl.
    + by destruct (existsb _ wallets).
    + destruct (String.eqb (EventSync.walletAddress u) wallet) eqn:Hu.
      * apply String.eqb_eq in Hu. subst wallet.
        destruct (existsb (String.eqb (EventSync.walletAddress u)) wallets) eqn:Hin; simpl;
          rewrite String.eqb_refl; reflexivity.
      * destruct (existsb (String.eqb (EventSync.walletAddress u)) wallets); simpl;
          rewrite Hu; exact IH.
Qed.

(** *** Pause, unpause and roles *)

(** X16: the pause request asks the ledger first and answers 400,
    sending nothing, when the ledger is paused already; likewise the
    unpause request on a running ledger. For an admin signer the pause
    request on a running ledger is answered 200 and leaves the ledger
    paused, where every transfer is then refused, and the unpause request
    after it gives the ledger back as it was. A signer without the admin
    role gets 500 and changes nothing on the ledger. *)
Theorem pause_request_asks_before_it_sends (env : Env) (w : World) :
  getContractWithSigner env = Ok tt ->
  transport env = None ->
  (paused (chain w) = true ->
     ComplianceController.pause env w = (Ok (bad_request "Contract is already paused"), w)) /\
  (paused (chain w) = false ->
     ComplianceController.unpause env w = (Ok (bad_request "Contract is not paused"), w)) /\
  (paused (chain w) = false -> hasRole (chain w) ADMIN_ROLE (signer env) = true ->
     exists w1,
       ComplianceController.pause env w = (Ok ok, w1) /\
       paused (chain w1) = true /\
       emitted w1 = (emitted w ++ [Paused (signer env)])%list /\
       (forall sender to value, sender <> zero_address -> to <> zero_address ->
          call (transfer sender to value) (chain w1) = Reverted EnforcedPause) /\
       fst (ComplianceController.unpause env w1) = Ok ok /\
       chain (snd (ComplianceController.unpause env w1)) = chain w) /\
  (paused (chain w) = false -> hasRole (chain w) ADMIN_ROLE (signer env) = false ->
     (exists response,
        fst (ComplianceController.pause env w) = Ok response /\ status response = 500) /\
     chain (snd (ComplianceController.pause env w)) = chain w /\
     emitted (snd (ComplianceController.pause env w)) = emitted w).
Proof.
  intros Hconn Htransport. split; [|split; [|split]].
  - intros Hp. open_controller. rewrite Hconn, Htransport. cbn [fst snd]. by rewrite Hp.
  - intros Hp. open_controller. rewrite Hconn, Htransport. cbn [fst snd]. by rewrite Hp.
  - intros Hp Hadmin. eexists. split; [|split; [|split; [|split; [|split]]]].
    + open_controller. rewrite Hconn, Htransport. cbn [fst snd]. rewrite Hp. cbn [negb fst snd].
      rewrite RWATokenLedgerFacts.pause_outcome, Hadmin, Hp. reflexivity.
    + reflexivity.
    + reflexivity.
    + intros sender to value Hs Ht. cbn [chain].
      unfold call, transfer, _update, whenNotPaused, andThen, read, revert.
      rewrite !bool_decide_eq_false_2 by done. reflexivity.
    + open_controller. rewrite Hconn, Htransport. cbn [fst snd negb chain paused set_paused].
      rewrite RWATokenLedgerFacts.unpause_outcome.
      replace (hasRole (set_paused true (chain w)) ADMIN_ROLE (signer env)) with true
        by (symmetry; exact Hadmin).
      reflexivity.
    + open_controller. rewrite Hconn, Htransport. cbn [fst snd negb chain paused set_paused].
      rewrite RWATokenLedgerFacts.unpause_outcome.
      replace (hasRole (set_paused true (chain w)) ADMIN_ROLE (signer env)) with true
        by (symmetry; exact Hadmin).
      cbn [fst snd chain paused set_paused]. destruct (chain w); simpl in *; by subst.
  - intros Hp Hno. open_controller. rewrite Hconn, Htransport. cbn [fst snd]. rewrite Hp.
    cbn [negb fst snd].
    rewrite RWATokenLedgerFacts.pause_outcome, Hno. simpl. eauto 10.
Qed.

(** X16 in the office: the deployer's backend pauses the ledger. *)
Lemma office_pause_request :
  exists w1,
    ComplianceController.pause (backend None) office = (Ok ok, w1) /\
    paused (chain w1) = true /\
    fst (ComplianceController.unpause (backend None) w1) = Ok ok /\
    chain (snd (ComplianceController.unpause (backend None) w1)) = chain office.
Proof.
  destruct (pause_request_asks_before_it_sends (backend None) office eq_refl eq_refl)
    as (_ & _ & Hpause & _).
  destruct (Hpause eq_refl eq_refl) as (w1 & E & Hp & _ & _ & Hok & Hback).
  exists w1. repeat split; assumption.
Defined.

Lemma send_outcome (env : Env) (tx : Tx unit) (w : World) :
  transport env = None ->
  send env tx w =
    match call tx (chain w) with
    | Reverted e => (Throw (revertMessage env e), w)
    | Success st' evs =>
        (Ok tt, {| chain := st'; emitted := (emitted w ++ evs)%list;
                   users := users w; console := console w |})
    end.
Proof.
  intros Htransport. unfold send, bind, get, modify, throw. rewrite Htransport.
  by destruct (call tx (chain w)).
Qed.

Lemma grantRole_sends (env : Env) (name : string) (role : Role)
    (grant : address -> address -> Tx unit) (text : string) (a : address) (w : World) :
  (name, role, grant) = ("issuer", ISSUER_ROLE, grantIssuerRole) \/
  (name, role, grant) = ("admin", ADMIN_ROLE, grantAdminRole) ->
  getContractWithSigner env = Ok tt ->
  toAddress env text = Some a ->
  ComplianceController.grantRole env (Blockchain.JsStr name) text w =
    match send env (grant (signer env) a) w with
    | (Ok _, w1) => (Ok ok, w1)
    | (Throw message, w1) =>
        (Ok (server_error
               (if JsString.includes "AccessControlUnauthorizedAccount" message
                then "Unauthorized: DEFAULT_ADMIN_ROLE required"
                else "Failed to grant role") message),
         {| chain := chain w1; emitted := emitted w1; users := users w1;
            console := (console w1 ++ [EventSync.ConsoleError "Grant role error:" message])%list |})
    end.
Proof.
  intros Hwhich Hconn Haddr.
  destruct Hwhich as [[= -> -> ->]|[= -> -> ->]];
    unfold ComplianceController.grantRole, try_catch, encode; unfold bind at 1, lift at 1;
    rewrite Hconn; cbn [ComplianceController.strictly_equals String.eqb Ascii.eqb Bool.eqb];
    rewrite Haddr; unfold bind at 1, ret at 1; unfold bind at 1;
    match goal with |- context [send env ?tx w] =>
      destruct (send env tx w) as [[[]|message] w1] end; reflexivity.
Qed.

(** X17: the role request reads the role name before it sends
    anything: any value other than the strings "issuer" and "admin" is
    answered 400 and nothing is sent. For a signer holding
    [DEFAULT_ADMIN_ROLE] the request is answered 200 and the account holds
    the role on the ledger afterwards (also when it held it before); for
    any other signer, an admin included, the ledger refuses and the answer
    is 500. The mirror's [role] field is never written. *)
Theorem role_request_names_issuer_or_admin (env : Env) (w : World) :
  getContractWithSigner env = Ok tt ->
  transport env = None ->
  (forall role text,
     ComplianceController.strictly_equals role "issuer" = false ->
     ComplianceController.strictly_equals role "admin" = false ->
     ComplianceController.grantRole env role text w =
       (Ok (bad_request "Invalid role. Must be 'issuer' or 'admin'"), w)) /\
  (forall name role text a,
     (name, role) = ("issuer", ISSUER_ROLE) \/ (name, role) = ("admin", ADMIN_ROLE) ->
     toAddress env text = Some a ->
     users (snd (ComplianceController.grantRole env (Blockchain.JsStr name) text w)) = users w /\
     if hasRole (chain w) DEFAULT_ADMIN_ROLE (signer env)
     then fst (ComplianceController.grantRole env (Blockchain.JsStr name) text w) = Ok ok /\
          hasRole (chain (snd (ComplianceController.grantRole env (Blockchain.JsStr name) text w)))
                  role a = true
     else (exists response,
             fst (ComplianceController.grantRole env (Blockchain.JsStr name) text w) = Ok response /\
             status response = 500) /\
          chain (snd (ComplianceController.grantRole env (Blockchain.JsStr name) text w)) = chain w).
Proof.
  intros Hconn Htransport. split.
  - intros role text Hi Ha. open_controller. rewrite Hconn. cbn [fst snd]. by rewrite Hi, Ha.
  - intros name role text a Hwhich Haddr.
    assert (exists grant,
              ((name, role, grant) = ("issuer", ISSUER_ROLE, grantIssuerRole) \/
               (name, role, grant) = ("admin", ADMIN_ROLE, grantAdminRole)) /\
              ((role, grant) = (ISSUER_ROLE, grantIssuerRole) \/
               (role, grant) = (ADMIN_ROLE, grantAdminRole))) as (grant & Hname & Hgrant).
    { destruct Hwhich as [[= -> ->]|[= -> ->]]; eauto 10. }
    rewrite (grantRole_sends env name role grant text a w Hname Hconn Haddr).
    rewrite send_outcome by exact Htransport.
    rewrite (RWATokenLedgerFacts.grant_helper_outcome (chain w) (signer env) a role grant Hgrant).
    destruct (hasRole (chain w) DEFAULT_ADMIN_ROLE (signer env)); [|simpl; eauto 10].
    destruct (hasRole (chain w) role a) eqn:Hheld; simpl; [done|].
    split; [done|]. split; [done|].
    rewrite RWATokenFacts.hasRole_grant. by rewrite bool_decide_eq_true_2.
Qed.

(** X17 in the office: the deployer's backend makes account [5] an
    issuer; a role named "minter" is turned down. *)
Lemma office_role_requests :
  ComplianceController.grantRole (backend None) (Blockchain.JsStr "minter") "0xAA05" office =
    (Ok (bad_request "Invalid role. Must be 'issuer' or 'admin'"), office) /\
  hasRole (chain (snd (ComplianceController.grantRole (backend None) (Blockchain.JsStr "issuer")
                         "0xAA05" office))) ISSUER_ROLE 5 = true.
Proof.
  destruct (role_request_names_issuer_or_admin (backend None) office eq_refl eq_refl)
    as [Hinvalid Hgrant].
  split; [by apply Hinvalid|].
  destruct (Hgrant "issuer" ISSUER_ROLE "0xAA05" 5 (or_introl eq_refl) eq_refl) as [_ H].
  change (hasRole (chain office) DEFAULT_ADMIN_ROLE (signer (backend None))) with true in H.
  apply H.
Defined.

End ControllerFacts.

(** ** Signing in *)

Module AuthFacts.

Import EventSync AuthController AuthSpec.

Lemma verifySignature_of_string (env : Env) (message signature : Blockchain.JsValue)
    (text : string) (c : list ConsoleLine) :
  Blockchain.verifySignature (verifyMessage env) message signature (Blockchain.JsStr text) c =
    match verifyMessage env message signature with
    | Ok recovered =>
        (Ok (String.eqb (JsString.toLowerCase recovered) (JsString.toLowerCase text)), c)
    | Throw e =>
        (Ok false, (c ++ [ConsoleError "Signature verification error:" e])%list)
    end.
Proof.
  unfold Blockchain.verifySignature, try_catch, bind, lift, Blockchain.toLowerCase_of, ret, modify.
  by destruct (verifyMessage env message signature).
Qed.

Lemma valid_iff_signed_by (env : Env) (message signature : Blockchain.JsValue)
    (text : string) (c : list ConsoleLine) :
  fst (Blockchain.verifySignature (verifyMessage env) message signature
         (Blockchain.JsStr text) c) = Ok true <->
  signed_by env message signature text.
Proof.
  rewrite verifySignature_of_string. unfold signed_by.
  destruct (verifyMessage env message signature) as [recovered|e]; simpl.
  - split.
    + intros [= H]. apply String.eqb_eq in H. eauto.
    + intros (r & [= <-] & H). f_equal. by apply String.eqb_eq.
  - split; [discriminate | intros (r & H & _); discriminate].
Qed.

(** X18: [connect] never throws, and it issues a token only for a
    signature over the nonce that is stored for the address: the answer
    carries a token only if the address is a string whose lower-case
    spelling has a user, [verifyMessage] recovers that address (in any
    case) from the stored nonce's message and the signature, and the token
    is what [jwt.sign] made for that user; the stored nonce is then
    replaced by a new random one. A 404 (no such user) changes nothing, a
    401 (signature refused) leaves every user and the random source as
    they were. *)
Theorem a_token_needs_a_signature_over_the_stored_nonce (env : Env)
    (address_ signature : Blockchain.JsValue) (w : World) :
  exists response w',
    connect env address_ signature w = (Ok response, w') /\
    match response with
    | Connected token wallet role flag kyc =>
        exists text user,
          address_ = Blockchain.JsStr text /\
          user_of (JsString.toLowerCase text) w = Some user /\
          signed_by env (Blockchain.JsStr (sign_in_message (nonce user))) signature text /\
          jwt_sign env (walletAddress user) (userRole user) = Ok token /\
          (wallet, role, flag, kyc) =
            (walletAddress user, userRole user, isWhitelisted user, kycStatus user) /\
          users w' = saved (with_nonce (nonce_drawn env (drawn w)) user) (users w)
    | Failed status _ =>
        (status = 404 /\ w' = w /\
         exists text, address_ = Blockchain.JsStr text /\
                      user_of (JsString.toLowerCase text) w = None) \/
        (status = 401 /\ users w' = users w /\ drawn w' = drawn w /\
         exists text user,
           address_ = Blockchain.JsStr text /\
           user_of (JsString.toLowerCase text) w = Some user /\
           ~ signed_by env (Blockchain.JsStr (sign_in_message (nonce user))) signature text) \/
        status = 500
    | NonceIssued _ _ => False
    end.
Proof.
  unfold connect, try_catch. unfold bind at 1.
  destruct address_ as [| | flag | n | text |];
    try (eexists _, _; split; [reflexivity|]; right; right; reflexivity).
  cbn [address_toLowerCase ret]. unfold bind at 1. unfold User_findOne.
  destruct (findFault env) as [message|];
    [eexists _, _; split; [reflexivity|]; right; right; reflexivity|].
  unfold bind at 1, get at 1, ret at 1. fold (user_of (JsString.toLowerCase text) w).
  destruct (user_of (JsString.toLowerCase text) w) as [user|] eqn:Huser;
    [|eexists _, _; split; [reflexivity|]; left; eauto].
  unfold bind at 1. unfold on_console at 1.
  pose proof (valid_iff_signed_by env (Blockchain.JsStr (sign_in_message (nonce user)))
                signature text (console w)) as Hvalid.
  rewrite verifySignature_of_string in *.
  destruct (verifyMessage env _ signature) as [recovered|e].
  - destruct (String.eqb (JsString.toLowerCase recovered) (JsString.toLowerCase text)) eqn:Heq.
    + cbn [negb fst snd] in *.
      unfold generateNonce, random_nonce, User_save, bind, get, modify, ret, lift.
      cbn [fst snd drawn users console].
      destruct (saveFault env) as [message|];
        [eexists _, _; split; [reflexivity|]; right; right; reflexivity|].
      cbn [fst snd walletAddress with_nonce userRole].
      destruct (jwt_sign env (walletAddress user) (userRole user)) as [token|message] eqn:Hsign;
        [|eexists _, _; split; [reflexivity|]; right; right; reflexivity].
      eexists _, _. split; [reflexivity|].
      exists text, user. split; [reflexivity|]. split; [exact Huser|].
      split; [by apply Hvalid|]. split; [exact Hsign|]. split; reflexivity.
    + eexists _, _. split; [reflexivity|]. right. left.
      split; [reflexivity|]. split; [reflexivity|]. split; [reflexivity|].
      exists text, user. split; [reflexivity|]. split; [exact Huser|].
      intros H. apply Hvalid in H. discriminate.
  - eexists _, _. split; [reflexivity|]. right. left.
    split; [reflexivity|]. split; [reflexivity|]. split; [reflexivity|].
    exists text, user. split; [reflexivity|]. split; [exact Huser|].
    intros H. apply Hvalid in H. discriminate.
Qed.

(** *** The collection after a save *)

Lemma find_saved (user : UserDoc) (x : string) (us : list UserDoc) :
  List.find (fun u => String.eqb (walletAddress u) x) (saved user us) =
    if String.eqb (walletAddress user) x
    then option_map (fun _ => user) (List.find (fun u => String.eqb (walletAddress u) x) us)
    else List.find (fun u => String.eqb (walletAddress u) x) us.
Proof.
  unfold saved. destruct (String.eqb (walletAddress user) x) eqn:Hx;
    (induction us as [|u us IH]; simpl; [done|]);
    destruct (String.eqb (walletAddress u) (walletAddress user)) eqn:Hu.
  - apply String.eqb_eq in Hu. by rewrite Hx, Hu, Hx.
  - destruct (String.eqb (walletAddress u) x) eqn:Hux; [|exact IH].
    apply String.eqb_eq in Hx, Hux. rewrite <- Hx in Hux.
    rewrite Hux, String.eqb_refl in Hu. discriminate.
  - apply String.eqb_eq in Hu. by rewrite Hx, Hu, Hx.
  - by destruct (String.eqb (walletAddress u) x).
Qed.

Lemma wallets_saved (user : UserDoc) (us : list UserDoc) :
  map walletAddress (saved user us) = map walletAddress us.
Proof.
  unfold saved. induction us as [|u us IH]; simpl; [done|]. rewrite IH. f_equal.
  destruct (String.eqb (walletAddress u) (walletAddress user)) eqn:Hu; [|done].
  by apply String.eqb_eq in Hu.
Qed.

Lemma find_app_new (x : string) (us : list UserDoc) (user : UserDoc) :
  List.find (fun u => String.eqb (walletAddress u) x) (us ++ [user]) =
    match List.find (fun u => String.eqb (walletAddress u) x) us with
    | Some u => Some u
    | None => if String.eqb (walletAddress user) x then Some user else None
    end.
Proof.
  induction us as [|u us IH]; simpl; [done|]. by destruct (String.eqb (walletAddress u) x).
Qed.

Lemma find_none_existsb (x : string) (us : list UserDoc) :
  List.find (fun u => String.eqb (walletAddress u) x) us = None ->
  existsb (fun u => String.eqb (walletAddress u) x) us = false /\ x ∉ map walletAddress us.
Proof.
  induction us as [|u us IH]; simpl; [intros _; split; [done | by intros H%elem_of_nil]|].
  destruct (String.eqb (walletAddress u) x) eqn:Hu; [discriminate|].
  intros H. destruct (IH H) as [He Hn]. split; [exact He|].
  apply not_elem_of_cons. split; [|exact Hn].
  intros ->. by rewrite String.eqb_refl in Hu.
Qed.

(** *** Asking for a nonce *)

Lemma getNonce_known (env : Env) (text : string) (w : World) (user : UserDoc) :
  findFault env = None -> saveFault env = None ->
  user_of (JsString.toLowerCase text) w = Some user ->
  getNonce env text w =
    (Ok (NonceIssued (nonce_drawn env (drawn w)) (sign_in_message (nonce_drawn env (drawn w)))),
     {| users := saved (with_nonce (nonce_drawn env (drawn w)) user) (users w);
        console := console w; drawn := S (drawn w) |}).
Proof.
  intros Hfind Hsave Huser.
  unfold getNonce, try_catch, findOrCreateByWallet, User_findOne, generateNonce, random_nonce,
    User_save, bind, get, modify, ret.
  rewrite Hfind. cbn [fst snd]. unfold user_of in Huser. rewrite Huser, Hsave. reflexivity.
Qed.

Lemma getNonce_new (env : Env) (text : string) (w : World) :
  findFault env = None -> saveFault env = None ->
  JsString.toLowerCase text <> "" ->
  user_of (JsString.toLowerCase text) w = None ->
  getNonce env text w =
    (Ok (NonceIssued (nonce_drawn env (S (drawn w)))
                     (sign_in_message (nonce_drawn env (S (drawn w))))),
     {| users := saved (new_user (JsString.toLowerCase text) (nonce_drawn env (S (drawn w))))
                   (users w ++ [new_user (JsString.toLowerCase text) (nonce_drawn env (drawn w))]);
        console := console w; drawn := S (S (drawn w)) |}).
Proof.
  intros Hfind Hsave Hne Huser.
  destruct (find_none_existsb _ _ Huser) as [Hex _].
  unfold getNonce, try_catch, findOrCreateByWallet, User_findOne, User_insert, generateNonce,
    random_nonce, User_save, bind, get, modify, ret.
  rewrite Hfind. cbn [fst snd]. unfold user_of in Huser. rewrite Huser, Hsave.
  cbn [fst snd walletAddress users].
  destruct (String.eqb_spec (JsString.toLowerCase text) ""); [done|].
  cbn [fst snd users]. rewrite Hex. reflexivity.
Qed.

(** X19: with the database answering, [getNonce] answers with the very
    nonce it has stored for the lower-cased address, a fresh random value
    each time, in the message to sign. A user that exists keeps its role,
    its whitelist flag and its KYC status; a user that does not is created
    as an unlisted investor with pending KYC. No other user changes, and
    no wallet comes to be stored twice. *)
Theorem getNonce_stores_the_nonce_it_issues (env : Env) (text : string) (w : World) :
  findFault env = None -> saveFault env = None ->
  JsString.toLowerCase text <> "" ->
  exists n w',
    getNonce env text w = (Ok (NonceIssued n (sign_in_message n)), w') /\
    n = nonce_drawn env (Nat.pred (drawn w')) /\
    user_of (JsString.toLowerCase text) w' =
      Some (match user_of (JsString.toLowerCase text) w with
            | Some user => with_nonce n user
            | None => new_user (JsString.toLowerCase text) n
            end) /\
    (forall other, other <> JsString.toLowerCase text -> user_of other w' = user_of other w) /\
    (NoDup (wallets w) -> NoDup (wallets w')) /\
    console w' = console w.
Proof.
  intros Hfind Hsave Hne.
  destruct (user_of (JsString.toLowerCase text) w) as [user|] eqn:Huser.
  - assert (Hwallet : walletAddress user = JsString.toLowerCase text).
    { unfold user_of in Huser. apply find_some in Huser as [_ H]. by apply String.eqb_eq in H. }
    eexists _, _. split; [by apply getNonce_known|].
    split; [reflexivity|]. unfold user_of, wallets. cbn [users].
    split; [|split; [|split]].
    + rewrite find_saved. cbn [walletAddress with_nonce].
      rewrite Hwallet, String.eqb_refl. unfold user_of in Huser. by rewrite Huser.
    + intros other Hother. rewrite find_saved. cbn [walletAddress with_nonce].
      rewrite Hwallet. destruct (String.eqb_spec (JsString.toLowerCase text) other); [congruence|done].
    + by rewrite wallets_saved.
    + reflexivity.
  - destruct (find_none_existsb _ _ Huser) as [_ Hnew].
    eexists _, _. split; [by apply getNonce_new|].
    split; [reflexivity|]. unfold user_of, wallets. cbn [users].
    split; [|split; [|split]].
    + rewrite find_saved, find_app_new. cbn [walletAddress new_user].
      rewrite String.eqb_refl. unfold user_of in Huser. by rewrite Huser.
    + intros other Hother. rewrite find_saved, find_app_new. cbn [walletAddress new_user].
      destruct (String.eqb_spec (JsString.toLowerCase text) other); [congruence|].
      by destruct (List.find _ (users w)).
    + rewrite wallets_saved, map_app. cbn [map walletAddress new_user]. intros Hnodup.
      apply NoDup_app. split; [exact Hnodup|]. split; [|apply NoDup_singleton].
      intros x Hx Hx'. apply list_elem_of_singleton in Hx' as ->. by apply Hnew.
    + reflexivity.
Qed.

(** X19 at the desk: the first request for [0xAbC1] creates the user and
    issues the second random value. *)
Lemma first_nonce_at_the_desk :
  exists w',
    getNonce desk "0xAbC1" no_users =
      (Ok (NonceIssued "118220" (sign_in_message "118220")), w') /\
    user_of "0xabc1" w' = Some (new_user "0xabc1" "118220").
Proof.
  destruct (getNonce_stores_the_nonce_it_issues desk "0xAbC1" no_users)
    as (n & w' & E & Hn & Huser & _); [reflexivity | reflexivity | discriminate |].
  assert (n = "118220") as ->.
  { rewrite Hn. assert (Hw : w' = snd (getNonce desk "0xAbC1" no_users)) by (by rewrite E).
    rewrite Hw. vm_compute. reflexivity. }
  exists w'. split; [exact E | exact Huser].
Defined.

(** *** A signature signs in once *)

Lemma connect_accepts (env : Env) (text : string) (signature : Blockchain.JsValue)
    (w : World) (user : UserDoc) (token : string) :
  findFault env = None -> saveFault env = None ->
  user_of (JsString.toLowerCase text) w = Some user ->
  signed_by env (Blockchain.JsStr (sign_in_message (nonce user))) signature text ->
  jwt_sign env (walletAddress user) (userRole user) = Ok token ->
  connect env (Blockchain.JsStr text) signature w =
    (Ok (Connected token (walletAddress user) (userRole user) (isWhitelisted user)
                   (kycStatus user)),
     {| users := saved (with_nonce (nonce_drawn env (drawn w)) user) (users w);
        console := console w; drawn := S (drawn w) |}).
Proof.
  intros Hfind Hsave Huser Hsigned Htoken.
  apply (valid_iff_signed_by env _ signature text (console w)) in Hsigned.
  rewrite verifySignature_of_string in Hsigned.
  unfold connect, try_catch. unfold bind at 1. cbn [address_toLowerCase ret].
  unfold bind at 1. unfold User_findOne. rewrite Hfind.
  unfold bind at 1, get at 1, ret at 1. fold (user_of (JsString.toLowerCase text) w).
  rewrite Huser. unfold bind at 1. unfold on_console at 1.
  rewrite verifySignature_of_string.
  destruct (verifyMessage env _ signature) as [recovered|e]; [|discriminate].
  cbn [fst] in Hsigned. injection Hsigned as ->. cbn [negb].
  unfold generateNonce, random_nonce, User_save, bind, get, modify, ret, lift.
  cbn [fst snd drawn users console]. rewrite Hsave.
  cbn [fst snd walletAddress with_nonce userRole]. rewrite Htoken. reflexivity.
Qed.

Lemma connect_refuses (env : Env) (text : string) (signature : Blockchain.JsValue)
    (w : World) (user : UserDoc) :
  findFault env = None ->
  user_of (JsString.toLowerCase text) w = Some user ->
  ~ signed_by env (Blockchain.JsStr (sign_in_message (nonce user))) signature text ->
  exists w',
    connect env (Blockchain.JsStr text) signature w = (Ok (Failed 401 "Invalid signature"), w') /\
    users w' = users w /\ drawn w' = drawn w.
Proof.
  intros Hfind Huser Hnot.
  rewrite <- (valid_iff_signed_by env _ signature text (console w)) in Hnot.
  rewrite verifySignature_of_string in Hnot.
  unfold connect, try_catch. unfold bind at 1. cbn [address_toLowerCase ret].
  unfold bind at 1. unfold User_findOne. rewrite Hfind.
  unfold bind at 1, get at 1, ret at 1. fold (user_of (JsString.toLowerCase text) w).
  rewrite Huser. unfold bind at 1. unfold on_console at 1.
  rewrite verifySignature_of_string.
  destruct (verifyMessage env _ signature) as [recovered|e]; [|by eexists].
  destruct (String.eqb _ _); [by destruct Hnot | by eexists].
Qed.

Lemma sign_in_message_inj (n n' : string) : sign_in_message n = sign_in_message n' -> n = n'.
Proof. unfold sign_in_message. intros H. by simplify_eq/=. Qed.

(** X20: a signature signs in once. After [getNonce] has issued a
    message, a signature over it by the address is answered with a token,
    and the stored nonce changes; presenting the same signature again is
    answered 401 and changes no user, provided the signature verifies for
    no other message and the new random nonce differs from the old one. *)
Theorem a_signature_signs_in_once (env : Env) (text : string)
    (signature : Blockchain.JsValue) (w : World) :
  sound env ->
  JsString.toLowerCase text <> "" ->
  exists n w1,
    getNonce env text w = (Ok (NonceIssued n (sign_in_message n)), w1) /\
    (signed_by env (Blockchain.JsStr (sign_in_message n)) signature text ->
     exists token role flag kyc w2,
       connect env (Blockchain.JsStr text) signature w1 =
         (Ok (Connected token (JsString.toLowerCase text) role flag kyc), w2) /\
       ((forall m, signed_by env (Blockchain.JsStr m) signature text -> m = sign_in_message n) ->
        nonce_drawn env (drawn w1) <> n ->
        exists w3,
          connect env (Blockchain.JsStr text) signature w2 =
            (Ok (Failed 401 "Invalid signature"), w3) /\
          users w3 = users w2)).
Proof.
  intros (Hfind & Hsave & Hjwt) Hne.
  assert (Hissued : exists n w1 user,
            getNonce env text w = (Ok (NonceIssued n (sign_in_message n)), w1) /\
            user_of (JsString.toLowerCase text) w1 = Some user /\
            nonce user = n /\ walletAddress user = JsString.toLowerCase text).
  { destruct (user_of (JsString.toLowerCase text) w) as [user|] eqn:Huser.
    - assert (Hwallet : walletAddress user = JsString.toLowerCase text).
      { unfold user_of in Huser. apply find_some in Huser as [_ H]. by apply String.eqb_eq in H. }
      eexists _, _, _. split; [by apply getNonce_known|].
      unfold user_of. cbn [users]. rewrite find_saved. cbn [walletAddress with_nonce].
      rewrite Hwallet, String.eqb_refl. unfold user_of in Huser. rewrite Huser. by simpl.
    - eexists _, _, _. split; [by apply getNonce_new|].
      unfold user_of. cbn [users]. rewrite find_saved, find_app_new. cbn [walletAddress new_user].
      rewrite String.eqb_refl. unfold user_of in Huser. rewrite Huser. by simpl. }
  destruct Hissued as (n & w1 & user & E & Huser & Hnonce & Hwallet).
  exists n, w1. split; [exact E|]. intros Hsigned.
  destruct (Hjwt (walletAddress user) (userRole user)) as [token Htoken].
  eexists token, _, _, _, _. split.
  { rewrite <- Hwallet. apply connect_accepts; try assumption. by rewrite Hnonce. }
  intros Hbinds Hfresh.
  set (user' := with_nonce (nonce_drawn env (drawn w1)) user).
  destruct (connect_refuses env text signature
              {| users := saved user' (users w1); console := console w1; drawn := S (drawn w1) |}
              user' Hfind) as (w3 & E3 & Hu3 & _).
  - unfold user_of. cbn [users]. rewrite find_saved. cbn [walletAddress with_nonce user'].
    rewrite Hwallet, String.eqb_refl. unfold user_of in Huser. by rewrite Huser.
  - intros Hreplay. apply Hbinds in Hreplay. apply sign_in_message_inj in Hreplay.
    apply Hfresh. exact Hreplay.
  - exists w3. split; [exact E3 | exact Hu3].
Qed.

(** X20 at the desk: [0xAbC1] asks for a nonce, signs in with the
    signature over it, and is refused when the signature comes again. *)
Lemma signing_in_twice_at_the_desk :
  exists n w1 token role flag kyc w2 w3,
    getNonce desk "0xAbC1" no_users = (Ok (NonceIssued n (sign_in_message n)), w1) /\
    connect desk (Blockchain.JsStr "0xAbC1") (Blockchain.JsStr "0x5161") w1 =
      (Ok (Connected token "0xabc1" role flag kyc), w2) /\
    connect desk (Blockchain.JsStr "0xAbC1") (Blockchain.JsStr "0x5161") w2 =
      (Ok (Failed 401 "Invalid signature"), w3).
Proof.
  destruct (a_signature_signs_in_once desk "0xAbC1" (Blockchain.JsStr "0x5161") no_users)
    as (n & w1 & E & Hconnect).
  - split; [reflexivity|]. split; [reflexivity|]. intros wallet role. by eexists.
  - discriminate.
  - assert (Hw1 : w1 = snd (getNonce desk "0xAbC1" no_users)) by (by rewrite E).
    assert (Hn : n = "118220").
    { assert (H : Ok (NonceIssued n (sign_in_message n)) = fst (getNonce desk "0xAbC1" no_users))
        by (by rewrite E).
      vm_compute in H. by injection H. }
    subst n.
    destruct Hconnect as (token & role & flag & kyc & w2 & E2 & Hreplay).
    { exists "0xAbC1". split; vm_compute; reflexivity. }
    destruct Hreplay as (w3 & E3 & _).
    { intros m (recovered & Hv & Hr). unfold desk in Hv. cbn [verifyMessage] in Hv.
      destruct (String.eqb m (sign_in_message "118220") && String.eqb "0x5161" "0x5161")%bool
        eqn:Hm.
      - apply andb_true_iff in Hm as [Hm _]. by apply String.eqb_eq in Hm.
      - injection Hv as <-. vm_compute in Hr. discriminate. }
    { rewrite Hw1. vm_compute. discriminate. }
    exists "118220", w1, token, role, flag, kyc, w2, w3. repeat split; assumption.
Defined.

End AuthFacts.

(** ** The listener variant, and the pages of the history *)

Module ListenerFacts.

Import EventSync EventSyncSpec ListenerSpec.
Import EventSyncFacts.

Lemma taken_is_found (hash : string) (docs : list TransactionDoc) :
  txHash_taken hash docs = true ->
  exists d, List.find (fun d => String.eqb (txHash d) hash) docs = Some d.
Proof.
  unfold txHash_taken. induction docs as [|d docs IH]; simpl; [discriminate|].
  destruct (String.eqb (txHash d) hash); [eauto | exact IH].
Qed.

Lemma transferDoc_hash env event block :
  txHash (transferDoc env event block) = transactionHash event.
Proof. unfold transferDoc. by destruct (args event) as [[? ?] ?]. Qed.

Lemma transferDoc_date env event block :
  blockTimestamp (transferDoc env event block) = blockDate env block.
Proof. unfold transferDoc. by destruct (args event) as [[? ?] ?]. Qed.

(** X21: the two variants of the service treat the same [Transfer] log
    differently. When its hash is stored already, under whatever kind, the
    listener's handler returns at once and leaves the world untouched;
    the polling handler, which looks the hash up together with the kind,
    goes on to insert when the stored document is of another kind, and
    reports the duplicate-key error. When the node does not know the
    block of a log with a new hash, the polling handler records the log
    dated with the current time, and the listener's handler records
    nothing and reports a [TypeError]. *)
Theorem listener_and_poller_differ (env : EventListener.Env) (event : Log (string * string * Z))
    (w : World) :
  EventListener.lookupFault env (transactionHash event) = None ->
  dbFault (EventListener.node env) (OpFindOne (transactionHash event) Transfer) = None ->
  provider (service w) = true ->
  (txHash_taken (transactionHash event) (transactions w) = true ->
     EventListener.processTransferEvent env event w = (Ok tt, w) /\
     (List.find (fun d => (String.eqb (txHash d) (transactionHash event)
                           && bool_decide (eventType d = Transfer))%bool) (transactions w) = None ->
      forall block,
        getBlock (EventListener.node env) (logBlockNumber event) = Ok block ->
        dbFault (EventListener.node env)
                (OpCreate (transferDoc (EventListener.node env) event block)) = None ->
        transactions (snd (processTransferEvent (EventListener.node env) event w)) =
          transactions w /\
        console (snd (processTransferEvent (EventListener.node env) event w)) =
          (console w ++
           [ConsoleError "Error processing transfer event:"
              "E11000 duplicate key error collection: transactions index: txHash_1 dup key"])%list)) /\
  (txHash_taken (transactionHash event) (transactions w) = false ->
   getBlock (EventListener.node env) (logBlockNumber event) = Ok None ->
   dbFault (EventListener.node env)
           (OpCreate (transferDoc (EventListener.node env) event None)) = None ->
     transactions (snd (EventListener.processTransferEvent env event w)) = transactions w /\
     console (snd (EventListener.processTransferEvent env event w)) =
       (console w ++
        [ConsoleError "Error processing transfer event:"
           "Cannot read properties of null (reading 'timestamp')"])%list /\
     transactions (snd (processTransferEvent (EventListener.node env) event w)) =
       (transactions w ++ [transferDoc (EventListener.node env) event None])%list /\
     blockTimestamp (transferDoc (EventListener.node env) event None) =
       now (EventListener.node env)).
Proof.
  intros Hlookup Hfind Hprov. split.
  - intros Htaken. split.
    + destruct (taken_is_found _ _ Htaken) as [d Hd].
      unfold EventListener.processTransferEvent, EventListener.Transaction_findOne_by_hash,
        try_catch, bind, get, ret.
      by rewrite Hlookup, Hd.
    + intros Hnone block Hblock Hcreate.
      open_handlers. unfold try_catch, bind, get, ret, throw, modify, lift.
      rewrite Hfind. cbn [fst snd]. rewrite Hnone, Hprov, Hblock. cbn [fst snd].
      rewrite Hcreate, transferDoc_hash. cbn [transactions set_rpcTrace].
      rewrite Htaken. split; reflexivity.
  - intros Hnew Hblock Hcreate.
    pose proof (find_new_hash (transactionHash event) Transfer (transactions w) Hnew) as Hnone.
    assert (Hnone' : List.find (fun d => String.eqb (txHash d) (transactionHash event))
                       (transactions w) = None).
    { clear -Hnew. unfold txHash_taken in Hnew.
      induction (transactions w) as [|d docs IH]; simpl in *; [done|].
      apply orb_false_iff in Hnew as [-> Hrest]. by apply IH. }
    split; [|split; [|split]].
    + unfold EventListener.processTransferEvent, EventListener.Transaction_findOne_by_hash,
        EventListener.known_block, provider_getBlock, on_provider, rpc, console_error,
        try_catch, bind, get, ret, throw, modify, lift.
      rewrite Hlookup. cbn [fst snd]. by rewrite Hnone', Hprov, Hblock.
    + unfold EventListener.processTransferEvent, EventListener.Transaction_findOne_by_hash,
        EventListener.known_block, provider_getBlock, on_provider, rpc, console_error,
        try_catch, bind, get, ret, throw, modify, lift.
      rewrite Hlookup. cbn [fst snd]. by rewrite Hnone', Hprov, Hblock.
    + rewrite (processTransferEvent_records (EventListener.node env) event w None);
        try assumption. reflexivity.
    + by rewrite transferDoc_date.
Qed.

(** X21 on a node that does not know the block: the polling handler
    records the overdrawing transfer, the listener's does not. *)
Lemma unknown_block_in_both_variants :
  transactions (snd (EventListener.processTransferEvent (listener_of node_without_blocks)
                       overdraw_log listening)) = [] /\
  transactions (snd (processTransferEvent node_without_blocks overdraw_log listening)) =
    [transferDoc node_without_blocks overdraw_log None].
Proof.
  destruct (listener_and_poller_differ (listener_of node_without_blocks) overdraw_log listening)
    as [_ H]; try reflexivity.
  destruct H as (H1 & _ & H2 & _); try reflexivity.
  split; [exact H1 | exact H2].
Defined.

(** *** Pages *)

Lemma chunks {A} (n m : nat) :
  forall l : list A, (length l <= m * n)%nat ->
    concat (map (fun k => firstn n (skipn (k * n) l)) (seq 0 m)) = l.
Proof.
  induction m as [|m IH]; intros l Hlen.
  - destruct l; [done | simpl in Hlen; lia].
  - cbn [seq map concat]. rewrite <- seq_shift, map_map.
    change (skipn (0 * n) l) with l.
    transitivity (firstn n l ++ skipn n l)%list; [|apply firstn_skipn].
    f_equal. etransitivity; [|apply (IH (skipn n l)); rewrite length_skipn; lia].
    f_equal. apply map_ext. intros k. rewrite skipn_skipn. f_equal. f_equal. lia.
Qed.

Lemma sort_by_date_perm (l : list TransactionDoc) : Permutation (sort_by_date l) l.
Proof.
  assert (Hins : forall d l', Permutation (insert_by_date d l') (d :: l')).
  { intros d l'. induction l' as [|x rest IH]; simpl; [done|].
    destruct (blockTimestamp x <? blockTimestamp d)%Z; [done|].
    rewrite IH. apply perm_swap. }
  induction l as [|d l IH]; simpl; [done|]. by rewrite Hins, IH.
Qed.

(** X22: [getRecentTransactions], for whole numbers [limit] and [page]
    from 1 on (50 and 1 when missing) and a database that answers: the
    total is the number of documents of the requested kind (all documents
    when no kind, or the empty string, is given); the page holds
    [min(limit, total - (page - 1) * limit)] documents, none when that is
    negative, all of the requested kind and all from the collection;
    [pages] is the least number of pages that holds the total, so a page
    beyond it is empty; and, the database returning one order throughout,
    the pages from 1 to [pages] laid end to end are the sorted listing,
    each document once. A failed read is thrown to the caller. *)
Theorem pages_hold_every_document_once
    (newest_first : list TransactionDoc -> list TransactionDoc)
    (eventType_ : option string) (limit_ page_ : option positive) (docs : list TransactionDoc) :
  (forall l, Permutation (newest_first l) l) ->
  (forall message,
     RecentTransactions.getRecentTransactions newest_first (Some message) eventType_
       limit_ page_ docs = Throw message) /\
  exists answer,
    RecentTransactions.getRecentTransactions newest_first None eventType_ limit_ page_ docs =
      Ok answer /\
    let p := RecentTransactions.pagination answer in
    let matching := List.filter (RecentTransactions.matches eventType_) docs in
    RecentTransactions.limit p = default 50%positive limit_ /\
    RecentTransactions.page p = default 1%positive page_ /\
    RecentTransactions.total p = Z.of_nat (length matching) /\
    Z.of_nat (length (RecentTransactions.listed answer)) =
      Z.max 0 (Z.min (Z.pos (RecentTransactions.limit p))
                     (RecentTransactions.total p
                      - (Z.pos (RecentTransactions.page p) - 1)
                        * Z.pos (RecentTransactions.limit p))) /\
    (forall d, In d (RecentTransactions.listed answer) ->
               In d docs /\ RecentTransactions.matches eventType_ d = true) /\
    (RecentTransactions.pages p - 1) * Z.pos (RecentTransactions.limit p)
      < RecentTransactions.total p
      <= RecentTransactions.pages p * Z.pos (RecentTransactions.limit p) /\
    (RecentTransactions.pages p < Z.pos (RecentTransactions.page p) ->
     RecentTransactions.listed answer = []) /\
    concat (pages_up_to newest_first eventType_ (RecentTransactions.limit p) docs
              (Z.to_nat (RecentTransactions.pages p))) = newest_first matching.
Proof.
  intros Hperm. split; [reflexivity|].
  eexists. split; [reflexivity|]. cbn zeta.
  cbn [RecentTransactions.pagination RecentTransactions.listed RecentTransactions.limit
       RecentTransactions.page RecentTransactions.total RecentTransactions.pages].
  set (L := default 50%positive limit_). set (P := default 1%positive page_).
  set (matching := List.filter (RecentTransactions.matches eventType_) docs).
  assert (Hlen : length (newest_first matching) = length matching)
    by apply Permutation_length, Hperm.
  assert (Hpages : ((Z.of_nat (length matching) + Z.pos L - 1) / Z.pos L - 1) * Z.pos L
                     < Z.of_nat (length matching)
                     <= (Z.of_nat (length matching) + Z.pos L - 1) / Z.pos L * Z.pos L).
  { pose proof (Z.div_mod (Z.of_nat (length matching) + Z.pos L - 1) (Z.pos L)) as Hdm.
    pose proof (Z.mod_pos_bound (Z.of_nat (length matching) + Z.pos L - 1) (Z.pos L)) as Hb.
    nia. }
  split; [reflexivity|]. split; [reflexivity|]. split; [reflexivity|].
  split; [|split; [|split; [|split]]].
  - rewrite length_firstn, length_skipn, Hlen. nia.
  - intros d Hd.
    assert (Hin : In d (newest_first matching)).
    { rewrite <- (firstn_skipn (Z.to_nat ((Z.pos P - 1) * Z.pos L)) (newest_first matching)).
      apply in_or_app. right.
      rewrite <- (firstn_skipn (Pos.to_nat L)
                    (skipn (Z.to_nat ((Z.pos P - 1) * Z.pos L)) (newest_first matching))).
      apply in_or_app. by left. }
    apply (Permutation_in _ (Hperm matching)) in Hin. by apply filter_In in Hin.
  - exact Hpages.
  - intros Hbeyond. rewrite skipn_all2; [by destruct (Pos.to_nat L)|]. rewrite Hlen. nia.
  - unfold pages_up_to. cbn [RecentTransactions.getRecentTransactions default
      RecentTransactions.listed]. fold matching.
    etransitivity;
      [|apply (chunks (Pos.to_nat L)
                 (Z.to_nat ((Z.of_nat (length matching) + Z.pos L - 1) / Z.pos L))
                 (newest_first matching)); rewrite Hlen; nia].
    f_equal. apply map_ext. intros k. f_equal. f_equal.
    unfold id. rewrite Zpos_P_of_succ_nat, Z2Nat.inj_mul by lia. f_equal; lia.
Qed.

(** X22 with a stable sort by date: page 2 of a history of five
    transfers, two to a page, holds the third and the second newest. *)
Lemma second_page_of_five :
  exists answer,
    RecentTransactions.getRecentTransactions sort_by_date None None (Some 2%positive)
      (Some 2%positive) five_transfers = Ok answer /\
    map blockNumber (RecentTransactions.listed answer) = [3; 2] /\
    RecentTransactions.pages (RecentTransactions.pagination answer) = 3 /\
    concat (pages_up_to sort_by_date None 2 five_transfers 3) = sort_by_date five_transfers.
Proof.
  destruct (pages_hold_every_document_once sort_by_date None (Some 2%positive)
              (Some 2%positive) five_transfers sort_by_date_perm)
    as (_ & answer & E & HL & _ & _ & _ & _ & _ & _ & Hall).
  exists answer. split; [exact E|].
  assert (Hanswer : Ok answer =
            RecentTransactions.getRecentTransactions sort_by_date None None (Some 2%positive)
              (Some 2%positive) five_transfers) by (by rewrite E).
  cbv zeta in Hall. rewrite HL in Hall.
  injection Hanswer as ->. split; [vm_compute; reflexivity|]. split; [vm_compute; reflexivity|].
  exact Hall.
Defined.

End ListenerFacts.

(** ** The routes: who may ask, and whose tokens move *)

Module RouteFacts.

Import RWAToken RWATokenCalls WhitelistController ControllerSpec AuthMiddleware RouteSpec.

Lemma authenticate_passes (env : AuthMiddleware.Env) (authHeader wallet : string)
    (user : EventSync.UserDoc) (w : World) :
  JsString.startsWith "Bearer " authHeader = true ->
  jwt_verify env (nth 1 (split_at_spaces authHeader) "") = Verified wallet ->
  findFault env = None ->
  List.find (fun u => String.eqb (EventSync.walletAddress u) wallet) (users w) = Some user ->
  authenticate env (Some authHeader) w = (Ok (Next (Some user)), w).
Proof.
  intros Hbearer Hjwt Hfind Huser. unfold authenticate.
  rewrite Hbearer, Hjwt, Hfind. unfold bind, get, ret. cbn [negb fst snd]. by rewrite Huser.
Qed.

Lemma transfer_request_sends (env : TokenController.Env) (to_ text : string) (a : address)
    (v : Z) (w : World) :
  getContractWithSigner (TokenController.backend env) = Ok tt ->
  TokenController.parseEther env text = Ok v ->
  toAddress (TokenController.backend env) to_ = Some a ->
  uint256 v ->
  exists label,
    TokenController.transfer env to_ (Some text) w =
      match send (TokenController.backend env)
                 (RWAToken.transfer (signer (TokenController.backend env)) a v) w with
      | (Ok _, w1) => (Ok ok, w1)
      | (Throw message, w1) =>
          (Ok (server_error (label message) message),
           {| chain := chain w1; emitted := emitted w1; users := users w1;
              console := (console w1 ++ [EventSync.ConsoleError "Transfer error:" message])%list |})
      end.
Proof.
  intros Hconn Hparse Haddr [Hlo Hhi]. eexists.
  unfold TokenController.transfer, TokenController.amount_toString, try_catch, encode,
    TokenController.encode_uint256.
  apply Z.leb_le in Hlo, Hhi.
  unfold bind at 1, lift at 1. rewrite Hconn. unfold bind at 1, ret at 1.
  unfold bind at 1, lift at 1. rewrite Hparse. rewrite Haddr.
  unfold bind at 1, ret at 1. rewrite Hlo, Hhi. cbn [andb].
  unfold bind at 1, ret at 1. unfold bind at 1.
  destruct (send _ _ w) as [[[]|message] w1]; [reflexivity|].
  unfold console_error, bind, modify, ret.
  instantiate (1 := fun message =>
     if JsString.includes "sender not whitelisted" message
     then "Sender address is not whitelisted"
     else if JsString.includes "recipient not whitelisted" message
     then "Recipient address is not whitelisted"
     else if JsString.includes "EnforcedPause" message
     then "Contract is paused"
     else if JsString.includes "ERC20InsufficientBalance" message
     then "Insufficient balance"
     else "Failed to transfer tokens").
  reflexivity.
Qed.

(** An amount that is no [uint256] never reaches the ledger. *)
Lemma transfer_request_out_of_bounds (env : TokenController.Env) (to_ text : string)
    (a : address) (v : Z) (w : World) :
  getContractWithSigner (TokenController.backend env) = Ok tt ->
  TokenController.parseEther env text = Ok v ->
  toAddress (TokenController.backend env) to_ = Some a ->
  ~ uint256 v ->
  TokenController.transfer env to_ (Some text) w =
    (Ok (server_error "Failed to transfer tokens" "value out-of-bounds"),
     {| chain := chain w; emitted := emitted w; users := users w;
        console := (console w ++ [EventSync.ConsoleError "Transfer error:"
                                    "value out-of-bounds"])%list |}).
Proof.
  intros Hconn Hparse Haddr Hout.
  unfold TokenController.transfer, TokenController.amount_toString, try_catch, encode,
    TokenController.encode_uint256.
  unfold bind at 1, lift at 1. rewrite Hconn. unfold bind at 1, ret at 1.
  unfold bind at 1, lift at 1. rewrite Hparse. rewrite Haddr.
  unfold bind at 1, ret at 1.
  assert (Hno : ((0 <=? v)%Z && (v <=? MAX_UINT256)%Z)%bool = false).
  { apply andb_false_iff. unfold uint256 in Hout.
    destruct (Z.leb_spec 0 v); [|by left]. right. apply Z.leb_gt. lia. }
  rewrite Hno. reflexivity.
Qed.

(** X23: the transfer route asks for a signed-in user and nothing more:
    whoever presents a token of a user of the mirror, of any role,
    whitelisted or not, makes the backend send [transfer] as its own
    signer. An amount within [uint256] that the ledger accepts moves out
    of the signer's balance, not the user's, into the recipient's, and
    changes no other balance. An amount outside [uint256] (a negative
    one, say) is refused when the call is encoded: the answer is 500 and
    nothing is sent. A request without a bearer token is answered 401 and
    sends nothing. *)
Theorem any_signed_in_user_moves_the_signers_tokens (env : Routes.Env)
    (authHeader wallet : string) (user : EventSync.UserDoc) (to_ text : string)
    (a : address) (v : Z) (w : World) :
  JsString.startsWith "Bearer " authHeader = true ->
  jwt_verify (Routes.auth env) (nth 1 (split_at_spaces authHeader) "") = Verified wallet ->
  findFault (Routes.auth env) = None ->
  List.find (fun u => String.eqb (EventSync.walletAddress u) wallet) (users w) = Some user ->
  getContractWithSigner (TokenController.backend (Routes.tokens env)) = Ok tt ->
  transport (TokenController.backend (Routes.tokens env)) = None ->
  TokenController.parseEther (Routes.tokens env) text = Ok v ->
  toAddress (TokenController.backend (Routes.tokens env)) to_ = Some a ->
  (uint256 v ->
   transfer_refusal (chain w) (signer (TokenController.backend (Routes.tokens env))) a v = None ->
   fst (Routes.post_transfer env (Some authHeader) to_ (Some text) w) = Ok ok /\
   (forall x,
      balanceOf (chain (snd (Routes.post_transfer env (Some authHeader) to_ (Some text) w))) x =
      balanceOf (chain w) x
      - (if decide (x = signer (TokenController.backend (Routes.tokens env))) then v else 0)
      + (if decide (x = a) then v else 0)) /\
   users (snd (Routes.post_transfer env (Some authHeader) to_ (Some text) w)) = users w) /\
  (~ uint256 v ->
   fst (Routes.post_transfer env (Some authHeader) to_ (Some text) w) =
     Ok (server_error "Failed to transfer tokens" "value out-of-bounds") /\
   chain (snd (Routes.post_transfer env (Some authHeader) to_ (Some text) w)) = chain w /\
   emitted (snd (Routes.post_transfer env (Some authHeader) to_ (Some text) w)) = emitted w /\
   users (snd (Routes.post_transfer env (Some authHeader) to_ (Some text) w)) = users w) /\
  Routes.post_transfer env None to_ (Some text) w =
    (Ok (denied 401 "Access denied. No token provided."), w).
Proof.
  intros Hbearer Hjwt Hfind Huser Hconn Htransport Hparse Haddr.
  assert (Hpass : Routes.post_transfer env (Some authHeader) to_ (Some text) w =
                  TokenController.transfer (Routes.tokens env) to_ (Some text) w).
  { unfold Routes.post_transfer. unfold bind at 1.
    by rewrite (authenticate_passes _ _ wallet user w Hbearer Hjwt Hfind Huser). }
  split; [|split; [|reflexivity]].
  - intros Hv Hfree.
    pose proof (RWATokenLedgerFacts.transfer_outcome (chain w)
                  (signer (TokenController.backend (Routes.tokens env))) a v) as Hcall.
    rewrite Hfree in Hcall.
    set (st' := after_transfer (chain w)
                  (signer (TokenController.backend (Routes.tokens env))) a v) in *.
    assert (Hbalances := RWATokenLedgerFacts.after_transfer_balance (chain w)
                           (signer (TokenController.backend (Routes.tokens env))) a v).
    fold st' in Hbalances.
    destruct (transfer_request_sends (Routes.tokens env) to_ text a v w Hconn Hparse Haddr Hv)
      as [label Hsends].
    assert (E : Routes.post_transfer env (Some authHeader) to_ (Some text) w =
                (Ok ok, {| chain := st';
                           emitted := (emitted w ++ [Transfer
                             (signer (TokenController.backend (Routes.tokens env))) a v])%list;
                           users := users w; console := console w |})).
    { rewrite Hpass, Hsends, ControllerFacts.send_outcome by exact Htransport.
      by rewrite Hcall. }
    rewrite E. cbn [fst snd chain users].
    split; [reflexivity|]. split; [exact Hbalances | reflexivity].
  - intros Hout.
    rewrite Hpass,
      (transfer_request_out_of_bounds (Routes.tokens env) to_ text a v w Hconn Hparse Haddr Hout).
    cbn [fst snd chain emitted users]. by repeat split.
Qed.

(** X23 in the lobby: the investor ["0xaa05"], whose wallet holds no
    token and no role, sends 30 of the deployer's 100 tokens to its own
    account [5]; its request for "-30" tokens is answered 500 and leaves
    the ledger as it was. *)
Lemma investor_moves_the_deployers_tokens :
  fst (Routes.post_transfer gate (Some "Bearer 0xaa05") "0xAA05" (Some "30") lobby) = Ok ok /\
  balanceOf (chain lobby) 5 = 0 /\
  balanceOf (chain (snd (Routes.post_transfer gate (Some "Bearer 0xaa05") "0xAA05" (Some "30")
                           lobby))) 5 = 30 * 10 ^ 18 /\
  balanceOf (chain (snd (Routes.post_transfer gate (Some "Bearer 0xaa05") "0xAA05" (Some "30")
                           lobby))) 1 = 70 * 10 ^ 18 /\
  TokenController.parseEther (Routes.tokens gate) "-30" = Ok (- 30 * 10 ^ 18) /\
  status (match fst (Routes.post_transfer gate (Some "Bearer 0xaa05") "0xAA05" (Some "-30")
                       lobby) with
          | Ok response => response
          | Throw _ => ok
          end) = 500 /\
  chain (snd (Routes.post_transfer gate (Some "Bearer 0xaa05") "0xAA05" (Some "-30") lobby)) =
    chain lobby.
Proof.
  destruct (any_signed_in_user_moves_the_signers_tokens gate "Bearer 0xaa05" "0xaa05"
              {| EventSync.walletAddress := "0xaa05"; EventSync.nonce := "704355";
                 EventSync.userRole := EventSync.investor;
                 EventSync.isWhitelisted := false;
                 EventSync.kycStatus := EventSync.approved |}
              "0xAA05" "30" 5 (30 * 10 ^ 18) lobby)
    as (Haccepted & _ & _); try reflexivity.
  destruct Haccepted as (Hok & Hbalances & _);
    [split; vm_compute; discriminate | reflexivity |].
  destruct (any_signed_in_user_moves_the_signers_tokens gate "Bearer 0xaa05" "0xaa05"
              {| EventSync.walletAddress := "0xaa05"; EventSync.nonce := "704355";
                 EventSync.userRole := EventSync.investor;
                 EventSync.isWhitelisted := false;
                 EventSync.kycStatus := EventSync.approved |}
              "0xAA05" "-30" 5 (- 30 * 10 ^ 18) lobby)
    as (_ & Hrefused & _); try reflexivity.
  destruct Hrefused as (Hanswer & Hchain & _);
    [intros [Hlo _]; vm_compute in Hlo; by apply Hlo|].
  split; [exact Hok|]. split; [vm_compute; reflexivity|].
  rewrite !Hbalances. split; [vm_compute; reflexivity|]. split; [vm_compute; reflexivity|].
  split; [vm_compute; reflexivity|]. split; [by rewrite Hanswer | exact Hchain].
Defined.

(** X24: the pause route asks for a user whose [role] field in the
    mirror is "admin", and for nothing on the ledger: a signed-in user of
    another role is answered 403 and nothing is sent; a signed-in admin of
    the mirror gets what the pause request of the backend gives, which
    the ledger decides by the roles of the backend's signer, whatever the
    user's own wallet holds there. *)
Theorem pause_route_asks_the_mirror_for_the_role (env : Routes.Env)
    (authHeader wallet : string) (user : EventSync.UserDoc) (w : World) :
  JsString.startsWith "Bearer " authHeader = true ->
  jwt_verify (Routes.auth env) (nth 1 (split_at_spaces authHeader) "") = Verified wallet ->
  findFault (Routes.auth env) = None ->
  List.find (fun u => String.eqb (EventSync.walletAddress u) wallet) (users w) = Some user ->
  Routes.post_pause env (Some authHeader) w =
    match EventSync.userRole user with
    | EventSync.admin =>
        ComplianceController.pause (TokenController.backend (Routes.tokens env)) w
    | _ => (Ok (denied 403 "Access denied. Required role: admin"), w)
    end.
Proof.
  intros Hbearer Hjwt Hfind Huser.
  unfold Routes.post_pause. unfold bind at 1.
  rewrite (authenticate_passes _ _ wallet user w Hbearer Hjwt Hfind Huser).
  unfold requireRole. by destruct (EventSync.userRole user).
Qed.

(** X24 in the lobby: the investor is turned away; ["0xcc07"], an admin
    in the mirror whose wallet holds no role on the ledger, pauses it. *)
Lemma mirror_admin_pauses_the_ledger :
  Routes.post_pause gate (Some "Bearer 0xaa05") lobby =
    (Ok (denied 403 "Access denied. Required role: admin"), lobby) /\
  hasRole (chain lobby) ADMIN_ROLE 7 = false /\
  fst (Routes.post_pause gate (Some "Bearer 0xcc07") lobby) = Ok ok /\
  paused (chain (snd (Routes.post_pause gate (Some "Bearer 0xcc07") lobby))) = true.
Proof.
  split; [|split].
  - by rewrite (pause_route_asks_the_mirror_for_the_role gate "Bearer 0xaa05" "0xaa05"
                  {| EventSync.walletAddress := "0xaa05"; EventSync.nonce := "704355";
                     EventSync.userRole := EventSync.investor;
                     EventSync.isWhitelisted := false;
                     EventSync.kycStatus := EventSync.approved |} lobby).
  - vm_compute. reflexivity.
  - rewrite (pause_route_asks_the_mirror_for_the_role gate "Bearer 0xcc07" "0xcc07"
               {| EventSync.walletAddress := "0xcc07"; EventSync.nonce := "550120";
                  EventSync.userRole := EventSync.admin;
                  EventSync.isWhitelisted := false;
                  EventSync.kycStatus := EventSync.pending |} lobby); try reflexivity.
    split; vm_compute; reflexivity.
Defined.

End RouteFacts.

(** ** The event synchronizer on the event loop: calls in flight *)

Module EventLoopFacts.

Import EventSync EventSyncSpec EventLoop EventSyncAsync EventLoopSpec.
Import EventSyncFacts.

(** *** A call that nothing interrupts *)

Lemma finish_bindA {A B : Type} (t : Async A) (k : A -> Async B) w :
  finish (bindA t k) w = bind (finish t) (fun a => finish (k a)) w.
Proof.
  revert k w. induction t as [A a|A e|A X m k' IH|A k' IH|A child _ k' IH]; intros k w; simpl.
  - reflexivity.
  - reflexivity.
  - unfold bind. destruct (m w) as [b w']. apply IH.
  - apply IH.
  - unfold bind. rewrite IH. reflexivity.
Qed.

Lemma finish_catchA {A : Type} (t : Async A) (h : string -> Async A) w :
  finish (catchA t h) w = try_catch (finish t) (fun e => finish (h e)) w.
Proof.
  revert h w. induction t as [A a|A e|A X m k' IH|A k' IH|A child _ k' IH]; intros h w; simpl.
  - reflexivity.
  - reflexivity.
  - unfold try_catch. destruct (m w) as [b w']. apply IH.
  - apply IH.
  - unfold try_catch. rewrite IH. reflexivity.
Qed.

Lemma finish_awaitA {A : Type} (t : Async A) w : finish (awaitA t) w = finish t w.
Proof.
  revert w. induction t as [A a|A e|A X m k' IH|A k' IH|A child _ k' IH]; intros w; simpl;
    try reflexivity.
  - destruct (m w) as [b w']. apply IH.
  - apply IH.
  - apply IH.
Qed.

Lemma finish_sync {A : Type} (m : Js A) w : finish (sync m) w = m w.
Proof. simpl. by destruct (m w) as [[a|e] w']. Qed.

Lemma does_sync {A : Type} (m : Js A) : does (sync m) m.
Proof. intros w. apply finish_sync. Qed.

Lemma does_Return {A : Type} (a : A) : does (Return a) (ret a).
Proof. intros w. reflexivity. Qed.

Lemma does_Raise {A : Type} (e : string) : does (@Raise A e) (throw e).
Proof. intros w. reflexivity. Qed.

Lemma does_bindA {A B : Type} (t : Async A) (k : A -> Async B) m k' :
  does t m -> (forall a, does (k a) (k' a)) -> does (bindA t k) (bind m k').
Proof.
  intros Ht Hk w. rewrite finish_bindA. unfold bind. rewrite Ht.
  destruct (m w) as [[a|e] w']; [apply Hk | reflexivity].
Qed.

Lemma does_catchA {A : Type} (t : Async A) h m h' :
  does t m -> (forall e, does (h e) (h' e)) -> does (catchA t h) (try_catch m h').
Proof.
  intros Ht Hh w. rewrite finish_catchA. unfold try_catch. rewrite Ht.
  destruct (m w) as [[a|e] w']; [reflexivity | apply Hh].
Qed.

Lemma does_awaitA {A : Type} (t : Async A) m : does t m -> does (awaitA t) m.
Proof. intros Ht w. rewrite finish_awaitA. apply Ht. Qed.

Lemma does_forEachA {A : Type} (xs : list A) body body' :
  (forall x, does (body x) (body' x)) -> does (forEachA xs body) (forEach xs body').
Proof.
  intros Hbody. induction xs as [|x xs IH]; simpl.
  - apply does_Return.
  - apply does_bindA; [apply does_awaitA, Hbody | intros _; exact IH].
Qed.

(** A read of the world that decides how the call goes on. *)
Lemma does_read {A B : Type} (f : World -> B) (k : B -> Async A) (k' : World -> Js A) :
  (forall w, finish (k (f w)) w = k' w w) ->
  does (bindA (sync (read f)) k) (bind get k').
Proof. intros Hk w. simpl. unfold bind, get. apply Hk. Qed.

Lemma does_on_providerA {A : Type} call (answer : result A) :
  does (on_providerA call answer) (on_provider call answer).
Proof.
  unfold on_providerA, on_provider. apply does_read. intros w.
  destruct (provider (service w)); [|reflexivity].
  apply does_awaitA, does_sync.
Qed.

Lemma does_on_contractA {A : Type} call (answer : result A) :
  does (on_contractA call answer) (on_contract call answer).
Proof.
  unfold on_contractA, on_contract. apply does_read. intros w.
  destruct (contract (service w)); [|reflexivity].
  apply does_awaitA, does_sync.
Qed.

Ltac does_it :=
  repeat first
    [ apply does_on_providerA | apply does_on_contractA
    | apply does_sync | apply does_Return | apply does_Raise
    | apply does_awaitA
    | apply does_catchA; [|intros ?]
    | apply does_bindA; [|intros ?]
    | match goal with |- does (match ?x with _ => _ end) _ => destruct x end ].

Lemma does_processTransferEventA env event :
  does (processTransferEventA env event) (processTransferEvent env event).
Proof. unfold processTransferEventA, processTransferEvent, provider_getBlockA, provider_getBlock. does_it. Qed.

Lemma does_processMintEventA env event :
  does (processMintEventA env event) (processMintEvent env event).
Proof. unfold processMintEventA, processMintEvent, provider_getBlockA, provider_getBlock. does_it. Qed.

Lemma does_processBurnEventA env event :
  does (processBurnEventA env event) (processBurnEvent env event).
Proof. unfold processBurnEventA, processBurnEvent, provider_getBlockA, provider_getBlock. does_it. Qed.

Lemma does_processWhitelistEventA env event :
  does (processWhitelistEventA env event) (processWhitelistEvent env event).
Proof.
  unfold processWhitelistEventA, processWhitelistEvent, provider_getBlockA, provider_getBlock.
  does_it.
Qed.

Lemma does_processPauseEventA env event paused :
  does (processPauseEventA env event paused) (processPauseEvent env event paused).
Proof.
  unfold processPauseEventA, processPauseEvent, provider_getBlockA, provider_getBlock.
  does_it.
Qed.

Lemma does_queryEventsA env fromBlock toBlock :
  does (queryEventsA env fromBlock toBlock) (queryEvents env fromBlock toBlock).
Proof.
  unfold queryEventsA, queryEvents.
  repeat first
    [ apply does_on_contractA | apply does_sync
    | apply does_processTransferEventA | apply does_processMintEventA
    | apply does_processBurnEventA | apply does_processWhitelistEventA
    | apply does_processPauseEventA
    | apply does_forEachA; intros ?
    | apply does_catchA; [|intros ?]
    | apply does_bindA; [|intros ?] ].
Qed.

Lemma does_pollEventsA env : does (pollEventsA env) (pollEvents env).
Proof.
  unfold pollEventsA, pollEvents.
  apply does_catchA; [|intros ?; apply does_sync].
  apply does_bindA; [apply does_on_providerA | intros currentBlock].
  apply does_read. intros w.
  destruct (currentBlock <=? lastProcessedBlock (service w))%Z; [reflexivity|].
  apply does_bindA; [apply does_awaitA, does_queryEventsA | intros _; apply does_sync].
Qed.

Lemma does_initializeA env : does (initializeA env) (initialize env).
Proof.
  unfold initializeA, initialize. does_it.
Qed.

(** Uninterrupted, the calls on the event loop are the calls as
    [EventSync] has them. *)
Lemma does_startListeningA env0 env1 :
  does (startListeningA env0 env1) (startListening env0 env1).
Proof.
  unfold startListeningA, startListening.
  apply does_read. intros w.
  destruct (isRunning (service w)); [apply does_sync|].
  rewrite finish_bindA. unfold bind at 1. rewrite finish_sync.
  unfold read at 1, bind at 1, get at 1, ret at 1.
  destruct (contract (service w)).
  - apply does_bindA; [apply does_Return | intros initialized].
    destruct initialized; cbn [negb]; [|apply does_sync].
    repeat (apply does_bindA; [apply does_sync | intros _]).
    intros w1. cbn [finish]. unfold bind at 1.
    rewrite (does_pollEventsA env1 w1), pollEvents_returns. cbn [snd].
    apply does_bindA; [apply does_sync | intros _; apply does_sync].
  - apply does_bindA; [apply does_awaitA, does_initializeA | intros initialized].
    destruct initialized; cbn [negb]; [|apply does_sync].
    repeat (apply does_bindA; [apply does_sync | intros _]).
    intros w1. cbn [finish]. unfold bind at 1.
    rewrite (does_pollEventsA env1 w1), pollEvents_returns. cbn [snd].
    apply does_bindA; [apply does_sync | intros _; apply does_sync].
Qed.

(** *** Calls that do not know the timer *)

#[local] Instance apart_equivalence : Equivalence apart_from_the_timer.
Proof.
  split.
  - intros w. by repeat split.
  - intros w w' (H1 & H2 & H3 & H4 & H5 & H6). by repeat split.
  - intros w1 w2 w3 (H1 & H2 & H3 & H4 & H5 & H6) (G1 & G2 & G3 & G4 & G5 & G6).
    unfold apart_from_the_timer. rewrite H1, H2, H3, H4, H5, H6. by repeat split.
Qed.

Ltac unaware_block :=
  split;
  [ intros [[c p r l t] txs us con tr] [[c' p' r' l' t'] txs' us' con' tr']
           (H1 & H2 & H3 & H4 & H5 & H6);
    unfold cursor in *; simpl in *; subst
  | intros [[c p r l t] txs us con tr]; unfold timer_of; simpl ].

Lemma unaware_read_provider : unaware (read (fun w => provider (service w))).
Proof. unaware_block; by repeat split. Qed.

Lemma unaware_read_contract : unaware (read (fun w => contract (service w))).
Proof. unaware_block; by repeat split. Qed.

Lemma unaware_read_cursor : unaware (read (fun w => lastProcessedBlock (service w))).
Proof. unaware_block; by repeat split. Qed.

Lemma unaware_rpc {A : Type} call (answer : result A) : unaware (rpc call answer).
Proof. unaware_block; by repeat split. Qed.

Lemma unaware_lift {A : Type} (answer : result A) : unaware (lift answer).
Proof. unaware_block; by repeat split. Qed.

Lemma unaware_console_log text : unaware (console_log text).
Proof. unaware_block; by repeat split. Qed.

Lemma unaware_console_error label detail : unaware (console_error label detail).
Proof. unaware_block; by repeat split. Qed.

Lemma unaware_report label message :
  unaware (report_unless_filter_not_found label message).
Proof.
  unfold report_unless_filter_not_found.
  destruct (JsString.includes _ _); unaware_block; by repeat split.
Qed.

Lemma unaware_set_cursor n : unaware (modify (set_service (set_lastProcessedBlock n))).
Proof. unaware_block; by repeat split. Qed.

Lemma unaware_set_connection :
  unaware (modify (set_service (set_connection true true))).
Proof. unaware_block; by repeat split. Qed.

Lemma unaware_set_provider :
  unaware (modify (set_service (fun s => set_connection true (contract s) s))).
Proof. unaware_block; by repeat split. Qed.

Lemma unaware_findOne env hash kind : unaware (Transaction_findOne env hash kind).
Proof.
  unfold Transaction_findOne. destruct (dbFault env _); unaware_block; by repeat split.
Qed.

Lemma unaware_create env doc : unaware (Transaction_create env doc).
Proof.
  unfold Transaction_create. destruct (dbFault env _); [unaware_block; by repeat split|].
  unaware_block; unfold bind, get, throw, modify; simpl;
    destruct (txHash_taken _ _); by repeat split.
Qed.

Lemma unaware_user_update env wallet flag : unaware (User_findOneAndUpdate env wallet flag).
Proof.
  unfold User_findOneAndUpdate. destruct (dbFault env _); unaware_block; by repeat split.
Qed.

Lemma blind_sync {A : Type} (m : Js A) : unaware m -> blind (sync m).
Proof. intros Hm. split; [exact Hm|]. by intros [a|e]. Qed.

Lemma blind_bindA {A B : Type} (t : Async A) (k : A -> Async B) :
  blind t -> (forall a, blind (k a)) -> blind (bindA t k).
Proof.
  revert k. induction t as [A a|A e|A X m k' IH|A k' IH|A child _ k' IH]; intros k Ht Hk; simpl.
  - apply Hk.
  - exact I.
  - destruct Ht as [Hm Hk']. split; [exact Hm|]. intros b. by apply IH.
  - by apply IH.
  - destruct Ht.
Qed.

Lemma blind_catchA {A : Type} (t : Async A) (h : string -> Async A) :
  blind t -> (forall e, blind (h e)) -> blind (catchA t h).
Proof.
  revert h. induction t as [A a|A e|A X m k' IH|A k' IH|A child _ k' IH]; intros h Ht Hh; simpl.
  - exact I.
  - apply Hh.
  - destruct Ht as [Hm Hk']. split; [exact Hm|]. intros b. by apply IH.
  - by apply IH.
  - destruct Ht.
Qed.

Lemma blind_awaitA {A : Type} (t : Async A) : blind t -> blind (awaitA t).
Proof.
  induction t as [A a|A e|A X m k' IH|A k' IH|A child _ k' IH]; intros Ht; simpl; try done.
  - destruct Ht as [Hm Hk']. split; [exact Hm|]. intros b. by apply IH.
  - by apply IH.
Qed.

Lemma blind_forEachA {A : Type} (xs : list A) (body : A -> Async unit) :
  (forall x, blind (body x)) -> blind (forEachA xs body).
Proof.
  intros Hbody. induction xs as [|x xs IH]; simpl; [exact I|].
  apply blind_bindA; [apply blind_awaitA, Hbody | intros _; exact IH].
Qed.

Lemma blind_on_providerA {A : Type} call (answer : result A) :
  blind (on_providerA call answer).
Proof.
  unfold on_providerA. apply blind_bindA; [apply blind_sync, unaware_read_provider|].
  intros [|]; [apply blind_awaitA, blind_sync, unaware_rpc | exact I].
Qed.

Lemma blind_on_contractA {A : Type} call (answer : result A) :
  blind (on_contractA call answer).
Proof.
  unfold on_contractA. apply blind_bindA; [apply blind_sync, unaware_read_contract|].
  intros [|]; [apply blind_awaitA, blind_sync, unaware_rpc | exact I].
Qed.

Ltac blind_walk :=
  repeat first
    [ apply blind_on_providerA | apply blind_on_contractA
    | apply blind_sync;
      first [ apply unaware_findOne | apply unaware_create | apply unaware_user_update
            | apply unaware_console_log | apply unaware_console_error
            | apply unaware_report | apply unaware_set_cursor | apply unaware_lift
            | apply unaware_set_connection | apply unaware_set_provider
            | apply unaware_read_cursor ]
    | apply blind_awaitA
    | apply blind_forEachA; intros ?
    | apply blind_catchA; [|intros ?]
    | apply blind_bindA; [|intros ?]
    | exact I
    | match goal with |- blind (match ?x with _ => _ end) => destruct x end ].

Lemma blind_processTransferEventA env event : blind (processTransferEventA env event).
Proof. unfold processTransferEventA, provider_getBlockA. blind_walk. Qed.

Lemma blind_processMintEventA env event : blind (processMintEventA env event).
Proof. unfold processMintEventA, provider_getBlockA. blind_walk. Qed.

Lemma blind_processBurnEventA env event : blind (processBurnEventA env event).
Proof. unfold processBurnEventA, provider_getBlockA. blind_walk. Qed.

Lemma blind_processWhitelistEventA env event : blind (processWhitelistEventA env event).
Proof. unfold processWhitelistEventA, provider_getBlockA. blind_walk. Qed.

Lemma blind_processPauseEventA env event paused :
  blind (processPauseEventA env event paused).
Proof. unfold processPauseEventA, provider_getBlockA. blind_walk. Qed.

Lemma blind_queryEventsA env fromBlock toBlock : blind (queryEventsA env fromBlock toBlock).
Proof.
  unfold queryEventsA.
  repeat first
    [ apply blind_processTransferEventA | apply blind_processMintEventA
    | apply blind_processBurnEventA | apply blind_processWhitelistEventA
    | apply blind_processPauseEventA
    | apply blind_on_contractA
    | apply blind_sync, unaware_report
    | apply blind_forEachA; intros ?
    | apply blind_catchA; [|intros ?]
    | apply blind_bindA; [|intros ?] ].
Qed.

(** An iteration never looks at the timer or at the running flag. *)
Lemma blind_pollEventsA env : blind (pollEventsA env).
Proof.
  unfold pollEventsA.
  apply blind_catchA; [|intros ?; apply blind_sync, unaware_report].
  apply blind_bindA; [apply blind_on_providerA | intros currentBlock].
  apply blind_bindA; [apply blind_sync, unaware_read_cursor | intros last].
  destruct (currentBlock <=? last)%Z; [exact I|].
  apply blind_bindA; [apply blind_awaitA, blind_queryEventsA|].
  intros _. apply blind_sync, unaware_set_cursor.
Qed.

(** *** Calls in flight *)

(** Induction on a call, at the type of its result. *)
Lemma Async_ind_at (A : Type) (P : Async A -> Prop) :
  (forall a, P (Return a)) ->
  (forall e, P (Raise e)) ->
  (forall (B : Type) (m : World -> B * World) (k : B -> Async A),
     (forall b, P (k b)) -> P (Atomic m k)) ->
  (forall k, P k -> P (Await k)) ->
  (forall child k, P k -> P (Spawn child k)) ->
  forall t, P t.
Proof.
  intros HReturn HRaise HAtomic HAwait HSpawn.
  fix IH 1. intros [a|e|B m k|k|child k].
  - apply HReturn.
  - apply HRaise.
  - apply HAtomic. intros b. apply IH.
  - apply HAwait, IH.
  - apply HSpawn, IH.
Qed.

(** A blind call runs to its next [await] alike on two worlds that
    differ in the timer only; what is left of it is blind, and ends as the
    whole call does. *)
Lemma advance_blind {A : Type} (t : Async A) :
  blind t ->
  forall w1 w2, apart_from_the_timer w1 w2 ->
  exists t' w1' w2',
    advance t w1 = (t', [], w1') /\
    advance t w2 = (t', [], w2') /\
    apart_from_the_timer w1' w2' /\
    timer_of w1' = timer_of w1 /\
    blind t' /\ stopped t' /\
    finish t w2 = finish t' w2'.
Proof.
  induction t as [A a|A e|A X m k IH|A k IH|A child _ k IH]; intros Ht w1 w2 Hw.
  - exists (Return a), w1, w2.
    split; [reflexivity|]. split; [reflexivity|]. split; [exact Hw|]. by repeat split.
  - exists (Raise e), w1, w2.
    split; [reflexivity|]. split; [reflexivity|]. split; [exact Hw|]. by repeat split.
  - destruct Ht as [[Hm Htimer] Hk].
    destruct (Hm w1 w2 Hw) as [Hfst Hsnd]. specialize (Htimer w1).
    cbn [advance finish].
    destruct (m w1) as [b w1'], (m w2) as [b' w2']. cbn [fst snd] in *. subst b'.
    destruct (IH b (Hk b) w1' w2' Hsnd) as (t' & v1 & v2 & E1 & E2 & Hv & Ht' & Hb & Hs & Hf).
    exists t', v1, v2.
    split; [exact E1|]. split; [exact E2|]. split; [exact Hv|].
    split; [by rewrite Ht'|]. by repeat split.
  - exists (Await k), w1, w2.
    split; [reflexivity|]. split; [reflexivity|]. split; [exact Hw|]. by repeat split.
  - destruct Ht.
Qed.

Lemma waiting_stopped (t : Async unit) :
  stopped t -> waiting [t] = [] /\ finished t = true \/ (exists k, t = Await k) /\ waiting [t] = [t].
Proof.
  destruct t as [a|e|X m k|k|child k]; intros Hs; try done.
  - by left.
  - by left.
  - right. split; [by exists k | reflexivity].
Qed.

Lemma settle_waiting (pre : list (Async unit)) (k : Async unit) (w : World) :
  settle (length pre) {| world := w; pending := pre ++ [Await k] |} =
    let '(t', started, w') := advance k w in
    {| world := w'; pending := (pre ++ waiting [t'] ++ waiting started)%list |}.
Proof.
  unfold settle. cbn [pending world].
  rewrite lookup_app_r by lia. rewrite Nat.sub_diag. cbn [lookup list_lookup resume].
  destruct (advance k w) as [[t' started] w'].
  rewrite take_app_length. rewrite drop_app_ge by lia.
  replace (S (length pre) - length pre)%nat with 1%nat by lia. cbn [drop].
  reflexivity.
Qed.

(** A blind call whose answers arrive before anything else happens does
    what [finish] says, next to whatever else is waiting. *)
Lemma drains (t : Async unit) :
  blind t ->
  forall w pre,
  exists n,
    loop_run (replicate n (Settles (length pre))) (start t {| world := w; pending := pre |}) =
      {| world := snd (finish t w); pending := pre |}.
Proof.
  induction t as [a|e|X m k IH|k IH|child k IH] using Async_ind_at; intros Ht w pre.
  - exists 0%nat. unfold start. cbn. by rewrite app_nil_r.
  - exists 0%nat. unfold start. cbn. by rewrite app_nil_r.
  - destruct Ht as [_ Hk]. unfold start. cbn [advance finish world pending].
    destruct (m w) as [b w'].
    destruct (IH b (Hk b) w' pre) as [n Hn]. exists n.
    unfold start in Hn. cbn [world pending] in Hn. exact Hn.
  - destruct (IH Ht w pre) as [n Hn]. exists (S n).
    unfold start. cbn [advance world pending replicate loop_run fold_left loop_step].
    change (waiting ([] ++ [Await k])) with [Await k].
    rewrite settle_waiting.
    unfold start in Hn. cbn [world pending] in Hn.
    destruct (advance k w) as [[t' started] w'] eqn:E.
    destruct (advance_blind k Ht w w (reflexivity _)) as (t'' & v1 & v2 & E1 & _).
    rewrite E in E1. injection E1 as <- -> <-.
    cbn [waiting filter] in *. rewrite app_nil_r in *. exact Hn.
  - destruct Ht.
Qed.

(** With nothing waiting, stop requests and stray arrivals leave the
    collections, the cursor and the requests as they are. *)
Lemma idle_stops events w :
  Forall stop_or_settle events ->
  pending (loop_run events (idle w)) = [] /\
  apart_from_the_timer (world (loop_run events (idle w))) w.
Proof.
  intros Hev. revert w. induction Hev as [|e events He _ IH]; intros w.
  - by split.
  - destruct e as [env|n| |env0 env1]; try done; cbn [loop_run fold_left loop_step].
    + unfold settle. cbn. by rewrite lookup_nil.
    + destruct (IH (snd (stopListening w))) as [Hp Ha].
      split; [exact Hp|]. etransitivity; [exact Ha|].
      unfold stopListening, bind, get, console_log, modify, ret.
      destruct w as [[c p r l t] txs us con tr]. destruct t; by repeat split.
Qed.


(** *** The timer under calls in flight *)

Lemma blind_waiting ts : Forall (fun t : Async unit => blind t) ts ->
  Forall (fun t : Async unit => blind t) (waiting ts).
Proof.
  intros H. unfold waiting. induction H as [|t ts Ht _ IH]; [constructor|].
  rewrite filter_cons. destruct (decide _); [by constructor | exact IH].
Qed.

Lemma start_blind (t : Async unit) l :
  blind t -> Forall (fun t : Async unit => blind t) (pending l) ->
  Forall (fun t : Async unit => blind t) (pending (start t l)) /\
  timer_of (world (start t l)) = timer_of (world l).
Proof.
  intros Ht Hl. unfold start.
  destruct (advance_blind t Ht (world l) (world l) (reflexivity _))
    as (t' & v1 & v2 & E1 & _ & _ & Htimer & Hb & _).
  rewrite E1. cbn [world pending]. split; [|exact Htimer].
  apply Forall_app. split; [exact Hl|]. apply blind_waiting. by constructor.
Qed.

Lemma settle_blind n l :
  Forall (fun t : Async unit => blind t) (pending l) ->
  Forall (fun t : Async unit => blind t) (pending (settle n l)) /\
  timer_of (world (settle n l)) = timer_of (world l).
Proof.
  intros Hl. unfold settle.
  destruct (pending l !! n) as [t|] eqn:Hn; [|by split].
  assert (Ht : blind t) by (eapply Forall_lookup_1; eauto).
  assert (Hadv : exists t' w', resume t (world l) = (t', [], w') /\
                               timer_of w' = timer_of (world l) /\ blind t').
  { destruct t as [a|e|X m k|k|child k]; cbn [resume].
    - exists (Return a), (world l). by repeat split.
    - exists (Raise e), (world l). by repeat split.
    - destruct (advance_blind (Atomic m k) Ht (world l) (world l) (reflexivity _))
        as (t' & v1 & v2 & E1 & _ & _ & Htimer & Hb & _).
      exists t', v1. by repeat split.
    - destruct (advance_blind k Ht (world l) (world l) (reflexivity _))
        as (t' & v1 & v2 & E1 & _ & _ & Htimer & Hb & _).
      exists t', v1. by repeat split.
    - destruct Ht. }
  destruct Hadv as (t' & w' & E & Htimer & Hb). rewrite E. cbn [world pending].
  split; [|exact Htimer].
  repeat (apply Forall_app; split).
  - by apply Forall_take.
  - apply blind_waiting. by constructor.
  - by apply Forall_drop.
  - constructor.
Qed.




(** *** Overlapping iterations *)

Lemma head_then_window env w pre h :
  provider (service w) = true ->
  contract (service w) = true ->
  getBlockNumber env = Ok h ->
  cursor w < h ->
  exists q handler,
    loop_run [Settles (length pre)] (start (pollEventsA env) {| world := w; pending := pre |}) =
      {| world := sent (CallQueryFilter FTransfer (cursor w + 1) (window_end (cursor w) h))
                    (sent CallGetBlockNumber w);
         pending := pre ++
           [Await (catchA
                     (bindA (awaitA (catchA q (fun message =>
                               sync (report_unless_filter_not_found "Error querying events:"
                                       message))))
                        (fun _ => sync (modify (set_service
                                     (set_lastProcessedBlock (window_end (cursor w) h))))))
                     handler)] |}.
Proof.
  intros Hp Hc Hhead Hlt. apply Z.leb_gt in Hlt.
  unfold start, pollEventsA, on_providerA. cbn [world pending].
  cbn [bindA catchA awaitA sync advance read].
  unfold read at 1, bind at 1, get at 1, ret at 1. rewrite Hp.
  cbn [bindA catchA awaitA sync advance].
  unfold rpc at 1, bind at 1, modify at 1, lift at 1. rewrite Hhead.
  cbn [bindA catchA awaitA sync advance app].
  match goal with
  | |- context [waiting [Await ?k]] => change (waiting [Await k]) with [Await k]
  end.
  cbn [loop_run fold_left loop_step]. rewrite settle_waiting.
  cbn [advance]. unfold read at 1, bind at 1, get at 1, ret at 1.
  cbn [bindA catchA service set_rpcTrace]. unfold cursor in Hlt. rewrite Hlt.
  unfold queryEventsA, on_contractA.
  cbn [bindA catchA awaitA sync advance].
  unfold read at 1, bind at 1, get at 1, ret at 1. cbn [service set_rpcTrace]. rewrite Hc.
  cbn [bindA catchA awaitA sync advance].
  unfold rpc at 1, bind at 1, modify at 1, lift at 1.
  unfold window_end, cursor, sent.
  destruct (queryTransfer env _ _) as [evs|message].
  - cbn [bindA catchA awaitA advance waiting]. eexists _, _. reflexivity.
  - exists (Raise message). eexists. reflexivity.
Qed.

(** What is left of an iteration once its window is open ends by
    writing the upper bound of that window, whatever the world is by
    then. *)
Lemma window_rest_writes_its_bound (q : Async unit) handler hi w :
  cursor (snd (finish
    (catchA
       (bindA (awaitA (catchA q (fun message =>
                 sync (report_unless_filter_not_found "Error querying events:" message))))
          (fun _ => sync (modify (set_service (set_lastProcessedBlock hi)))))
       handler) w)) = hi.
Proof.
  rewrite finish_catchA. unfold try_catch. rewrite finish_bindA. unfold bind.
  rewrite finish_awaitA, finish_catchA. unfold try_catch.
  destruct (finish q w) as [[[]|message] w1].
  - rewrite finish_sync. reflexivity.
  - rewrite finish_sync.
    destruct (total_report "Error querying events:" message w1) as ([] & w2 & E).
    rewrite E. rewrite finish_sync. reflexivity.
Qed.

Lemma loop_run_app events events' l :
  loop_run (events ++ events') l = loop_run events' (loop_run events l).
Proof. apply fold_left_app. Qed.

(** X27: nothing keeps the timer from calling [pollEvents] while an
    earlier call is still waiting. When the call that began first, at
    head [hA], ends last, it writes the upper bound of its own window over
    what the later call, at head [hB], has written: the cursor goes from
    [min (c + 100) hB] to [min (c + 100) hA], whatever the two windows
    meet. *)
Theorem overlapping_iterations_write_a_stale_cursor (envA envB : Env) (w : World) (hA hB : Z) :
  contract (service w) = true ->
  provider (service w) = true ->
  pollingInterval (service w) <> None ->
  getBlockNumber envA = Ok hA ->
  getBlockNumber envB = Ok hB ->
  cursor w < hA ->
  cursor w < hB ->
  exists nB nA,
    length (pending (loop_run ([TimerFires envA; Settles 0; TimerFires envB]
                               ++ replicate nB (Settles 1)) (idle w))) = 1%nat /\
    cursor (world (loop_run ([TimerFires envA; Settles 0; TimerFires envB]
                             ++ replicate nB (Settles 1)) (idle w))) =
      Z.min (cursor w + 100) hB /\
    pending (loop_run (([TimerFires envA; Settles 0; TimerFires envB]
                        ++ replicate nB (Settles 1)) ++ replicate nA (Settles 0)) (idle w)) = [] /\
    cursor (world (loop_run (([TimerFires envA; Settles 0; TimerFires envB]
                              ++ replicate nB (Settles 1)) ++ replicate nA (Settles 0))
                     (idle w))) =
      Z.min (cursor w + 100) hA.
Proof.
  intros Hc Hp Harmed HheadA HheadB HltA HltB.
  destruct (pollingInterval (service w)) as [tm|] eqn:Htimer; [clear Harmed|done].
  destruct (head_then_window envA w [] hA Hp Hc HheadA HltA) as (q & handler & E1).
  set (tA := Await (catchA
                (bindA (awaitA (catchA q (fun message =>
                          sync (report_unless_filter_not_found "Error querying events:"
                                  message))))
                   (fun _ => sync (modify (set_service
                                (set_lastProcessedBlock (window_end (cursor w) hA))))))
                handler)) in *.
  set (w1 := sent (CallQueryFilter FTransfer (cursor w + 1) (window_end (cursor w) hA))
               (sent CallGetBlockNumber w)) in *.
  assert (HtA : blind tA).
  { destruct (start_blind (pollEventsA envA) {| world := w; pending := [] |}
                (blind_pollEventsA envA)) as [H0 _]; [constructor|].
    destruct (settle_blind 0 _ H0) as [H1 _].
    cbn [loop_run fold_left loop_step length app] in E1. rewrite E1 in H1.
    cbn [pending app] in H1. by apply Forall_cons in H1 as [H1 _]. }
  destruct (drains (pollEventsA envB) (blind_pollEventsA envB) w1 [tA]) as [nB EB].
  destruct (drains tA HtA (snd (pollEvents envB w1)) []) as [nA EA].
  exists nB, nA.
  assert (Hfirst : loop_run ([TimerFires envA; Settles 0; TimerFires envB]
                             ++ replicate nB (Settles 1)) (idle w) =
                   {| world := snd (pollEvents envB w1); pending := [tA] |}).
  { rewrite loop_run_app.
    change (loop_run [TimerFires envA; Settles 0; TimerFires envB] (idle w))
      with (loop_step (loop_run [Settles 0] (loop_step (idle w) (TimerFires envA)))
                      (TimerFires envB)).
    cbn [loop_step idle world]. rewrite Htimer.
    cbn [length app] in E1. fold (idle w) in E1. rewrite E1.
    cbn [world]. change (service w1) with (service w). rewrite Htimer.
    cbn [length] in EB. rewrite EB. by rewrite does_pollEventsA. }
  rewrite (loop_run_app (_ ++ _) (replicate nA _)), !Hfirst. cbn [pending world length].
  assert (Hsecond : loop_run (replicate nA (Settles 0))
                      {| world := snd (pollEvents envB w1); pending := [tA] |} =
                    idle (snd (finish tA (snd (pollEvents envB w1))))).
  { cbn [length] in EA. exact EA. }
  rewrite Hsecond. cbn [idle pending world].
  split; [reflexivity|]. split; [|split; [reflexivity|]].
  - unfold cursor at 1. rewrite pollEvents_service.
    change (provider (service w1)) with (provider (service w)).
    change (cursor w1) with (cursor w). rewrite Hp, HheadB.
    apply Z.leb_gt in HltB. rewrite HltB. cbn [lastProcessedBlock set_lastProcessedBlock].
    apply window_end_spec.
  - subst tA. cbn [finish]. rewrite window_rest_writes_its_bound. apply window_end_spec.
Qed.

(** X27 at cursor 0: the call that began at head 50 ends after the one
    that began at head 58, and the cursor goes from 58 back to 50. *)
Lemma cursor_goes_from_58_back_to_50 :
  exists nB nA,
    cursor (world (loop_run ([TimerFires (node (Ok 50) [] [] healthy); Settles 0;
                              TimerFires (node (Ok 58) [] [] healthy)]
                             ++ replicate nB (Settles 1)) (idle listening))) = 58 /\
    cursor (world (loop_run (([TimerFires (node (Ok 50) [] [] healthy); Settles 0;
                               TimerFires (node (Ok 58) [] [] healthy)]
                              ++ replicate nB (Settles 1)) ++ replicate nA (Settles 0))
                     (idle listening))) = 50.
Proof.
  destruct (overlapping_iterations_write_a_stale_cursor
              (node (Ok 50) [] [] healthy) (node (Ok 58) [] [] healthy) listening 50 58)
    as (nB & nA & _ & HB & _ & HA); try reflexivity; [discriminate|].
  exists nB, nA. split; [exact HB | exact HA].
Defined.

(** *** One call after the other *)

(** A blind call that nothing interrupts ends alike on two worlds that
    differ in the timer only, and leaves the timer as it finds it. *)
Lemma finish_blind {A : Type} (t : Async A) :
  blind t ->
  forall w1 w2, apart_from_the_timer w1 w2 ->
    fst (finish t w1) = fst (finish t w2) /\
    apart_from_the_timer (snd (finish t w1)) (snd (finish t w2)) /\
    timer_of (snd (finish t w1)) = timer_of w1.
Proof.
  induction t as [A a|A e|A X m k IH|A k IH|A child _ k IH]; intros Ht w1 w2 Hw.
  - split; [reflexivity|]. split; [exact Hw | reflexivity].
  - split; [reflexivity|]. split; [exact Hw | reflexivity].
  - destruct Ht as [[Hm Htimer] Hk].
    destruct (Hm w1 w2 Hw) as [Hfst Hsnd]. specialize (Htimer w1).
    cbn [finish]. destruct (m w1) as [b w1'], (m w2) as [b' w2']. cbn [fst snd] in *.
    subst b'. destruct (IH b (Hk b) w1' w2' Hsnd) as (H1 & H2 & H3).
    split; [exact H1|]. split; [exact H2|]. by rewrite H3.
  - by apply IH.
  - destruct Ht.
Qed.

(** A call that waits, alone on the loop, with its answers arriving one
    after the other. *)
Lemma drains_waiting (t : Async unit) w :
  blind t -> stopped t ->
  exists n,
    loop_run (replicate n (Settles 0)) {| world := w; pending := waiting [t] |} =
      idle (snd (finish t w)).
Proof.
  intros Ht Hs. destruct (drains t Ht w []) as [n Hn]. exists n.
  unfold idle. rewrite <- Hn. cbn [length]. f_equal.
  destruct t as [a|e|X m k|k|child k]; try done.
Qed.

(** A timer callback whose answers arrive before anything else happens
    is a [Tick] of [EventSync]. *)
Lemma serial_tick env w :
  exists n,
    loop_run (TimerFires env :: replicate n (Settles 0)) (idle w) =
      idle (snd (step (Tick env) w)).
Proof.
  cbn [loop_run fold_left loop_step step idle world]. unfold bind at 1, get at 1.
  destruct (pollingInterval (service w)).
  - destruct (drains (pollEventsA env) (blind_pollEventsA env) w []) as [n Hn].
    exists n. cbn [length] in Hn. unfold loop_run in Hn. fold (idle w) in Hn. rewrite Hn.
    by rewrite does_pollEventsA.
  - exists 0%nat. reflexivity.
Qed.

(** [startListening] on a service that holds its contract and does not
    run yet, in [EventSync]. *)
Lemma startListening_sets_out env0 env1 w :
  contract (service w) = true ->
  isRunning (service w) = false ->
  startListening env0 env1 w =
    (Ok tt,
     set_console (fun c => (c ++ [ConsoleLog "Event polling started successfully"])%list)
       (set_service (set_pollingInterval (Some {| period := POLLING_INTERVAL_MS |}))
          (snd (pollEvents env1
                  (set_console (fun c => (c ++ [ConsoleLog "Polling interval: 15s"])%list)
                     (set_console (fun c =>
                          (c ++ [ConsoleLog "Starting blockchain event polling..."])%list)
                        (set_service (set_isRunning true) w))))))).
Proof.
  intros Hc Hr.
  unfold startListening. unfold bind at 1, get at 1. rewrite Hr, Hc.
  unfold bind at 1, ret at 1. cbn [negb].
  unfold bind at 1, modify at 1. unfold bind at 1, console_log at 1, modify at 1.
  unfold bind at 1, console_log at 1, modify at 1.
  unfold bind at 1. rewrite pollEvents_returns.
  unfold bind, modify, console_log.
  reflexivity.
Qed.

(** The same call on the event loop: when it returns, the timer is
    armed and the first poll has at most sent its head query. *)
Lemma startListeningA_sets_out env0 env1 w :
  contract (service w) = true ->
  isRunning (service w) = false ->
  exists t w',
    advance (pollEventsA env1)
      (set_console (fun c => (c ++ [ConsoleLog "Polling interval: 15s"])%list)
         (set_console (fun c =>
              (c ++ [ConsoleLog "Starting blockchain event polling..."])%list)
            (set_service (set_isRunning true) w))) = (t, [], w') /\
    start (startListeningA env0 env1) (idle w) =
      {| world :=
           set_console (fun c => (c ++ [ConsoleLog "Event polling started successfully"])%list)
             (set_service (set_pollingInterval (Some {| period := POLLING_INTERVAL_MS |})) w');
         pending := waiting [t] |}.
Proof.
  intros Hc Hr.
  set (w0 := set_console (fun c => (c ++ [ConsoleLog "Polling interval: 15s"])%list)
               (set_console (fun c =>
                    (c ++ [ConsoleLog "Starting blockchain event polling..."])%list)
                  (set_service (set_isRunning true) w))).
  destruct (advance_blind (pollEventsA env1) (blind_pollEventsA env1) w0 w0 (reflexivity _))
    as (t & w' & v2 & E & _).
  exists t, w'. split; [exact E|].
  unfold start, startListeningA. cbn [idle world pending app].
  cbn [bindA sync advance]. unfold read at 1, bind at 1, get at 1, ret at 1. rewrite Hr.
  cbn [bindA sync advance]. unfold read at 1, bind at 1, get at 1, ret at 1. rewrite Hc.
  cbn [bindA sync advance negb].
  unfold modify at 1. cbn [bindA sync advance].
  unfold console_log at 1, modify at 1. cbn [bindA sync advance].
  unfold console_log at 1, modify at 1. cbn [bindA sync advance].
  fold w0. rewrite E.
  unfold modify at 1. cbn [bindA sync advance].
  unfold console_log at 1, modify at 1. cbn [bindA sync advance app].
  reflexivity.
Qed.

(** The first stretch of an iteration sends at most the head query. *)
Lemma pollEventsA_first_stretch env w :
  exists t w',
    advance (pollEventsA env) w = (t, [], w') /\
    service w' = service w /\
    transactions w' = transactions w /\
    users w' = users w.
Proof.
  unfold pollEventsA, on_providerA.
  cbn [bindA catchA awaitA sync advance].
  unfold read at 1, bind at 1, get at 1, ret at 1.
  destruct (provider (service w)).
  - cbn [bindA catchA awaitA sync advance].
    unfold rpc at 1, bind at 1, modify at 1, lift at 1.
    destruct (getBlockNumber env) as [h|message];
      cbn [bindA catchA awaitA advance]; eexists _, _; by repeat split.
  - cbn [bindA catchA awaitA sync advance].
    unfold report_unless_filter_not_found, console_error, modify.
    destruct (JsString.includes _ _); cbn [advance]; eexists _, _; by repeat split.
Qed.

(** X28: with every answer arriving before anything else happens, the
    event loop does what [EventSync] says: a timer callback is a [Tick], a
    stop request a [StopRequest]. A start request on a service that holds
    its contract returns with the timer armed and the flag set while its
    first poll has sent at most the head query: the cursor and the
    collections are as before. Once that poll has ended, the service, the
    collections and the requests are those of the [StartRequest] of
    [EventSync]; only the order of the console lines differs. *)
Theorem answers_in_turn_give_the_run_of_EventSync :
  (forall env w,
     exists n,
       loop_run (TimerFires env :: replicate n (Settles 0)) (idle w) =
         idle (snd (step (Tick env) w))) /\
  (forall w, loop_step (idle w) StopCalled = idle (snd (step StopRequest w))) /\
  (forall env0 env1 w,
     isRunning (service w) = true ->
     loop_step (idle w) (StartCalled env0 env1) =
       idle (snd (step (StartRequest env0 env1) w))) /\
  (forall env0 env1 w,
     contract (service w) = true ->
     isRunning (service w) = false ->
     timer_of (world (loop_step (idle w) (StartCalled env0 env1))) =
       (Some {| period := POLLING_INTERVAL_MS |}, true) /\
     cursor (world (loop_step (idle w) (StartCalled env0 env1))) = cursor w /\
     transactions (world (loop_step (idle w) (StartCalled env0 env1))) = transactions w /\
     users (world (loop_step (idle w) (StartCalled env0 env1))) = users w /\
     exists n,
       pending (loop_run (StartCalled env0 env1 :: replicate n (Settles 0)) (idle w)) = [] /\
       apart_from_the_timer
         (world (loop_run (StartCalled env0 env1 :: replicate n (Settles 0)) (idle w)))
         (snd (step (StartRequest env0 env1) w)) /\
       timer_of (world (loop_run (StartCalled env0 env1 :: replicate n (Settles 0)) (idle w))) =
         timer_of (snd (step (StartRequest env0 env1) w))).
Proof.
  split; [exact serial_tick|]. split; [reflexivity|]. split.
  - intros env0 env1 w Hr. cbn [loop_step step]. unfold start, startListeningA, startListening.
    cbn [idle world pending bindA sync advance].
    unfold read at 1, bind at 1, get at 1, ret at 1. unfold bind at 1, get at 1.
    rewrite Hr. cbn [bindA sync advance]. reflexivity.
  - intros env0 env1 w Hc Hr.
    set (w0 := set_console (fun c => (c ++ [ConsoleLog "Polling interval: 15s"])%list)
                 (set_console (fun c =>
                      (c ++ [ConsoleLog "Starting blockchain event polling..."])%list)
                    (set_service (set_isRunning true) w))).
    destruct (startListeningA_sets_out env0 env1 w Hc Hr) as (t & w' & E & Estart).
    fold w0 in E.
    destruct (pollEventsA_first_stretch env1 w0) as (t1 & w1 & E1 & Hs & Htx & Hus).
    rewrite E in E1. injection E1 as <- <-.
    destruct (advance_blind (pollEventsA env1) (blind_pollEventsA env1) w0 w0 (reflexivity _))
      as (t2 & v1 & v2 & E2 & E2' & _ & _ & Hb & Hstopped & Hf).
    rewrite E in E2, E2'. injection E2 as <- <-. injection E2' as <-.
    set (we := set_console
                 (fun c => (c ++ [ConsoleLog "Event polling started successfully"])%list)
                 (set_service (set_pollingInterval (Some {| period := POLLING_INTERVAL_MS |}))
                    w')) in *.
    cbn [loop_run fold_left loop_step]. rewrite Estart. cbn [world].
    assert (Hwe : apart_from_the_timer we w').
    { subst we. destruct w' as [[c p r l tm] txs us con tr]. by repeat split. }
    split; [|split; [|split; [|split]]].
    + subst we. unfold timer_of. cbn [service set_console set_service set_pollingInterval
                                       pollingInterval isRunning].
      rewrite Hs. reflexivity.
    + subst we. unfold cursor. cbn [service set_console set_service set_pollingInterval
                                     lastProcessedBlock]. by rewrite Hs.
    + subst we. cbn [transactions set_console set_service]. exact Htx.
    + subst we. cbn [users set_console set_service]. exact Hus.
    + destruct (drains_waiting t we Hb Hstopped) as [n Hn]. exists n.
      unfold loop_run in Hn. rewrite Hn. cbn [idle pending world].
      destruct (finish_blind t Hb we w' Hwe) as (_ & Hapart & Htimer).
      cbn [step]. rewrite (startListening_sets_out env0 env1 w Hc Hr). fold w0. cbn [snd].
      rewrite <- (does_pollEventsA env1 w0), Hf.
      split; [reflexivity|]. split.
      * etransitivity; [exact Hapart|].
        destruct (snd (finish t w')) as [[c p r l tm] txs us con tr]. by repeat split.
      * rewrite Htimer. subst we. unfold timer_of.
        cbn [service set_console set_service set_pollingInterval pollingInterval isRunning].
        rewrite Hs.
        destruct (finish_blind t Hb w' w' (reflexivity _)) as (_ & _ & Htimer').
        unfold timer_of in Htimer'. injection Htimer' as _ Hrun.
        rewrite Hrun, Hs. reflexivity.
Qed.

(** X28 at a service that holds its contract and has not started: the
    start request arms the timer before its poll at head 7 has moved the
    cursor off 0. *)
Lemma start_returns_before_its_poll_ends :
  timer_of (world (loop_step (idle (set_service (set_isRunning false)
                                      (set_service (set_pollingInterval None) listening)))
                     (StartCalled unreachable (node (Ok 7) [] [] healthy)))) =
    (Some {| period := POLLING_INTERVAL_MS |}, true) /\
  cursor (world (loop_step (idle (set_service (set_isRunning false)
                                    (set_service (set_pollingInterval None) listening)))
                   (StartCalled unreachable (node (Ok 7) [] [] healthy)))) = 0 /\
  cursor (snd (step (StartRequest unreachable (node (Ok 7) [] [] healthy))
                 (set_service (set_isRunning false)
                    (set_service (set_pollingInterval None) listening)))) = 7.
Proof.
  destruct answers_in_turn_give_the_run_of_EventSync as (_ & _ & _ & Hstart).
  destruct (Hstart unreachable (node (Ok 7) [] [] healthy)
              (set_service (set_isRunning false)
                 (set_service (set_pollingInterval None) listening)) eq_refl eq_refl)
    as (Htimer & Hcursor & _).
  split; [exact Htimer|]. split; [exact Hcursor|]. vm_compute. reflexivity.
Defined.

(** *** The fixed interval, and stop *)





End EventLoopFacts.

(** ** The event synchronizer: the windows over time *)

Module EventSyncWindowFacts.

Import EventSync EventSyncSpec EventSyncWindows.
Import EventSyncFacts.

Lemma scan_app cur last calls calls' :
  scan cur last (calls ++ calls') =
    match scan cur last calls with
    | Some (cur', last') => scan cur' last' calls'
    | None => None
    end.
Proof.
  revert cur last. induction calls as [|c calls IH]; intros cur last; simpl; [done|].
  destruct c as [|[] f t|n]; repeat case_bool_decide; by rewrite ?IH.
Qed.

(** What follows the [Transfer] query of a window stays in that window. *)
Lemma scan_follows cur lo hi rest :
  Forall (follows lo hi) rest ->
  scan cur (Some (lo, hi)) rest = Some (cur, Some (lo, hi)).
Proof.
  induction 1 as [|c rest Hc _ IH]; simpl; [done|].
  destruct c as [|f fromBlock toBlock|n]; simpl in *; [done | | exact IH].
  destruct Hc as (Hf & -> & ->).
  destruct f; try done; by rewrite bool_decide_eq_true_2.
Qed.

(** The [Transfer] windows that [scan] goes through lie end to end. *)
Lemma scan_end_to_end calls : forall cur last cur' last',
  scan cur last calls = Some (cur', last') ->
  end_to_end cur cur' (transfer_windows calls).
Proof.
  induction calls as [|c calls IH]; intros cur last cur' last'; simpl.
  - by intros [= -> _].
  - destruct c as [|[] f t|n]; try (by apply IH);
      case_bool_decide; try done; try (by apply IH).
    intros Hscan. destruct H as [-> Hle]. split; [done|]. split; [done|].
    by apply (IH _ _ _ _ Hscan).
Qed.

Lemma report_keeps_trace label message w :
  rpcTrace (snd (report_unless_filter_not_found label message w)) = rpcTrace w.
Proof.
  unfold report_unless_filter_not_found, console_error.
  by destruct (JsString.includes _ _).
Qed.

#[local] Existing Instance extends_trace_preorder.

Ltac frame_of_follows :=
  first [ apply extends_trace_console | apply extends_trace_rpc
        | apply extends_trace_insert | apply extends_trace_flag
        | (intros ?; exact I) ].

Lemma follows_processTransferEvent lo hi env event :
  steps (extends_trace (follows lo hi)) (processTransferEvent env event).
Proof. apply (steps_processTransferEvent _ (follows lo hi)); frame_of_follows. Qed.

Lemma follows_processMintEvent lo hi env event :
  steps (extends_trace (follows lo hi)) (processMintEvent env event).
Proof. apply (steps_processMintEvent _ (follows lo hi)); frame_of_follows. Qed.

Lemma follows_processBurnEvent lo hi env event :
  steps (extends_trace (follows lo hi)) (processBurnEvent env event).
Proof. apply (steps_processBurnEvent _ (follows lo hi)); frame_of_follows. Qed.

Lemma follows_processWhitelistEvent lo hi env event :
  steps (extends_trace (follows lo hi)) (processWhitelistEvent env event).
Proof. apply (steps_processWhitelistEvent _ (follows lo hi)); frame_of_follows. Qed.

Lemma follows_processPauseEvent lo hi env event paused :
  steps (extends_trace (follows lo hi)) (processPauseEvent env event paused).
Proof. apply (steps_processPauseEvent _ (follows lo hi)); frame_of_follows. Qed.

Ltac follow_window :=
  repeat first
    [ apply follows_processTransferEvent | apply follows_processMintEvent
    | apply follows_processBurnEvent | apply follows_processWhitelistEvent
    | apply follows_processPauseEvent
    | progress (unfold on_contract, rpc)
    | walk1 ].

(** With the contract connected, a window sends its [Transfer] query
    first, and after it only queries for the other kinds over the same
    window and lookups of blocks. *)
Lemma queryEvents_opens_with_Transfer env lo hi w :
  contract (service w) = true ->
  exists rest,
    rpcTrace (snd (queryEvents env lo hi w)) =
      (rpcTrace w ++ CallQueryFilter FTransfer lo hi :: rest)%list /\
    Forall (follows lo hi) rest.
Proof.
  intros Hc.
  assert (Hgrow : forall w1 w2 : World,
            extends_trace (follows lo hi) w1 w2 ->
            (exists rest, rpcTrace w1 = (rpcTrace w ++ CallQueryFilter FTransfer lo hi :: rest)%list
                          /\ Forall (follows lo hi) rest) ->
            exists rest, rpcTrace w2 = (rpcTrace w ++ CallQueryFilter FTransfer lo hi :: rest)%list
                         /\ Forall (follows lo hi) rest).
  { intros w1 w2 (calls & E & Hcalls) (rest & E1 & Hrest).
    exists (rest ++ calls)%list. split.
    - rewrite E, E1, <- app_assoc. reflexivity.
    - by apply Forall_app. }
  assert (Hfirst : exists rest,
            rpcTrace (sent (CallQueryFilter FTransfer lo hi) w) =
              (rpcTrace w ++ CallQueryFilter FTransfer lo hi :: rest)%list /\
            Forall (follows lo hi) rest) by (exists []; by split).
  unfold queryEvents, try_catch. unfold bind at 1. unfold on_contract at 1.
  unfold bind at 1. unfold get at 1. rewrite Hc.
  unfold rpc at 1. unfold bind at 1. unfold modify at 1. unfold lift at 1.
  fold (sent (CallQueryFilter FTransfer lo hi) w).
  destruct (queryTransfer env lo hi) as [evs|message].
  - match goal with
    | |- exists rest, rpcTrace (snd (let (r, w') := ?m ?w1 in _)) = _ /\ _ =>
        assert (Hsteps : steps (extends_trace (follows lo hi)) m);
        [|destruct (m w1) as [[[]|e] w2] eqn:E]
    end.
    + follow_window; apply extends_trace_rpc; by repeat split.
    + eapply Hgrow; [eapply Hsteps, E | exact Hfirst].
    + destruct (report_unless_filter_not_found "Error querying events:" e w2)
        as [r3 w3] eqn:E3.
      cbn [snd].
      assert (Ht : rpcTrace w3 = rpcTrace w2).
      { pose proof (report_keeps_trace "Error querying events:" e w2) as H.
        by rewrite E3 in H. }
      rewrite Ht. eapply Hgrow; [eapply Hsteps, E | exact Hfirst].
  - destruct (report_unless_filter_not_found "Error querying events:" message _)
      as [r3 w3] eqn:E3.
    cbn [snd].
    assert (Ht : rpcTrace w3 = rpcTrace (sent (CallQueryFilter FTransfer lo hi) w)).
    { pose proof (report_keeps_trace "Error querying events:" message
                    (sent (CallQueryFilter FTransfer lo hi) w)) as H.
      by rewrite E3 in H. }
    rewrite Ht. exact Hfirst.
Qed.

(** One iteration of a connected service: the requests it adds are a
    head query and, when the head is above the cursor, the queries of the
    one window from the cursor to the new cursor, the [Transfer] query
    first. *)
Lemma pollEvents_windows env w last :
  connected w ->
  exists added last',
    rpcTrace (snd (pollEvents env w)) = (rpcTrace w ++ added)%list /\
    scan (cursor w) last added = Some (cursor (snd (pollEvents env w)), last') /\
    connected (snd (pollEvents env w)).
Proof.
  intros [Hc Hp].
  assert (Hconn : connected (snd (pollEvents env w))).
  { unfold connected. rewrite pollEvents_service, Hp.
    destruct (getBlockNumber env) as [h|]; [|done].
    by destruct (h <=? cursor w)%Z. }
  destruct (getBlockNumber env) as [h|message] eqn:Hhead.
  - pose proof (pollEvents_head env w h Hp Hhead) as E.
    destruct (Z.leb_spec h (cursor w)) as [Hle|Hlt].
    + rewrite E in *. exists [CallGetBlockNumber], last. cbn [snd] in *.
      split; [reflexivity|]. split; [reflexivity | exact Hconn].
    + destruct (queryEvents_opens_with_Transfer env (cursor w + 1) (window_end (cursor w) h)
                  (sent CallGetBlockNumber w) Hc) as (rest & Htrace & Hrest).
      pose proof (window_end_above (cursor w) h Hlt) as Habove.
      rewrite E in *. cbn [snd] in *.
      exists (CallGetBlockNumber
                :: CallQueryFilter FTransfer (cursor w + 1) (window_end (cursor w) h) :: rest),
             (Some (cursor w + 1, window_end (cursor w) h)).
      split; [|split; [|exact Hconn]].
      * cbn [rpcTrace set_service]. rewrite Htrace. cbn [rpcTrace sent set_rpcTrace].
        by rewrite <- app_assoc.
      * cbn [scan]. rewrite bool_decide_eq_true_2 by lia. by rewrite scan_follows.
  - pose proof (pollEvents_no_head env w message Hp Hhead) as E.
    rewrite E in *. cbn [snd] in *.
    exists [CallGetBlockNumber], last.
    split; [rewrite report_keeps_trace; reflexivity|].
    assert (Hcur : cursor (snd (report_unless_filter_not_found "Error polling events:" message
                                  (sent CallGetBlockNumber w))) = cursor w)
      by (unfold cursor; by rewrite report_keeps_service).
    rewrite Hcur. split; [reflexivity | exact Hconn].
Qed.

Lemma startListening_connected env0 env1 w :
  contract (service w) = true -> isRunning (service w) = false ->
  exists pre after,
    service pre = set_isRunning true (service w) /\
    rpcTrace pre = rpcTrace w /\
    startListening env0 env1 w =
      (Ok tt, set_console after
                (set_service (set_pollingInterval (Some {| period := POLLING_INTERVAL_MS |}))
                   (snd (pollEvents env1 pre)))).
Proof.
  intros Hc Hr.
  exists (set_console (fun c => (c ++ [ConsoleLog "Polling interval: 15s"])%list)
            (set_console (fun c => (c ++ [ConsoleLog "Starting blockchain event polling..."])%list)
               (set_service (set_isRunning true) w))).
  exists (fun c => (c ++ [ConsoleLog "Event polling started successfully"])%list).
  split; [reflexivity|]. split; [reflexivity|].
  unfold startListening. unfold bind at 1, get at 1. rewrite Hr, Hc.
  unfold bind at 1, ret at 1. cbn [negb].
  unfold bind at 1, modify at 1. unfold bind at 1, console_log at 1, modify at 1.
  unfold bind at 1, console_log at 1, modify at 1.
  unfold bind at 1. rewrite pollEvents_returns.
  unfold bind, modify, console_log.
  reflexivity.
Qed.

(** One input to a connected service. *)
Lemma step_windows i w last :
  connected w ->
  exists added last',
    step i w = (Ok tt, snd (step i w)) /\
    rpcTrace (snd (step i w)) = (rpcTrace w ++ added)%list /\
    scan (cursor w) last added = Some (cursor (snd (step i w)), last') /\
    connected (snd (step i w)).
Proof.
  intros Hconn.
  assert (Hidle : forall w', rpcTrace w' = rpcTrace w -> service w' = service w \/
                             (exists f, service w' = f (service w) /\
                                        (forall s, contract (f s) = contract s /\
                                                   provider (f s) = provider s /\
                                                   lastProcessedBlock (f s) = lastProcessedBlock s)) ->
            exists added last',
              rpcTrace w' = (rpcTrace w ++ added)%list /\
              scan (cursor w) last added = Some (cursor w', last') /\
              connected w').
  { intros w' Ht Hs. exists [], last. rewrite app_nil_r.
    assert (Hsame : contract (service w') = contract (service w) /\
                    provider (service w') = provider (service w) /\
                    cursor w' = cursor w).
    { unfold cursor. destruct Hs as [->|(f & -> & Hf)]; [done | apply Hf]. }
    destruct Hsame as (Hc' & Hp' & Hcur). unfold connected. rewrite Hc', Hp', Hcur.
    by repeat split; try apply Hconn. }
  destruct i as [env| |env0 env1].
  - rewrite tick_returns. cbn [step]. unfold bind, get.
    destruct (pollingInterval (service w)).
    + destruct (pollEvents_windows env w last Hconn) as (added & last' & H).
      exists added, last'. split; [reflexivity | exact H].
    + destruct (Hidle w eq_refl (or_introl eq_refl)) as (added & last' & H).
      exists added, last'. split; [reflexivity | exact H].
  - destruct (stopListening_outcome w) as (E & _ & _). cbn [step]. rewrite E.
    destruct (Hidle (snd (stopListening w))) as (added & last' & H).
    + unfold stopListening, bind, get, console_log, modify, ret.
      by destruct (pollingInterval (service w)).
    + right. unfold stopListening, bind, get, console_log, modify, ret.
      destruct (pollingInterval (service w)); cbn [snd service set_service set_console].
      * exists (fun s => set_isRunning false (set_pollingInterval None s)). by split.
      * exists (set_isRunning false). by split.
    + exists added, last'. split; [reflexivity | exact H].
  - cbn [step]. destruct (isRunning (service w)) eqn:Hr.
    + assert (E : startListening env0 env1 w =
                  (Ok tt, set_console (fun c => (c ++ [ConsoleLog "Event sync is already running"])%list) w)).
      { unfold startListening, bind, get, console_log, modify. by rewrite Hr. }
      rewrite E. cbn [snd].
      destruct (Hidle (set_console (fun c => (c ++ [ConsoleLog "Event sync is already running"])%list) w)
                  eq_refl (or_introl eq_refl)) as (added & last' & H).
      exists added, last'. split; [reflexivity | exact H].
    + destruct (startListening_connected env0 env1 w (proj1 Hconn) Hr)
        as (pre & after & Hs & Hpre & E).
      rewrite E. cbn [snd].
      assert (Hcur : cursor pre = cursor w) by (unfold cursor; by rewrite Hs).
      destruct (pollEvents_windows env1 pre last) as (added & last' & Ht & Hscan & Hc').
      { unfold connected. rewrite Hs. exact Hconn. }
      rewrite Hpre, Hcur in *.
      exists added, last'. split; [reflexivity|].
      split; [exact Ht|]. split; [exact Hscan | exact Hc'].
Qed.

(** A window whose [Transfer] query fails sends no other query, and the
    cursor passes it. *)
Lemma failed_Transfer_query_ends_the_window env w h message :
  connected w ->
  getBlockNumber env = Ok h ->
  cursor w < h ->
  queryTransfer env (cursor w + 1) (window_end (cursor w) h) = Throw message ->
  rpcTrace (snd (pollEvents env w)) =
    (rpcTrace w ++ [CallGetBlockNumber;
                    CallQueryFilter FTransfer (cursor w + 1) (window_end (cursor w) h)])%list /\
  cursor (snd (pollEvents env w)) = window_end (cursor w) h.
Proof.
  intros [Hc Hp] Hhead Hlt Hfail.
  rewrite (pollEvents_head env w h Hp Hhead).
  apply Z.leb_gt in Hlt. rewrite Hlt. cbn [snd]. split; [|reflexivity].
  cbn [rpcTrace set_service].
  unfold queryEvents, try_catch. unfold bind at 1. unfold on_contract at 1.
  unfold bind at 1. unfold get at 1.
  change (contract (service (sent CallGetBlockNumber w))) with (contract (service w)).
  rewrite Hc. unfold rpc at 1. unfold bind at 1. unfold modify at 1. unfold lift at 1.
  rewrite Hfail. rewrite report_keeps_trace.
  cbn [rpcTrace set_rpcTrace sent]. by rewrite <- app_assoc.
Qed.

(** X25: over everything that happens to a connected service, with no
    iteration still in progress when the next input begins (ticks with
    any answers and faults, stops, starts), the [Transfer] queries open
    window after window: each
    begins at the block right above the cursor, none is empty, and the
    cursor ends at the end of the last one, so the windows lie end to end
    from the first cursor to the last. Every query for another kind of
    log is over the window that the [Transfer] query before it opened;
    it need not be sent: after a [Transfer] query that fails the window
    gets no other query and the cursor passes it. *)
Theorem windows_leave_no_gap_and_never_overlap (inputs : list Input) (w : World) :
  connected w ->
  (exists added last,
     rpcTrace (snd (run inputs w)) = (rpcTrace w ++ added)%list /\
     scan (cursor w) None added = Some (cursor (snd (run inputs w)), last) /\
     end_to_end (cursor w) (cursor (snd (run inputs w))) (transfer_windows added)) /\
  (forall env h message,
     getBlockNumber env = Ok h ->
     cursor w < h ->
     queryTransfer env (cursor w + 1) (Z.min (cursor w + 100) h) = Throw message ->
     rpcTrace (snd (pollEvents env w)) =
       (rpcTrace w ++ [CallGetBlockNumber;
                       CallQueryFilter FTransfer (cursor w + 1) (Z.min (cursor w + 100) h)])%list /\
     cursor (snd (pollEvents env w)) = Z.min (cursor w + 100) h).
Proof.
  intros Hconn.
  assert (Hgen : forall inputs w last,
            connected w ->
            exists added last',
              rpcTrace (snd (run inputs w)) = (rpcTrace w ++ added)%list /\
              scan (cursor w) last added = Some (cursor (snd (run inputs w)), last')).
  { clear. intros inputs. induction inputs as [|i inputs IH]; intros w last Hconn.
    - exists [], last. by rewrite app_nil_r.
    - destruct (step_windows i w last Hconn) as (added1 & last1 & E & Ht1 & Hs1 & Hc1).
      destruct (IH (snd (step i w)) last1 Hc1) as (added2 & last2 & Ht2 & Hs2).
      exists (added1 ++ added2)%list, last2.
      unfold run in *. cbn [forEach]. unfold bind. rewrite E.
      split; [by rewrite Ht2, Ht1, app_assoc|].
      by rewrite scan_app, Hs1. }
  split.
  - destruct (Hgen inputs w None Hconn) as (added & last & Ht & Hscan).
    exists added, last. split; [exact Ht|]. split; [exact Hscan|].
    exact (scan_end_to_end _ _ _ _ _ Hscan).
  - intros env h message Hhead Hlt Hfail.
    rewrite <- window_end_spec in *.
    by apply (failed_Transfer_query_ends_the_window env w h message).
Qed.

(** X25 on a long backlog: two ticks at head 250 take a listening
    service from cursor 0 over the windows [1, 100] and [101, 200]. And
    at a node that has dropped the [Transfer] filter, the window [1, 5]
    gets that one query and the cursor moves to 5. *)
Lemma two_windows_of_a_backlog :
  (exists added last,
     rpcTrace (snd (run [Tick (node (Ok 250) [] [] healthy); Tick (node (Ok 250) [] [] healthy)]
                      listening)) = (rpcTrace listening ++ added)%list /\
     scan 0 None added = Some (200, last) /\
     end_to_end 0 200 (transfer_windows added)) /\
  rpcTrace (snd (pollEvents lost_filter listening)) =
    [CallGetBlockNumber; CallQueryFilter FTransfer 1 5] /\
  cursor (snd (pollEvents lost_filter listening)) = 5.
Proof.
  destruct (windows_leave_no_gap_and_never_overlap
              [Tick (node (Ok 250) [] [] healthy); Tick (node (Ok 250) [] [] healthy)] listening)
    as [(added & last & Ht & Hs & He) Hfails]; [by split|].
  split.
  - exists added, last. split; [exact Ht|].
    assert (Hcur : cursor (snd (run [Tick (node (Ok 250) [] [] healthy);
                                     Tick (node (Ok 250) [] [] healthy)] listening)) = 200)
      by (vm_compute; reflexivity).
    rewrite Hcur in Hs, He. split; [exact Hs | exact He].
  - apply (Hfails lost_filter 5 "filter not found"); [reflexivity | reflexivity | reflexivity].
Defined.

(** X26: a first start whose head query fails leaves the service
    connected but not running, with the cursor at 0; the next start finds
    the contract set, skips the initialization that would have put the
    cursor at the head, and begins polling at block 1: its first window is
    [1, min(100, head)], however high the head is. *)
Theorem start_after_a_failed_head_query_begins_at_block_1 (env0 env0' env1 env1' : Env)
    (message : string) (head : Z) :
  getContract env0 = Ok tt ->
  getBlockNumber env0 = Throw message ->
  getBlockNumber env1' = Ok head ->
  0 < head ->
  isRunning (service (snd (startListening env0 env1 fresh))) = false /\
  contract (service (snd (startListening env0 env1 fresh))) = true /\
  cursor (snd (startListening env0 env1 fresh)) = 0 /\
  isRunning (service (snd (run [StartRequest env0 env1; StartRequest env0' env1'] fresh)))
    = true /\
  cursor (snd (run [StartRequest env0 env1; StartRequest env0' env1'] fresh))
    = Z.min 100 head /\
  exists rest,
    rpcTrace (snd (run [StartRequest env0 env1; StartRequest env0' env1'] fresh)) =
      (CallGetBlockNumber :: CallGetBlockNumber
         :: CallQueryFilter FTransfer 1 (Z.min 100 head) :: rest).
Proof.
  intros Hcontract Hnohead Hhead Hpos.
  assert (E1 : exists c1,
            startListening env0 env1 fresh =
              (Ok tt, {| service := {| contract := true; provider := true; isRunning := false;
                                       lastProcessedBlock := 0; pollingInterval := None |};
                         transactions := []; users := []; console := c1;
                         rpcTrace := [CallGetBlockNumber] |})).
  { eexists. unfold startListening, initialize, try_catch, on_provider, rpc, console_error,
      bind, get, modify, lift, ret, throw.
    cbn [fresh service constructor isRunning contract]. rewrite Hcontract. cbn.
    rewrite Hnohead. cbn. reflexivity. }
  destruct E1 as [c1 E1]. rewrite E1. cbn [snd service isRunning contract cursor lastProcessedBlock].
  split; [reflexivity|]. split; [reflexivity|]. split; [reflexivity|].
  set (w1 := {| service := {| contract := true; provider := true; isRunning := false;
                              lastProcessedBlock := 0; pollingInterval := None |};
                transactions := []; users := []; console := c1;
                rpcTrace := [CallGetBlockNumber] |}).
  destruct (startListening_connected env0' env1' w1 eq_refl eq_refl)
    as (pre & after & Hs & Hpre & E2).
  assert (Erun : run [StartRequest env0 env1; StartRequest env0' env1'] fresh =
                 startListening env0' env1' w1).
  { unfold run. cbn [forEach step]. unfold bind. rewrite E1. fold w1.
    rewrite E2. reflexivity. }
  rewrite Erun, E2. cbn [snd].
  assert (Hp : provider (service pre) = true) by (by rewrite Hs).
  assert (Hcur : cursor pre = 0) by (unfold cursor; by rewrite Hs).
  pose proof (pollEvents_head env1' pre head Hp Hhead) as Epoll.
  rewrite Hcur in Epoll.
  destruct (Z.leb_spec head 0) as [Hle|_]; [lia|].
  rewrite window_end_spec in Epoll. change (0 + 100) with 100 in Epoll. change (0 + 1) with 1 in Epoll.
  assert (Hc : contract (service (sent CallGetBlockNumber pre)) = true)
    by (cbn [sent service set_rpcTrace]; by rewrite Hs).
  destruct (queryEvents_first_call env1' 1 (Z.min 100 head) (sent CallGetBlockNumber pre) Hc)
    as (rest & Htrace & _).
  pose proof (pollEvents_service env1' pre) as Hserv.
  rewrite Hp, Hhead, Hcur in Hserv.
  destruct (Z.leb_spec head 0) as [Hle|_]; [lia|].
  rewrite window_end_spec in Hserv. change (0 + 100) with 100 in Hserv.
  split; [|split].
  - cbn [service set_console set_service set_pollingInterval isRunning].
    by rewrite Hserv, Hs.
  - unfold cursor. cbn [service set_console set_service set_pollingInterval lastProcessedBlock].
    by rewrite Hserv.
  - exists rest. rewrite Epoll. cbn [snd rpcTrace set_console set_service].
    rewrite Htrace. cbn [sent rpcTrace set_rpcTrace]. rewrite Hpre. reflexivity.
Qed.

(** X26 on a node at head 5000. *)
Lemma catching_up_from_block_1 :
  cursor (snd (run [StartRequest unreachable unreachable;
                    StartRequest unreachable (node (Ok 5000) [] [] healthy)] fresh)) = 100 /\
  exists rest,
    rpcTrace (snd (run [StartRequest unreachable unreachable;
                        StartRequest unreachable (node (Ok 5000) [] [] healthy)] fresh)) =
      (CallGetBlockNumber :: CallGetBlockNumber :: CallQueryFilter FTransfer 1 100 :: rest).
Proof.
  destruct (start_after_a_failed_head_query_begins_at_block_1
              unreachable unreachable unreachable (node (Ok 5000) [] [] healthy) "timeout" 5000)
    as (_ & _ & _ & _ & Hcur & Htrace); try reflexivity.
  split; [exact Hcur | exact Htrace].
Defined.

End EventSyncWindowFacts.
